(** * Adaptive rendering core of LACS-WORLD-3: a shallow embedding

    The development follows the TypeScript sources of the rendering
    resource-management core: device classification ([PerfFlags]), the
    tier budget table of the knowledge base, index-buffer decimation
    ([simplifyGeometryForMobile]), renderer creation with its fallback
    ([makeRenderer]), the context-loss handlers, the shadow frustum
    fitting and the frame governor of the specification, and the
    validation agent.

    Part I holds the models, one module per source file.  Part II holds
    the statements proved about them. *)

From Stdlib Require Import ZArith QArith Qround List String Ascii Bool Lia.
From Stdlib Require Import Sorted.
From stdpp Require Import base gmap strings list.
Import ListNotations.

Local Open Scope Z_scope.

(* ===================================================================== *)
(** * Part I: models                                                      *)
(* ===================================================================== *)

(** ** JavaScript regular expressions of the shape [/a|b|c/i]

    [RegExp.prototype.test] with an alternation of literal words and the
    [i] flag succeeds when one of the words occurs somewhere in the
    subject, letters compared without case.  Without the [u] flag a
    non-ASCII character never folds onto an ASCII letter, so comparing
    bytes after lowering [A-Z] is exact on UTF-8 text. *)
Module JsRegex.

Definition isUpper (c : ascii) : bool :=
  (65 <=? nat_of_ascii c)%nat && (nat_of_ascii c <=? 90)%nat.

Definition lowerChar (c : ascii) : ascii :=
  if isUpper c then ascii_of_nat (nat_of_ascii c + 32) else c.

Fixpoint lower (s : string) : string :=
  match s with
  | EmptyString => EmptyString
  | String c s' => String (lowerChar c) (lower s')
  end.

(** [p] occurs at the very start of [s], case ignored. *)
Fixpoint prefixCI (p s : string) : bool :=
  match p, s with
  | EmptyString, _ => true
  | String _ _, EmptyString => false
  | String a p', String b s' =>
      Ascii.eqb (lowerChar a) (lowerChar b) && prefixCI p' s'
  end.

(** [p] occurs somewhere in [s], case ignored. *)
Fixpoint containsCI (p s : string) : bool :=
  prefixCI p s ||
  match s with
  | EmptyString => false
  | String _ s' => containsCI p s'
  end.

(** [/w1|w2|.../i.test(s)] *)
Definition testAnyCI (words : list string) (s : string) : bool :=
  existsb (fun w => containsCI w s) words.

(** [s.startsWith(p)] and [s.includes(p)], both case sensitive. *)
Fixpoint startsWith (p s : string) : bool :=
  match p, s with
  | EmptyString, _ => true
  | String _ _, EmptyString => false
  | String a p', String b s' => Ascii.eqb a b && startsWith p' s'
  end.

Fixpoint includes (p s : string) : bool :=
  startsWith p s ||
  match s with
  | EmptyString => false
  | String _ s' => includes p s'
  end.

End JsRegex.

(** ** perf/PerfFlags.ts: one-shot device classification *)
Module PerfFlags.

(** [export type Tier = "mobileLow" | "desktopHigh"] *)
Inductive Tier : Type :=
| mobileLow
| desktopHigh.

Definition Tier_eqb (a b : Tier) : bool :=
  match a, b with
  | mobileLow, mobileLow | desktopHigh, desktopHigh => true
  | _, _ => false
  end.

(** A value of [navigator.deviceMemory].  The Device Memory API reports
    the amount of RAM in GiB rounded to a power of two and clamped from
    below at 0.25, so a reported value is a positive rational
    [memNum / memDen]; a browser without the API reports nothing. *)
Record DeviceMemory : Type := mkDeviceMemory {
  memNum : positive;
  memDen : positive
}.

Definition gib (m : DeviceMemory) : Q := Zpos (memNum m) # memDen m.

(** The signals the module reads from [navigator] and [window]. *)
Record Signals : Type := mkSignals {
  userAgent : string;
  ontouchstart : bool;          (* ['ontouchstart' in window] *)
  maxTouchPoints : Z;           (* [navigator.maxTouchPoints] *)
  innerWidth : Z;
  innerHeight : Z;
  deviceMemory : option DeviceMemory
}.

Definition mobileWords : list string :=
  ["Mobi"; "Android"; "iPhone"; "iPad"; "iPod"]%string.

Definition iosWords : list string :=
  ["iPhone"; "iPad"; "iPod"]%string.

(** JavaScript truthiness of a number: zero is falsy. *)
Definition truthy (q : Q) : bool := negb (Qeq_bool q 0).

Definition isMobileUA (s : Signals) : bool :=
  JsRegex.testAnyCI mobileWords (userAgent s).

Definition isIOS (s : Signals) : bool :=
  JsRegex.testAnyCI iosWords (userAgent s).

Definition isTouchDevice (s : Signals) : bool :=
  ontouchstart s || (0 <? maxTouchPoints s).

Definition isNarrowViewport (s : Signals) : bool := innerWidth s <? 768.

(** [deviceMemory ? deviceMemory <= 4 : false] *)
Definition hasLowMemory (s : Signals) : bool :=
  match deviceMemory s with
  | None => false
  | Some m => if truthy (gib m) then Qle_bool (gib m) 4 else false
  end.

Definition isSimulatorSize (s : Signals) : bool :=
  (innerWidth s <? 600) || (innerHeight s <? 600).

Definition isMobile (s : Signals) : bool :=
  isMobileUA s || (isTouchDevice s && isNarrowViewport s)
  || hasLowMemory s || isSimulatorSize s.

Definition tier (s : Signals) : Tier :=
  if isMobile s then mobileLow else desktopHigh.

(** The object the module exports. *)
Record Flags : Type := mkFlags {
  f_tier : Tier;
  f_isMobile : bool;
  f_isIOS : bool;
  dynamicShadows : bool;
  ssr : bool;
  ssgi : bool;
  ao : bool;
  bloom : bool;
  anisotropy : Z;
  maxTextureSize : Z;
  useLogDepth : bool;
  originRebase : bool
}.

Definition flagsOf (t : Tier) (mobile ios : bool) : Flags :=
  {| f_tier := t;
     f_isMobile := mobile;
     f_isIOS := ios;
     dynamicShadows := Tier_eqb t desktopHigh;
     ssr := false;
     ssgi := Tier_eqb t desktopHigh;
     ao := Tier_eqb t desktopHigh;
     bloom := Tier_eqb t desktopHigh;
     anisotropy := if Tier_eqb t desktopHigh then 8 else 2;
     maxTextureSize := if Tier_eqb t desktopHigh then 4096 else 1024;
     useLogDepth := false;
     originRebase := false |}.

Definition PerfFlags (s : Signals) : Flags :=
  flagsOf (tier s) (isMobile s) (isIOS s).

(** The four signals in words, for the statements of Part II. *)

(** The user agent holds one of the handheld words, case ignored. *)
Definition handheldUA (ua : string) : Prop :=
  exists w pre post,
    In w mobileWords /\
    JsRegex.lower ua = (pre ++ JsRegex.lower w ++ post)%string.

Definition touchCapable (s : Signals) : Prop :=
  ontouchstart s = true \/ 0 < maxTouchPoints s.

(** A device memory is reported and is at most 4 GiB. *)
Definition lowMemoryReported (s : Signals) : Prop :=
  exists m, deviceMemory s = Some m /\ (gib m <= 4)%Q.

Definition simulatorSized (s : Signals) : Prop :=
  innerWidth s < 600 \/ innerHeight s < 600.

Definition constrainedSignals (s : Signals) : Prop :=
  handheldUA (userAgent s)
  \/ (touchCapable s /\ innerWidth s < 768)
  \/ lowMemoryReported s
  \/ simulatorSized s.

(** Two devices: a phone, and a desktop with 16 GiB. *)
Definition phoneSignals : Signals :=
  {| userAgent := "Mozilla/5.0 (iPhone; CPU iPhone OS 16_0 like Mac OS X)";
     ontouchstart := true; maxTouchPoints := 5;
     innerWidth := 375; innerHeight := 667;
     deviceMemory := None |}.

Definition desktopSignals : Signals :=
  {| userAgent := "Mozilla/5.0 (X11; Linux x86_64)";
     ontouchstart := false; maxTouchPoints := 0;
     innerWidth := 1920; innerHeight := 1080;
     deviceMemory := Some (mkDeviceMemory 16 1) |}.

End PerfFlags.

(** ** agent/knowledge-base.mjs: the tier budget table *)
Module KnowledgeBase.

(** The keys of [performanceTiers]. *)
Inductive QualityTier : Type :=
| LOW
| BALANCED
| HIGH.

(** [postProcessing] is [false], ['minimal'] or [true]. *)
Inductive PostProcessing : Type :=
| PostOff
| PostMinimal
| PostOn.

Record TierConfig : Type := mkTierConfig {
  pixelRatio : Q;
  shadowMapSize : Z;
  maxTextureSize : Z;
  anisotropy : Z;
  postProcessing : PostProcessing;
  dynamicShadows : bool;
  ao : bool;
  bloom : bool;
  ssgi : bool;
  ssr : bool;
  maxCanvasPixels : Z
}.

Definition performanceTiers (t : QualityTier) : TierConfig :=
  match t with
  | LOW =>
      {| pixelRatio := 1; shadowMapSize := 1024; maxTextureSize := 1024;
         anisotropy := 1; postProcessing := PostOff;
         dynamicShadows := false; ao := false; bloom := false;
         ssgi := false; ssr := false; maxCanvasPixels := 900000 |}
  | BALANCED =>
      {| pixelRatio := 13 # 10; shadowMapSize := 1024; maxTextureSize := 2048;
         anisotropy := 2; postProcessing := PostMinimal;
         dynamicShadows := false; ao := false; bloom := true;
         ssgi := false; ssr := false; maxCanvasPixels := 1200000 |}
  | HIGH =>
      {| pixelRatio := 2; shadowMapSize := 2048; maxTextureSize := 4096;
         anisotropy := 4; postProcessing := PostOn;
         dynamicShadows := true; ao := true; bloom := true;
         ssgi := false; ssr := false; maxCanvasPixels := 3000000 |}
  end.

(** The fields of a configuration that price a resource. *)
Inductive CostField : Type :=
| PixelRatio
| ShadowMapSize
| MaxTextureSize
| Anisotropy
| MaxCanvasPixels.

Definition cost (f : CostField) (c : TierConfig) : Q :=
  match f with
  | PixelRatio => pixelRatio c
  | ShadowMapSize => inject_Z (shadowMapSize c)
  | MaxTextureSize => inject_Z (maxTextureSize c)
  | Anisotropy => inject_Z (anisotropy c)
  | MaxCanvasPixels => inject_Z (maxCanvasPixels c)
  end.

(** [fpsTargets.frameGovernor] *)
Definition jankThreshold : Z := 50.   (* ms *)
Definition jankTolerance : Z := 8.    (* frames *)

Inductive DegradationStage : Type :=
| stage1   (* 'Disable bloom' *)
| stage2   (* 'Reduce texture quality' *)
| stage3.  (* 'Simplify geometry' *)

Definition degradationStages : list DegradationStage :=
  [stage1; stage2; stage3].

(** A reading for Part II, not a function of the source: how the two
    tiers of [PerfFlags] sit among the keys of the table, whose [LOW]
    trigger is [deviceMemory <= 4GB] and whose [HIGH] trigger is
    [desktop]. *)
Definition qualityOf (t : PerfFlags.Tier) : QualityTier :=
  match t with
  | PerfFlags.mobileLow => LOW
  | PerfFlags.desktopHigh => HIGH
  end.

End KnowledgeBase.

(** ** utils/simplifyGeometry.ts and its caller in SingleEnvironmentMesh

    Geometries are JavaScript objects: the model keeps them in a store
    indexed by reference, so that returning the argument, cloning it and
    writing to the clone are different things. *)
Module SimplifyGeometry.

(** What the code takes from three.js.  Vertex data is opaque here; the
    three recomputations are functions of the data they read. *)
Class ThreeOps : Type := {
  Vec3 : Type;
  Box3 : Type;
  Sphere : Type;
  (** normals computed from the positions and the index, as
      [computeVertexNormals] does *)
  vertexNormals : list Vec3 -> option (list Z) -> list Vec3;
  boundingSphereOf : list Vec3 -> Sphere;
  boundingBoxOf : list Vec3 -> Box3
}.

(** References to objects of the store. *)
Abbreviation loc := positive (only parsing).

(** The values [step] and the loop counter range over. *)
Inductive JsNum : Type :=
| Num (z : Z)
| Infinity
| NaN.

(** [Math.floor(indexCount * targetRatio)].  The source multiplies two
    doubles and rounds the product to a double before it takes the
    floor; the model takes the floor of the exact product of the index
    count and a rational ratio.  The two agree at the ratios of
    [exactRatio] below, among them the two the program passes.
    Elsewhere they can differ: 18 times the double nearest to 1/3 is
    rounded to 6, while the exact product lies below 6; and a product
    that overflows gives the source an infinite target and a step of 0,
    which no rational ratio gives the model.  The statements of Part II
    on what the decimation returns take their ratio from [exactRatio]. *)
Definition targetIndexCountOf (indexCount : Z) (targetRatio : Q) : Z :=
  Qfloor (inject_Z indexCount * targetRatio).

(** [Math.ceil(indexCount / targetIndexCount)]: a division by zero gives
    [Infinity], and [0 / 0] gives [NaN].  Both arguments are integers
    below 2^53, and the double their quotient is rounded to has the
    ceiling of the exact quotient: a quotient that is no integer lies
    at least [1 / targetIndexCount] away from the next one, and the
    rounding moves it by less than that. *)
Definition stepOf (indexCount targetIndexCount : Z) : JsNum :=
  if targetIndexCount =? 0 then
    if indexCount =? 0 then NaN else Infinity
  else Num (Qceiling (inject_Z indexCount / inject_Z targetIndexCount)).

(** [array[i]] on a typed array: [undefined] outside its range. *)
Definition arrayAt (array : list Z) (i : Z) : option Z :=
  if i <? 0 then None else nth_error array (Z.to_nat i).

(** [for (let i = 0; i < indexCount; i += step * 3) { if (i + 2 <
    indexCount) newIndices.push(...) }], from counter [i] on.  Each turn
    of the loop spends one unit of [fuel]; [None] is a loop that is
    still running when the fuel is gone. *)
Fixpoint decimateLoop (fuel : nat) (array : list Z) (indexCount : Z)
    (step : JsNum) (i : Z) (newIndices : list (option Z))
    : option (list (option Z)) :=
  if i <? indexCount then
    match fuel with
    | O => None
    | S fuel' =>
        let pushed :=
          if i + 2 <? indexCount
          then newIndices ++ [arrayAt array i; arrayAt array (i + 1);
                              arrayAt array (i + 2)]
          else newIndices in
        match step with
        | Num s => decimateLoop fuel' array indexCount step (i + s * 3) pushed
        | Infinity | NaN => Some pushed  (* [i < indexCount] is false next *)
        end
    end
  else Some newIndices.

(** [setIndex(number[])] stores the array in an unsigned typed array,
    where an [undefined] entry reads back as 0. *)
Definition toTypedArray (a : list (option Z)) : list Z :=
  map (fun x => match x with Some z => z | None => 0 end) a.

(** Triangles the loop pushes from counter [i] on when [step] is the
    integer [s]: one for each [i + 3 s k] that leaves room for a whole
    triangle. *)
Definition kept (n s i : Z) : Z :=
  if i + 2 <? n then (n - 3 - i) / (3 * s) + 1 else 0.

Section Geometry.
Context {ops : ThreeOps}.

(** A [THREE.BufferGeometry] object holds references: to the position
    attribute, to the normal attribute if it has one, to the index
    ([null] for a non-indexed geometry), and to its cached bounding box
    and sphere. *)
Record BufferGeometry : Type := mkGeometry {
  position : loc;
  normal : option loc;
  index : option loc;
  boundingBox : option loc;
  boundingSphere : option loc
}.

(** The store, one map per kind of object: geometries, vertex
    attributes (one entry per vertex), index arrays, boxes, spheres. *)
Record Heap : Type := mkHeap {
  geometries : gmap positive BufferGeometry;
  attributes : gmap positive (list Vec3);
  indices : gmap positive (list Z);
  boxes : gmap positive Box3;
  spheres : gmap positive Sphere
}.

Definition setGeometries (m : gmap positive BufferGeometry) (h : Heap) : Heap :=
  mkHeap m (attributes h) (indices h) (boxes h) (spheres h).

Definition setAttributes (m : gmap positive (list Vec3)) (h : Heap) : Heap :=
  mkHeap (geometries h) m (indices h) (boxes h) (spheres h).

Definition setIndices (m : gmap positive (list Z)) (h : Heap) : Heap :=
  mkHeap (geometries h) (attributes h) m (boxes h) (spheres h).

Definition setBoxes (m : gmap positive Box3) (h : Heap) : Heap :=
  mkHeap (geometries h) (attributes h) (indices h) m (spheres h).

Definition setSpheres (m : gmap positive Sphere) (h : Heap) : Heap :=
  mkHeap (geometries h) (attributes h) (indices h) (boxes h) m.

(** Allocation: a new object at a reference not in use. *)
Definition newGeometry (g : BufferGeometry) (h : Heap) : loc * Heap :=
  let l := fresh (dom (geometries h)) in
  (l, setGeometries (<[l := g]> (geometries h)) h).

Definition newAttribute (a : list Vec3) (h : Heap) : loc * Heap :=
  let l := fresh (dom (attributes h)) in
  (l, setAttributes (<[l := a]> (attributes h)) h).

Definition newIndex (a : list Z) (h : Heap) : loc * Heap :=
  let l := fresh (dom (indices h)) in
  (l, setIndices (<[l := a]> (indices h)) h).

Definition newBox (b : Box3) (h : Heap) : loc * Heap :=
  let l := fresh (dom (boxes h)) in
  (l, setBoxes (<[l := b]> (boxes h)) h).

Definition newSphere (s : Sphere) (h : Heap) : loc * Heap :=
  let l := fresh (dom (spheres h)) in
  (l, setSpheres (<[l := s]> (spheres h)) h).

(** Reading through an optional reference. *)
Definition readOpt {A : Type} (m : gmap positive A) (o : option loc)
    : option (option A) :=
  match o with
  | None => Some None
  | Some l =>
      match m !! l with
      | Some a => Some (Some a)
      | None => None
      end
  end.

(** Copying the object behind an optional reference. *)
Definition cloneOpt {A : Type} (get : Heap -> gmap positive A)
    (new : A -> Heap -> loc * Heap) (o : option loc) (h : Heap)
    : option (option loc * Heap) :=
  match o with
  | None => Some (None, h)
  | Some l =>
      match get h !! l with
      | Some a => let (l', h') := new a h in Some (Some l', h')
      | None => None
      end
  end.

(** [geometry.clone()]: a new geometry object; three.js copies the
    index, every attribute and both bounding volumes into objects of
    their own. *)
Definition clone (l : loc) (h : Heap) : option (loc * Heap) :=
  match geometries h !! l with
  | None => None
  | Some g =>
      match attributes h !! position g with
      | None => None
      | Some a =>
          let (p', h1) := newAttribute a h in
          match cloneOpt attributes newAttribute (normal g) h1 with
          | None => None
          | Some (n', h2) =>
              match cloneOpt indices newIndex (index g) h2 with
              | None => None
              | Some (i', h3) =>
                  match cloneOpt boxes newBox (boundingBox g) h3 with
                  | None => None
                  | Some (b', h4) =>
                      match cloneOpt spheres newSphere (boundingSphere g) h4 with
                      | None => None
                      | Some (s', h5) =>
                          Some (newGeometry (mkGeometry p' n' i' b' s') h5)
                      end
                  end
              end
          end
      end
  end.

(** [setIndex(newIndices)]: the geometry gets a new index attribute. *)
Definition setIndex (l : loc) (newIndices : list (option Z)) (h : Heap)
    : option Heap :=
  match geometries h !! l with
  | None => None
  | Some g =>
      let (li, h1) := newIndex (toTypedArray newIndices) h in
      Some (setGeometries
              (<[l := mkGeometry (position g) (normal g) (Some li)
                        (boundingBox g) (boundingSphere g)]> (geometries h1))
              h1)
  end.

(** [computeVertexNormals()]: an existing normal attribute is reset and
    refilled where it is; otherwise the geometry gets a new one. *)
Definition computeVertexNormals (l : loc) (h : Heap) : option Heap :=
  match geometries h !! l with
  | None => None
  | Some g =>
      match attributes h !! position g, readOpt (indices h) (index g) with
      | Some p, Some i =>
          let ns := vertexNormals p i in
          match normal g with
          | Some ln => Some (setAttributes (<[ln := ns]> (attributes h)) h)
          | None =>
              let (ln, h1) := newAttribute ns h in
              Some (setGeometries
                      (<[l := mkGeometry (position g) (Some ln) (index g)
                                (boundingBox g) (boundingSphere g)]>
                         (geometries h1))
                      h1)
          end
      | _, _ => None
      end
  end.

(** [computeBoundingSphere()]: an existing sphere is refilled where it
    is; otherwise the geometry gets a new one. *)
Definition computeBoundingSphere (l : loc) (h : Heap) : option Heap :=
  match geometries h !! l with
  | None => None
  | Some g =>
      match attributes h !! position g with
      | None => None
      | Some p =>
          let s := boundingSphereOf p in
          match boundingSphere g with
          | Some ls => Some (setSpheres (<[ls := s]> (spheres h)) h)
          | None =>
              let (ls, h1) := newSphere s h in
              Some (setGeometries
                      (<[l := mkGeometry (position g) (normal g) (index g)
                                (boundingBox g) (Some ls)]> (geometries h1))
                      h1)
          end
      end
  end.

(** [computeBoundingBox()], likewise. *)
Definition computeBoundingBox (l : loc) (h : Heap) : option Heap :=
  match geometries h !! l with
  | None => None
  | Some g =>
      match attributes h !! position g with
      | None => None
      | Some p =>
          let b := boundingBoxOf p in
          match boundingBox g with
          | Some lb => Some (setBoxes (<[lb := b]> (boxes h)) h)
          | None =>
              let (lb, h1) := newBox b h in
              Some (setGeometries
                      (<[l := mkGeometry (position g) (normal g) (index g)
                                (Some lb) (boundingSphere g)]> (geometries h1))
                      h1)
          end
      end
  end.

(** [if (simplified.index) { ... simplified.setIndex(newIndices) }] *)
Definition decimateIndex (fuel : nat) (simplified : loc) (targetRatio : Q)
    (h : Heap) : option Heap :=
  match geometries h !! simplified with
  | None => None
  | Some s =>
      match index s with
      | None => Some h
      | Some li =>
          match indices h !! li with
          | None => None
          | Some array =>
              let indexCount := Z.of_nat (length array) in
              let targetIndexCount := targetIndexCountOf indexCount targetRatio in
              let step := stepOf indexCount targetIndexCount in
              match decimateLoop fuel array indexCount step 0 [] with
              | None => None
              | Some newIndices => setIndex simplified newIndices h
              end
          end
      end
  end.

(** [simplifyGeometryForMobile(geometry, targetRatio)]: the reference it
    returns and the store it leaves.  [None] stands for a loop that does
    not end within [fuel] turns, and for a reference that leads to no
    object of the store. *)
Definition simplifyGeometryForMobile (fuel : nat) (geometry : loc)
    (targetRatio : Q) (h : Heap) : option (loc * Heap) :=
  match geometries h !! geometry with
  | None => None
  | Some g =>
      match attributes h !! position g with
      | None => None
      | Some p =>
          let vertexCount := Z.of_nat (length p) in
          if vertexCount <? 10000 then Some (geometry, h)
          else
            match clone geometry h with
            | None => None
            | Some (simplified, h1) =>
                match decimateIndex fuel simplified targetRatio h1 with
                | None => None
                | Some h2 =>
                    match computeVertexNormals simplified h2 with
                    | None => None
                    | Some h3 =>
                        match computeBoundingSphere simplified h3 with
                        | None => None
                        | Some h4 =>
                            match computeBoundingBox simplified h4 with
                            | None => None
                            | Some h5 => Some (simplified, h5)
                            end
                        end
                    end
                end
            end
      end
  end.

(** The default argument [targetRatio = 0.5]. *)
Definition defaultTargetRatio : Q := 1 # 2.

(** A [THREE.Mesh], as far as the decimation reads it. *)
Record Mesh : Type := mkMesh {
  geometry : option loc
}.

(** [shouldSimplifyMesh(mesh, isMobile)] *)
Definition shouldSimplifyMesh (mesh : Mesh) (isMobile : bool) (h : Heap) : bool :=
  if negb isMobile then false
  else
    match geometry mesh with
    | None => false
    | Some l =>
        match geometries h !! l with
        | None => false
        | Some g =>
            match attributes h !! position g with
            | None => false
            | Some p => 50000 <? Z.of_nat (length p)
            end
        end
    end.

(** The ratio the scene loader passes, 0.3; see [exactRatio] for what
    the double nearest to 0.3 does to the product. *)
Definition loaderRatio : Q := 3 # 10.

(** The ratios at which [targetIndexCountOf] is the arithmetic of the
    source, for every index count a typed array can have (below 2^32):
    the 0.3 of the scene loader, the default 0.5, and 1.  A product
    with 0.5 or 1 is a double, so nothing is rounded.  The double
    nearest to 0.3 is smaller than 3/10 by less than 2^-54 of it.  So
    when [3 n / 10] is an integer the product of [n] and that double
    lies below it by less than half the distance to the next double,
    and is rounded to it; and when it is not, it is at least 1/10 away
    from the integers on either side, and the product and its rounding
    stay between the same two. *)
Definition exactRatio (r : Q) : Prop :=
  r = loaderRatio \/ r = defaultTargetRatio \/ r = 1%Q.

(** The decimation step of the traversal in SingleEnvironmentMesh:
    [if (shouldSimplifyMesh(mesh, isMobile)) mesh.geometry =
    simplifyGeometryForMobile(mesh.geometry, 0.3)]. *)
Definition simplifyMesh (fuel : nat) (isMobile : bool) (mesh : Mesh) (h : Heap)
    : option (Mesh * Heap) :=
  if shouldSimplifyMesh mesh isMobile h then
    match geometry mesh with
    | None => None
    | Some l =>
        match simplifyGeometryForMobile fuel l loaderRatio h with
        | None => None
        | Some (l', h') => Some ({| geometry := Some l' |}, h')
        end
    end
  else Some (mesh, h).

(** *** What a geometry holds, by value *)

Record Snapshot : Type := mkSnapshot {
  positions : list Vec3;
  normals : option (list Vec3);
  indexArray : option (list Z);
  box : option Box3;
  sphere : option Sphere
}.

(** The content of geometry [g] in store [h]; [None] when one of its
    references leads nowhere. *)
Definition view (h : Heap) (g : BufferGeometry) : option Snapshot :=
  match attributes h !! position g,
        readOpt (attributes h) (normal g),
        readOpt (indices h) (index g),
        readOpt (boxes h) (boundingBox g),
        readOpt (spheres h) (boundingSphere g) with
  | Some p, Some n, Some i, Some b, Some s => Some (mkSnapshot p n i b s)
  | _, _, _, _, _ => None
  end.

Definition viewAt (h : Heap) (l : loc) : option Snapshot :=
  match geometries h !! l with
  | Some g => view h g
  | None => None
  end.

(** [geometry.attributes.position.count] *)
Definition vertexCount (v : Snapshot) : Z := Z.of_nat (length (positions v)).

(** The effect of the four methods on the content. *)
Definition withIndex (a : list Z) (v : Snapshot) : Snapshot :=
  mkSnapshot (positions v) (normals v) (Some a) (box v) (sphere v).

Definition withNormals (v : Snapshot) : Snapshot :=
  mkSnapshot (positions v)
    (Some (vertexNormals (positions v) (indexArray v)))
    (indexArray v) (box v) (sphere v).

Definition withSphere (v : Snapshot) : Snapshot :=
  mkSnapshot (positions v) (normals v) (indexArray v) (box v)
    (Some (boundingSphereOf (positions v))).

Definition withBox (v : Snapshot) : Snapshot :=
  mkSnapshot (positions v) (normals v) (indexArray v)
    (Some (boundingBoxOf (positions v))) (sphere v).

(** The three recomputations in the order the function calls them. *)
Definition finished (v : Snapshot) : Snapshot :=
  withBox (withSphere (withNormals v)).

(** Every object of [h] is in [h'], unchanged. *)
Definition extends (h h' : Heap) : Prop :=
  geometries h ⊆ geometries h' /\
  attributes h ⊆ attributes h' /\
  indices h ⊆ indices h' /\
  boxes h ⊆ boxes h' /\
  spheres h ⊆ spheres h'.

(** Geometry [g] and everything it refers to lie outside store [h]. *)
Definition outside (h : Heap) (l : loc) (g : BufferGeometry) : Prop :=
  geometries h !! l = None /\
  attributes h !! position g = None /\
  (forall n, normal g = Some n -> attributes h !! n = None) /\
  (forall i, index g = Some i -> indices h !! i = None) /\
  (forall b, boundingBox g = Some b -> boxes h !! b = None) /\
  (forall s, boundingSphere g = Some s -> spheres h !! s = None).

(** Turns of the loop that always suffice for a geometry. *)
Definition fuelFor (v : Snapshot) : nat :=
  match indexArray v with
  | Some a => S (length a)
  | None => O
  end.


(** Number of entries of the index, when there is one. *)
Definition indexCount (v : Snapshot) : option Z :=
  match indexArray v with
  | Some a => Some (Z.of_nat (length a))
  | None => None
  end.

(** The index, if any, is a triangle list. *)
Definition triangleList (v : Snapshot) : Prop :=
  match indexCount v with
  | Some n => (3 | n)
  | None => True
  end.

(** [v'] has an index exactly when [v] has one, and not a longer one. *)
Definition indexCountLe (v' v : Snapshot) : Prop :=
  match indexCount v', indexCount v with
  | Some n', Some n => n' <= n
  | None, None => True
  | _, _ => False
  end.

(** Normals and both bounding volumes are the ones computed from the
    geometry's own positions and index. *)
Definition recomputed (v : Snapshot) : Prop :=
  normals v = Some (vertexNormals (positions v) (indexArray v)) /\
  sphere v = Some (boundingSphereOf (positions v)) /\
  box v = Some (boundingBoxOf (positions v)).

(** In store [hc], reference [s] holds a geometry of content [v] that
    was allocated, with all it refers to, after store [h]; position and
    normals are different attributes. *)
Definition cloneState (h hc : Heap) (s : loc) (v : Snapshot) : Prop :=
  exists g,
    geometries hc !! s = Some g /\
    view hc g = Some v /\
    extends h hc /\
    outside h s g /\
    normal g <> Some (position g).

End Geometry.

(** A concrete scene: vertex data without content, and a mesh of 60,000
    vertices and 40,000 triangles, with normals, held at reference 1. *)
Definition plainOps : ThreeOps :=
  {| Vec3 := unit; Box3 := unit; Sphere := unit;
     vertexNormals := fun p _ => p;
     boundingSphereOf := fun _ => tt;
     boundingBoxOf := fun _ => tt |}.

Definition largeMesh : BufferGeometry :=
  mkGeometry
    1%positive            (* position *)
    (Some 2%positive)     (* normal *)
    (Some 1%positive)     (* index *)
    None None.            (* bounding box and sphere *)

Definition largeScene : Heap (ops := plainOps) :=
  mkHeap (ops := plainOps)
    {[ 1%positive := largeMesh ]}
    {[ 1%positive := repeat tt (Z.to_nat 60000);
       2%positive := repeat tt (Z.to_nat 60000) ]}
    {[ 1%positive := repeat 0 (Z.to_nat 120000) ]}
    ∅ ∅.

Definition largeContent : Snapshot (ops := plainOps) :=
  mkSnapshot (ops := plainOps)
    (repeat tt (Z.to_nat 60000))
    (Some (repeat tt (Z.to_nat 60000)))
    (Some (repeat 0 (Z.to_nat 120000)))
    None None.



End SimplifyGeometry.

(** ** The renderer factory: [makeRenderer] and what it installs

    The factory talks to the platform.  The model threads a [World]
    (local storage and how the browser answers its use, the children of
    [document.body], the listeners of the canvas, and the log of calls
    made, oldest first) through every call, and a call either returns
    or throws.  The calls that can fail do so as the [Platform] and the
    [World] say, inside a [try] block or outside one: the steps of the
    preferred backend, the constructor of the standard renderer, and
    the methods of [localStorage]. *)
Module Renderer.

Inductive RendererType : Type :=
| webgpu
| webgl2.

Inductive PowerPreference : Type :=
| lowPower
| highPerformance.

(** The two closures [createWebGLRenderer] registers on the canvas. *)
Inductive Listener : Type :=
| OnContextLost
| OnContextRestored.

(** The [div] the loss handler builds: fixed, centred, with the text
    "Graphics Error" and a button that reloads the page. *)
Inductive Element : Type :=
| GraphicsErrorBanner.

(** The object [createWebGLRenderer] hands to [new THREE.WebGLRenderer],
    but for the canvas. *)
Record WebGLOptions : Type := mkOptions {
  antialias : bool;
  powerPreference : PowerPreference;
  logarithmicDepthBuffer : bool;
  preserveDrawingBuffer : bool;
  failIfMajorPerformanceCaveat : bool
}.

(** Calls on the platform, as they are logged: a call is logged when
    the program reaches it, whether it then returns or throws. *)
Inductive Event : Type :=
| ConsoleLog
| ConsoleWarn
| ConsoleError
| ImportWebGPURenderer          (* [await import(...WebGPURenderer.js)] *)
| ConstructWebGPU               (* [new WebGPURenderer(...)] *)
| InitWebGPU                    (* [await renderer.init()] *)
| ConfigureWebGPU               (* colour space, tone mapping, pixel ratio, size *)
| SmokeRender                   (* [renderer.setSize(1, 1); renderer.render(scene, camera)] *)
| DisposeWebGPU                 (* [renderer.dispose()] *)
| ConstructWebGL (o : WebGLOptions) (* [new THREE.WebGLRenderer(o)] *)
| AddEventListener (type : string) (l : Listener)
| PreventDefault                (* [e.preventDefault()] *)
| SetItem (key value : string)  (* [localStorage.setItem] *)
| RemoveItem (key : string)     (* [localStorage.removeItem] *)
| CreateElement                 (* [document.createElement('div')] *)
| AppendChild (e : Element)     (* [document.body.appendChild] *)
| Reload.                       (* [location.reload()] *)

Definition isPreferredBackendCall (e : Event) : bool :=
  match e with
  | ImportWebGPURenderer | ConstructWebGPU | InitWebGPU
  | ConfigureWebGPU | SmokeRender => true
  | _ => false
  end.

(** What the page finds: read-only during a call. *)
Record Platform : Type := mkPlatform {
  userAgent : string;
  hasGPU : bool;                 (* [!!navigator.gpu] *)
  devicePixelRatio : Q;
  innerWidth : Z;
  innerHeight : Z;
  (* how the preferred backend behaves when it is tried *)
  importResolves : bool;
  constructs : bool;
  initResolves : bool;
  configures : bool;
  hasBackendDevice : bool;       (* [renderer.backend && renderer.backend.device] *)
  rendersTestFrame : bool;
  disposes : bool;
  (* whether [new THREE.WebGLRenderer(o)] returns, given the calls made
     so far: three.js throws when the canvas yields no WebGL context,
     as it may with [failIfMajorPerformanceCaveat], or on a canvas that
     has already given out a context of another kind *)
  constructsWebGL : WebGLOptions -> list Event -> bool
}.

(** How the browser answers the page's use of [localStorage]. *)
Inductive Storage : Type :=
| Writable          (* reads and writes go through *)
| QuotaExceeded     (* [setItem] throws [QuotaExceededError]: no room is
                       left, or none is given, as in a private window of
                       some browsers; reads and removals go through *)
| AccessDenied.     (* reading [window.localStorage] throws
                       [SecurityError]: storage is blocked for the page,
                       so that no method of it is ever reached *)

Record World : Type := mkWorld {
  storage : Storage;
  localStorage : gmap string string;
  bodyChildren : list Element;
  canvasListeners : list (string * Listener);
  defaultPrevented : bool;       (* of the event being dispatched *)
  reloads : nat;
  uncaught : nat;                (* exceptions that left a listener *)
  log : list Event
}.

(** The renderer as [createWebGLRenderer] leaves it. *)
Record WebGLRenderer : Type := mkWebGL {
  options : WebGLOptions;        (* what it was constructed with *)
  shadowMapEnabled : bool;
  pixelRatio : Q;
  size : Z * Z
}.

Inductive RendererObject : Type :=
| WebGPUObject
| WebGLObject (r : WebGLRenderer).

Record RendererResult : Type := mkResult {
  renderer : RendererObject;
  type : RendererType
}.

(** *** Calls that return or throw, on a world *)

Inductive Outcome (A : Type) : Type :=
| Returned (a : A)
| Thrown.
Arguments Returned {A} a.
Arguments Thrown {A}.

Definition M (A : Type) : Type := World -> Outcome A * World.

Definition ret {A} (a : A) : M A := fun w => (Returned a, w).

Definition bind {A B} (m : M A) (k : A -> M B) : M B :=
  fun w =>
    match m w with
    | (Returned a, w') => k a w'
    | (Thrown, w') => (Thrown, w')
    end.

Definition throw {A} : M A := fun w => (Thrown, w).

(** [try { m } catch { handler }] *)
Definition tryCatch {A} (m handler : M A) : M A :=
  fun w =>
    match m w with
    | (Returned a, w') => (Returned a, w')
    | (Thrown, w') => handler w'
    end.

Notation "'let*' x ':=' m 'in' k" := (bind m (fun x => k))
  (at level 10, x name, m at level 100, k at level 200).
Notation "m ';;' k" := (bind m (fun _ => k))
  (at level 100, k at level 200, right associativity).

Definition emit (e : Event) : M unit :=
  fun w =>
    (Returned tt,
     {| storage := storage w;
        localStorage := localStorage w; bodyChildren := bodyChildren w;
        canvasListeners := canvasListeners w;
        defaultPrevented := defaultPrevented w;
        reloads := reloads w; uncaught := uncaught w;
        log := log w ++ [e] |}).

(** A call that is logged and throws unless [ok]. *)
Definition attempt (e : Event) (ok : bool) : M unit :=
  emit e ;; if ok then ret tt else throw.

Definition addEventListener (ty : string) (l : Listener) : M unit :=
  emit (AddEventListener ty l) ;;
  fun w =>
    (Returned tt,
     {| storage := storage w;
        localStorage := localStorage w; bodyChildren := bodyChildren w;
        canvasListeners := canvasListeners w ++ [(ty, l)];
        defaultPrevented := defaultPrevented w;
        reloads := reloads w; uncaught := uncaught w; log := log w |}).

Definition preventDefault : M unit :=
  emit PreventDefault ;;
  fun w =>
    (Returned tt,
     {| storage := storage w;
        localStorage := localStorage w; bodyChildren := bodyChildren w;
        canvasListeners := canvasListeners w;
        defaultPrevented := true;
        reloads := reloads w; uncaught := uncaught w; log := log w |}).

(** [localStorage.setItem(key, value)]: stores the pair, or throws and
    stores nothing when the browser refuses the write or the storage. *)
Definition setItem (key value : string) : M unit :=
  emit (SetItem key value) ;;
  fun w =>
    match storage w with
    | Writable =>
        (Returned tt,
         {| storage := storage w;
            localStorage := <[key := value]> (localStorage w);
            bodyChildren := bodyChildren w;
            canvasListeners := canvasListeners w;
            defaultPrevented := defaultPrevented w;
            reloads := reloads w; uncaught := uncaught w; log := log w |})
    | QuotaExceeded | AccessDenied => (Thrown, w)
    end.

(** [localStorage.removeItem(key)]: a removal needs no room, so it
    throws only when the storage itself is out of reach. *)
Definition removeItem (key : string) : M unit :=
  emit (RemoveItem key) ;;
  fun w =>
    match storage w with
    | Writable | QuotaExceeded =>
        (Returned tt,
         {| storage := storage w;
            localStorage := delete key (localStorage w);
            bodyChildren := bodyChildren w;
            canvasListeners := canvasListeners w;
            defaultPrevented := defaultPrevented w;
            reloads := reloads w; uncaught := uncaught w; log := log w |})
    | AccessDenied => (Thrown, w)
    end.

Definition appendChild (e : Element) : M unit :=
  emit (AppendChild e) ;;
  fun w =>
    (Returned tt,
     {| storage := storage w;
        localStorage := localStorage w;
        bodyChildren := bodyChildren w ++ [e];
        canvasListeners := canvasListeners w;
        defaultPrevented := defaultPrevented w;
        reloads := reloads w; uncaught := uncaught w; log := log w |}).

Definition reload : M unit :=
  emit Reload ;;
  fun w =>
    (Returned tt,
     {| storage := storage w;
        localStorage := localStorage w; bodyChildren := bodyChildren w;
        canvasListeners := canvasListeners w;
        defaultPrevented := defaultPrevented w;
        reloads := S (reloads w); uncaught := uncaught w; log := log w |}).

(** *** The two handlers

    Neither has a [try] block: an exception of [localStorage] leaves
    the handler at the call that raised it. *)

(** [canvas.addEventListener('webglcontextlost', (e) => { ... })] *)
Definition onContextLost : M unit :=
  preventDefault ;;
  emit ConsoleError ;;
  setItem "webglContextLost" "true" ;;
  emit CreateElement ;;
  appendChild GraphicsErrorBanner.

(** [canvas.addEventListener('webglcontextrestored', () => { ... })] *)
Definition onContextRestored : M unit :=
  emit ConsoleLog ;;
  removeItem "webglContextLost" ;;
  reload.

Definition runListener (l : Listener) : M unit :=
  match l with
  | OnContextLost => onContextLost
  | OnContextRestored => onContextRestored
  end.

(** The browser calls a listener.  An exception that leaves the
    listener is reported and counted; it does not reach the caller of
    the dispatch, and what the listener did before it stays done. *)
Definition invoke (l : Listener) (w : World) : World :=
  match runListener l w with
  | (Returned _, w') => w'
  | (Thrown, w') =>
      {| storage := storage w';
         localStorage := localStorage w'; bodyChildren := bodyChildren w';
         canvasListeners := canvasListeners w';
         defaultPrevented := defaultPrevented w';
         reloads := reloads w'; uncaught := S (uncaught w'); log := log w' |}
  end.

(** Every listener of the type is called, in the order of registration,
    whether or not an earlier one threw. *)
Fixpoint runListeners (ty : string) (ls : list (string * Listener))
    (w : World) : World :=
  match ls with
  | [] => w
  | (ty', l) :: rest =>
      runListeners ty rest (if String.eqb ty ty' then invoke l w else w)
  end.

(** The platform dispatches a fresh event of type [ty] on the canvas. *)
Definition dispatch (ty : string) (w : World) : World :=
  runListeners ty (canvasListeners w)
    {| storage := storage w;
       localStorage := localStorage w; bodyChildren := bodyChildren w;
       canvasListeners := canvasListeners w;
       defaultPrevented := false;
       reloads := reloads w; uncaught := uncaught w; log := log w |}.

(** *** The factory *)

(** [smokeTestWebGPU(renderer)] *)
Definition smokeTestWebGPU (p : Platform) : M bool :=
  tryCatch
    (if negb (hasBackendDevice p) then
       emit ConsoleWarn ;; ret false
     else
       attempt SmokeRender (rendersTestFrame p) ;;
       emit ConsoleLog ;;
       ret true)
    (emit ConsoleWarn ;; ret false).

(** [/iPad|iPhone|iPod/.test(navigator.userAgent)], case sensitive. *)
Definition isIOS (p : Platform) : bool :=
  existsb (fun w => JsRegex.includes w (userAgent p))
    ["iPad"; "iPhone"; "iPod"]%string.

(** The object literal of [new THREE.WebGLRenderer({ canvas, ... })]. *)
Definition webglOptions (p : Platform) (tier : string) : WebGLOptions :=
  let isMobile := JsRegex.startsWith "mobile" tier in
  let ios := isIOS p in
  {| antialias := negb isMobile;
     powerPreference := if isMobile then lowPower else highPerformance;
     logarithmicDepthBuffer := negb isMobile;
     preserveDrawingBuffer := negb (ios && isMobile);
     failIfMajorPerformanceCaveat := ios && isMobile |}.

(** [new THREE.WebGLRenderer(o)], outside any [try] block: the call is
    logged, and throws when the platform yields no context. *)
Definition constructWebGL (p : Platform) (o : WebGLOptions) : M unit :=
  fun w => attempt (ConstructWebGL o) (constructsWebGL p o (log w)) w.

(** The renderer constructed with [o], after the assignments and
    setters that follow the constructor. *)
Definition configured (p : Platform) (tier : string) (o : WebGLOptions)
    : WebGLRenderer :=
  let isMobile := JsRegex.startsWith "mobile" tier in
  {| options := o;
     shadowMapEnabled := negb isMobile;
     pixelRatio :=
       if isMobile then 1
       else if Qle_bool (devicePixelRatio p) 2
            then devicePixelRatio p else 2;
     size := (innerWidth p, innerHeight p) |}.

(** [createWebGLRenderer(canvas, tier)].  The function has no [try]
    block, so an exception of the constructor leaves it before any
    listener is registered.  What follows the constructor are
    assignments and calls on a renderer that exists and on the canvas
    ([setClearColor], [getContext], [getExtension], [setPixelRatio],
    [setSize], [addEventListener]); they are taken to return. *)
Definition createWebGLRenderer (p : Platform) (tier : string)
    : M WebGLRenderer :=
  let o := webglOptions p tier in
  constructWebGL p o ;;
  let renderer := configured p tier o in
  addEventListener "webglcontextlost" OnContextLost ;;
  addEventListener "webglcontextrestored" OnContextRestored ;;
  ret renderer.

(** [createWebGPURenderer(canvas)]: the renderer, or [null]. *)
Definition createWebGPURenderer (p : Platform) : M (option RendererObject) :=
  tryCatch
    (attempt ImportWebGPURenderer (importResolves p) ;;
     attempt ConstructWebGPU (constructs p) ;;
     attempt InitWebGPU (initResolves p) ;;
     attempt ConfigureWebGPU (configures p) ;;
     let* smokeOk := smokeTestWebGPU p in
     if negb smokeOk then
       emit ConsoleWarn ;;
       attempt DisposeWebGPU (disposes p) ;;
       ret None
     else
       emit ConsoleLog ;;
       ret (Some WebGPUObject))
    (emit ConsoleWarn ;; ret None).

(** [makeRenderer(canvas, tier)].  Neither call of
    [createWebGLRenderer] is inside a [try] block, so what it throws
    rejects the promise of the factory; the factory keeps nothing from
    one call to the next. *)
Definition makeRenderer (p : Platform) (tier : string) : M RendererResult :=
  let hasWebGPU := hasGPU p in
  emit ConsoleLog ;;
  if negb hasWebGPU || negb (JsRegex.includes "webgpu" tier) then
    emit ConsoleLog ;;
    let* r := createWebGLRenderer p tier in
    ret {| renderer := WebGLObject r; type := webgl2 |}
  else
    emit ConsoleLog ;;
    let* webgpuRenderer := createWebGPURenderer p in
    match webgpuRenderer with
    | Some r =>
        emit ConsoleLog ;;
        ret {| renderer := r; type := webgpu |}
    | None =>
        emit ConsoleLog ;;
        let* r := createWebGLRenderer p tier in
        ret {| renderer := WebGLObject r; type := webgl2 |}
    end.

(** Readings for the statements. *)

(** The factory gets as far as the smoke test of the preferred backend. *)
Definition reachesSmokeTest (p : Platform) (tier : string) : bool :=
  hasGPU p && JsRegex.includes "webgpu" tier && importResolves p
  && constructs p && initResolves p && configures p.

Definition smokeTestPasses (p : Platform) : bool :=
  hasBackendDevice p && rendersTestFrame p.

(** How often a log shows the preferred backend being constructed. *)
Definition preferredAttempts (tr : list Event) : nat :=
  length
    (List.filter
       (fun e => match e with ConstructWebGPU => true | _ => false end) tr).

(** No call of the log goes to the preferred backend. *)
Definition leavesPreferredBackendAlone (tr : list Event) : Prop :=
  forallb (fun e => negb (isPreferredBackendCall e)) tr = true.

(** [w] with another log. *)
Definition withLog (w : World) (l : list Event) : World :=
  {| storage := storage w;
     localStorage := localStorage w; bodyChildren := bodyChildren w;
     canvasListeners := canvasListeners w;
     defaultPrevented := defaultPrevented w;
     reloads := reloads w; uncaught := uncaught w; log := l |}.

(** [w] with another answer of the browser about [localStorage]. *)
Definition withStorage (w : World) (s : Storage) : World :=
  {| storage := s;
     localStorage := localStorage w; bodyChildren := bodyChildren w;
     canvasListeners := canvasListeners w;
     defaultPrevented := defaultPrevented w;
     reloads := reloads w; uncaught := uncaught w; log := log w |}.

(** The calls that bring the preferred backend up to its smoke test. *)
Definition preferredSetup : list Event :=
  [ImportWebGPURenderer; ConstructWebGPU; InitWebGPU; ConfigureWebGPU].

(** The calls of a [createWebGLRenderer] that returns. *)
Definition webglSetup (p : Platform) (tier : string) : list Event :=
  [ConstructWebGL (webglOptions p tier);
   AddEventListener "webglcontextlost" OnContextLost;
   AddEventListener "webglcontextrestored" OnContextRestored].

(** The renderer a [createWebGLRenderer] that returns gives. *)
Definition webglRenderer (p : Platform) (tier : string) : WebGLRenderer :=
  configured p tier (webglOptions p tier).

(** The constructor of the standard renderer returns when it is called
    after the calls of [called]. *)
Definition webglAvailable (p : Platform) (tier : string)
    (called : list Event) : bool :=
  constructsWebGL p (webglOptions p tier) called.

(** What the loss handler appends to the log when it runs to its end,
    in order. *)
Definition lossActions : list Event :=
  [PreventDefault; ConsoleError; SetItem "webglContextLost" "true";
   CreateElement; AppendChild GraphicsErrorBanner].

(** What it appends when the write to local storage throws. *)
Definition lossActionsCutShort : list Event :=
  [PreventDefault; ConsoleError; SetItem "webglContextLost" "true"].

(** A desktop with a GPU API whose device is missing, and an empty page. *)
Definition brokenGPUDesktop : Platform :=
  {| userAgent := "Mozilla/5.0 (X11; Linux x86_64)";
     hasGPU := true; devicePixelRatio := 1;
     innerWidth := 1920; innerHeight := 1080;
     importResolves := true; constructs := true; initResolves := true;
     configures := true; hasBackendDevice := false;
     rendersTestFrame := false; disposes := true;
     constructsWebGL := fun _ _ => true |}.

(** A desktop whose preferred backend comes up but cannot draw, and
    whose canvas gives no WebGL context once the preferred backend has
    been initialised on it. *)
Definition claimedCanvasDesktop : Platform :=
  {| userAgent := "Mozilla/5.0 (X11; Linux x86_64)";
     hasGPU := true; devicePixelRatio := 1;
     innerWidth := 1920; innerHeight := 1080;
     importResolves := true; constructs := true; initResolves := true;
     configures := true; hasBackendDevice := true;
     rendersTestFrame := false; disposes := true;
     constructsWebGL :=
       fun _ called =>
         negb (existsb
                 (fun e => match e with InitWebGPU => true | _ => false end)
                 called) |}.

Definition emptyWorld : World :=
  {| storage := Writable;
     localStorage := ∅; bodyChildren := []; canvasListeners := [];
     defaultPrevented := false; reloads := O; uncaught := O; log := [] |}.

(** The empty page in a browser that blocks storage for it. *)
Definition blockedPage : World := withStorage emptyWorld AccessDenied.

(** The empty page of a site whose storage is used up. *)
Definition fullPage : World := withStorage emptyWorld QuotaExceeded.

End Renderer.

(** ** Shadow frustum fitting

    The component (ShadowFit.tsx) is not among the sources.
    TECHNICAL_ANALYSIS.md section 7.2 has a sketch of it, marked there
    as a pseudo-algorithm, with the steps of section 4.6 of the spec
    but without its edge case.  The model follows the spec and borrows
    from the sketch the names and the boxes: a bounding volume is an
    axis-aligned [Box3] as in three.js, where a new box is the empty
    box, with its minimum at +Infinity and its maximum at -Infinity. *)
Module ShadowFit.

(** A coordinate: a finite number, or an infinity. *)
Inductive Coord : Type :=
| NegInfinity
| Finite (q : Q)
| PosInfinity.

Definition Coord_ltb (a b : Coord) : bool :=
  match a, b with
  | NegInfinity, NegInfinity => false
  | NegInfinity, _ => true
  | Finite _, NegInfinity => false
  | Finite p, Finite q => negb (Qle_bool q p)
  | Finite _, PosInfinity => true
  | PosInfinity, _ => false
  end.

(** [Math.min] and [Math.max] *)
Definition Coord_min (a b : Coord) : Coord := if Coord_ltb b a then b else a.
Definition Coord_max (a b : Coord) : Coord := if Coord_ltb a b then b else a.

Record Vector3 : Type := mkVector3 { x : Coord; y : Coord; z : Coord }.

Definition Vector3_min (a b : Vector3) : Vector3 :=
  {| x := Coord_min (x a) (x b); y := Coord_min (y a) (y b);
     z := Coord_min (z a) (z b) |}.

Definition Vector3_max (a b : Vector3) : Vector3 :=
  {| x := Coord_max (x a) (x b); y := Coord_max (y a) (y b);
     z := Coord_max (z a) (z b) |}.

Record Box3 : Type := mkBox3 { min : Vector3; max : Vector3 }.

(** [new Box3()] *)
Definition newBox3 : Box3 :=
  {| min := mkVector3 PosInfinity PosInfinity PosInfinity;
     max := mkVector3 NegInfinity NegInfinity NegInfinity |}.

Definition isEmpty (b : Box3) : bool :=
  Coord_ltb (x (max b)) (x (min b)) || Coord_ltb (y (max b)) (y (min b))
  || Coord_ltb (z (max b)) (z (min b)).

Definition expandByPoint (b : Box3) (p : Vector3) : Box3 :=
  {| min := Vector3_min (min b) p; max := Vector3_max (max b) p |}.

Definition union (a b : Box3) : Box3 :=
  {| min := Vector3_min (min a) (min b); max := Vector3_max (max a) (max b) |}.

Definition corners (b : Box3) : list Vector3 :=
  [ mkVector3 (x (min b)) (y (min b)) (z (min b));
    mkVector3 (x (min b)) (y (min b)) (z (max b));
    mkVector3 (x (min b)) (y (max b)) (z (min b));
    mkVector3 (x (min b)) (y (max b)) (z (max b));
    mkVector3 (x (max b)) (y (min b)) (z (min b));
    mkVector3 (x (max b)) (y (min b)) (z (max b));
    mkVector3 (x (max b)) (y (max b)) (z (min b));
    mkVector3 (x (max b)) (y (max b)) (z (max b)) ].

(** A [Matrix4], as the map of points it stands for. *)
Definition Matrix4 : Type := Vector3 -> Vector3.

(** [box.applyMatrix4(m)]: an empty box stays as it is; otherwise the
    box of the eight transformed corners. *)
Definition applyMatrix4 (m : Matrix4) (b : Box3) : Box3 :=
  if isEmpty b then b
  else fold_left expandByPoint (map m (corners b)) newBox3.

(** An object of the scene, by the world-space box [expandByObject]
    adds for it (the empty box for an object without geometry). *)
Record Object3D : Type := mkObject3D { worldBox : Box3 }.

Definition expandByObject (b : Box3) (o : Object3D) : Box3 :=
  union b (worldBox o).

Record Scene : Type := mkScene { children : list Object3D }.

(** The camera, by [camera.frustum.intersectsObject]. *)
Record Camera : Type := mkCamera { intersectsObject : Object3D -> bool }.

(** Modelled from the spec: the shadow frustum of section 3 (the
    fitter, ShadowFit.tsx, is not among the sources), light-space
    orthographic bounds left, right, top, bottom, near and far. *)
Record Bounds : Type := mkBounds {
  left : Coord; right : Coord; top : Coord; bottom : Coord;
  near : Coord; far : Coord
}.

(** [light.shadow.camera]: its bounds, and the bounds its projection
    matrix was last computed from. *)
Record OrthographicCamera : Type := mkOrthographicCamera {
  bounds : Bounds;
  projectionOf : Bounds
}.

Record DirectionalLight : Type := mkLight {
  matrixWorldInverse : Matrix4;
  shadowCamera : OrthographicCamera
}.

Definition boundsOfBox (b : Box3) : Bounds :=
  {| left := x (min b); right := x (max b);
     top := y (max b); bottom := y (min b);
     near := z (min b); far := z (max b) |}.

(** The objects of the scene the camera sees. *)
Definition visible (scene : Scene) (camera : Camera) : list Object3D :=
  List.filter (intersectsObject camera) (children scene).

(** Modelled from the spec: the fitter's step for one frame (the
    source of ShadowFit.tsx is not available).  Section 4.6: compute
    the union of the world-space bounding volumes of every object that
    intersects the view frustum of the camera; transform that volume
    into the coordinate space of the light; set the orthographic
    bounds of the light to exactly the extents of the transformed
    volume; recompute the projection matrix of the light.  Edge case:
    if no object intersects the camera frustum this frame, retain the
    frustum of the previous frame unchanged. *)
Definition fitShadowFrustum (light : DirectionalLight) (scene : Scene)
    (camera : Camera) : DirectionalLight :=
  match visible scene camera with
  | [] => light
  | visibleObjects =>
      let bbox := fold_left expandByObject visibleObjects newBox3 in
      let lightSpaceBox := applyMatrix4 (matrixWorldInverse light) bbox in
      {| matrixWorldInverse := matrixWorldInverse light;
         shadowCamera := {| bounds := boundsOfBox lightSpaceBox;
                            projectionOf := boundsOfBox lightSpaceBox |} |}
  end.

(** A frame: the scene and the camera it is rendered with. *)
Definition Frame : Type := Scene * Camera.

(** Modelled from the spec: section 4.6, the fitter runs once for
    every rendered frame; the light after the frames of a session,
    oldest first. *)
Definition afterFrames (light : DirectionalLight) (frames : list Frame)
    : DirectionalLight :=
  fold_left (fun l f => fitShadowFrustum l (fst f) (snd f)) frames light.

(** The bounds enclose a volume: left of right, bottom below top, near
    before far. *)
Definition enclosing (b : Bounds) : bool :=
  Coord_ltb (left b) (right b) && Coord_ltb (bottom b) (top b)
  && Coord_ltb (near b) (far b).

(** A frame in transition: a light fitted to a 100 x 100 area, and a
    camera that sees none of the one object of the scene. *)
Definition fittedBounds : Bounds :=
  {| left := Finite (-50); right := Finite 50;
     top := Finite 50; bottom := Finite (-50);
     near := Finite (1 # 2); far := Finite 500 |}.

Definition sun : DirectionalLight :=
  {| matrixWorldInverse := fun p => p;
     shadowCamera := {| bounds := fittedBounds; projectionOf := fittedBounds |} |}.

Definition tower : Object3D :=
  {| worldBox := {| min := mkVector3 (Finite 0) (Finite 0) (Finite 0);
                    max := mkVector3 (Finite 10) (Finite 40) (Finite 10) |} |}.

Definition campus : Scene := {| children := [tower] |}.

Definition lookingAway : Camera := {| intersectsObject := fun _ => false |}.

Definition lookingAtTower : Camera := {| intersectsObject := fun _ => true |}.

End ShadowFit.

(** ** The frame governor *)
Module FrameGovernor.

(** Modelled from the spec: the governor's state (the governor, in
    perf/MobileGuard.tsx, is not among the sources).  Sections 3 and
    4.7: a rolling window of frame durations, here in milliseconds and
    newest first, and the index of the degradation stage reached (0:
    none; 1, 2, 3: the stages of the knowledge base). *)
Record Governor : Type := mkGovernor {
  window : list Z;
  stage : nat
}.

Definition initial : Governor := {| window := []; stage := O |}.

Definition lastStage : nat := length KnowledgeBase.degradationStages.

(** Modelled from the spec: section 4.7, a frame is janky when its
    duration exceeds a fixed threshold; the threshold is the
    [jankThreshold] of the knowledge base. *)
Definition janky (duration : Z) : bool := KnowledgeBase.jankThreshold <? duration.

Definition jankCount (w : list Z) : Z :=
  Z.of_nat (length (List.filter janky w)).

(** Modelled from the spec: section 3, only the [size] most recent
    samples are kept. *)
Definition push (size : nat) (duration : Z) (w : list Z) : list Z :=
  firstn size (duration :: w).

(** Modelled from the spec: the governor's per-frame step (the source
    of perf/MobileGuard.tsx is not available; knowledge-base.mjs only
    holds its settings [jankThreshold], [jankTolerance] and the three
    stages).  Section 4.7: the governor is active only on constrained
    tiers; it keeps a fixed-size rolling window of frame samples; when
    the count of janky frames in the current window exceeds the
    tolerance it advances one degradation stage.  The window starts
    afresh after an advance, as scenario 6 requires (ten janky frames
    in a row advance exactly one stage), and there is no stage beyond
    the last.  The size of the window is not given and stays a
    parameter. *)
Definition onFrame (size : nat) (tier : PerfFlags.Tier) (g : Governor)
    (duration : Z) : Governor :=
  match tier with
  | PerfFlags.desktopHigh => g
  | PerfFlags.mobileLow =>
      let w := push size duration (window g) in
      if (KnowledgeBase.jankTolerance <? jankCount w)
         && (stage g <? lastStage)%nat
      then {| window := []; stage := S (stage g) |}
      else {| window := w; stage := stage g |}
  end.

(** The states of a session, one after each frame. *)
Fixpoint session (size : nat) (tier : PerfFlags.Tier) (g : Governor)
    (frames : list Z) : list Governor :=
  match frames with
  | [] => []
  | d :: rest =>
      let g' := onFrame size tier g d in
      g' :: session size tier g' rest
  end.

(** The stage index at the start and after each frame. *)
Definition stageIndices (size : nat) (tier : PerfFlags.Tier) (g : Governor)
    (frames : list Z) : list nat :=
  stage g :: map stage (session size tier g frames).

End FrameGovernor.

(** ** utils/debugFlags.ts: debug switches read from the query string *)
Module DebugFlags.

(** A [URLSearchParams]: the name-value pairs of the query string, in
    the order they are written; a name can occur more than once. *)
Definition URLSearchParams : Type := list (string * string).

(** [params.has(name)] *)
Definition has (params : URLSearchParams) (name : string) : bool :=
  existsb (fun p => String.eqb (fst p) name) params.

(** [params.get(name)]: the first value given for [name], or [null]. *)
Fixpoint get (params : URLSearchParams) (name : string) : option string :=
  match params with
  | [] => None
  | (n, v) :: rest => if String.eqb n name then Some v else get rest name
  end.

(** [x === 'text'] for [x] a string or [null] *)
Definition strictEq (x : option string) (text : string) : bool :=
  match x with
  | Some s => String.eqb s text
  | None => false
  end.

Record Debug : Type := mkDebug {
  VERBOSE : bool;
  GEOMETRY : bool;
  MATERIALS : bool;
  PERFORMANCE : bool;
  MEMORY : bool
}.

Definition DEBUG (params : URLSearchParams) : Debug :=
  {| VERBOSE := has params "debug" || strictEq (get params "verbose") "true";
     GEOMETRY := strictEq (get params "debug") "geometry";
     MATERIALS := strictEq (get params "debug") "materials";
     PERFORMANCE := strictEq (get params "debug") "performance";
     MEMORY := strictEq (get params "debug") "memory" |}.

(** What a logger prints: the calls it makes on the console. *)
Inductive ConsoleCall : Type :=
| ConsoleLog (args : list string)
| ConsoleWarn (args : list string)
| ConsoleError (args : list string).

(** The members of [log]: each returns the console calls it makes. *)
Definition verbose (d : Debug) (args : list string) : list ConsoleCall :=
  if VERBOSE d then [ConsoleLog args] else [].

Definition geometry (d : Debug) (args : list string) : list ConsoleCall :=
  if GEOMETRY d || VERBOSE d then [ConsoleLog args] else [].

Definition material (d : Debug) (args : list string) : list ConsoleCall :=
  if MATERIALS d || VERBOSE d then [ConsoleLog args] else [].

Definition perf (d : Debug) (args : list string) : list ConsoleCall :=
  if PERFORMANCE d || VERBOSE d then [ConsoleLog args] else [].

Definition memory (d : Debug) (args : list string) : list ConsoleCall :=
  if MEMORY d || VERBOSE d then [ConsoleLog args] else [].

Definition error (args : list string) : list ConsoleCall := [ConsoleError args].
Definition warn (args : list string) : list ConsoleCall := [ConsoleWarn args].
Definition info (args : list string) : list ConsoleCall := [ConsoleLog args].

(** The category switches that are on. *)
Definition categoriesOn (d : Debug) : list bool :=
  List.filter (fun b => b) [GEOMETRY d; MATERIALS d; PERFORMANCE d; MEMORY d].

End DebugFlags.

(** ** Readings of the device signals, for Part II *)
Module Devices.

(** The same device with another viewport. *)
Definition resized (s : PerfFlags.Signals) (width height : Z)
    : PerfFlags.Signals :=
  {| PerfFlags.userAgent := PerfFlags.userAgent s;
     PerfFlags.ontouchstart := PerfFlags.ontouchstart s;
     PerfFlags.maxTouchPoints := PerfFlags.maxTouchPoints s;
     PerfFlags.innerWidth := width;
     PerfFlags.innerHeight := height;
     PerfFlags.deviceMemory := PerfFlags.deviceMemory s |}.

(** The signals [PerfFlags] reads on the platform the renderer runs on:
    both read [navigator.userAgent] and the size of the window. *)
Definition signalsOn (p : Renderer.Platform) (touch : bool) (points : Z)
    (memory : option PerfFlags.DeviceMemory) : PerfFlags.Signals :=
  {| PerfFlags.userAgent := Renderer.userAgent p;
     PerfFlags.ontouchstart := touch;
     PerfFlags.maxTouchPoints := points;
     PerfFlags.innerWidth := Renderer.innerWidth p;
     PerfFlags.innerHeight := Renderer.innerHeight p;
     PerfFlags.deviceMemory := memory |}.

(** A phone with a working GPU API. *)
Definition phone : Renderer.Platform :=
  {| Renderer.userAgent := "Mozilla/5.0 (iPhone; CPU iPhone OS 16_0 like Mac OS X)";
     Renderer.hasGPU := true; Renderer.devicePixelRatio := 3;
     Renderer.innerWidth := 390; Renderer.innerHeight := 844;
     Renderer.importResolves := true; Renderer.constructs := true;
     Renderer.initResolves := true; Renderer.configures := true;
     Renderer.hasBackendDevice := true; Renderer.rendersTestFrame := true;
     Renderer.disposes := true;
     Renderer.constructsWebGL := fun _ _ => true |}.

(** A tablet whose user agent writes its name in capitals. *)
Definition shoutingTablet : Renderer.Platform :=
  {| Renderer.userAgent := "Mozilla/5.0 (IPAD; CPU OS 16_0)";
     Renderer.hasGPU := false; Renderer.devicePixelRatio := 2;
     Renderer.innerWidth := 1024; Renderer.innerHeight := 768;
     Renderer.importResolves := false; Renderer.constructs := false;
     Renderer.initResolves := false; Renderer.configures := false;
     Renderer.hasBackendDevice := false; Renderer.rendersTestFrame := false;
     Renderer.disposes := false;
     Renderer.constructsWebGL := fun _ _ => true |}.

End Devices.

(** ** Readings of the renderer factory, for Part II *)
Module RendererReadings.
Import Renderer.

(** Calls that belong to the standard backend: its constructor and the
    registration of its two handlers. *)
Definition isStandardBackendCall (e : Event) : bool :=
  match e with
  | ConstructWebGL _ | AddEventListener _ _ => true
  | _ => false
  end.

(** What the factory makes of a call of [createWebGLRenderer]: the
    renderer goes into a result of type [webgl2], an exception goes on
    to the caller. *)
Definition standardResult (o : Outcome WebGLRenderer * World)
    : Outcome RendererResult * World :=
  match o with
  | (Returned gl, w) =>
      (Returned {| renderer := WebGLObject gl; type := webgl2 |}, w)
  | (Thrown, w) => (Thrown, w)
  end.

(** [w] once a [createWebGLRenderer] that returned has registered its
    two handlers. *)
Definition withHandlers (w : World) : World :=
  {| storage := storage w;
     localStorage := localStorage w; bodyChildren := bodyChildren w;
     canvasListeners :=
       canvasListeners w ++
       [("webglcontextlost"%string, OnContextLost);
        ("webglcontextrestored"%string, OnContextRestored)];
     defaultPrevented := defaultPrevented w;
     reloads := reloads w; uncaught := uncaught w; log := log w |}.

(** The preferred backend comes up, smoke test included. *)
Definition preferredBackendWorks (p : Platform) (tier : string) : bool :=
  reachesSmokeTest p tier && smokeTestPasses p.

(** The two entries [createWebGLRenderer] adds to the canvas. *)
Definition webglListeners : list (string * Listener) :=
  [("webglcontextlost"%string, OnContextLost);
   ("webglcontextrestored"%string, OnContextRestored)].

End RendererReadings.

(** ** utils/logger.ts: the category logger and its persisted error list

    The logger prints on the console and keeps the last errors in local
    storage under the key [app_errors], as the JSON text of an array.
    The model holds a stored text by what [JSON.parse] makes of it, so
    that [JSON.parse(JSON.stringify(v))] is [v]. *)
Module Logger.

Inductive LogCategory : Type :=
| CAMERA
| GLB
| FLOORPLAN
| REQUEST
| ERROR
| PERFORMANCE
| LOADING
| UI.

Definition LogCategory_eqb (a b : LogCategory) : bool :=
  match a, b with
  | CAMERA, CAMERA | GLB, GLB | FLOORPLAN, FLOORPLAN | REQUEST, REQUEST
  | ERROR, ERROR | PERFORMANCE, PERFORMANCE | LOADING, LOADING | UI, UI => true
  | _, _ => false
  end.

Definition LOG_CATEGORIES (c : LogCategory) : bool :=
  match c with
  | REQUEST | ERROR => true
  | _ => false
  end.

(** A JSON value. *)
#[warnings="-register-all"]
Inductive Json : Type :=
| JNull
| JBool (b : bool)
| JNumber (q : Q)
| JString (s : string)
| JArray (items : list Json)
| JObject (fields : list (string * Json)).

(** The text of a storage item: the empty text, a text [JSON.parse]
    reads as a value, or a text [JSON.parse] rejects. *)
Inductive Text : Type :=
| EmptyText
| JsonText (j : Json)
| BrokenText.

Record Logger : Type := mkLogger {
  enabled : bool;
  categories : LogCategory -> bool
}.

(** [new Logger()], given [LOG_ENABLED] (a development build with
    [VITE_DEBUG] set to 'true'). *)
Definition newLogger (LOG_ENABLED : bool) : Logger :=
  {| enabled := LOG_ENABLED; categories := LOG_CATEGORIES |}.

Definition setCategory (category : LogCategory) (value : bool) (l : Logger)
    : Logger :=
  {| enabled := enabled l;
     categories := fun c =>
       if LogCategory_eqb c category then value else categories l c |}.

Definition enableCategory (category : LogCategory) (l : Logger) : Logger :=
  setCategory category true l.

Definition disableCategory (category : LogCategory) (l : Logger) : Logger :=
  setCategory category false l.

(** An argument of a logging call, by the text it is formatted to:
    [String(a)] for a value that is not an object, [JSON.stringify(a)]
    for an object, which throws for some objects (a cycle). *)
Inductive Arg : Type :=
| Primitive (text : string)
| Object (json : option string).

Inductive ConsoleCall : Type :=
| Log (emoji : string) (args : list Arg)
| Warn (emoji : string) (args : list Arg)
| Error (args : list Arg)
| Group (label : string)
| GroupEnd.

(** Local storage, the console (oldest call first), and whether a
    write to local storage fails for lack of room. *)
Record World : Type := mkWorld {
  localStorage : gmap string Text;
  console : list ConsoleCall;
  storageFull : bool
}.

Definition print (c : ConsoleCall) (w : World) : World :=
  {| localStorage := localStorage w; console := console w ++ [c];
     storageFull := storageFull w |}.

Definition setItem (key : string) (value : Text) (w : World) : World :=
  {| localStorage := <[key := value]> (localStorage w); console := console w;
     storageFull := storageFull w |}.

Definition removeItem (key : string) (w : World) : World :=
  {| localStorage := delete key (localStorage w); console := console w;
     storageFull := storageFull w |}.

(** [args.map(a => typeof a === 'object' ? JSON.stringify(a) :
    String(a))]: [None] when a [JSON.stringify] throws. *)
Fixpoint formatArgs (args : list Arg) : option (list string) :=
  match args with
  | [] => Some []
  | a :: rest =>
      match (match a with Primitive t => Some t | Object j => j end),
            formatArgs rest with
      | Some t, Some ts => Some (t :: ts)
      | _, _ => None
      end
  end.

(** [... .join(' ')] *)
Definition messageOf (args : list Arg) : option string :=
  match formatArgs args with
  | Some ts => Some (String.concat " " ts)
  | None => None
  end.

(** [{ timestamp, message }] *)
Definition entry (timestamp message : string) : Json :=
  JObject [("timestamp"%string, JString timestamp);
           ("message"%string, JString message)].

(** [JSON.parse(localStorage.getItem('app_errors') || '[]')]: the empty
    text is falsy like [null]; [None] when [JSON.parse] throws. *)
Definition parseStored (w : World) : option Json :=
  match localStorage w !! "app_errors"%string with
  | None | Some EmptyText => Some (JArray [])
  | Some (JsonText j) => Some j
  | Some BrokenText => None
  end.

(** [persistError(args)], at time [now].  The whole body is in a [try]
    whose [catch] is empty: where a step throws, the world stays as it
    is.  [errors.push] throws when what was parsed is not an array, and
    [localStorage.setItem] when the storage is full. *)
Definition persistError (now : string) (args : list Arg) (w : World) : World :=
  match parseStored w with
  | Some (JArray errors) =>
      match messageOf args with
      | Some message =>
          let errors1 := errors ++ [entry now message] in
          let errors2 :=
            if (50 <? length errors1)%nat then tail errors1 else errors1 in
          if storageFull w then w
          else setItem "app_errors" (JsonText (JArray errors2)) w
      | None => w
      end
  | _ => w
  end.

(** [getPersistedErrors()] *)
Definition getPersistedErrors (w : World) : Json :=
  match parseStored w with
  | Some j => j
  | None => JArray []
  end.

(** [clearPersistedErrors()] *)
Definition clearPersistedErrors (w : World) : World :=
  removeItem "app_errors" w.

Definition log (l : Logger) (category : LogCategory) (emoji : string)
    (args : list Arg) (w : World) : World :=
  if negb (enabled l) || negb (categories l category) then w
  else print (Log emoji args) w.

Definition warn (l : Logger) (category : LogCategory) (emoji : string)
    (args : list Arg) (w : World) : World :=
  if negb (enabled l) || negb (categories l category) then w
  else print (Warn emoji args) w.

Definition error (l : Logger) (now : string) (args : list Arg) (w : World)
    : World :=
  if negb (categories l ERROR) then w
  else persistError now args (print (Error args) w).

Definition group (l : Logger) (category : LogCategory) (emoji label : string)
    (w : World) : World :=
  if negb (enabled l) || negb (categories l category) then w
  else print (Group (emoji ++ " " ++ label)) w.

Definition groupEnd (l : Logger) (w : World) : World :=
  if negb (enabled l) then w else print GroupEnd w.

(** Readings for Part II. *)

(** A run of calls of [error], oldest first, each with its time. *)
Fixpoint errorAll (l : Logger) (calls : list (string * list Arg)) (w : World)
    : World :=
  match calls with
  | [] => w
  | (now, args) :: rest => errorAll l rest (error l now args w)
  end.

(** The entry a call of [error] stores when its arguments format. *)
Definition entryOf (call : string * list Arg) : Json :=
  entry (fst call)
    (match messageOf (snd call) with Some m => m | None => EmptyString end).

Definition printable (call : string * list Arg) : Prop :=
  messageOf (snd call) <> None.

(** What is stored under [app_errors] reads back as an array. *)
Definition storedArray (w : World) (errors : list Json) : Prop :=
  parseStored w = Some (JArray errors).

(** A page that has never logged, with room in its storage. *)
Definition freshWorld : World :=
  {| localStorage := ∅; console := []; storageFull := false |}.

End Logger.

(** ** components/ErrorLogDisplay.tsx: the panel that shows the
    persisted errors.  The component keeps two state variables and
    reads the logger when it mounts and every two seconds after. *)
Module ErrorLogDisplay.

Record State : Type := mkState {
  visible : bool;
  errors : list Logger.Json
}.

(** [useState(false)] and [useState([])] *)
Definition initial : State := {| visible := false; errors := [] |}.

(** [checkErrors()].  [None] when what the logger returns is not an
    array: the component then reads [length] of a value of another
    type, which the model does not follow. *)
Definition checkErrors (w : Logger.World) (st : State) : option State :=
  match Logger.getPersistedErrors w with
  | Logger.JArray persistedErrors =>
      Some (if (0 <? length persistedErrors)%nat
            then {| visible := true; errors := persistedErrors |}
            else st)
  | _ => None
  end.

(** The [onClick] of the close button. *)
Definition dismiss (w : Logger.World) (st : State) : Logger.World * State :=
  (Logger.clearPersistedErrors w, {| visible := false; errors := errors st |}).

(** What the component renders: nothing, or the panel with the number
    of errors in its title and one row per error. *)
Inductive Rendered : Type :=
| Nothing
| Panel (count : nat) (rows : list Logger.Json).

Definition render (st : State) : Rendered :=
  if negb (visible st) || (length (errors st) =? 0)%nat then Nothing
  else Panel (length (errors st)) (errors st).

End ErrorLogDisplay.

(** ** agent/knowledge-base.mjs: validation rules and suggested fixes;
    agent/validators/webgl-validator: the WebGL validator that runs them

    The rules are predicates on the text of a source file.  The
    validator reads the renderer file, runs the rules of category
    [webgl] and three checks of its own, and turns what fails into
    issues. *)
Module Validation.

Inductive Severity : Type :=
| critical
| high
| medium
| low.

Definition Severity_eqb (a b : Severity) : bool :=
  match a, b with
  | critical, critical | high, high | medium, medium | low, low => true
  | _, _ => false
  end.

Inductive Category : Type :=
| webgl
| performance
| memory
| css
| asset.

Definition Category_eqb (a b : Category) : bool :=
  match a, b with
  | webgl, webgl | performance, performance | memory, memory
  | css, css | asset, asset => true
  | _, _ => false
  end.

(** [type] and [risk] of a suggested fix. *)
Inductive FixType : Type :=
| codeFix
| assetFix.

Inductive Risk : Type :=
| safe
| moderate.

Record Fix : Type := mkFix {
  fixType : FixType;
  action : string;
  patch : option string;
  risk : Risk
}.

Record Issue : Type := mkIssue {
  id : string;
  severity : Severity;
  category : Category;
  description : string;
  file : string;
  suggestedFix : option Fix
}.

(** [code.includes(text)] *)
Definition includes (code text : string) : bool := JsRegex.includes text code.

(** A double quote, for the texts that hold one. *)
Definition dq : string := String (ascii_of_nat 34) EmptyString.

Definition newline : string := String (ascii_of_nat 10) EmptyString.

Definition lines (ls : list string) : string := String.concat newline ls.

Record Rule : Type := mkRule {
  ruleId : string;
  ruleCategory : Category;
  ruleSeverity : Severity;
  check : string -> option string -> bool;   (* [(code, perfFlags) => ...] *)
  message : string;
  ruleFile : string
}.

Definition rendererFile : string := "src/graphics/makeRenderer.ts".
Definition perfFlagsFile : string := "src/perf/PerfFlags.ts".
Definition mobileGuardFile : string := "src/perf/MobileGuard.tsx".

Definition validationRules : list Rule :=
  [ {| ruleId := "webgl-antialias-mobile";
       ruleCategory := webgl; ruleSeverity := critical;
       check := fun code _ =>
         let hasMobileCheck :=
           includes code "isMobile" || includes code "tier === 'mobile" in
         let hasAntialiaseFalse := includes code "antialias: false" in
         hasMobileCheck && hasAntialiaseFalse;
       message := "Mobile renderer must have antialias: false";
       ruleFile := rendererFile |};
    {| ruleId := "webgl-preserve-drawing-buffer";
       ruleCategory := webgl; ruleSeverity := high;
       check := fun code _ => negb (includes code "preserveDrawingBuffer: true");
       message := "preserveDrawingBuffer: true causes iOS memory leaks";
       ruleFile := rendererFile |};
    {| ruleId := "webgl-stencil-disabled";
       ruleCategory := webgl; ruleSeverity := medium;
       check := fun code _ => includes code "stencil: false";
       message :=
         "Stencil buffer should be disabled on mobile for memory savings";
       ruleFile := rendererFile |};
    {| ruleId := "ios-power-preference";
       ruleCategory := webgl; ruleSeverity := medium;
       check := fun code _ =>
         let hasIosCheck := includes code "isIOS" || includes code "iOS" in
         let hasLowPower := includes code "powerPreference: 'low-power'" in
         if hasIosCheck then hasLowPower else true;
       message :=
         "iOS devices should use powerPreference: " ++ dq ++ "low-power" ++ dq;
       ruleFile := rendererFile |};
    {| ruleId := "mobile-pixel-ratio";
       ruleCategory := performance; ruleSeverity := high;
       check := fun code _ =>
         includes code "Math.min" && includes code "devicePixelRatio";
       message :=
         "Mobile pixel ratio must be clamped (max 1.5 for LOW, 2.0 for HIGH)";
       ruleFile := rendererFile |};
    {| ruleId := "context-loss-handler";
       ruleCategory := webgl; ruleSeverity := critical;
       check := fun code _ =>
         includes code "webglcontextlost" && includes code "preventDefault";
       message := "Must handle WebGL context loss with preventDefault";
       ruleFile := rendererFile |};
    {| ruleId := "mobile-shadows-disabled";
       ruleCategory := performance; ruleSeverity := high;
       check := fun _ perfFlags =>
         match perfFlags with
         | Some flags =>
             if negb (String.eqb flags "")
                && includes flags "tier === 'mobileLow'"
             then includes flags "shadowMap.enabled = false"
                  || includes flags "SHADOWS_ENABLED: false"
             else true
         | None => true
         end;
       message := "Shadows must be disabled on mobile LOW tier";
       ruleFile := perfFlagsFile |};
    {| ruleId := "mobile-post-processing-disabled";
       ruleCategory := performance; ruleSeverity := medium;
       check := fun code _ =>
         includes code "qualityTier === 'LOW'"
         && (includes code "ao: false" || includes code "bloom: false");
       message := "Post-processing must be disabled on mobile LOW tier";
       ruleFile := perfFlagsFile |};
    {| ruleId := "canvas-pixel-clamp";
       ruleCategory := memory; ruleSeverity := high;
       check := fun code _ =>
         includes code "maxCanvasPixels" || includes code "MAX_CANVAS_PIXELS";
       message := "Canvas pixels must be clamped based on quality tier";
       ruleFile := mobileGuardFile |};
    {| ruleId := "frame-governor-mobile";
       ruleCategory := performance; ruleSeverity := medium;
       check := fun code _ =>
         includes code "FrameGovernor" || includes code "jankFrames";
       message := "Frame governor should monitor performance on mobile";
       ruleFile := mobileGuardFile |} ]%string.

(** The entries of the table in [getSuggestedFix]. *)
Definition fixes : list (string * Fix) :=
  [ ("webgl-antialias-mobile",
     {| fixType := codeFix;
        action := "Set antialias: false for mobile tier";
        patch := Some (lines
          [ "// In createWebGLRenderer function:";
            "const config = {";
            "  canvas,";
            "  antialias: false,  // Mobile GPUs struggle with MSAA";
            "  // ... other config";
            "};" ]);
        risk := safe |});
    ("webgl-preserve-drawing-buffer",
     {| fixType := codeFix;
        action := "Set preserveDrawingBuffer: false";
        patch := Some (lines
          [ "const config = {";
            "  preserveDrawingBuffer: false,  // Prevents iOS memory leaks";
            "  // ... other config";
            "};" ]);
        risk := safe |});
    ("ios-power-preference",
     {| fixType := codeFix;
        action := "Use low-power preference on iOS";
        patch := Some (lines
          [ "const isIOS = /iPad|iPhone|iPod/.test(navigator.userAgent);";
            "const config = {";
            "  powerPreference: isIOS ? 'low-power' : 'high-performance',";
            "  // ... other config";
            "};" ]);
        risk := safe |});
    ("mobile-pixel-ratio",
     {| fixType := codeFix;
        action := "Clamp device pixel ratio";
        patch := Some (lines
          [ "const DPR = tier === 'mobile-low' ? 1.0 : ";
            "           tier === 'mobile-balanced' ? Math.min(1.3, window.devicePixelRatio) :";
            "           Math.min(2.0, window.devicePixelRatio);";
            "renderer.setPixelRatio(DPR);" ]);
        risk := safe |});
    ("context-loss-handler",
     {| fixType := codeFix;
        action := "Add WebGL context loss handlers";
        patch := Some (lines
          [ "canvas.addEventListener('webglcontextlost', (e) => {";
            "  e.preventDefault();";
            "  console.error('WebGL context lost');";
            "  localStorage.setItem('webglContextLost', 'true');";
            "}, false);";
            "";
            "canvas.addEventListener('webglcontextrestored', () => {";
            "  console.log('WebGL context restored');";
            "  localStorage.removeItem('webglContextLost');";
            "  location.reload();";
            "}, false);" ]);
        risk := safe |});
    ("mobile-shadows-disabled",
     {| fixType := codeFix;
        action := "Disable shadows on mobile LOW tier";
        patch := Some "SHADOWS_ENABLED: qualityTier !== 'LOW',";
        risk := safe |});
    ("mobile-post-processing-disabled",
     {| fixType := codeFix;
        action := "Disable post-processing on mobile LOW tier";
        patch := Some (lines
          [ "ao: qualityTier === 'HIGH',";
            "bloom: qualityTier !== 'LOW',";
            "ssgi: false,";
            "ssr: false," ]);
        risk := safe |}) ]%string.

(** [getSuggestedFix(ruleId)]: [fixes[ruleId] || null], for a rule id
    that is not the name of a property every object inherits
    ([constructor], [toString] and the like, for which the source
    yields that property).  The validators pass the ids of their own
    rules, and none of those is such a name. *)
Fixpoint lookupFix (table : list (string * Fix)) (ruleId : string)
    : option Fix :=
  match table with
  | [] => None
  | (k, f) :: rest => if String.eqb k ruleId then Some f else lookupFix rest ruleId
  end.

Definition getSuggestedFix (ruleId : string) : option Fix :=
  lookupFix fixes ruleId.

(** *** WebGLValidator *)

(** [setting.replace(/[:\s]/g, '-')] on the four settings of
    [checkRendererConfig], which hold a colon and a space and no other
    white space. *)
Fixpoint dashed (setting : string) : string :=
  match setting with
  | EmptyString => EmptyString
  | String c rest =>
      String (if Ascii.eqb c ":" || Ascii.eqb c " " then "-"%char else c)
             (dashed rest)
  end.

(** The issues of the rules of category [webgl] that fail on [code]. *)
Definition ruleIssues (code : string) : list Issue :=
  flat_map
    (fun rule =>
       if check rule code None then []
       else [ {| id := ruleId rule;
                 severity := ruleSeverity rule;
                 category := ruleCategory rule;
                 description := message rule;
                 file := ruleFile rule;
                 suggestedFix := getSuggestedFix (ruleId rule) |} ])
    (List.filter (fun r => Category_eqb (ruleCategory r) webgl) validationRules).

Record RequiredCheck : Type := mkRequiredCheck {
  setting : string;
  present : bool;
  checkSeverity : Severity;
  checkMessage : string
}.

Definition requiredChecks (code : string) : list RequiredCheck :=
  [ {| setting := "antialias: false";
       present := includes code "antialias: false"
                  || includes code "antialias:false";
       checkSeverity := critical;
       checkMessage := "Mobile renderer must have antialias: false" |};
    {| setting := "stencil: false";
       present := includes code "stencil: false"
                  || includes code "stencil:false";
       checkSeverity := medium;
       checkMessage := "Stencil buffer should be disabled to save memory" |};
    {| setting := "preserveDrawingBuffer: false";
       present := negb (includes code "preserveDrawingBuffer: true");
       checkSeverity := high;
       checkMessage := "preserveDrawingBuffer: true causes iOS memory leaks" |};
    {| setting := "logarithmicDepthBuffer: false";
       present := includes code "logarithmicDepthBuffer: false"
                  || negb (includes code "logarithmicDepthBuffer: true");
       checkSeverity := medium;
       checkMessage := "Logarithmic depth buffer is expensive on mobile" |} ]%string.

(** [checkRendererConfig(code, file)] *)
Definition checkRendererConfig (code file : string) : list Issue :=
  flat_map
    (fun c =>
       if present c then []
       else [ {| id := "renderer-" ++ dashed (setting c);
                 severity := checkSeverity c;
                 category := webgl;
                 description := checkMessage c;
                 file := file;
                 suggestedFix :=
                   Some {| fixType := codeFix;
                           action := "Add " ++ setting c ++ " to renderer config";
                           patch := Some (setting c);
                           risk := safe |} |} ])
    (requiredChecks code).

(** [checkContextLossHandling(code, file)] *)
Definition checkContextLossHandling (code file : string) : list Issue :=
  let hasContextLostHandler := includes code "webglcontextlost" in
  let hasPreventDefault := includes code "preventDefault" in
  let hasContextRestoredHandler := includes code "webglcontextrestored" in
  (if negb hasContextLostHandler then
     [ {| id := "missing-context-lost-handler"; severity := critical;
          category := webgl;
          description := "Missing WebGL context lost event handler";
          file := file;
          suggestedFix := getSuggestedFix "context-loss-handler" |} ]
   else [])
  ++ (if hasContextLostHandler && negb hasPreventDefault then
        [ {| id := "missing-prevent-default"; severity := high;
             category := webgl;
             description := "Context lost handler must call preventDefault()";
             file := file;
             suggestedFix :=
               Some {| fixType := codeFix;
                       action := "Add e.preventDefault() to context lost handler";
                       patch := Some "e.preventDefault();";
                       risk := safe |} |} ]
      else [])
  ++ (if negb hasContextRestoredHandler then
        [ {| id := "missing-context-restored-handler"; severity := high;
             category := webgl;
             description := "Missing WebGL context restored event handler";
             file := file;
             suggestedFix := getSuggestedFix "context-loss-handler" |} ]
      else []).

(** [checkPixelRatioSettings(code, file)] *)
Definition checkPixelRatioSettings (code file : string) : list Issue :=
  let hasPixelRatioClamp :=
    includes code "Math.min" && includes code "devicePixelRatio"
    && includes code "setPixelRatio" in
  (if negb hasPixelRatioClamp then
     [ {| id := "missing-pixel-ratio-clamp"; severity := high;
          category := webgl;
          description :=
            "Device pixel ratio must be clamped for mobile performance";
          file := file;
          suggestedFix := getSuggestedFix "mobile-pixel-ratio" |} ]
   else [])
  ++ (if includes code "isMobile" || includes code "tier === 'mobile" then
        let hasLowDPR := includes code "1.0" || includes code "DPR = 1" in
        let hasMediumDPR :=
          includes code "1.25" || includes code "1.3" || includes code "1.5" in
        if negb hasLowDPR && negb hasMediumDPR then
          [ {| id := "mobile-dpr-too-high"; severity := medium;
               category := webgl;
               description :=
                 "Mobile pixel ratio should be <= 1.5 for best performance";
               file := file;
               suggestedFix :=
                 Some {| fixType := codeFix;
                         action :=
                           "Clamp mobile DPR to 1.0 (LOW) or 1.3 (BALANCED)";
                         patch :=
                           Some "const DPR = tier === 'mobile-low' ? 1.0 : Math.min(1.3, window.devicePixelRatio);";
                         risk := safe |} |} ]
        else []
      else []).

(** What [fs.readFile] gives: the text, or an error with its message. *)
Inductive ReadResult : Type :=
| FileText (code : string)
| ReadError (errorMessage : string).

(** The object a validator returns. *)
Record ValidatorResult : Type := mkValidatorResult {
  validator : string;
  passed : bool;
  issues : list Issue;
  criticalCount : nat;
  highCount : nat
}.

Definition count (s : Severity) (l : list Issue) : nat :=
  length (List.filter (fun i => Severity_eqb (severity i) s) l).

(** [path.join(projectRoot, 'src/graphics/makeRenderer.ts')].
    [path.join] puts a separator between its arguments and normalises
    the result; for a project root that is a normalised path other
    than the current directory, without a trailing separator, such as
    an absolute path, the result is the plain concatenation. *)
Definition rendererPath (projectRoot : string) : string :=
  projectRoot ++ "/" ++ rendererFile.

(** [WebGLValidator.validate()], given what reading the renderer file
    yields. *)
Definition validateWebGL (projectRoot : string) (read : ReadResult)
    : ValidatorResult :=
  let file := rendererPath projectRoot in
  let issues :=
    match read with
    | FileText code =>
        ruleIssues code
        ++ checkRendererConfig code file
        ++ checkContextLossHandling code file
        ++ checkPixelRatioSettings code file
    | ReadError errorMessage =>
        [ {| id := "file-read-error"; severity := critical;
             category := webgl;
             description := "Failed to read renderer file: " ++ errorMessage;
             file := file;
             suggestedFix := None |} ]
    end in
  {| validator := "webgl";
     passed := (count critical issues =? 0)%nat;
     issues := issues;
     criticalCount := count critical issues;
     highCount := count high issues |}.

End Validation.

(** ** components/SingleEnvironmentMesh.tsx: what the component does to
    the meshes of the four environment models once they are loaded

    Geometries live in the store of [SimplifyGeometry]; materials and
    textures are objects too, shared between meshes, and live in stores
    of their own.  A model is given by its objects in the order
    [traverse] visits them. *)
Module EnvironmentMesh.
Import SimplifyGeometry.

Inductive Side : Type :=
| FrontSide
| BackSide
| DoubleSide.

(** A texture, as far as the component touches it: [needsUpdate = true]
    is a setter that advances the version. *)
Record Texture : Type := mkTexture {
  textureVersion : nat
}.

(** A material: its shadow side ([null] unless set), whether it holds a
    normal, roughness and metalness map, its colour map, and its
    version, which [needsUpdate = true] advances. *)
Record Material : Type := mkMaterial {
  shadowSide : option Side;
  normalMap : bool;
  roughnessMap : bool;
  metalnessMap : bool;
  map : option positive;
  version : nat
}.

(** [mesh.material]: nothing, one material, or an array of them. *)
Inductive MaterialSlot : Type :=
| NoMaterial
| OneMaterial (m : positive)
| ManyMaterials (ms : list positive).

(** [Array.isArray(m) ? m : [m]] *)
Definition materialsOf (slot : MaterialSlot) : list positive :=
  match slot with
  | NoMaterial => []
  | OneMaterial m => [m]
  | ManyMaterials ms => ms
  end.

Record SceneMesh : Type := mkSceneMesh {
  name : string;
  mesh : Mesh;
  castShadow : bool;
  receiveShadow : bool;
  material : MaterialSlot
}.

(** An object [traverse] visits: a mesh, or something else. *)
Inductive Child : Type :=
| OtherObject
| MeshObject (m : SceneMesh).

(** The renderer [useThree] hands over, by [gl.shadowMap?.enabled]
    ([None]: no shadow map, or no value). *)
Record Gl : Type := mkGl {
  shadowMapEnabled : option bool
}.

(** [window.innerWidth < 600 || window.innerHeight < 600] *)
Definition isSmallViewport (innerWidth innerHeight : Z) : bool :=
  (innerWidth <? 600) || (innerHeight <? 600).

(** [tier.startsWith('mobile') || PerfFlags.isMobile || isSmallViewport] *)
Definition isMobile (tier : string) (perfFlagsIsMobile : bool)
    (innerWidth innerHeight : Z) : bool :=
  JsRegex.startsWith "mobile" tier || perfFlagsIsMobile
  || isSmallViewport innerWidth innerHeight.

(** [gl && gl.shadowMap?.enabled !== false && !isMobile] *)
Definition shadowsEnabled (gl : option Gl) (mobile : bool) : bool :=
  match gl with
  | None => false
  | Some g =>
      match shadowMapEnabled g with
      | Some false => false
      | _ => negb mobile
      end
  end.

Section Scene.
Context {ops : ThreeOps}.

(** The three stores. *)
Record Stores : Type := mkStores {
  heap : Heap;
  materials : gmap positive Material;
  textures : gmap positive Texture
}.

(** The body of [materials.forEach] in the Others2 effect, on the
    material behind [ref].  [None]: the reference, or that of its
    colour map, leads to no object. *)
Definition configureMaterial (shadows : bool) (ref : positive) (st : Stores)
    : option Stores :=
  match materials st !! ref with
  | None => None
  | Some mat =>
      let side := if shadows then Some FrontSide else shadowSide mat in
      let mat' :=
        {| shadowSide := side;
           normalMap := false;        (* [delete mat.normalMap] *)
           roughnessMap := false;
           metalnessMap := false;
           map := map mat;
           version := S (version mat) |} in
      match map mat with
      | None =>
          Some (mkStores (heap st) (<[ref := mat']> (materials st)) (textures st))
      | Some t =>
          match textures st !! t with
          | None => None
          | Some tex =>
              Some (mkStores (heap st)
                      (<[ref := mat']> (materials st))
                      (<[t := mkTexture (S (textureVersion tex))]> (textures st)))
          end
      end
  end.

Fixpoint configureMaterials (shadows : bool) (refs : list positive)
    (st : Stores) : option Stores :=
  match refs with
  | [] => Some st
  | r :: rest =>
      match configureMaterial shadows r st with
      | None => None
      | Some st' => configureMaterials shadows rest st'
      end
  end.

(** The counters an effect logs when it is done. *)
Record Counts : Type := mkCounts {
  meshCount : nat;
  shadowCount : nat
}.

(** The callback of [others.scene.traverse] on one object. *)
Definition configureOthersChild (fuel : nat) (mobile shadows : bool)
    (child : Child) (st : Stores) (c : Counts)
    : option (Child * Stores * Counts) :=
  match child with
  | OtherObject => Some (OtherObject, st, c)
  | MeshObject m =>
      match simplifyMesh fuel mobile (mesh m) (heap st) with
      | None => None
      | Some (mesh', heap') =>
          let st1 := mkStores heap' (materials st) (textures st) in
          match configureMaterials shadows (materialsOf (material m)) st1 with
          | None => None
          | Some st2 =>
              Some (MeshObject
                      {| name := name m;
                         mesh := mesh';
                         castShadow := if shadows then true else castShadow m;
                         receiveShadow :=
                           if shadows then true else receiveShadow m;
                         material := material m |},
                    st2,
                    {| meshCount := S (meshCount c);
                       shadowCount :=
                         if shadows then S (shadowCount c) else shadowCount c |})
          end
      end
  end.

(** [others.scene.traverse(...)] over the objects of the model. *)
Fixpoint configureOthers (fuel : nat) (mobile shadows : bool)
    (children : list Child) (st : Stores) (c : Counts)
    : option (list Child * Stores * Counts) :=
  match children with
  | [] => Some ([], st, c)
  | child :: rest =>
      match configureOthersChild fuel mobile shadows child st c with
      | None => None
      | Some (child', st', c') =>
          match configureOthers fuel mobile shadows rest st' c' with
          | None => None
          | Some (rest', st'', c'') => Some (child' :: rest', st'', c'')
          end
      end
  end.

(** The shadow side of every material of a slot becomes [FrontSide]
    (the roof and stages effects). *)
Fixpoint frontSides (refs : list positive) (ms : gmap positive Material)
    : option (gmap positive Material) :=
  match refs with
  | [] => Some ms
  | r :: rest =>
      match ms !! r with
      | None => None
      | Some mat =>
          frontSides rest
            (<[r := {| shadowSide := Some FrontSide;
                       normalMap := normalMap mat;
                       roughnessMap := roughnessMap mat;
                       metalnessMap := metalnessMap mat;
                       map := map mat;
                       version := version mat |}]> ms)
      end
  end.

(** The callback of [roof.scene.traverse] and [stages.scene.traverse]. *)
Definition configureShadowChild (shadows : bool) (child : Child)
    (st : Stores) (count : nat) : option (Child * Stores * nat) :=
  match child with
  | OtherObject => Some (OtherObject, st, count)
  | MeshObject m =>
      if shadows then
        match frontSides (materialsOf (material m)) (materials st) with
        | None => None
        | Some ms =>
            Some (MeshObject
                    {| name := name m; mesh := mesh m;
                       castShadow := true; receiveShadow := true;
                       material := material m |},
                  mkStores (heap st) ms (textures st),
                  S count)
        end
      else Some (MeshObject m, st, S count)
  end.

Fixpoint configureShadowModel (shadows : bool) (children : list Child)
    (st : Stores) (count : nat) : option (list Child * Stores * nat) :=
  match children with
  | [] => Some ([], st, count)
  | child :: rest =>
      match configureShadowChild shadows child st count with
      | None => None
      | Some (child', st', count') =>
          match configureShadowModel shadows rest st' count' with
          | None => None
          | Some (rest', st'', count'') => Some (child' :: rest', st'', count'')
          end
      end
  end.

(** Readings for Part II. *)

(** The meshes among the objects. *)
Definition meshesOf (children : list Child) : list SceneMesh :=
  flat_map (fun c => match c with MeshObject m => [m] | OtherObject => [] end)
    children.

(** The materials the meshes refer to, with repetition. *)
Definition materialRefs (children : list Child) : list positive :=
  flat_map (fun m => materialsOf (material m)) (meshesOf children).

(** Material [mat] after the Others2 effect has gone over it [n]
    times. *)
Definition touched (shadows : bool) (n : nat) (mat : Material) : Material :=
  match n with
  | O => mat
  | S _ =>
      {| shadowSide := if shadows then Some FrontSide else shadowSide mat;
         normalMap := false;
         roughnessMap := false;
         metalnessMap := false;
         map := map mat;
         version := version mat + n |}
  end.

(** The references of [refs] lead to materials, and their colour maps
    to textures. *)
Definition materialsPresent (refs : list positive) (st : Stores) : Prop :=
  forall r, In r refs ->
    exists mat, materials st !! r = Some mat /\
      forall t, map mat = Some t -> exists tex, textures st !! t = Some tex.

(** The geometries of the meshes are objects of the store. *)
Definition geometriesPresent (children : list Child) (h : Heap) : Prop :=
  forall m l, In m (meshesOf children) -> geometry (mesh m) = Some l ->
    exists v, viewAt h l = Some v.

(** Every reference of the model leads to an object. *)
Definition wellFormed (children : list Child) (st : Stores) : Prop :=
  geometriesPresent children (heap st) /\
  materialsPresent (materialRefs children) st.

(** What the Others2 effect makes of one object, between the store
    [h] it found and the store [h'] it left: a mesh of more than
    50,000 vertices on a mobile device refers to a new geometry with
    the positions of the old one and recomputed normals and bounds;
    every other mesh refers to the geometry it had. *)
Definition configured (mobile shadows : bool) (h h' : Heap)
    (child child' : Child) : Prop :=
  match child, child' with
  | OtherObject, OtherObject => True
  | MeshObject m, MeshObject m' =>
      name m' = name m /\ material m' = material m /\
      castShadow m' = (if shadows then true else castShadow m) /\
      receiveShadow m' = (if shadows then true else receiveShadow m) /\
      match geometry (mesh m) with
      | None => geometry (mesh m') = None
      | Some l =>
          exists v,
            viewAt h l = Some v /\
            if mobile && (50000 <? vertexCount v) then
              exists l' v',
                geometry (mesh m') = Some l' /\
                geometries h !! l' = None /\
                viewAt h' l' = Some v' /\
                positions v' = positions v /\
                recomputed v'
            else geometry (mesh m') = Some l
      end
  | _, _ => False
  end.

(** Loop turns that suffice for every geometry of the model. *)
Definition enoughFuel (children : list Child) (st : Stores) (fuel : nat)
    : Prop :=
  forall m l v, In m (meshesOf children) -> geometry (mesh m) = Some l ->
    viewAt (heap st) l = Some v -> (fuelFor v <= fuel)%nat.

End Scene.

(** A model of two meshes that share the large geometry of
    [largeScene] and one material with a colour map, and a group
    between them. *)
Definition sharedMaterial : Material :=
  {| shadowSide := None; normalMap := true; roughnessMap := true;
     metalnessMap := false; map := Some 1%positive; version := O |}.

Definition demoStores : Stores (ops := plainOps) :=
  mkStores (ops := plainOps) largeScene
    {[ 1%positive := sharedMaterial ]}
    {[ 1%positive := mkTexture O ]}.

Definition demoModel : list Child :=
  [ MeshObject {| name := "wall"; mesh := {| geometry := Some 1%positive |};
                  castShadow := false; receiveShadow := false;
                  material := OneMaterial 1%positive |};
    OtherObject;
    MeshObject {| name := "wall-copy";
                  mesh := {| geometry := Some 1%positive |};
                  castShadow := false; receiveShadow := false;
                  material := ManyMaterials [1%positive; 1%positive] |} ].

End EnvironmentMesh.

(** ** agent/auto-fixer.mjs: the fixers

    A text is the UTF-8 encoding of the JavaScript string [fs.readFile]
    hands over.  The literals the fixers look for are ASCII and an
    ASCII byte is never part of a longer character, so a literal occurs
    in the string where it occurs in the bytes; the white space [\s]
    matches is listed with its encodings.  Lines printed to the console
    are not part of the model. *)
Module AutoFixer.
Import Validation.

(** *** The regular expressions of the fixers *)

Definition bytes (codes : list nat) : string :=
  string_of_list_ascii (List.map ascii_of_nat codes).

(** The characters [\s] matches: U+0009 to U+000D, U+0020, U+00A0,
    U+1680, U+2000 to U+200A, U+2028, U+2029, U+202F, U+205F, U+3000
    and U+FEFF. *)
Definition whiteSpaces : list string :=
  List.map bytes
    [ [9]; [10]; [11]; [12]; [13]; [32]; [194; 160]; [225; 154; 128];
      [226; 128; 128]; [226; 128; 129]; [226; 128; 130]; [226; 128; 131];
      [226; 128; 132]; [226; 128; 133]; [226; 128; 134]; [226; 128; 135];
      [226; 128; 136]; [226; 128; 137]; [226; 128; 138];
      [226; 128; 168]; [226; 128; 169]; [226; 128; 175];
      [226; 129; 159]; [227; 128; 128]; [239; 187; 191] ]%nat.

(** What follows the literal [p] at the start of [s]. *)
Fixpoint dropPrefix (p s : string) : option string :=
  match p, s with
  | EmptyString, _ => Some s
  | String _ _, EmptyString => None
  | String a p', String b s' =>
      if Ascii.eqb a b then dropPrefix p' s' else None
  end.

(** What follows one of the literals [ps] at the start of [s]. *)
Fixpoint dropOneOf (ps : list string) (s : string) : option string :=
  match ps with
  | [] => None
  | p :: rest =>
      match dropPrefix p s with
      | Some r => Some r
      | None => dropOneOf rest s
      end
  end.

(** [\s*]: greedy; [fuel] bounds the characters skipped. *)
Fixpoint skipSpacesFuel (fuel : nat) (s : string) : string :=
  match fuel with
  | O => s
  | S n =>
      match dropOneOf whiteSpaces s with
      | Some r => skipSpacesFuel n r
      | None => s
      end
  end.

Definition skipSpaces (s : string) : string :=
  skipSpacesFuel (String.length s) s.

(** [/lit1\s*lit2/] at the start of [s], for a [lit2] that does not
    start with white space: what follows the match. *)
Definition matchSpaced (lit1 lit2 s : string) : option string :=
  match dropPrefix lit1 s with
  | None => None
  | Some r => dropPrefix lit2 (skipSpaces r)
  end.

(** [/powerPreference:\s*[q]high-performance[q]/] at the start of
    [s], where [q] stands for the class of the two quote characters. *)
Definition matchPowerPreference (s : string) : option string :=
  match dropPrefix "powerPreference:" s with
  | None => None
  | Some r =>
      match dropOneOf ["'"; dq]%string (skipSpaces r) with
      | None => None
      | Some r1 =>
          match dropPrefix "high-performance" r1 with
          | None => None
          | Some r2 => dropOneOf ["'"; dq]%string r2
          end
      end
  end.

(** [[^=]*=]: up to and with the first equals sign. *)
Fixpoint afterEquals (s : string) : option string :=
  match s with
  | EmptyString => None
  | String c r => if Ascii.eqb c "=" then Some r else afterEquals r
  end.

(** [/(const config[^=]*=\s*{)/] at the start of [s] *)
Definition matchConfigOpen (s : string) : option string :=
  match dropPrefix "const config" s with
  | None => None
  | Some r =>
      match afterEquals r with
      | None => None
      | Some r1 => dropPrefix "{" (skipSpaces r1)
      end
  end.

(** [code.replace(/.../g, replacement)] for an expression that matches
    no empty text, given by its matcher [m], and a replacement without
    a dollar sign.  [fuel] bounds the steps. *)
Fixpoint replaceAllFuel (fuel : nat) (m : string -> option string)
    (replacement code : string) : string :=
  match fuel with
  | O => code
  | S n =>
      match m code with
      | Some rest => replacement ++ replaceAllFuel n m replacement rest
      | None =>
          match code with
          | EmptyString => EmptyString
          | String c rest => String c (replaceAllFuel n m replacement rest)
          end
      end
  end.

Definition replaceAll (m : string -> option string)
    (replacement code : string) : string :=
  replaceAllFuel (S (String.length code)) m replacement code.

(** [code.replace(/(...)/, '$1' + insertion)]: the first match stays
    and [insertion] follows it. *)
Fixpoint insertAfterFirst (m : string -> option string)
    (insertion code : string) : string :=
  match m code with
  | Some rest =>
      substring 0 (String.length code - String.length rest) code
      ++ insertion ++ rest
  | None =>
      match code with
      | EmptyString => EmptyString
      | String c rest => String c (insertAfterFirst m insertion rest)
      end
  end.

(** [code.replace(/(lit)/, insertion + '$1')]: [insertion] goes before
    the first [lit]. *)
Fixpoint insertBeforeFirst (lit insertion code : string) : string :=
  match dropPrefix lit code with
  | Some _ => insertion ++ code
  | None =>
      match code with
      | EmptyString => EmptyString
      | String c rest => String c (insertBeforeFirst lit insertion rest)
      end
  end.

(** *** The eight fixers, on the text of the file

    [None]: the fixer writes nothing and returns [false]; [Some code']:
    it writes [code'] and returns [true]. *)

Definition fixAntialiasingText (code : string) : option string :=
  if includes code "new THREE.WebGLRenderer" then
    let code1 :=
      replaceAll (matchSpaced "antialias:" "true") "antialias: false" code in
    let code2 :=
      if negb (includes code1 "antialias:") then
        insertAfterFirst matchConfigOpen
          (newline ++ "    antialias: false,") code1
      else code1 in
    Some code2
  else None.

Definition fixPreserveDrawingBufferText (code : string) : option string :=
  if includes code "preserveDrawingBuffer: true" then
    Some (replaceAll (matchSpaced "preserveDrawingBuffer:" "true")
            "preserveDrawingBuffer: false" code)
  else None.

Definition fixStencilBufferText (code : string) : option string :=
  if negb (includes code "stencil:")
     && includes code "new THREE.WebGLRenderer" then
    Some (insertAfterFirst matchConfigOpen
            (newline ++ "    stencil: false,") code)
  else None.

Definition fixPowerPreferenceText (code : string) : option string :=
  if includes code "isIOS"
     && negb (includes code "powerPreference: 'low-power'") then
    Some (replaceAll matchPowerPreference
            "powerPreference: isIOS ? 'low-power' : 'high-performance'" code)
  else None.

Definition fixPixelRatioText (code : string) : option string :=
  if includes code "setPixelRatio" && negb (includes code "Math.min") then
    Some (replaceAll
            (dropPrefix "renderer.setPixelRatio(window.devicePixelRatio)")
            "renderer.setPixelRatio(Math.min(2.0, window.devicePixelRatio))"
            code)
  else None.

(** The template literal [handler]. *)
Definition handler : string :=
  lines
    [ "";
      "  canvas.addEventListener('webglcontextlost', (e) => {";
      "    e.preventDefault();";
      "    console.error('❌ WebGL context lost');";
      "    localStorage.setItem('webglContextLost', 'true');";
      "  }, false);";
      "";
      "  canvas.addEventListener('webglcontextrestored', () => {";
      "    console.log('✅ WebGL context restored');";
      "    localStorage.removeItem('webglContextLost');";
      "    location.reload();";
      "  }, false);";
      "" ]%string.

Definition addContextLossHandlerText (code : string) : option string :=
  if negb (includes code "webglcontextlost") then
    Some (insertBeforeFirst "return renderer;"
            (handler ++ newline ++ "  ") code)
  else None.

Definition fixShadowsOnMobileText (code : string) : option string :=
  if includes code "SHADOWS_ENABLED" then
    Some (replaceAll (matchSpaced "SHADOWS_ENABLED:" "true")
            "SHADOWS_ENABLED: qualityTier !== 'LOW'" code)
  else None.

Definition fixPostProcessingText (code : string) : option string :=
  let code1 :=
    if includes code "ao:"
       && negb (includes code "ao: qualityTier === 'HIGH'") then
      replaceAll (matchSpaced "ao:" "true") "ao: qualityTier === 'HIGH'" code
    else code in
  let code2 :=
    if includes code1 "bloom:"
       && negb (includes code1 "bloom: qualityTier !== 'LOW'") then
      replaceAll (matchSpaced "bloom:" "true")
        "bloom: qualityTier !== 'LOW'" code1
    else code1 in
  Some code2.

(** The table [fixers] of [applyCodeFix], by issue id.  (An id that
    names a property every object inherits, such as [constructor],
    would find that property; no validator produces one.) *)
Definition fixers : list (string * (string -> option string)) :=
  [ ("webgl-antialias-mobile", fixAntialiasingText);
    ("webgl-preserve-drawing-buffer", fixPreserveDrawingBufferText);
    ("webgl-stencil-disabled", fixStencilBufferText);
    ("ios-power-preference", fixPowerPreferenceText);
    ("mobile-pixel-ratio", fixPixelRatioText);
    ("context-loss-handler", addContextLossHandlerText);
    ("mobile-shadows-disabled", fixShadowsOnMobileText);
    ("mobile-post-processing-disabled", fixPostProcessingText) ]%string.

Fixpoint lookupFixer
    (table : list (string * (string -> option string))) (issueId : string)
    : option (string -> option string) :=
  match table with
  | [] => None
  | (k, f) :: rest =>
      if String.eqb k issueId then Some f else lookupFixer rest issueId
  end.

(** *** The fixer on the disk *)

(** What an [await] yields. *)
Inductive Promise (A : Type) : Type :=
| Fulfilled (a : A)
| Rejected (message : string).
Arguments Fulfilled {A} a.
Arguments Rejected {A} message.

(** The platform under the agent: the file system, the clock and the
    [path] module.  A write or copy gives [false] when it is rejected;
    the world may have changed all the same. *)
Class Platform (World : Type) : Type := {
  readFile : string -> World -> ReadResult;
  writeFile : string -> string -> World -> bool * World;
  mkdir : string -> World -> World;
  copyFile : string -> string -> World -> World;
  isoTime : World -> string;
  dateNow : World -> Z;
  sleep : Z -> World -> World;
  pathJoin : string -> string -> string;
  basename : string -> string
}.

(** An entry of [changesLog]. *)
Record Change : Type := mkChange {
  changeTimestamp : string;
  issueId : string;
  changeSeverity : Severity;
  changeDescription : string;
  changeFile : string;
  changeAction : string;
  changeRisk : Risk
}.

(** [changes] of what [applyFixes] returns: a new empty array, or the
    array [changesLog] of the fixer itself. *)
Inductive Changes : Type :=
| NewEmptyArray
| TheChangesLog.

Record FixResult : Type := mkFixResult {
  applied : nat;
  failed : nat;
  changes : Changes
}.

(** [timestamp.replace(/[:.]/g, '-')] *)
Fixpoint dashedTime (s : string) : string :=
  match s with
  | EmptyString => EmptyString
  | String c rest =>
      String (if Ascii.eqb c ":" || Ascii.eqb c "." then "-"%char else c)
             (dashedTime rest)
  end.

Section Fixer.
Context {World : Type} {platform : Platform World}.
Variable projectRoot : string.

Definition backupDir : string := pathJoin projectRoot "agent/backups".

(** [ensureBackupDir()]: an error of [mkdir] is swallowed. *)
Definition ensureBackupDir (w : World) : World := mkdir backupDir w.

(** [createBackup(file)]: an error of [copyFile] is swallowed. *)
Definition createBackup (file : string) (w : World) : World :=
  let timestamp := dashedTime (isoTime w) in
  let fileName := basename file in
  let backupPath :=
    pathJoin backupDir (fileName ++ "." ++ timestamp ++ ".backup") in
  copyFile file backupPath w.

(** A fixer of the table on [file]: it reads, rewrites and writes, and
    returns [false] when one of them throws. *)
Definition onFile (fixer : string -> option string) (file : string)
    (w : World)
    : bool * World :=
  match readFile file w with
  | ReadError _ => (false, w)
  | FileText code =>
      match fixer code with
      | None => (false, w)
      | Some code' => writeFile file code' w
      end
  end.

(** [genericCodeFix(issue)]: it reads the file when the fix has a
    patch, and returns [false] in every case. *)
Definition genericCodeFix (theFix : Fix) (issue : Issue) (w : World)
    : bool * World :=
  match patch theFix with
  | None => (false, w)
  | Some _ =>
      match readFile (file issue) w with
      | FileText _ => (false, w)
      | ReadError _ => (false, w)
      end
  end.

(** [applyCodeFix(issue)], for an issue with the suggested fix [theFix]. *)
Definition applyCodeFix (theFix : Fix) (issue : Issue) (w : World)
    : bool * World :=
  match lookupFixer fixers (id issue) with
  | Some fixer => onFile fixer (file issue) w
  | None => genericCodeFix theFix issue w
  end.

(** [logChange(issue, fix)] *)
Definition logChange (issue : Issue) (theFix : Fix) (log : list Change)
    (w : World) : list Change :=
  log ++ [ {| changeTimestamp := isoTime w;
              issueId := id issue;
              changeSeverity := severity issue;
              changeDescription := description issue;
              changeFile := file issue;
              changeAction := action theFix;
              changeRisk := risk theFix |} ].

(** [applyFix(issue)], on the fixer's [changesLog].  An issue without a
    suggested fix makes [fix.type] throw. *)
Definition applyFix (issue : Issue) (log : list Change) (w : World)
    : Promise bool * list Change * World :=
  match suggestedFix issue with
  | None => (Rejected "TypeError", log, w)
  | Some theFix =>
      match fixType theFix with
      | codeFix =>
          let w1 := createBackup (file issue) w in
          let '(fixed, w2) := applyCodeFix theFix issue w1 in
          (Fulfilled fixed,
           if fixed then logChange issue theFix log w2 else log,
           w2)
      | assetFix => (Fulfilled false, log, w)
      end
  end.

(** The filter of [applyFixes]. *)
Definition fixable (i : Issue) : bool :=
  match suggestedFix i with
  | None => false
  | Some theFix =>
      match risk theFix with
      | safe =>
          Severity_eqb (severity i) critical || Severity_eqb (severity i) high
      | moderate => false
      end
  end.

(** The loop of [applyFixes]. *)
Fixpoint applyEach (issues : list Issue) (appliedSoFar failedSoFar : nat)
    (log : list Change) (w : World) : nat * nat * list Change * World :=
  match issues with
  | [] => (appliedSoFar, failedSoFar, log, w)
  | issue :: rest =>
      match applyFix issue log w with
      | (Fulfilled true, log', w') =>
          applyEach rest (S appliedSoFar) failedSoFar log' w'
      | (Fulfilled false, log', w') =>
          applyEach rest appliedSoFar (S failedSoFar) log' w'
      | (Rejected _, log', w') =>
          applyEach rest appliedSoFar (S failedSoFar) log' w'
      end
  end.

(** [applyFixes(issues)] *)
Definition applyFixes (issues : list Issue) (log : list Change) (w : World)
    : FixResult * list Change * World :=
  let w0 := ensureBackupDir w in
  let fixableIssues := List.filter fixable issues in
  if (length fixableIssues =? 0)%nat then
    ({| applied := 0; failed := 0; changes := NewEmptyArray |}, log, w0)
  else
    let '(a, f, log', w') := applyEach fixableIssues 0 0 log w0 in
    ({| applied := a; failed := f; changes := TheChangesLog |}, log', w').

End Fixer.

(** *** Readings for Part II *)

(** The character [a] does not occur in [w]. *)
Fixpoint avoids (a : ascii) (w : string) : Prop :=
  match w with
  | EmptyString => True
  | String x w' => Ascii.eqb x a = false /\ avoids a w'
  end.

(** The WebGL validator reports an issue with this id on the text. *)
Definition reported (projectRoot code issueId : string) : Prop :=
  In issueId
    (List.map id (issues (validateWebGL projectRoot (FileText code)))).

(** The issues about the context-loss handlers. *)
Definition contextLossIds : list string :=
  [ "context-loss-handler"; "missing-context-lost-handler";
    "missing-prevent-default"; "missing-context-restored-handler" ]%string.

(** The table [fixers] has an entry under the id of the issue. *)
Definition hasFixer (i : Issue) : bool :=
  match lookupFixer fixers (id i) with
  | Some _ => true
  | None => false
  end.

(** The three issues of the WebGL validator that have a fixer of their
    own and pass the filter of [applyFixes]. *)
Definition fixedByTable : list string :=
  [ "webgl-antialias-mobile"; "webgl-preserve-drawing-buffer";
    "context-loss-handler" ]%string.

Definition inTable (i : Issue) : bool :=
  existsb (String.eqb (id i)) fixedByTable.

(** What [logChange] records of an issue and its fix. *)
Definition records (c : Change) (i : Issue) : Prop :=
  exists theFix,
    suggestedFix i = Some theFix /\
    fixType theFix = codeFix /\
    issueId c = id i /\
    changeSeverity c = severity i /\
    changeDescription c = description i /\
    changeFile c = file i /\
    changeAction c = action theFix /\
    changeRisk c = risk theFix.

(** A platform in memory, for examples: the files by path, a clock
    that stands still, and paths joined by a slash. *)
#[export] Instance memoryPlatform : Platform (gmap string string) := {|
  readFile := fun file w =>
    match w !! file with
    | Some code => FileText code
    | None => ReadError "ENOENT"
    end;
  writeFile := fun file code w => (true, <[file := code]> w);
  mkdir := fun _ w => w;
  copyFile := fun from to w =>
    match w !! from with
    | Some code => <[to := code]> w
    | None => w
    end;
  isoTime := fun _ => "2025-01-01T00:00:00.000Z";
  dateNow := fun _ => 0;
  sleep := fun _ w => w;
  pathJoin := fun a b => (a ++ "/" ++ b)%string;
  basename := fun file => file
|}.

End AutoFixer.

(** ** agent/validator.mjs, agent/mobile-optimizer-agent.mjs and
    agent/run-mobile-agent.mjs: the validation suite, the agent's loop
    and its command line

    The six validators are given by what their [validate()] does to the
    world; of the object one returns the suite reads [issues] alone.
    Lines printed to the console are not part of the model, and of
    [generateReport] only that it writes, and may fail to. *)
Module Agent.
Import Validation AutoFixer.

(** [summary] of a validation; [quickValidate] leaves the last three
    out. *)
Record Summary : Type := mkSummary {
  total : nat;
  criticalTotal : nat;
  highTotal : option nat;
  mediumTotal : option nat;
  lowTotal : option nat
}.

Section Suite.
Context {World : Type} {platform : Platform World}.
Context {Result : Type}.

(** An entry of [results]: what the validator returned, or the object
    [validate] puts in its place when it threw. *)
Inductive ResultEntry : Type :=
| ValidatorReturned (result : Result)
| ValidatorFailed (validator : string) (error : string).

Record ValidationResult : Type := mkValidationResult {
  passed : bool;
  timestamp : string;
  results : list (string * ResultEntry);
  issues : list Issue;
  summary : Summary
}.

(** [this.validators], with [issues] of a result. *)
Class Validators : Type := {
  resultIssues : Result -> list Issue;
  webglValidator : World -> Promise Result * World;
  performanceValidator : World -> Promise Result * World;
  memoryValidator : World -> Promise Result * World;
  cssValidator : World -> Promise Result * World;
  assetValidator : World -> Promise Result * World;
  lighthouseValidator : World -> Promise Result * World
}.
Context {validators : Validators}.

(** [Object.entries(this.validators)] *)
Definition entries : list (string * (World -> Promise Result * World)) :=
  [ ("webgl", webglValidator);
    ("performance", performanceValidator);
    ("memory", memoryValidator);
    ("css", cssValidator);
    ("asset", assetValidator);
    ("lighthouse", lighthouseValidator) ]%string.

(** [fastValidators.map(name => this.validators[name])] *)
Definition fastEntries : list (string * (World -> Promise Result * World)) :=
  [ ("webgl", webglValidator);
    ("performance", performanceValidator);
    ("memory", memoryValidator) ]%string.

(** The loop of [validate]. *)
Fixpoint validateLoop (vs : list (string * (World -> Promise Result * World)))
    (results : list (string * ResultEntry)) (allIssues : list Issue)
    (w : World) : list (string * ResultEntry) * list Issue * World :=
  match vs with
  | [] => (results, allIssues, w)
  | (name, validate) :: rest =>
      match validate w with
      | (Fulfilled result, w') =>
          validateLoop rest (results ++ [(name, ValidatorReturned result)])
            (allIssues ++ resultIssues result) w'
      | (Rejected message, w') =>
          validateLoop rest (results ++ [(name, ValidatorFailed name message)])
            allIssues w'
      end
  end.

(** The loop of [quickValidate]: a validator that throws leaves no
    entry. *)
Fixpoint quickValidateLoop
    (vs : list (string * (World -> Promise Result * World)))
    (results : list (string * ResultEntry)) (allIssues : list Issue)
    (w : World) : list (string * ResultEntry) * list Issue * World :=
  match vs with
  | [] => (results, allIssues, w)
  | (name, validate) :: rest =>
      match validate w with
      | (Fulfilled result, w') =>
          quickValidateLoop rest
            (results ++ [(name, ValidatorReturned result)])
            (allIssues ++ resultIssues result) w'
      | (Rejected _, w') => quickValidateLoop rest results allIssues w'
      end
  end.

(** [validate()] *)
Definition validate (w : World) : ValidationResult * World :=
  let '(results, allIssues, w') := validateLoop entries [] [] w in
  let criticalIssues := count critical allIssues in
  ({| passed := (criticalIssues =? 0)%nat;
      timestamp := isoTime w';
      results := results;
      issues := allIssues;
      summary := {| total := length allIssues;
                    criticalTotal := criticalIssues;
                    highTotal := Some (count high allIssues);
                    mediumTotal := Some (count medium allIssues);
                    lowTotal := Some (count low allIssues) |} |},
   w').

(** [quickValidate()] *)
Definition quickValidate (w : World) : ValidationResult * World :=
  let '(results, allIssues, w') := quickValidateLoop fastEntries [] [] w in
  let criticalIssues := count critical allIssues in
  ({| passed := (criticalIssues =? 0)%nat;
      timestamp := isoTime w';
      results := results;
      issues := allIssues;
      summary := {| total := length allIssues;
                    criticalTotal := criticalIssues;
                    highTotal := None;
                    mediumTotal := None;
                    lowTotal := None |} |},
   w').

(** *** MobileOptimizerAgent *)

(** The configuration the constructor is given: a key is absent, or
    holds a value of its type. *)
Record Options : Type := mkOptions {
  optMaxIterations : option nat;
  optAutoFix : option bool;
  optGithubPush : option bool;
  optQuickMode : option bool
}.

Record Config : Type := mkConfig {
  maxIterations : nat;
  autoFix : bool;
  githubPush : bool;
  quickMode : bool
}.

(** [this.config = { maxIterations: config.maxIterations || 10, ...,
    githubPush: false, ..., ...config }]: the spread comes last, so a
    key the caller gives keeps the caller's value. *)
Definition configOf (config : Options) : Config :=
  let defaults :=
    {| maxIterations :=
         match optMaxIterations config with
         | Some (S n) => S n
         | _ => 10
         end;
       autoFix := match optAutoFix config with Some b => b | None => true end;
       githubPush := false;
       quickMode :=
         match optQuickMode config with Some b => b | None => false end |} in
  {| maxIterations :=
       match optMaxIterations config with
       | Some n => n
       | None => maxIterations defaults
       end;
     autoFix :=
       match optAutoFix config with Some b => b | None => autoFix defaults end;
     githubPush :=
       match optGithubPush config with
       | Some b => b
       | None => githubPush defaults
       end;
     quickMode :=
       match optQuickMode config with
       | Some b => b
       | None => quickMode defaults
       end |}.

Record HistoryEntry : Type := mkHistoryEntry {
  entryIteration : nat;
  entryTimestamp : string;
  validation : ValidationResult;
  fixes : option FixResult
}.

(** The agent: its counter, its history and the [changesLog] of its
    fixer. *)
Record AgentState : Type := mkAgentState {
  iteration : nat;
  history : list HistoryEntry;
  changesLog : list Change
}.

Definition newAgent : AgentState :=
  {| iteration := 0; history := []; changesLog := [] |}.

Record RunResult : Type := mkRunResult {
  success : bool;
  iterations : nat;
  result : option ValidationResult;
  reason : option string;
  duration : Z
}.

(** [generateReport(status)]: the report, its JSON form and the change
    log are written from the agent's state; [false] when a write is
    rejected. *)
Variable generateReport : string -> AgentState -> World -> bool * World.
Variable projectRoot : string.
Variable config : Config.

(** The end of [run]: the report, then the object returned. *)
Definition finish (status : string) (startTime : Z) (s : AgentState)
    (w : World) (ok : bool) (validationResult : option ValidationResult)
    (why : option string) : Promise RunResult * AgentState * World :=
  match generateReport status s w with
  | (false, w') => (Rejected "generateReport", s, w')
  | (true, w') =>
      (Fulfilled {| success := ok;
                    iterations := iteration s;
                    result := validationResult;
                    reason := why;
                    duration := dateNow w' - startTime |},
       s, w')
  end.

(** [history[history.length - 1].fixes = fixResult] *)
Definition setLastFixes (fixResult : FixResult) (h : list HistoryEntry)
    : list HistoryEntry :=
  match List.rev h with
  | [] => []
  | e :: before =>
      List.rev before
      ++ [ {| entryIteration := entryIteration e;
              entryTimestamp := entryTimestamp e;
              validation := validation e;
              fixes := Some fixResult |} ]
  end.

(** The [while] loop of [run] with what follows it; [turns] is
    [maxIterations - iteration], the turns the condition allows. *)
Fixpoint loop (turns : nat) (startTime : Z) (s : AgentState) (w : World)
    : Promise RunResult * AgentState * World :=
  match turns with
  | O =>
      finish "MAX_ITERATIONS" startTime s w false None
        (Some "Max iterations reached")
  | S turns' =>
      let n := S (iteration s) in
      let '(validationResult, w1) :=
        if quickMode config then quickValidate w else validate w in
      let s1 :=
        {| iteration := n;
           history :=
             history s
             ++ [ {| entryIteration := n;
                     entryTimestamp := isoTime w1;
                     validation := validationResult;
                     fixes := None |} ];
           changesLog := changesLog s |} in
      let criticalIssues :=
        List.filter (fun i => Severity_eqb (severity i) critical)
          (issues validationResult) in
      let highIssues :=
        List.filter (fun i => Severity_eqb (severity i) high)
          (issues validationResult) in
      if passed validationResult && (length criticalIssues =? 0)%nat then
        finish "SUCCESS" startTime s1 w1 true (Some validationResult) None
      else
        let actionableIssues := criticalIssues ++ highIssues in
        if (length actionableIssues =? 0)%nat then
          finish "PARTIAL_SUCCESS" startTime s1 w1 false
            (Some validationResult) (Some "No actionable issues")
        else if autoFix config then
          let issuesToFix := firstn 5 actionableIssues in
          let '(fixResult, log', w2) :=
            applyFixes projectRoot issuesToFix (changesLog s1) w1 in
          let s2 :=
            {| iteration := n;
               history := setLastFixes fixResult (history s1);
               changesLog := log' |} in
          if (applied fixResult =? 0)%nat then
            finish "NEEDS_MANUAL_FIX" startTime s2 w2 false
              (Some validationResult) (Some "No auto-fixes available")
          else loop turns' startTime s2 (sleep 2000 w2)
        else
          finish "AUTO_FIX_DISABLED" startTime s1 w1 false
            (Some validationResult) (Some "Auto-fix disabled")
  end.

(** [run()] *)
Definition run (s : AgentState) (w : World)
    : Promise RunResult * AgentState * World :=
  loop (maxIterations config - iteration s) (dateNow w) s w.

(** *** Readings for Part II *)

(** The attempts of one iteration, as the history records them. *)
Definition fixesBounded (e : HistoryEntry) : Prop :=
  match fixes e with
  | Some f => (applied f + failed f <= 5)%nat
  | None => True
  end.

(** How a run that returns has ended; [limit] is the count at which
    the loop gives up. *)
Definition ending (limit : nat) (s' : AgentState) (r : RunResult) : Prop :=
  iterations r = iteration s' /\
  ((success r = true /\ reason r = None /\
    exists v, result r = Some v /\ passed v = true /\
              count critical (issues v) = 0%nat) \/
   (success r = false /\ reason r = Some "No auto-fixes available"%string /\
    autoFix config = true /\
    exists v, result r = Some v /\ (0 < count critical (issues v))%nat) \/
   (success r = false /\ reason r = Some "Auto-fix disabled"%string /\
    autoFix config = false /\
    exists v, result r = Some v /\ (0 < count critical (issues v))%nat) \/
   (success r = false /\ reason r = Some "Max iterations reached"%string /\
    result r = None /\ iteration s' = limit)).

End Suite.

(** A change the fixer may make: a safe fix for a critical or high
    issue. *)
Definition safeChange (c : Change) : Prop :=
  changeRisk c = safe /\
  (changeSeverity c = critical \/ changeSeverity c = high).

(** *** The command line *)

(** [args.includes(flag)] *)
Definition hasFlag (args : list string) (flag : string) : bool :=
  existsb (String.eqb flag) args.

(** The configuration the runner builds from its arguments. *)
Definition cliOptions (args : list string) : Options :=
  let quick := hasFlag args "--quick" || hasFlag args "-q" in
  let dryRun := hasFlag args "--dry-run" || hasFlag args "--no-fix" in
  {| optMaxIterations := Some 10%nat;
     optAutoFix := Some (negb dryRun);
     optGithubPush := Some false;
     optQuickMode := Some quick |}.

Section Runner.
Context {World : Type} {platform : Platform World}.
Context {Result : Type} {validators : @Validators World Result}.
Variable generateReport :
  string -> @AgentState Result -> World -> bool * World.
Variable projectRoot : string.

(** The runner: the exit code, with the agent and the world it leaves.
    With [--help] or [-h] it prints the usage and exits at once. *)
Definition main (args : list string) (w : World)
    : Z * @AgentState Result * World :=
  if hasFlag args "--help" || hasFlag args "-h" then (0, newAgent, w)
  else
    match run generateReport projectRoot (configOf (cliOptions args))
            newAgent w with
    | (Fulfilled r, s, w') => (if success r then 0 else 1, s, w')
    | (Rejected _, s, w') => (1, s, w')
    end.

End Runner.

(** *** Examples

    A suite in memory: the WebGL validator as it is, on the renderer
    file of the project in the current directory; the other five find
    nothing.  And a suite of which every validator throws. *)
Definition nothingFound (name : string) (w : gmap string string)
    : Promise ValidatorResult * gmap string string :=
  (Fulfilled {| validator := name; Validation.passed := true;
                Validation.issues := []; criticalCount := 0;
                highCount := 0 |}, w).

#[export] Instance memoryValidators
    : @Validators (gmap string string) ValidatorResult := {|
  resultIssues := Validation.issues;
  webglValidator := fun w =>
    (Fulfilled (validateWebGL "/app" (readFile (rendererPath "/app") w)), w);
  performanceValidator := nothingFound "performance";
  memoryValidator := nothingFound "memory";
  cssValidator := nothingFound "css";
  assetValidator := nothingFound "asset";
  lighthouseValidator := nothingFound "lighthouse"
|}.

Definition crashingValidators
    : @Validators (gmap string string) ValidatorResult := {|
  resultIssues := Validation.issues;
  webglValidator := fun w => (Rejected "crash", w);
  performanceValidator := fun w => (Rejected "crash", w);
  memoryValidator := fun w => (Rejected "crash", w);
  cssValidator := fun w => (Rejected "crash", w);
  assetValidator := fun w => (Rejected "crash", w);
  lighthouseValidator := fun w => (Rejected "crash", w)
|}.

(** A report that is always written, into one file. *)
Definition memoryReport (status : string)
    (s : @AgentState ValidatorResult) (w : gmap string string)
    : bool * gmap string string :=
  (true, <["agent/reports/mobile-optimization-report.md" := status]> w).

End Agent.

(* ===================================================================== *)
(** * Part II: statements                                                 *)
(* ===================================================================== *)

Module JsRegexFacts.
Import JsRegex.

Lemma lowerChar_idem c : lowerChar (lowerChar c) = lowerChar c.
Proof.
  destruct c as [[] [] [] [] [] [] [] []]; reflexivity.
Qed.

Lemma lower_app s t : lower (s ++ t) = (lower s ++ lower t)%string.
Proof.
  induction s as [|c s IH]; simpl; [reflexivity | now rewrite IH].
Qed.

Lemma prefixCI_spec p s :
  prefixCI p s = true <-> exists post, lower s = (lower p ++ post)%string.
Proof.
  revert s. induction p as [|a p IH]; intros s; simpl.
  - split; [intros _; now exists (lower s) | reflexivity].
  - destruct s as [|b s]; simpl.
    + split; [discriminate | intros [post H]; discriminate].
    + rewrite andb_true_iff, IH. split.
      * intros [Hab [post Hpost]]. exists post.
        apply Ascii.eqb_eq in Hab. now rewrite Hab, Hpost.
      * intros [post H]. injection H as Hc Hs. split.
        -- apply Ascii.eqb_eq. now symmetry.
        -- now exists post.
Qed.

Lemma containsCI_spec p s :
  containsCI p s = true <->
  exists pre post, lower s = (pre ++ lower p ++ post)%string.
Proof.
  induction s as [|b s IH].
  - simpl. rewrite orb_false_r, prefixCI_spec. split.
    + intros [post H]. now exists EmptyString, post.
    + intros [pre [post H]]. destruct pre; simpl in H.
      * now exists post.
      * discriminate.
  - cbn [containsCI]. rewrite orb_true_iff, prefixCI_spec, IH. split.
    + intros [[post H] | [pre [post H]]].
      * now exists EmptyString, post.
      * exists (String (lowerChar b) pre), post. simpl. now rewrite H.
    + intros [pre [post H]]. destruct pre as [|c pre].
      * left. now exists post.
      * right. simpl in H. injection H as _ H. now exists pre, post.
Qed.

End JsRegexFacts.

Module PerfFlagsFacts.
Import PerfFlags.

Lemma isMobileUA_spec s : isMobileUA s = true <-> handheldUA (userAgent s).
Proof.
  unfold isMobileUA, JsRegex.testAnyCI, handheldUA.
  rewrite existsb_exists. split.
  - intros [w [Hin Hc]]. apply JsRegexFacts.containsCI_spec in Hc.
    destruct Hc as [pre [post H]]. now exists w, pre, post.
  - intros [w [pre [post [Hin H]]]]. exists w. split; [exact Hin |].
    apply JsRegexFacts.containsCI_spec. now exists pre, post.
Qed.

Lemma isTouchDevice_spec s : isTouchDevice s = true <-> touchCapable s.
Proof.
  unfold isTouchDevice, touchCapable.
  now rewrite orb_true_iff, Z.ltb_lt.
Qed.

(** A reported device memory is a non-zero number, hence truthy. *)
Lemma reported_memory_truthy m : truthy (gib m) = true.
Proof.
  unfold truthy, gib, Qeq_bool. simpl. reflexivity.
Qed.

Lemma hasLowMemory_spec s : hasLowMemory s = true <-> lowMemoryReported s.
Proof.
  unfold hasLowMemory, lowMemoryReported.
  destruct (deviceMemory s) as [m|].
  - rewrite reported_memory_truthy, Qle_bool_iff. split.
    + intros H. now exists m.
    + intros [m' [E H]]. now inversion E; subst.
  - split; [discriminate | intros [m [E _]]; discriminate].
Qed.

Lemma isSimulatorSize_spec s : isSimulatorSize s = true <-> simulatorSized s.
Proof.
  unfold isSimulatorSize, simulatorSized.
  now rewrite orb_true_iff, !Z.ltb_lt.
Qed.

Lemma isMobile_spec s : isMobile s = true <-> constrainedSignals s.
Proof.
  unfold isMobile, constrainedSignals.
  rewrite !orb_true_iff, andb_true_iff.
  rewrite isMobileUA_spec, isTouchDevice_spec, hasLowMemory_spec,
    isSimulatorSize_spec.
  unfold isNarrowViewport. rewrite Z.ltb_lt. tauto.
Qed.

(** C1.  For every signal tuple the classifier selects the constrained
    tier [mobileLow] exactly when the user agent matches a handheld word,
    or the device is touch capable with a viewport narrower than 768px,
    or a device memory of at most 4 GiB is reported, or the viewport is
    below 600px in width or in height; in every other case it selects
    the unconstrained tier [desktopHigh]. *)
Theorem classifier_constrained_iff (s : Signals) :
  (tier s = mobileLow <-> constrainedSignals s) /\
  (tier s = desktopHigh <-> ~ constrainedSignals s).
Proof.
  rewrite <- isMobile_spec. unfold tier.
  destruct (isMobile s); split; split; intros H;
    try reflexivity; try discriminate; try congruence;
    exfalso; now apply H.
Qed.

(** C8, as stated, fails: the tier type of the classifier cannot be put
    in one-to-one correspondence with the three variants Low, Balanced
    and High, since no map from it reaches all three. *)
Lemma tier_not_three_variants :
  ~ exists f : Tier -> KnowledgeBase.QualityTier,
      forall q, exists t, f t = q.
Proof.
  intros [f Hsurj].
  destruct (Hsurj KnowledgeBase.LOW) as [a Ha].
  destruct (Hsurj KnowledgeBase.BALANCED) as [b Hb].
  destruct (Hsurj KnowledgeBase.HIGH) as [c Hc].
  destruct a, b, c; congruence.
Qed.

(** C8, amended.  The tier produced by classification is an enumerated
    type with exactly two variants, [mobileLow] and [desktopHigh]; every
    classification result is one of the two, both occur, and the
    classifier never yields the BALANCED key of the budget table. *)
Theorem tier_two_variants :
  (forall t : Tier, t = mobileLow \/ t = desktopHigh) /\
  mobileLow <> desktopHigh /\
  (forall s, tier s = mobileLow \/ tier s = desktopHigh) /\
  (exists s, tier s = mobileLow) /\
  (exists s, tier s = desktopHigh) /\
  (forall s, KnowledgeBase.qualityOf (tier s) <> KnowledgeBase.BALANCED).
Proof.
  repeat split.
  - intros []; auto.
  - discriminate.
  - intros s. destruct (tier s); auto.
  - exists phoneSignals. vm_compute. reflexivity.
  - exists desktopSignals. vm_compute. reflexivity.
  - intros s. destruct (tier s); discriminate.
Qed.

End PerfFlagsFacts.

Module KnowledgeBaseFacts.
Import KnowledgeBase.

(** C7.  For each resource-cost field of the tier table (pixel ratio,
    shadow map size, maximal texture size, anisotropy, canvas pixel
    budget) the LOW value is at most the BALANCED value, which is at
    most the HIGH value; the two budgets [PerfFlags] derives itself
    (anisotropy, maximal texture size) are ordered the same way. *)
Theorem tier_costs_monotone (f : CostField) :
  (cost f (performanceTiers LOW) <= cost f (performanceTiers BALANCED))%Q /\
  (cost f (performanceTiers BALANCED) <= cost f (performanceTiers HIGH))%Q /\
  (forall m i m' i',
     PerfFlags.anisotropy (PerfFlags.flagsOf PerfFlags.mobileLow m i)
       <= PerfFlags.anisotropy (PerfFlags.flagsOf PerfFlags.desktopHigh m' i') /\
     PerfFlags.maxTextureSize (PerfFlags.flagsOf PerfFlags.mobileLow m i)
       <= PerfFlags.maxTextureSize (PerfFlags.flagsOf PerfFlags.desktopHigh m' i')).
Proof.
  repeat split; destruct f; simpl; unfold Qle; simpl; lia.
Qed.

End KnowledgeBaseFacts.

Module SimplifyGeometryFacts.
Import SimplifyGeometry.

(** *** The arithmetic of [step] *)

Lemma ceiling_div (n t : Z) :
  0 < t -> Qceiling (inject_Z n / inject_Z t) = - ((- n) / t).
Proof.
  intros Ht. unfold Qceiling. f_equal.
  rewrite Zdiv_Qdiv. apply Qfloor_comp.
  rewrite inject_Z_opp. unfold Qdiv. ring.
Qed.

Lemma targetIndexCount_nonneg (n : Z) (r : Q) :
  0 <= n -> (0 <= r)%Q -> 0 <= targetIndexCountOf n r.
Proof.
  intros Hn Hr. unfold targetIndexCountOf.
  change 0 with (Qfloor (inject_Z 0)). apply Qfloor_resp_le.
  apply Qmult_le_0_compat; [| exact Hr].
  change 0%Q with (inject_Z 0). now rewrite <- Zle_Qle.
Qed.

(** In the exact arithmetic of the model, with a ratio that is not
    negative, [step] is a positive integer, [Infinity], or [NaN] on an
    empty index. *)
Lemma stepOf_cases (n : Z) (r : Q) :
  0 <= n -> (0 <= r)%Q ->
  (n = 0 /\ stepOf n (targetIndexCountOf n r) = NaN) \/
  stepOf n (targetIndexCountOf n r) = Infinity \/
  (exists s, 1 <= s /\ stepOf n (targetIndexCountOf n r) = Num s).
Proof.
  intros Hn Hr.
  pose proof (targetIndexCount_nonneg n r Hn Hr) as Ht.
  unfold stepOf.
  destruct (Z.eqb_spec (targetIndexCountOf n r) 0) as [E | E].
  - destruct (Z.eqb_spec n 0); auto.
  - right. right. eexists. split; [| reflexivity].
    rewrite ceiling_div by lia.
    assert (n <> 0) as Hn0.
    { intros ->. apply E. unfold targetIndexCountOf.
      rewrite Qmult_0_l. reflexivity. }
    assert ((- n) / targetIndexCountOf n r < 0); [| lia].
    apply Z.div_lt_upper_bound; lia.
Qed.



(** *** The decimation loop *)

Lemma decimateLoop_done fuel array n step i acc :
  n <= i -> decimateLoop fuel array n step i acc = Some acc.
Proof.
  intros H. destruct fuel; simpl;
    destruct (Z.ltb_spec i n); try lia; reflexivity.
Qed.

(** With a positive integer step the loop ends within [n - i] turns
    and pushes [kept n s i] whole triangles. *)
Lemma decimateLoop_num array n s :
  1 <= s ->
  forall fuel i acc,
    0 <= i -> (Z.to_nat (n - i) <= fuel)%nat ->
    exists out,
      decimateLoop fuel array n (Num s) i acc = Some (acc ++ out) /\
      Z.of_nat (length out) = 3 * kept n s i.
Proof.
  intros Hs. induction fuel as [|fuel IH]; intros i acc Hi Hfuel.
  - exists []. rewrite decimateLoop_done by lia. rewrite app_nil_r.
    split; [reflexivity |]. unfold kept.
    destruct (Z.ltb_spec (i + 2) n); [lia | reflexivity].
  - cbn [decimateLoop]. destruct (Z.ltb_spec i n) as [Hlt | Hge].
    + destruct (IH (i + s * 3)
                  (if i + 2 <? n
                   then acc ++ [arrayAt array i; arrayAt array (i + 1);
                                arrayAt array (i + 2)]
                   else acc)) as [out [Hrun Hlen]]; [lia | lia |].
      rewrite Hrun. unfold kept in *.
      destruct (Z.ltb_spec (i + 2) n) as [Hpush | Hskip].
      * exists ([arrayAt array i; arrayAt array (i + 1);
                 arrayAt array (i + 2)] ++ out).
        split; [now rewrite app_assoc |].
        rewrite length_app, Nat2Z.inj_add, Hlen. cbn [length].
        destruct (Z.ltb_spec (i + s * 3 + 2) n) as [Hmore | Hlast].
        -- replace (n - 3 - i) with ((n - 3 - (i + s * 3)) + 1 * (3 * s)) by lia.
           rewrite Z.div_add by lia. lia.
        -- rewrite (Z.div_small (n - 3 - i)) by lia. lia.
      * exists out. split; [reflexivity |].
        destruct (Z.ltb_spec (i + s * 3 + 2) n); lia.
    + exists []. rewrite app_nil_r. split; [reflexivity |]. unfold kept.
      destruct (Z.ltb_spec (i + 2) n); [lia | reflexivity].
Qed.

(** With [Infinity] or [NaN] as step the loop runs at most once. *)
Lemma decimateLoop_once array n step fuel acc :
  step = Infinity \/ step = NaN ->
  (1 <= fuel)%nat ->
  exists out,
    decimateLoop fuel array n step 0 acc = Some (acc ++ out) /\
    Z.of_nat (length out) = if 2 <? n then 3 else 0.
Proof.
  intros Hstep Hfuel. destruct fuel as [|fuel]; [lia |].
  cbn [decimateLoop]. change (0 + 2) with 2.
  destruct (Z.ltb_spec 0 n) as [Hlt | Hge].
  - destruct (Z.ltb_spec 2 n).
    + eexists. split; [destruct Hstep as [-> | ->]; reflexivity | reflexivity].
    + exists []. rewrite app_nil_r.
      split; [destruct Hstep as [-> | ->]; reflexivity | reflexivity].
  - exists []. rewrite app_nil_r. split; [reflexivity |].
    destruct (Z.ltb_spec 2 n); [lia | reflexivity].
Qed.

Lemma kept_bound n s : 1 <= s -> 0 <= n -> 0 <= 3 * kept n s 0 <= n.
Proof.
  intros Hs Hn. unfold kept. destruct (Z.ltb_spec (0 + 2) n); [| lia].
  assert (0 <= (n - 3 - 0) / (3 * s)) by (apply Z.div_pos; lia).
  assert ((n - 3 - 0) / (3 * s) <= (n - 3 - 0) / 3).
  { apply Z.div_le_compat_l; lia. }
  pose proof (Z.mul_div_le (n - 3 - 0) 3 ltac:(lia)). lia.
Qed.

(** Whatever the array, such a step makes the loop end within
    [indexCount + 1] turns, with whole triangles and no more entries
    than it read. *)
Lemma decimateLoop_total (array : list Z) (r : Q) (fuel : nat) :
  (0 <= r)%Q ->
  let n := Z.of_nat (length array) in
  (S (length array) <= fuel)%nat ->
  exists out,
    decimateLoop fuel array n (stepOf n (targetIndexCountOf n r)) 0 [] = Some out /\
    (3 | Z.of_nat (length out)) /\ (length out <= length array)%nat.
Proof.
  intros Hr n Hfuel.
  assert (0 <= n) as Hn by (unfold n; lia).
  destruct (stepOf_cases n r Hn Hr) as [[_ E] | [E | [s [Hs E]]]]; rewrite E.
  - destruct (decimateLoop_once array n NaN fuel []) as [out [Hrun Hlen]];
      [auto | lia |].
    exists out. split; [exact Hrun |].
    revert Hlen. destruct (Z.ltb_spec 2 n); intros Hlen;
      (split; [first [exists 1; lia | exists 0; lia] | unfold n in *; lia]).
  - destruct (decimateLoop_once array n Infinity fuel []) as [out [Hrun Hlen]];
      [auto | lia |].
    exists out. split; [exact Hrun |].
    revert Hlen. destruct (Z.ltb_spec 2 n); intros Hlen;
      (split; [first [exists 1; lia | exists 0; lia] | unfold n in *; lia]).
  - destruct (decimateLoop_num array n s Hs fuel 0 []) as [out [Hrun Hlen]];
      [lia | unfold n; lia |].
    exists out. split; [exact Hrun |].
    pose proof (kept_bound n s Hs Hn).
    split; [exists (kept n s 0); lia | unfold n in *; lia].
Qed.

(** A negative ratio gives a step that is not positive, and then the
    counter never reaches the end of a non-empty index: no amount of
    fuel lets the loop return. *)
Lemma ceiling_div_neg (n t : Z) :
  t < 0 -> Qceiling (inject_Z n / inject_Z t) = - (n / (- t)).
Proof.
  intros Ht. unfold Qceiling. f_equal.
  rewrite Zdiv_Qdiv. apply Qfloor_comp.
  rewrite inject_Z_opp. field.
  intros E. apply (inject_Z_injective t 0) in E. lia.
Qed.

Lemma decimateLoop_stuck (array : list Z) (n s : Z) :
  s <= 0 -> 0 < n ->
  forall fuel i acc,
    i <= 0 -> decimateLoop fuel array n (Num s) i acc = None.
Proof.
  intros Hs Hn. induction fuel as [|fuel IH]; intros i acc Hi;
    cbn [decimateLoop]; destruct (Z.ltb_spec i n); try lia.
  - reflexivity.
  - apply IH. lia.
Qed.

Lemma decimateLoop_negative_ratio (array : list Z) (r : Q) (fuel : nat) :
  (r < 0)%Q -> array <> [] ->
  let n := Z.of_nat (length array) in
  decimateLoop fuel array n (stepOf n (targetIndexCountOf n r)) 0 [] = None.
Proof.
  intros Hr Hne n.
  assert (0 < n) as Hn.
  { unfold n. destruct array; [congruence | cbn [length]; lia]. }
  assert (targetIndexCountOf n r < 0) as Ht.
  { unfold targetIndexCountOf. rewrite Zlt_Qlt.
    eapply Qle_lt_trans; [apply Qfloor_le |].
    rewrite <- (Qmult_0_r (inject_Z n)).
    apply Qmult_lt_l; [| exact Hr].
    change 0%Q with (inject_Z 0). now rewrite <- Zlt_Qlt. }
  unfold stepOf. destruct (Z.eqb_spec (targetIndexCountOf n r) 0); [lia |].
  rewrite ceiling_div_neg by exact Ht.
  apply decimateLoop_stuck; [| exact Hn | lia].
  assert (0 <= n / - targetIndexCountOf n r); [| lia].
  apply Z.div_pos; lia.
Qed.


Section GeometryFacts.
Context {ops : ThreeOps}.

(** *** Stores that grow *)

Lemma fresh_None {A : Type} (m : gmap positive A) : m !! fresh (dom m) = None.
Proof. apply not_elem_of_dom, is_fresh. Qed.

Lemma subseteq_None {A : Type} (m mc : gmap positive A) (l : positive) :
  m ⊆ mc -> mc !! l = None -> m !! l = None.
Proof.
  intros Hsub Hl. destruct (m !! l) as [x|] eqn:E; [| reflexivity].
  rewrite (lookup_weaken m mc l x E Hsub) in Hl. discriminate.
Qed.

Lemma extends_refl (h : Heap) : extends h h.
Proof. repeat split; reflexivity. Qed.

Lemma extends_trans (h1 h2 h3 : Heap) :
  extends h1 h2 -> extends h2 h3 -> extends h1 h3.
Proof.
  intros (A1 & A2 & A3 & A4 & A5) (B1 & B2 & B3 & B4 & B5).
  repeat split; etrans; eassumption.
Qed.

Lemma extends_setGeometries (h hc : Heap) (l : loc) (g : BufferGeometry) :
  extends h hc -> geometries h !! l = None ->
  extends h (setGeometries (<[l := g]> (geometries hc)) hc).
Proof.
  intros (A1 & A2 & A3 & A4 & A5) Hl. repeat split; try assumption.
  cbn. now apply insert_subseteq_r.
Qed.

Lemma extends_setAttributes (h hc : Heap) (l : loc) (a : list Vec3) :
  extends h hc -> attributes h !! l = None ->
  extends h (setAttributes (<[l := a]> (attributes hc)) hc).
Proof.
  intros (A1 & A2 & A3 & A4 & A5) Hl. repeat split; try assumption.
  cbn. now apply insert_subseteq_r.
Qed.

Lemma extends_setIndices (h hc : Heap) (l : loc) (a : list Z) :
  extends h hc -> indices h !! l = None ->
  extends h (setIndices (<[l := a]> (indices hc)) hc).
Proof.
  intros (A1 & A2 & A3 & A4 & A5) Hl. repeat split; try assumption.
  cbn. now apply insert_subseteq_r.
Qed.

Lemma extends_setBoxes (h hc : Heap) (l : loc) (b : Box3) :
  extends h hc -> boxes h !! l = None ->
  extends h (setBoxes (<[l := b]> (boxes hc)) hc).
Proof.
  intros (A1 & A2 & A3 & A4 & A5) Hl. repeat split; try assumption.
  cbn. now apply insert_subseteq_r.
Qed.

Lemma extends_setSpheres (h hc : Heap) (l : loc) (s : Sphere) :
  extends h hc -> spheres h !! l = None ->
  extends h (setSpheres (<[l := s]> (spheres hc)) hc).
Proof.
  intros (A1 & A2 & A3 & A4 & A5) Hl. repeat split; try assumption.
  cbn. now apply insert_subseteq_r.
Qed.

Lemma readOpt_weaken {A : Type} (m mc : gmap positive A) (o : option loc)
    (x : option A) :
  m ⊆ mc -> readOpt m o = Some x -> readOpt mc o = Some x.
Proof.
  intros Hsub. unfold readOpt. destruct o as [l|]; [| easy].
  destruct (m !! l) as [a|] eqn:E; [| discriminate].
  now rewrite (lookup_weaken m mc l a E Hsub).
Qed.

(** What a geometry holds stays what it is when the store grows. *)
Lemma view_extends (h h' : Heap) (g : BufferGeometry) (v : Snapshot) :
  extends h h' -> view h g = Some v -> view h' g = Some v.
Proof.
  intros (A1 & A2 & A3 & A4 & A5). unfold view.
  destruct (attributes h !! position g) as [p|] eqn:Ep; [| discriminate].
  destruct (readOpt (attributes h) (normal g)) as [n|] eqn:En; [| discriminate].
  destruct (readOpt (indices h) (index g)) as [i|] eqn:Ei; [| discriminate].
  destruct (readOpt (boxes h) (boundingBox g)) as [b|] eqn:Eb; [| discriminate].
  destruct (readOpt (spheres h) (boundingSphere g)) as [s|] eqn:Es;
    [| discriminate].
  rewrite (lookup_weaken _ _ _ _ Ep A2).
  rewrite (readOpt_weaken _ _ _ _ A2 En), (readOpt_weaken _ _ _ _ A3 Ei),
    (readOpt_weaken _ _ _ _ A4 Eb), (readOpt_weaken _ _ _ _ A5 Es).
  easy.
Qed.

Lemma viewAt_extends (h h' : Heap) (l : loc) (v : Snapshot) :
  extends h h' -> viewAt h l = Some v -> viewAt h' l = Some v.
Proof.
  intros Hext. unfold viewAt.
  destruct (geometries h !! l) as [g|] eqn:E; [| discriminate].
  pose proof Hext as (A1 & _).
  rewrite (lookup_weaken _ _ _ _ E A1). now apply view_extends.
Qed.

(** *** Allocation and [clone] *)

Lemma newGeometry_spec (g : BufferGeometry) (hc : Heap) :
  extends hc (snd (newGeometry g hc)) /\
  geometries (snd (newGeometry g hc)) !! fst (newGeometry g hc) = Some g /\
  geometries hc !! fst (newGeometry g hc) = None.
Proof.
  unfold newGeometry. cbn. split; [| split].
  - apply extends_setGeometries; [apply extends_refl | apply fresh_None].
  - apply lookup_insert_eq.
  - apply fresh_None.
Qed.

Lemma newAttribute_spec (a : list Vec3) (hc : Heap) :
  extends hc (snd (newAttribute a hc)) /\
  attributes (snd (newAttribute a hc)) !! fst (newAttribute a hc) = Some a /\
  attributes hc !! fst (newAttribute a hc) = None.
Proof.
  unfold newAttribute. cbn. split; [| split].
  - apply extends_setAttributes; [apply extends_refl | apply fresh_None].
  - apply lookup_insert_eq.
  - apply fresh_None.
Qed.

Lemma newIndex_spec (a : list Z) (hc : Heap) :
  extends hc (snd (newIndex a hc)) /\
  indices (snd (newIndex a hc)) !! fst (newIndex a hc) = Some a /\
  indices hc !! fst (newIndex a hc) = None.
Proof.
  unfold newIndex. cbn. split; [| split].
  - apply extends_setIndices; [apply extends_refl | apply fresh_None].
  - apply lookup_insert_eq.
  - apply fresh_None.
Qed.

Lemma newBox_spec (b : Box3) (hc : Heap) :
  extends hc (snd (newBox b hc)) /\
  boxes (snd (newBox b hc)) !! fst (newBox b hc) = Some b /\
  boxes hc !! fst (newBox b hc) = None.
Proof.
  unfold newBox. cbn. split; [| split].
  - apply extends_setBoxes; [apply extends_refl | apply fresh_None].
  - apply lookup_insert_eq.
  - apply fresh_None.
Qed.

Lemma newSphere_spec (s : Sphere) (hc : Heap) :
  extends hc (snd (newSphere s hc)) /\
  spheres (snd (newSphere s hc)) !! fst (newSphere s hc) = Some s /\
  spheres hc !! fst (newSphere s hc) = None.
Proof.
  unfold newSphere. cbn. split; [| split].
  - apply extends_setSpheres; [apply extends_refl | apply fresh_None].
  - apply lookup_insert_eq.
  - apply fresh_None.
Qed.

(** Copying through an optional reference gives a reference not in use
    to an object of the same content. *)
Lemma cloneOpt_spec {A : Type} (get : Heap -> gmap positive A)
    (new : A -> Heap -> loc * Heap) (o : option loc) (hc : Heap)
    (x : option A) :
  (forall a h, extends h (snd (new a h)) /\
               get (snd (new a h)) !! fst (new a h) = Some a /\
               get h !! fst (new a h) = None) ->
  readOpt (get hc) o = Some x ->
  exists o' hc',
    cloneOpt get new o hc = Some (o', hc') /\
    extends hc hc' /\
    readOpt (get hc') o' = Some x /\
    (forall l, o' = Some l -> get hc !! l = None).
Proof.
  intros Hnew. unfold readOpt, cloneOpt. destruct o as [l|].
  - destruct (get hc !! l) as [a|]; [| discriminate].
    intros E. injection E as <-.
    destruct (Hnew a hc) as (Hext & Hget & Hfree).
    destruct (new a hc) as [l' h'] eqn:En. cbn in *.
    exists (Some l'), h'. split; [reflexivity |]. split; [exact Hext |].
    split; [now rewrite Hget |]. intros l0 E0. now injection E0 as <-.
  - intros E. injection E as <-. exists None, hc.
    split; [reflexivity |]. split; [apply extends_refl |].
    split; [reflexivity | discriminate].
Qed.

(** [clone] gives a geometry of the same content, all of it new. *)
Lemma clone_spec (h : Heap) (l : loc) (g : BufferGeometry) (v : Snapshot) :
  geometries h !! l = Some g -> view h g = Some v ->
  exists s hc, clone l h = Some (s, hc) /\ cloneState h hc s v.
Proof.
  intros Hg Hv. unfold view in Hv.
  destruct (attributes h !! position g) as [p|] eqn:Ep; [| discriminate].
  destruct (readOpt (attributes h) (normal g)) as [n|] eqn:En; [| discriminate].
  destruct (readOpt (indices h) (index g)) as [i|] eqn:Ei; [| discriminate].
  destruct (readOpt (boxes h) (boundingBox g)) as [b|] eqn:Eb; [| discriminate].
  destruct (readOpt (spheres h) (boundingSphere g)) as [sp|] eqn:Es;
    [| discriminate].
  injection Hv as <-.
  unfold clone. rewrite Hg, Ep.
  destruct (newAttribute_spec p h) as (X1 & P1 & F1).
  destruct (newAttribute p h) as [p' h1]. cbn [fst snd] in *.
  destruct (cloneOpt_spec attributes newAttribute (normal g) h1 n
              newAttribute_spec) as (n' & h2 & -> & X2 & P2 & F2).
  { apply (readOpt_weaken (attributes h)); [apply X1 | exact En]. }
  destruct (cloneOpt_spec indices newIndex (index g) h2 i newIndex_spec)
    as (i' & h3 & -> & X3 & P3 & F3).
  { apply (readOpt_weaken (indices h)); [| exact Ei].
    apply (extends_trans h h1 h2 X1 X2). }
  pose proof (extends_trans _ _ _ X1 X2) as Y2.
  pose proof (extends_trans _ _ _ Y2 X3) as Y3.
  destruct (cloneOpt_spec boxes newBox (boundingBox g) h3 b newBox_spec)
    as (b' & h4 & -> & X4 & P4 & F4).
  { apply (readOpt_weaken (boxes h)); [apply Y3 | exact Eb]. }
  pose proof (extends_trans _ _ _ Y3 X4) as Y4.
  destruct (cloneOpt_spec spheres newSphere (boundingSphere g) h4 sp
              newSphere_spec) as (s' & h5 & -> & X5 & P5 & F5).
  { apply (readOpt_weaken (spheres h)); [apply Y4 | exact Es]. }
  pose proof (extends_trans _ _ _ Y4 X5) as Y5.
  destruct (newGeometry_spec (mkGeometry p' n' i' b' s') h5) as (X6 & P6 & F6).
  destruct (newGeometry (mkGeometry p' n' i' b' s') h5) as [s h6].
  cbn [fst snd] in *.
  pose proof (extends_trans _ _ _ Y5 X6) as Y6.
  pose proof (extends_trans _ _ _ X2 (extends_trans _ _ _ X3
              (extends_trans _ _ _ X4 (extends_trans _ _ _ X5 X6)))) as Z1.
  pose proof (extends_trans _ _ _ X3
              (extends_trans _ _ _ X4 (extends_trans _ _ _ X5 X6))) as Z2.
  pose proof (extends_trans _ _ _ X4 (extends_trans _ _ _ X5 X6)) as Z3.
  pose proof (extends_trans _ _ _ X5 X6) as Z4.
  exists s, h6. split; [reflexivity |].
  exists (mkGeometry p' n' i' b' s'). split; [exact P6 |]. split.
  { unfold view. cbn [position normal index boundingBox boundingSphere].
    rewrite (lookup_weaken _ _ _ _ P1 (proj1 (proj2 Z1))).
    rewrite (readOpt_weaken _ _ _ _ (proj1 (proj2 Z2)) P2).
    rewrite (readOpt_weaken _ _ _ _ (proj1 (proj2 (proj2 Z3))) P3).
    rewrite (readOpt_weaken _ _ _ _ (proj1 (proj2 (proj2 (proj2 Z4)))) P4).
    rewrite (readOpt_weaken _ _ _ _ (proj2 (proj2 (proj2 (proj2 X6)))) P5).
    reflexivity. }
  split; [exact Y6 |]. split.
  { unfold outside. cbn [position normal index boundingBox boundingSphere].
    split; [apply (subseteq_None _ _ _ (proj1 Y5) F6) |].
    split; [exact F1 |].
    split; [intros l0 E0; apply (subseteq_None _ _ _ (proj1 (proj2 X1))),
              (F2 l0 E0) |].
    split; [intros l0 E0; apply (subseteq_None _ _ _ (proj1 (proj2 (proj2 Y2)))),
              (F3 l0 E0) |].
    split; [intros l0 E0;
            apply (subseteq_None _ _ _ (proj1 (proj2 (proj2 (proj2 Y3))))),
              (F4 l0 E0) |].
    intros l0 E0.
    apply (subseteq_None _ _ _ (proj2 (proj2 (proj2 (proj2 Y4))))), (F5 l0 E0). }
  cbn [position normal]. intros E0. rewrite (F2 p' E0) in P1. discriminate.
Qed.

(** *** The four methods on a clone *)

Lemma setIndex_spec (h hc : Heap) (s : loc) (v : Snapshot)
    (newIndices : list (option Z)) :
  cloneState h hc s v ->
  exists hc',
    setIndex s newIndices hc = Some hc' /\
    cloneState h hc' s (withIndex (toTypedArray newIndices) v).
Proof.
  intros (g & Hg & Hv & Hext & Hout & Hne).
  destruct Hout as (O1 & O2 & O3 & O4 & O5 & O6).
  unfold setIndex. rewrite Hg.
  destruct (newIndex_spec (toTypedArray newIndices) hc) as (X & P & F).
  destruct (newIndex (toTypedArray newIndices) hc) as [li h1] eqn:En.
  cbn [fst snd] in *.
  eexists. split; [reflexivity |].
  exists (mkGeometry (position g) (normal g) (Some li) (boundingBox g)
            (boundingSphere g)).
  split; [apply lookup_insert_eq |]. split.
  { pose proof (view_extends _ _ _ _ X Hv) as Hv1. revert Hv1.
    unfold view, withIndex.
    cbn [position normal index boundingBox boundingSphere attributes indices
         boxes spheres setGeometries].
    destruct (attributes h1 !! position g); [| discriminate].
    destruct (readOpt (attributes h1) (normal g)); [| discriminate].
    destruct (readOpt (indices h1) (index g)); [| discriminate].
    destruct (readOpt (boxes h1) (boundingBox g)); [| discriminate].
    destruct (readOpt (spheres h1) (boundingSphere g)); [| discriminate].
    intros E. injection E as <-. cbn. now rewrite P. }
  split.
  { apply extends_setGeometries; [| exact O1].
    apply (extends_trans _ _ _ Hext X). }
  split; [| exact Hne].
  unfold outside. cbn [position normal index boundingBox boundingSphere].
  repeat split; try assumption.
  intros i E. injection E as <-.
  apply (subseteq_None _ _ _ (proj1 (proj2 (proj2 Hext))) F).
Qed.

Lemma computeVertexNormals_spec (h hc : Heap) (s : loc) (v : Snapshot) :
  cloneState h hc s v ->
  exists hc',
    computeVertexNormals s hc = Some hc' /\
    cloneState h hc' s (withNormals v).
Proof.
  intros (g & Hg & Hv & Hext & Hout & Hne).
  destruct Hout as (O1 & O2 & O3 & O4 & O5 & O6).
  unfold view in Hv.
  destruct (attributes hc !! position g) as [p|] eqn:Ep; [| discriminate].
  destruct (readOpt (attributes hc) (normal g)) as [n|] eqn:En; [| discriminate].
  destruct (readOpt (indices hc) (index g)) as [i|] eqn:Ei; [| discriminate].
  destruct (readOpt (boxes hc) (boundingBox g)) as [b|] eqn:Eb; [| discriminate].
  destruct (readOpt (spheres hc) (boundingSphere g)) as [sp|] eqn:Es;
    [| discriminate].
  injection Hv as <-.
  unfold computeVertexNormals. rewrite Hg, Ep, Ei.
  destruct (normal g) as [ln|] eqn:Hn.
  - (* the clone's normal attribute is refilled in place *)
    eexists. split; [reflexivity |]. exists g.
    split; [exact Hg |]. split.
    { unfold view, withNormals.
      cbn [attributes indices boxes spheres setAttributes positions normals
           indexArray box sphere].
      rewrite Hn, Ei, Eb, Es. unfold readOpt at 1.
      rewrite lookup_insert_eq, lookup_insert_ne, Ep; [reflexivity |].
      intros E. apply Hne. now rewrite E. }
    split; [apply extends_setAttributes; [exact Hext | now apply O3] |].
    split; [| now rewrite Hn].
    unfold outside. rewrite Hn. repeat split; assumption.
  - (* the clone gets a normal attribute *)
    destruct (newAttribute_spec (vertexNormals p i) hc) as (X & P & F).
    destruct (newAttribute (vertexNormals p i) hc) as [ln h1] eqn:EnA.
    cbn [fst snd] in *.
    eexists. split; [reflexivity |].
    exists (mkGeometry (position g) (Some ln) (index g) (boundingBox g)
              (boundingSphere g)).
    split; [apply lookup_insert_eq |]. split.
    { unfold view, withNormals.
      cbn [position normal index boundingBox boundingSphere attributes indices
           boxes spheres setGeometries positions normals indexArray box sphere].
      rewrite (lookup_weaken _ _ _ _ Ep (proj1 (proj2 X))).
      rewrite (readOpt_weaken _ _ _ _ (proj1 (proj2 (proj2 X))) Ei).
      rewrite (readOpt_weaken _ _ _ _ (proj1 (proj2 (proj2 (proj2 X)))) Eb).
      rewrite (readOpt_weaken _ _ _ _ (proj2 (proj2 (proj2 (proj2 X)))) Es).
      unfold readOpt at 1. now rewrite P. }
    split.
    { apply extends_setGeometries; [| exact O1].
      apply (extends_trans _ _ _ Hext X). }
    split.
    { unfold outside. cbn [position normal index boundingBox boundingSphere].
      repeat split; try assumption.
      intros n0 E. injection E as <-.
      apply (subseteq_None _ _ _ (proj1 (proj2 Hext)) F). }
    cbn [position normal]. intros E. injection E as ->.
    rewrite F in Ep. discriminate.
Qed.

Lemma computeBoundingSphere_spec (h hc : Heap) (s : loc) (v : Snapshot) :
  cloneState h hc s v ->
  exists hc',
    computeBoundingSphere s hc = Some hc' /\
    cloneState h hc' s (withSphere v).
Proof.
  intros (g & Hg & Hv & Hext & Hout & Hne).
  destruct Hout as (O1 & O2 & O3 & O4 & O5 & O6).
  unfold view in Hv.
  destruct (attributes hc !! position g) as [p|] eqn:Ep; [| discriminate].
  destruct (readOpt (attributes hc) (normal g)) as [n|] eqn:En; [| discriminate].
  destruct (readOpt (indices hc) (index g)) as [i|] eqn:Ei; [| discriminate].
  destruct (readOpt (boxes hc) (boundingBox g)) as [b|] eqn:Eb; [| discriminate].
  destruct (readOpt (spheres hc) (boundingSphere g)) as [sp|] eqn:Es;
    [| discriminate].
  injection Hv as <-.
  unfold computeBoundingSphere. rewrite Hg, Ep.
  destruct (boundingSphere g) as [ls|] eqn:Hs.
  - eexists. split; [reflexivity |]. exists g.
    split; [exact Hg |]. split.
    { unfold view, withSphere.
      cbn [attributes indices boxes spheres setSpheres positions normals
           indexArray box sphere].
      rewrite Hs, Ep, En, Ei, Eb. unfold readOpt.
      now rewrite lookup_insert_eq. }
    split; [apply extends_setSpheres; [exact Hext | now apply O6] |].
    split; [| exact Hne].
    unfold outside. rewrite Hs. repeat split; assumption.
  - destruct (newSphere_spec (boundingSphereOf p) hc) as (X & P & F).
    destruct (newSphere (boundingSphereOf p) hc) as [ls h1] eqn:EnS.
    cbn [fst snd] in *.
    eexists. split; [reflexivity |].
    exists (mkGeometry (position g) (normal g) (index g) (boundingBox g)
              (Some ls)).
    split; [apply lookup_insert_eq |]. split.
    { unfold view, withSphere.
      cbn [position normal index boundingBox boundingSphere attributes indices
           boxes spheres setGeometries positions normals indexArray box sphere].
      rewrite (lookup_weaken _ _ _ _ Ep (proj1 (proj2 X))).
      rewrite (readOpt_weaken _ _ _ _ (proj1 (proj2 X)) En).
      rewrite (readOpt_weaken _ _ _ _ (proj1 (proj2 (proj2 X))) Ei).
      rewrite (readOpt_weaken _ _ _ _ (proj1 (proj2 (proj2 (proj2 X)))) Eb).
      unfold readOpt. now rewrite P. }
    split.
    { apply extends_setGeometries; [| exact O1].
      apply (extends_trans _ _ _ Hext X). }
    split; [| exact Hne].
    unfold outside. cbn [position normal index boundingBox boundingSphere].
    repeat split; try assumption.
    intros s0 E. injection E as <-.
    apply (subseteq_None _ _ _ (proj2 (proj2 (proj2 (proj2 Hext)))) F).
Qed.

Lemma computeBoundingBox_spec (h hc : Heap) (s : loc) (v : Snapshot) :
  cloneState h hc s v ->
  exists hc',
    computeBoundingBox s hc = Some hc' /\
    cloneState h hc' s (withBox v).
Proof.
  intros (g & Hg & Hv & Hext & Hout & Hne).
  destruct Hout as (O1 & O2 & O3 & O4 & O5 & O6).
  unfold view in Hv.
  destruct (attributes hc !! position g) as [p|] eqn:Ep; [| discriminate].
  destruct (readOpt (attributes hc) (normal g)) as [n|] eqn:En; [| discriminate].
  destruct (readOpt (indices hc) (index g)) as [i|] eqn:Ei; [| discriminate].
  destruct (readOpt (boxes hc) (boundingBox g)) as [b|] eqn:Eb; [| discriminate].
  destruct (readOpt (spheres hc) (boundingSphere g)) as [sp|] eqn:Es;
    [| discriminate].
  injection Hv as <-.
  unfold computeBoundingBox. rewrite Hg, Ep.
  destruct (boundingBox g) as [lb|] eqn:Hb.
  - eexists. split; [reflexivity |]. exists g.
    split; [exact Hg |]. split.
    { unfold view, withBox.
      cbn [attributes indices boxes spheres setBoxes positions normals
           indexArray box sphere].
      rewrite Hb, Ep, En, Ei, Es. unfold readOpt at 1.
      now rewrite lookup_insert_eq. }
    split; [apply extends_setBoxes; [exact Hext | now apply O5] |].
    split; [| exact Hne].
    unfold outside. rewrite Hb. repeat split; assumption.
  - destruct (newBox_spec (boundingBoxOf p) hc) as (X & P & F).
    destruct (newBox (boundingBoxOf p) hc) as [lb h1] eqn:EnB.
    cbn [fst snd] in *.
    eexists. split; [reflexivity |].
    exists (mkGeometry (position g) (normal g) (index g) (Some lb)
              (boundingSphere g)).
    split; [apply lookup_insert_eq |]. split.
    { unfold view, withBox.
      cbn [position normal index boundingBox boundingSphere attributes indices
           boxes spheres setGeometries positions normals indexArray box sphere].
      rewrite (lookup_weaken _ _ _ _ Ep (proj1 (proj2 X))).
      rewrite (readOpt_weaken _ _ _ _ (proj1 (proj2 X)) En).
      rewrite (readOpt_weaken _ _ _ _ (proj1 (proj2 (proj2 X))) Ei).
      rewrite (readOpt_weaken _ _ _ _ (proj2 (proj2 (proj2 (proj2 X)))) Es).
      unfold readOpt at 1. now rewrite P. }
    split.
    { apply extends_setGeometries; [| exact O1].
      apply (extends_trans _ _ _ Hext X). }
    split; [| exact Hne].
    unfold outside. cbn [position normal index boundingBox boundingSphere].
    repeat split; try assumption.
    intros b0 E. injection E as <-.
    apply (subseteq_None _ _ _ (proj1 (proj2 (proj2 (proj2 Hext)))) F).
Qed.

(** *** One call, step by step *)

Lemma cloneState_viewAt (h hc : Heap) (s : loc) (v : Snapshot) :
  cloneState h hc s v -> viewAt hc s = Some v.
Proof. intros (g & Hg & Hv & _). unfold viewAt. now rewrite Hg. Qed.

Lemma viewAt_inv (h : Heap) (l : loc) (v : Snapshot) :
  viewAt h l = Some v ->
  exists g, geometries h !! l = Some g /\ view h g = Some v /\
            attributes h !! position g = Some (positions v).
Proof.
  unfold viewAt. destruct (geometries h !! l) as [g|]; [| discriminate].
  intros Hv. exists g. split; [reflexivity |]. split; [exact Hv |].
  revert Hv. unfold view.
  destruct (attributes h !! position g); [| discriminate].
  destruct (readOpt (attributes h) (normal g)); [| discriminate].
  destruct (readOpt (indices h) (index g)); [| discriminate].
  destruct (readOpt (boxes h) (boundingBox g)); [| discriminate].
  destruct (readOpt (spheres h) (boundingSphere g)); [| discriminate].
  now intros [= <-].
Qed.

Lemma decimateIndex_spec (fuel : nat) (h hc : Heap) (s : loc) (v : Snapshot)
    (r : Q) :
  cloneState h hc s v ->
  decimateIndex fuel s r hc =
  match indexArray v with
  | None => Some hc
  | Some array =>
      let n := Z.of_nat (length array) in
      match decimateLoop fuel array n (stepOf n (targetIndexCountOf n r)) 0 [] with
      | None => None
      | Some out => setIndex s out hc
      end
  end.
Proof.
  intros (g & Hg & Hv & _). unfold decimateIndex. rewrite Hg.
  revert Hv. unfold view.
  destruct (attributes hc !! position g); [| discriminate].
  destruct (readOpt (attributes hc) (normal g)); [| discriminate].
  unfold readOpt at 1.
  destruct (index g) as [li|].
  - destruct (indices hc !! li) as [array|]; [| discriminate].
    destruct (readOpt (boxes hc) (boundingBox g)); [| discriminate].
    destruct (readOpt (spheres hc) (boundingSphere g)); [| discriminate].
    now intros [= <-].
  - destruct (readOpt (boxes hc) (boundingBox g)); [| discriminate].
    destruct (readOpt (spheres hc) (boundingSphere g)); [| discriminate].
    now intros [= <-].
Qed.

(** Below the guard the call returns its argument and writes nothing. *)
Lemma simplify_small (fuel : nat) (h : Heap) (l : loc) (v : Snapshot) (r : Q) :
  viewAt h l = Some v -> vertexCount v < 10000 ->
  simplifyGeometryForMobile fuel l r h = Some (l, h).
Proof.
  intros Hv Hsmall. destruct (viewAt_inv h l v Hv) as (g & Hg & _ & Hp).
  unfold simplifyGeometryForMobile. rewrite Hg, Hp.
  unfold vertexCount in Hsmall.
  destruct (Z.ltb_spec (Z.of_nat (length (positions v))) 10000);
    [reflexivity | lia].
Qed.

(** The three recomputations on a clone. *)
Lemma finish_spec (h hc : Heap) (s : loc) (v : Snapshot) :
  cloneState h hc s v ->
  exists h',
    match computeVertexNormals s hc with
    | None => None
    | Some h3 =>
        match computeBoundingSphere s h3 with
        | None => None
        | Some h4 =>
            match computeBoundingBox s h4 with
            | None => None
            | Some h5 => Some (s, h5)
            end
        end
    end = Some (s, h') /\
    cloneState h h' s (finished v).
Proof.
  intros Hc.
  destruct (computeVertexNormals_spec h hc s v Hc) as (h3 & -> & H3).
  destruct (computeBoundingSphere_spec h h3 s _ H3) as (h4 & -> & H4).
  destruct (computeBoundingBox_spec h h4 s _ H4) as (h5 & -> & H5).
  now exists h5.
Qed.

(** From the guard on, a call that returns has built a clone, all of it
    new, with the positions of the argument and the three
    recomputations done. *)
Lemma simplify_large_shape (fuel : nat) (h h' : Heap) (l l' : loc)
    (v : Snapshot) (r : Q) :
  viewAt h l = Some v -> 10000 <= vertexCount v ->
  simplifyGeometryForMobile fuel l r h = Some (l', h') ->
  exists v0, cloneState h h' l' (finished v0) /\ positions v0 = positions v.
Proof.
  intros Hv Hlarge. destruct (viewAt_inv h l v Hv) as (g & Hg & Hvg & Hp).
  unfold simplifyGeometryForMobile. rewrite Hg, Hp.
  unfold vertexCount in Hlarge.
  destruct (Z.ltb_spec (Z.of_nat (length (positions v))) 10000); [lia |].
  destruct (clone_spec h l g v Hg Hvg) as (s & hc & -> & Hc).
  rewrite (decimateIndex_spec fuel h hc s v r Hc).
  destruct (indexArray v) as [array|]; cbv zeta.
  - destruct (decimateLoop _ _ _ _ _ _) as [out|]; [| discriminate].
    destruct (setIndex_spec h hc s v out Hc) as (h2 & -> & H2).
    destruct (finish_spec h h2 s _ H2) as (hf & -> & Hf).
    intros [= <- <-]. eexists. split; [exact Hf | reflexivity].
  - destruct (finish_spec h hc s _ Hc) as (hf & -> & Hf).
    intros [= <- <-]. eexists. split; [exact Hf | reflexivity].
Qed.

(** From the guard on, with such a step, the call does return. *)
Lemma simplify_large_run (fuel : nat) (h : Heap) (l : loc) (v : Snapshot)
    (r : Q) :
  viewAt h l = Some v -> 10000 <= vertexCount v -> (0 <= r)%Q ->
  (fuelFor v <= fuel)%nat ->
  exists l' h' v0,
    simplifyGeometryForMobile fuel l r h = Some (l', h') /\
    cloneState h h' l' (finished v0) /\
    match indexArray v with
    | None => v0 = v
    | Some array =>
        exists out,
          decimateLoop fuel array (Z.of_nat (length array))
            (stepOf (Z.of_nat (length array))
               (targetIndexCountOf (Z.of_nat (length array)) r)) 0 []
            = Some out /\
          v0 = withIndex (toTypedArray out) v /\
          (3 | Z.of_nat (length out)) /\ (length out <= length array)%nat
    end.
Proof.
  intros Hv Hlarge Hr Hfuel.
  destruct (viewAt_inv h l v Hv) as (g & Hg & Hvg & Hp).
  unfold simplifyGeometryForMobile. rewrite Hg, Hp.
  unfold vertexCount in Hlarge.
  destruct (Z.ltb_spec (Z.of_nat (length (positions v))) 10000); [lia |].
  destruct (clone_spec h l g v Hg Hvg) as (s & hc & -> & Hc).
  rewrite (decimateIndex_spec fuel h hc s v r Hc).
  unfold fuelFor in Hfuel.
  destruct (indexArray v) as [array|] eqn:Hidx; cbv zeta.
  - destruct (decimateLoop_total array r fuel Hr Hfuel) as [out [Hrun Hout]].
    rewrite Hrun.
    destruct (setIndex_spec h hc s v out Hc) as (h2 & -> & H2).
    destruct (finish_spec h h2 s _ H2) as (hf & -> & Hf).
    eexists _, _, _. split; [reflexivity |]. split; [exact Hf |].
    exists out. now split.
  - destruct (finish_spec h hc s _ Hc) as (hf & -> & Hf).
    eexists _, _, _. split; [reflexivity |]. split; [exact Hf |]. reflexivity.
Qed.

(** From the guard on, a negative ratio keeps the call from returning
    on any geometry with a non-empty index: the step is negative or
    zero, and the counter never reaches the index count. *)
Lemma simplify_negative_ratio (fuel : nat) (h : Heap) (l : loc)
    (v : Snapshot) (a : list Z) (r : Q) :
  viewAt h l = Some v -> 10000 <= vertexCount v ->
  indexArray v = Some a -> a <> [] -> (r < 0)%Q ->
  simplifyGeometryForMobile fuel l r h = None.
Proof.
  intros Hv Hlarge Hidx Hne Hr.
  destruct (viewAt_inv h l v Hv) as (g & Hg & Hvg & Hp).
  unfold simplifyGeometryForMobile. rewrite Hg, Hp.
  unfold vertexCount in Hlarge.
  destruct (Z.ltb_spec (Z.of_nat (length (positions v))) 10000); [lia |].
  destruct (clone_spec h l g v Hg Hvg) as (s & hc & -> & Hc).
  rewrite (decimateIndex_spec fuel h hc s v r Hc), Hidx. cbv zeta.
  now rewrite (decimateLoop_negative_ratio a r fuel Hr Hne).
Qed.

Lemma finished_recomputed (v : Snapshot) : recomputed (finished v).
Proof. repeat split. Qed.

Lemma indexCount_finished (v : Snapshot) :
  indexCount (finished v) = indexCount v.
Proof. reflexivity. Qed.

Lemma length_toTypedArray (a : list (option Z)) :
  length (toTypedArray a) = length a.
Proof. unfold toTypedArray. apply length_map. Qed.

Lemma indexCountLe_refl (v : Snapshot) : indexCountLe v v.
Proof. unfold indexCountLe. destruct (indexCount v); [lia | exact I]. Qed.

(** The loader's gate lets a mesh through only on a mobile tier and
    above 50,000 vertices. *)
Lemma shouldSimplifyMesh_spec (h : Heap) (l : loc) (v : Snapshot)
    (mobile : bool) :
  viewAt h l = Some v ->
  shouldSimplifyMesh (mkMesh (Some l)) mobile h
  = mobile && (50000 <? vertexCount v).
Proof.
  intros Hv. destruct (viewAt_inv h l v Hv) as (g & Hg & _ & Hp).
  unfold shouldSimplifyMesh. cbn [geometry]. rewrite Hg, Hp.
  now destruct mobile.
Qed.


Lemma exactRatio_nonneg (r : Q) : exactRatio r -> (0 <= r)%Q.
Proof. intros [-> | [-> | ->]]; discriminate. Qed.


(** C2.  For a mesh whose index, if it has one, is a triangle list, and
    a ratio of 0.3, 0.5 or 1, the decimator returns within [fuelFor v]
    turns of its loop; the index count of the result is at most the
    input's and divisible by 3; below the guard of 10,000 vertices the
    result is the argument itself and the store is unchanged.  The
    loader's own guard leaves every mesh of at most 50,000 vertices as
    it is. *)
Theorem decimator_index_count (h : Heap) (l : loc) (v : Snapshot)
    (r : Q) (fuel : nat) :
  viewAt h l = Some v -> exactRatio r -> triangleList v ->
  (fuelFor v <= fuel)%nat ->
  (exists l' h' v',
     simplifyGeometryForMobile fuel l r h = Some (l', h') /\
     viewAt h' l' = Some v' /\
     indexCountLe v' v /\
     triangleList v' /\
     (vertexCount v < 10000 -> l' = l /\ h' = h /\ v' = v)) /\
  (forall mobile,
     vertexCount v <= 50000 ->
     simplifyMesh fuel mobile (mkMesh (Some l)) h = Some (mkMesh (Some l), h)).
Proof.
  intros Hv Hexact Htri Hfuel.
  pose proof (exactRatio_nonneg r Hexact) as Hr. split.
  - destruct (Z.lt_ge_cases (vertexCount v) 10000) as [Hsmall | Hlarge].
    + exists l, h, v. rewrite (simplify_small fuel h l v r Hv Hsmall).
      repeat split; [exact Hv | apply indexCountLe_refl | exact Htri].
    + destruct (simplify_large_run fuel h l v r Hv Hlarge Hr Hfuel)
        as (l' & h' & v0 & Hrun & Hc & Hv0).
      exists l', h', (finished v0).
      split; [exact Hrun |]. split; [apply (cloneState_viewAt _ _ _ _ Hc) |].
      unfold indexCountLe, triangleList. rewrite indexCount_finished.
      unfold triangleList in Htri. unfold indexCount in *.
      destruct (indexArray v) as [array|] eqn:Hidx.
      * destruct Hv0 as [out [_ [-> [Hdiv Hle]]]]. cbn [indexArray withIndex].
        rewrite length_toTypedArray.
        split; [lia |]. split; [exact Hdiv | lia].
      * subst v0. rewrite Hidx. split; [exact I |]. split; [exact I | lia].
  - intros mobile Hsmall. unfold simplifyMesh.
    rewrite (shouldSimplifyMesh_spec h l v mobile Hv).
    destruct (Z.ltb_spec 50000 (vertexCount v)); [lia |].
    now rewrite andb_false_r.
Qed.


(** C10.  A call never writes to its argument.  Whenever it returns,
    every object that was in the store (geometries, attributes, index
    arrays, boxes, spheres) is in the new store as it was, so the
    argument holds what it held; below the guard the result is the
    argument itself and the store is the same; from the guard on the
    result is another geometry, allocated during the call with
    everything it refers to: the clone, on which the index was set and
    normals and bounding volumes were recomputed.  With a ratio of 0.3,
    0.5 or 1 the call does return. *)
Theorem decimator_preserves_argument (h : Heap) (l : loc) (v : Snapshot)
    (r : Q) :
  viewAt h l = Some v ->
  (forall fuel l' h',
     simplifyGeometryForMobile fuel l r h = Some (l', h') ->
     extends h h' /\
     viewAt h' l = Some v /\
     (vertexCount v < 10000 -> l' = l /\ h' = h) /\
     (10000 <= vertexCount v ->
        l' <> l /\
        exists v',
          cloneState h h' l' v' /\
          positions v' = positions v /\ recomputed v')) /\
  (exactRatio r ->
   forall fuel, (fuelFor v <= fuel)%nat ->
     exists l' h', simplifyGeometryForMobile fuel l r h = Some (l', h')).
Proof.
  intros Hv. split.
  - intros fuel l' h' Hrun.
    destruct (Z.lt_ge_cases (vertexCount v) 10000) as [Hsmall | Hlarge].
    + rewrite (simplify_small fuel h l v r Hv Hsmall) in Hrun.
      injection Hrun as <- <-.
      split; [apply extends_refl |]. split; [exact Hv |].
      split; [auto | lia].
    + destruct (simplify_large_shape fuel h h' l l' v r Hv Hlarge Hrun)
        as (v0 & Hc & Hpos).
      pose proof Hc as (g' & _ & _ & Hext & (Hfree & _) & _).
      split; [exact Hext |].
      split; [apply (viewAt_extends h h' l v Hext Hv) |].
      split; [lia |]. intros _. split.
      * intros ->. destruct (viewAt_inv h l v Hv) as (g & Hg & _).
        rewrite Hg in Hfree. discriminate.
      * exists (finished v0). split; [exact Hc |].
        split; [exact Hpos | apply finished_recomputed].
  - intros Hexact fuel Hfuel.
    pose proof (exactRatio_nonneg r Hexact) as Hr.
    destruct (Z.lt_ge_cases (vertexCount v) 10000) as [Hsmall | Hlarge].
    + exists l, h. now apply simplify_small with v.
    + destruct (simplify_large_run fuel h l v r Hv Hlarge Hr Hfuel)
        as (l' & h' & v0 & Hrun & _).
      now exists l', h'.
Qed.

End GeometryFacts.

(** *** The large mesh of the concrete scene *)

Lemma largeScene_view : viewAt largeScene 1%positive = Some largeContent.
Proof. reflexivity. Qed.

Lemma largeContent_vertexCount : vertexCount largeContent = 60000.
Proof.
  unfold vertexCount, largeContent. cbn [positions].
  rewrite repeat_length. now rewrite Z2Nat.id.
Qed.

Lemma largeContent_index :
  exists a, indexArray largeContent = Some a /\
            Z.of_nat (length a) = 3 * 40000.
Proof.
  eexists. split; [reflexivity |].
  rewrite repeat_length. now rewrite Z2Nat.id.
Qed.

Lemma largeContent_triangleList : triangleList largeContent.
Proof.
  destruct largeContent_index as [a [Ha Hlen]].
  unfold triangleList, indexCount. rewrite Ha, Hlen. now exists 40000.
Qed.

(** C2 at a concrete scene: the large mesh at the default ratio. *)
Lemma decimator_index_count_witness :
  viewAt largeScene 1%positive = Some largeContent /\
  exactRatio defaultTargetRatio /\
  triangleList largeContent /\
  (exists l' h' v',
     simplifyGeometryForMobile (fuelFor largeContent) 1%positive
       defaultTargetRatio largeScene = Some (l', h') /\
     viewAt h' l' = Some v' /\
     indexCountLe v' largeContent /\
     triangleList v' /\
     (vertexCount largeContent < 10000 ->
      l' = 1%positive /\ h' = largeScene /\ v' = largeContent)) /\
  (forall mobile,
     vertexCount largeContent <= 50000 ->
     simplifyMesh (fuelFor largeContent) mobile (mkMesh (Some 1%positive))
       largeScene
     = Some (mkMesh (Some 1%positive), largeScene)).
Proof.
  split; [exact largeScene_view |].
  split; [right; left; reflexivity |].
  split; [exact largeContent_triangleList |].
  apply (decimator_index_count largeScene 1%positive largeContent
           defaultTargetRatio (fuelFor largeContent)).
  - exact largeScene_view.
  - right. left. reflexivity.
  - exact largeContent_triangleList.
  - apply Nat.le_refl.
Defined.





(** C10 at the concrete scene. *)
Lemma decimator_preserves_argument_witness :
  viewAt largeScene 1%positive = Some largeContent /\
  (forall fuel l' h',
     simplifyGeometryForMobile fuel 1%positive loaderRatio largeScene
       = Some (l', h') ->
     extends largeScene h' /\
     viewAt h' 1%positive = Some largeContent /\
     (vertexCount largeContent < 10000 -> l' = 1%positive /\ h' = largeScene) /\
     (10000 <= vertexCount largeContent ->
        l' <> 1%positive /\
        exists v',
          cloneState largeScene h' l' v' /\
          positions v' = positions largeContent /\ recomputed v')) /\
  (exactRatio loaderRatio ->
   forall fuel, (fuelFor largeContent <= fuel)%nat ->
     exists l' h',
       simplifyGeometryForMobile fuel 1%positive loaderRatio largeScene
       = Some (l', h')).
Proof.
  split; [exact largeScene_view |].
  apply (decimator_preserves_argument largeScene 1%positive largeContent
           loaderRatio).
  exact largeScene_view.
Defined.
End SimplifyGeometryFacts.

Module RendererFacts.
Import Renderer RendererReadings.

Lemma bind_run {A B : Type} (m : M A) (k : A -> M B) (w w1 : World) (a : A) :
  m w = (Returned a, w1) -> bind m k w = k a w1.
Proof. unfold bind. now intros ->. Qed.

Lemma emit_run (e : Event) (w : World) :
  emit e w = (Returned tt, withLog w (log w ++ [e])).
Proof. reflexivity. Qed.

(** *** The two handlers *)

(** On a page whose storage takes the write the loss handler runs to
    its end. *)
Lemma onContextLost_writable (w : World) :
  storage w = Writable ->
  onContextLost w =
  (Returned tt,
   {| storage := storage w;
      localStorage := <["webglContextLost"%string := "true"%string]> (localStorage w);
      bodyChildren := bodyChildren w ++ [GraphicsErrorBanner];
      canvasListeners := canvasListeners w;
      defaultPrevented := true;
      reloads := reloads w;
      uncaught := uncaught w;
      log := log w ++ lossActions |}).
Proof.
  intros Hs.
  unfold onContextLost, preventDefault, setItem, appendChild, emit, bind.
  cbn. rewrite Hs. cbn. rewrite <- !app_assoc. reflexivity.
Qed.

(** On any other page it stops at the write. *)
Lemma onContextLost_refused (w : World) :
  storage w <> Writable ->
  onContextLost w =
  (Thrown,
   {| storage := storage w;
      localStorage := localStorage w;
      bodyChildren := bodyChildren w;
      canvasListeners := canvasListeners w;
      defaultPrevented := true;
      reloads := reloads w;
      uncaught := uncaught w;
      log := log w ++ lossActionsCutShort |}).
Proof.
  intros Hs.
  unfold onContextLost, preventDefault, setItem, appendChild, emit, bind.
  cbn. destruct (storage w) eqn:E; [congruence | |];
    cbn; rewrite <- !app_assoc; reflexivity.
Qed.

Lemma onContextRestored_reachable (w : World) :
  storage w <> AccessDenied ->
  onContextRestored w =
  (Returned tt,
   {| storage := storage w;
      localStorage := delete "webglContextLost"%string (localStorage w);
      bodyChildren := bodyChildren w;
      canvasListeners := canvasListeners w;
      defaultPrevented := defaultPrevented w;
      reloads := S (reloads w);
      uncaught := uncaught w;
      log := log w ++ [ConsoleLog; RemoveItem "webglContextLost"; Reload] |}).
Proof.
  intros Hs.
  unfold onContextRestored, removeItem, reload, emit, bind.
  cbn. destruct (storage w) eqn:E; [| | congruence];
    cbn; rewrite <- !app_assoc; reflexivity.
Qed.

Lemma onContextRestored_denied (w : World) :
  storage w = AccessDenied ->
  onContextRestored w =
  (Thrown,
   withLog w (log w ++ [ConsoleLog; RemoveItem "webglContextLost"])).
Proof.
  intros Hs.
  unfold onContextRestored, removeItem, reload, emit, bind, withLog.
  cbn. rewrite Hs. cbn. rewrite <- !app_assoc. reflexivity.
Qed.

(** *** The two backends *)

(** [createWebGLRenderer] either returns the configured renderer, with
    both handlers registered after whatever the canvas already listened
    to, or throws at the constructor and registers nothing. *)
Lemma createWebGLRenderer_run (p : Platform) (tier : string) (w : World) :
  createWebGLRenderer p tier w =
  if webglAvailable p tier (log w)
  then (Returned (webglRenderer p tier),
        withHandlers (withLog w (log w ++ webglSetup p tier)))
  else (Thrown, withLog w (log w ++ [ConstructWebGL (webglOptions p tier)])).
Proof.
  unfold createWebGLRenderer, constructWebGL, attempt, addEventListener,
    emit, bind, ret, throw, webglAvailable, webglRenderer, withHandlers,
    withLog, webglSetup.
  cbn. destruct (constructsWebGL p (webglOptions p tier) (log w));
    cbn; rewrite <- ?app_assoc; reflexivity.
Qed.

(** The preferred backend on its own: [createWebGPURenderer] returns,
    changes nothing but the log, makes no call of the standard backend,
    and yields a renderer exactly when every step and the smoke test
    went well. *)
Lemma createWebGPURenderer_trace (p : Platform) (w : World) :
  exists o tr,
    createWebGPURenderer p w = (Returned o, withLog w (log w ++ tr)) /\
    (o = Some WebGPUObject \/ o = None) /\
    (o = Some WebGPUObject <->
     importResolves p && constructs p && initResolves p && configures p
     && smokeTestPasses p = true) /\
    forallb (fun e => negb (isStandardBackendCall e)) tr = true.
Proof.
  unfold createWebGPURenderer, smokeTestWebGPU, attempt, tryCatch, bind,
    emit, ret, throw, smokeTestPasses, withLog.
  destruct (importResolves p), (constructs p), (initResolves p),
    (configures p), (hasBackendDevice p), (rendersTestFrame p), (disposes p);
    cbn; rewrite <- ?app_assoc; cbn;
    eexists _, _; (split; [reflexivity |]);
    (split; [auto |]); (split; [| reflexivity]);
    split; intros H; try reflexivity; discriminate.
Qed.

(** A failed smoke test: the preferred backend is constructed once,
    disposed of, and [null] comes back. *)
Lemma createWebGPURenderer_smoke_fails (p : Platform) (w : World) :
  importResolves p = true -> constructs p = true ->
  initResolves p = true -> configures p = true ->
  smokeTestPasses p = false ->
  exists smokeLog tail,
    createWebGPURenderer p w =
    (Returned None,
     withLog w (log w ++ preferredSetup ++ smokeLog
                  ++ [ConsoleWarn; DisposeWebGPU] ++ tail)) /\
    (smokeLog = [ConsoleWarn] \/ smokeLog = [SmokeRender; ConsoleWarn]) /\
    (tail = [] \/ tail = [ConsoleWarn]).
Proof.
  intros Hi Hc Hn Hf Hs. unfold smokeTestPasses in Hs.
  unfold createWebGPURenderer, smokeTestWebGPU, attempt, tryCatch, bind,
    emit, ret, throw, withLog, preferredSetup.
  rewrite Hi, Hc, Hn, Hf.
  destruct (hasBackendDevice p), (rendersTestFrame p), (disposes p);
    try discriminate; cbn; rewrite <- !app_assoc; cbn.
  - exists [SmokeRender; ConsoleWarn], []. auto.
  - exists [SmokeRender; ConsoleWarn], [ConsoleWarn]. auto.
  - exists [ConsoleWarn], []. auto.
  - exists [ConsoleWarn], [ConsoleWarn]. auto.
  - exists [ConsoleWarn], []. auto.
  - exists [ConsoleWarn], [ConsoleWarn]. auto.
Qed.

Lemma reachesSmokeTest_true (p : Platform) (tier : string) :
  reachesSmokeTest p tier = true ->
  hasGPU p = true /\ JsRegex.includes "webgpu" tier = true /\
  importResolves p = true /\ constructs p = true /\
  initResolves p = true /\ configures p = true.
Proof.
  unfold reachesSmokeTest. rewrite !andb_true_iff. tauto.
Qed.

Lemma preferredAttempts_app (a b : list Event) :
  preferredAttempts (a ++ b) = (preferredAttempts a + preferredAttempts b)%nat.
Proof.
  unfold preferredAttempts. now rewrite List.filter_app, length_app.
Qed.

(** *** The factory, branch by branch *)

(** Without a GPU API, or on a tier that does not name it, the factory
    logs twice and hands over to [createWebGLRenderer]. *)
Lemma makeRenderer_standard_path (p : Platform) (tier : string) (w : World) :
  negb (hasGPU p) || negb (JsRegex.includes "webgpu" tier) = true ->
  makeRenderer p tier w
  = standardResult
      (createWebGLRenderer p tier
         (withLog w (log w ++ [ConsoleLog; ConsoleLog]))).
Proof.
  intros E. unfold makeRenderer. rewrite E.
  erewrite bind_run by apply emit_run.
  erewrite bind_run by apply emit_run.
  unfold bind, standardResult, withLog. cbn. rewrite <- !app_assoc. cbn.
  match goal with |- context [createWebGLRenderer p tier ?W] =>
    destruct (createWebGLRenderer p tier W) as [[gl|] w1] end; reflexivity.
Qed.

(** Otherwise it tries the preferred backend first, and hands over to
    [createWebGLRenderer] when that gave [null]. *)
Lemma makeRenderer_preferred_path (p : Platform) (tier : string) (w : World) :
  hasGPU p = true -> JsRegex.includes "webgpu" tier = true ->
  forall o tr,
    createWebGPURenderer p (withLog w (log w ++ [ConsoleLog; ConsoleLog]))
    = (Returned o, withLog w ((log w ++ [ConsoleLog; ConsoleLog]) ++ tr)) ->
    makeRenderer p tier w
    = match o with
      | Some r =>
          (Returned {| renderer := r; type := webgpu |},
           withLog w (log w ++ [ConsoleLog; ConsoleLog] ++ tr ++ [ConsoleLog]))
      | None =>
          standardResult
            (createWebGLRenderer p tier
               (withLog w (log w ++ [ConsoleLog; ConsoleLog] ++ tr
                             ++ [ConsoleLog])))
      end.
Proof.
  intros Hgpu Hinc o tr Hrun. unfold makeRenderer. rewrite Hgpu, Hinc.
  cbn [negb orb].
  erewrite bind_run by apply emit_run.
  erewrite bind_run by apply emit_run.
  assert (E : withLog (withLog w (log w ++ [ConsoleLog]))
                (log (withLog w (log w ++ [ConsoleLog])) ++ [ConsoleLog])
              = withLog w (log w ++ [ConsoleLog; ConsoleLog])).
  { unfold withLog. cbn. now rewrite <- app_assoc. }
  rewrite E. erewrite bind_run by exact Hrun.
  assert (E' : forall l,
             withLog (withLog w l) (log (withLog w l) ++ [ConsoleLog])
             = withLog w (l ++ [ConsoleLog])) by reflexivity.
  assert (E'' : (log w ++ [ConsoleLog; ConsoleLog]) ++ tr ++ [ConsoleLog]
                = log w ++ [ConsoleLog; ConsoleLog] ++ tr ++ [ConsoleLog])
    by now rewrite <- app_assoc.
  destruct o as [r|].
  - erewrite bind_run by apply emit_run. unfold ret.
    rewrite E', <- E'', app_assoc. reflexivity.
  - erewrite bind_run by apply emit_run.
    rewrite E', <- app_assoc, E''.
    unfold bind, standardResult.
    match goal with |- context [createWebGLRenderer p tier ?W] =>
      destruct (createWebGLRenderer p tier W) as [[gl|] w1] end; reflexivity.
Qed.

(** After a failed smoke test the factory hands over to
    [createWebGLRenderer] with the preferred backend constructed once
    and disposed of, and nothing but the log changed. *)
Lemma makeRenderer_after_smoke_failure (p : Platform) (tier : string)
    (w : World) :
  reachesSmokeTest p tier = true -> smokeTestPasses p = false ->
  exists before after,
    makeRenderer p tier w
    = standardResult
        (createWebGLRenderer p tier
           (withLog w (log w ++ before ++ [DisposeWebGPU] ++ after))) /\
    preferredAttempts (before ++ [DisposeWebGPU] ++ after) = 1%nat /\
    leavesPreferredBackendAlone after.
Proof.
  intros Hreach Hsmoke.
  destruct (reachesSmokeTest_true p tier Hreach)
    as (Hgpu & Hinc & Hi & Hc & Hn & Hf).
  destruct (createWebGPURenderer_smoke_fails p
              (withLog w (log w ++ [ConsoleLog; ConsoleLog]))
              Hi Hc Hn Hf Hsmoke)
    as (smokeLog & tail & Hrun & HsmokeLog & Htail).
  exists ([ConsoleLog; ConsoleLog] ++ preferredSetup ++ smokeLog ++ [ConsoleWarn]),
    (tail ++ [ConsoleLog]).
  split.
  - rewrite (makeRenderer_preferred_path p tier w Hgpu Hinc None
               (preferredSetup ++ smokeLog ++ [ConsoleWarn; DisposeWebGPU] ++ tail)).
    + do 3 f_equal. rewrite <- !app_assoc. reflexivity.
    + rewrite Hrun. reflexivity.
  - split.
    + destruct HsmokeLog as [-> | ->], Htail as [-> | ->]; reflexivity.
    + destruct Htail as [-> | ->]; reflexivity.
Qed.

(** C3, as stated, fails twice over.  On a desktop whose preferred
    backend comes up but cannot draw, and whose canvas gives no WebGL
    context once that backend has been initialised on it, the smoke test
    fails and the factory returns no renderer: the constructor of the
    standard renderer throws and nothing catches it.  And on a desktop
    whose GPU API yields no device, a second call of the factory
    attempts the preferred backend again: after two calls the log shows
    it constructed twice. *)
Lemma makeRenderer_fallback_can_throw_and_retries :
  (reachesSmokeTest claimedCanvasDesktop "desktop-webgpu" = true /\
   smokeTestPasses claimedCanvasDesktop = false /\
   fst (makeRenderer claimedCanvasDesktop "desktop-webgpu" emptyWorld)
   = Thrown) /\
  (reachesSmokeTest brokenGPUDesktop "desktop-webgpu" = true /\
   smokeTestPasses brokenGPUDesktop = false /\
   preferredAttempts
     (log (snd (makeRenderer brokenGPUDesktop "desktop-webgpu" emptyWorld)))
   = 1%nat /\
   preferredAttempts
     (log (snd (makeRenderer brokenGPUDesktop "desktop-webgpu"
                  (snd (makeRenderer brokenGPUDesktop "desktop-webgpu"
                          emptyWorld)))))
   = 2%nat).
Proof.
  split.
  - split; [reflexivity |]. split; [reflexivity |].
    vm_compute. reflexivity.
  - split; [reflexivity |]. split; [reflexivity |].
    split; vm_compute; reflexivity.
Qed.

(** C3, amended.  When the factory reaches the smoke test of the
    preferred backend and the test fails, it goes on to the standard
    backend in the same call: by the time the constructor of the
    standard renderer is called, the preferred backend has been
    constructed exactly once and disposed of, and no call has gone to
    it since the disposal.  If the constructor returns, the factory
    returns the renderer [createWebGLRenderer] configures, in a result
    of type [webgl2], with the two handlers registered; if it throws,
    the factory throws, and the canvas has no new handler.  The factory
    keeps no memory of the failure: a second call with the same
    arguments constructs the preferred backend once more. *)
Theorem makeRenderer_smoke_failure_falls_back (p : Platform) (tier : string)
    (w : World) :
  reachesSmokeTest p tier = true -> smokeTestPasses p = false ->
  exists before after out w',
    makeRenderer p tier w = (out, w') /\
    preferredAttempts (before ++ [DisposeWebGPU] ++ after) = 1%nat /\
    leavesPreferredBackendAlone after /\
    (webglAvailable p tier (log w ++ before ++ [DisposeWebGPU] ++ after) = true ->
     out = Returned {| renderer := WebGLObject (webglRenderer p tier);
                       type := webgl2 |} /\
     log w' = log w ++ before ++ [DisposeWebGPU] ++ after ++ webglSetup p tier /\
     canvasListeners w' = canvasListeners w ++ webglListeners) /\
    (webglAvailable p tier (log w ++ before ++ [DisposeWebGPU] ++ after) = false ->
     out = Thrown /\
     log w' = log w ++ before ++ [DisposeWebGPU] ++ after
                ++ [ConstructWebGL (webglOptions p tier)] /\
     canvasListeners w' = canvasListeners w) /\
    (forall out2 w2,
       makeRenderer p tier w' = (out2, w2) ->
       preferredAttempts (log w2) = (preferredAttempts (log w) + 2)%nat).
Proof.
  intros Hreach Hsmoke.
  destruct (makeRenderer_after_smoke_failure p tier w Hreach Hsmoke)
    as (before & after & Hrun & Hcount & Halone).
  exists before, after.
  destruct (makeRenderer p tier w) as [out w'] eqn:Hcall.
  exists out, w'. split; [reflexivity |].
  split; [exact Hcount |]. split; [exact Halone |].
  rewrite createWebGLRenderer_run in Hrun. cbn [log withLog] in Hrun.
  assert (Hlog : exists rest,
             log w' = log w ++ (before ++ [DisposeWebGPU] ++ after) ++ rest /\
             preferredAttempts rest = 0%nat).
  { destruct (webglAvailable p tier _) in Hrun; cbn in Hrun;
      injection Hrun as _ ->; cbn [log withHandlers withLog];
      eexists; (split; [rewrite <- !app_assoc; reflexivity | reflexivity]). }
  split; [| split].
  - intros Hok. rewrite Hok in Hrun. cbn in Hrun. injection Hrun as -> ->.
    split; [reflexivity |]. cbn [log canvasListeners withHandlers withLog].
    split; [now rewrite <- !app_assoc | reflexivity].
  - intros Hno. rewrite Hno in Hrun. cbn in Hrun. injection Hrun as -> ->.
    split; [reflexivity |]. cbn [log canvasListeners withLog].
    split; [now rewrite <- !app_assoc | reflexivity].
  - intros out2 w2 Hcall2.
    destruct (makeRenderer_after_smoke_failure p tier w' Hreach Hsmoke)
      as (before2 & after2 & Hrun2 & Hcount2 & _).
    rewrite Hcall2, createWebGLRenderer_run in Hrun2.
    cbn [log withLog] in Hrun2.
    destruct Hlog as (rest & Hlog & Hrest).
    assert (Hlog2 : exists rest2,
               log w2 = log w' ++ (before2 ++ [DisposeWebGPU] ++ after2)
                          ++ rest2 /\
               preferredAttempts rest2 = 0%nat).
    { destruct (webglAvailable p tier _) in Hrun2; cbn in Hrun2;
        injection Hrun2 as _ ->; cbn [log withHandlers withLog];
        eexists; (split; [rewrite <- !app_assoc; reflexivity | reflexivity]). }
    destruct Hlog2 as (rest2 & Hlog2 & Hrest2).
    rewrite Hlog2, (preferredAttempts_app (log w')),
      (preferredAttempts_app _ rest2), Hcount2, Hrest2.
    rewrite Hlog, (preferredAttempts_app (log w)),
      (preferredAttempts_app _ rest), Hcount, Hrest.
    lia.
Qed.

(** C3 amended, on a desktop whose GPU API yields no device. *)
Lemma makeRenderer_smoke_failure_falls_back_witness :
  reachesSmokeTest brokenGPUDesktop "desktop-webgpu" = true /\
  smokeTestPasses brokenGPUDesktop = false /\
  exists before after out w',
    makeRenderer brokenGPUDesktop "desktop-webgpu" emptyWorld = (out, w') /\
    preferredAttempts (before ++ [DisposeWebGPU] ++ after) = 1%nat /\
    leavesPreferredBackendAlone after /\
    (webglAvailable brokenGPUDesktop "desktop-webgpu"
       (log emptyWorld ++ before ++ [DisposeWebGPU] ++ after) = true ->
     out = Returned {| renderer :=
                         WebGLObject (webglRenderer brokenGPUDesktop
                                        "desktop-webgpu");
                       type := webgl2 |} /\
     log w' = log emptyWorld ++ before ++ [DisposeWebGPU] ++ after
                ++ webglSetup brokenGPUDesktop "desktop-webgpu" /\
     canvasListeners w' = canvasListeners emptyWorld ++ webglListeners) /\
    (webglAvailable brokenGPUDesktop "desktop-webgpu"
       (log emptyWorld ++ before ++ [DisposeWebGPU] ++ after) = false ->
     out = Thrown /\
     log w' = log emptyWorld ++ before ++ [DisposeWebGPU] ++ after
                ++ [ConstructWebGL (webglOptions brokenGPUDesktop
                                      "desktop-webgpu")] /\
     canvasListeners w' = canvasListeners emptyWorld) /\
    (forall out2 w2,
       makeRenderer brokenGPUDesktop "desktop-webgpu" w' = (out2, w2) ->
       preferredAttempts (log w2)
       = (preferredAttempts (log emptyWorld) + 2)%nat).
Proof.
  split; [reflexivity |]. split; [reflexivity |].
  apply (makeRenderer_smoke_failure_falls_back brokenGPUDesktop
           "desktop-webgpu" emptyWorld); reflexivity.
Defined.

(** *** Dispatching on the canvas *)

Lemma runListeners_app (ty : string) (l1 l2 : list (string * Listener))
    (w : World) :
  runListeners ty (l1 ++ l2) w = runListeners ty l2 (runListeners ty l1 w).
Proof.
  revert w. induction l1 as [|[ty' l] l1 IH]; intros w.
  - reflexivity.
  - cbn [runListeners app]. apply IH.
Qed.

(** A loss event on the two handlers of one renderer runs the loss
    handler, and the restore handler is passed over. *)
Lemma runListeners_lost (w : World) :
  runListeners "webglcontextlost" webglListeners w = invoke OnContextLost w.
Proof. reflexivity. Qed.

Lemma runListeners_restored (w : World) :
  runListeners "webglcontextrestored" webglListeners w
  = invoke OnContextRestored w.
Proof. reflexivity. Qed.

Lemma invoke_lost_writable (w : World) :
  storage w = Writable ->
  invoke OnContextLost w =
  {| storage := storage w;
     localStorage := <["webglContextLost"%string := "true"%string]> (localStorage w);
     bodyChildren := bodyChildren w ++ [GraphicsErrorBanner];
     canvasListeners := canvasListeners w;
     defaultPrevented := true;
     reloads := reloads w;
     uncaught := uncaught w;
     log := log w ++ lossActions |}.
Proof.
  intros Hs. unfold invoke. cbn [runListener].
  now rewrite (onContextLost_writable w Hs).
Qed.

Lemma invoke_lost_refused (w : World) :
  storage w <> Writable ->
  invoke OnContextLost w =
  {| storage := storage w;
     localStorage := localStorage w;
     bodyChildren := bodyChildren w;
     canvasListeners := canvasListeners w;
     defaultPrevented := true;
     reloads := reloads w;
     uncaught := S (uncaught w);
     log := log w ++ lossActionsCutShort |}.
Proof.
  intros Hs. unfold invoke. cbn [runListener].
  now rewrite (onContextLost_refused w Hs).
Qed.

Lemma invoke_restored_reachable (w : World) :
  storage w <> AccessDenied ->
  invoke OnContextRestored w =
  {| storage := storage w;
     localStorage := delete "webglContextLost"%string (localStorage w);
     bodyChildren := bodyChildren w;
     canvasListeners := canvasListeners w;
     defaultPrevented := defaultPrevented w;
     reloads := S (reloads w);
     uncaught := uncaught w;
     log := log w ++ [ConsoleLog; RemoveItem "webglContextLost"; Reload] |}.
Proof.
  intros Hs. unfold invoke. cbn [runListener].
  now rewrite (onContextRestored_reachable w Hs).
Qed.

Lemma invoke_restored_denied (w : World) :
  storage w = AccessDenied ->
  invoke OnContextRestored w =
  {| storage := storage w;
     localStorage := localStorage w;
     bodyChildren := bodyChildren w;
     canvasListeners := canvasListeners w;
     defaultPrevented := defaultPrevented w;
     reloads := reloads w;
     uncaught := S (uncaught w);
     log := log w ++ [ConsoleLog; RemoveItem "webglContextLost"] |}.
Proof.
  intros Hs. unfold invoke. cbn [runListener].
  now rewrite (onContextRestored_denied w Hs).
Qed.

(** C4.  Every run of the loss handler starts with [preventDefault]:
    it is the first call the handler adds to the log, and the default
    is suppressed whatever follows.  On a page whose local storage
    takes the write the handler returns after five calls, in this
    order: [preventDefault], the console message, the write of
    [webglContextLost = 'true'], and the creation and display of the
    notice; the flag is stored and the notice is the last child of the
    body.  On a page whose storage is full or blocked the write throws
    and the handler ends there: the default is suppressed and the
    message is on the console, but no flag is stored and no notice is
    shown.  The same holds for a loss event dispatched on a canvas on
    which [createWebGLRenderer] has just registered its handlers; the
    exception is then left uncaught. *)
Theorem contextLost_suppresses_default_first (p : Platform) (tier : string)
    (w : World) :
  (exists out w',
     onContextLost w = (out, w') /\
     (exists rest, log w' = log w ++ PreventDefault :: rest) /\
     defaultPrevented w' = true /\
     match storage w with
     | Writable =>
         out = Returned tt /\
         log w' = log w ++ lossActions /\
         localStorage w' !! "webglContextLost"%string = Some "true"%string /\
         last (bodyChildren w') = Some GraphicsErrorBanner
     | QuotaExceeded | AccessDenied =>
         out = Thrown /\
         log w' = log w ++ lossActionsCutShort /\
         localStorage w' = localStorage w /\
         bodyChildren w' = bodyChildren w
     end) /\
  (canvasListeners w = [] -> webglAvailable p tier (log w) = true ->
   exists gl w1 w2,
     createWebGLRenderer p tier w = (Returned gl, w1) /\
     canvasListeners w1 = webglListeners /\
     dispatch "webglcontextlost" w1 = w2 /\
     defaultPrevented w2 = true /\
     match storage w with
     | Writable =>
         log w2 = log w1 ++ lossActions /\
         localStorage w2 !! "webglContextLost"%string = Some "true"%string /\
         last (bodyChildren w2) = Some GraphicsErrorBanner /\
         uncaught w2 = uncaught w
     | QuotaExceeded | AccessDenied =>
         log w2 = log w1 ++ lossActionsCutShort /\
         localStorage w2 = localStorage w /\
         bodyChildren w2 = bodyChildren w /\
         uncaught w2 = S (uncaught w)
     end).
Proof.
  split.
  - destruct (storage w) eqn:Hs.
    + eexists _, _. split; [apply onContextLost_writable, Hs |]. cbn.
      split; [eexists; reflexivity |]. split; [reflexivity |].
      split; [reflexivity |]. split; [reflexivity |].
      split; [apply lookup_insert_eq | apply last_snoc].
    + eexists _, _. split; [apply onContextLost_refused; congruence |]. cbn.
      split; [eexists; reflexivity |]. repeat split.
    + eexists _, _. split; [apply onContextLost_refused; congruence |]. cbn.
      split; [eexists; reflexivity |]. repeat split.
  - intros Hnone Hok. rewrite createWebGLRenderer_run, Hok.
    eexists _, _, _. split; [reflexivity |].
    cbn [canvasListeners withHandlers withLog]. rewrite Hnone.
    split; [reflexivity |]. split; [reflexivity |].
    unfold dispatch. cbn [canvasListeners withHandlers withLog]. rewrite Hnone.
    cbn [app]. fold webglListeners. rewrite runListeners_lost.
    destruct (storage w) eqn:Hs.
    + rewrite invoke_lost_writable by exact Hs. cbn.
      split; [reflexivity |]. split; [reflexivity |].
      split; [apply lookup_insert_eq |]. split; [apply last_snoc | reflexivity].
    + rewrite invoke_lost_refused by (cbn; congruence). cbn. repeat split.
    + rewrite invoke_lost_refused by (cbn; congruence). cbn. repeat split.
Qed.

(** C4 on the empty page of a browser that blocks storage: the
    standard renderer is created, then a loss event arrives. *)
Lemma contextLost_suppresses_default_first_witness :
  canvasListeners blockedPage = [] /\
  webglAvailable brokenGPUDesktop "mobileLow" (log blockedPage) = true /\
  (exists out w',
     onContextLost blockedPage = (out, w') /\
     (exists rest, log w' = log blockedPage ++ PreventDefault :: rest) /\
     defaultPrevented w' = true /\
     out = Thrown /\
     log w' = log blockedPage ++ lossActionsCutShort /\
     localStorage w' = localStorage blockedPage /\
     bodyChildren w' = bodyChildren blockedPage) /\
  (exists gl w1 w2,
     createWebGLRenderer brokenGPUDesktop "mobileLow" blockedPage
       = (Returned gl, w1) /\
     canvasListeners w1 = webglListeners /\
     dispatch "webglcontextlost" w1 = w2 /\
     defaultPrevented w2 = true /\
     log w2 = log w1 ++ lossActionsCutShort /\
     localStorage w2 = localStorage blockedPage /\
     bodyChildren w2 = bodyChildren blockedPage /\
     uncaught w2 = S (uncaught blockedPage)).
Proof.
  split; [reflexivity |]. split; [reflexivity |].
  destruct (contextLost_suppresses_default_first brokenGPUDesktop "mobileLow"
              blockedPage) as [Hhandler Hdispatch].
  split; [exact Hhandler |]. apply Hdispatch; reflexivity.
Defined.

End RendererFacts.

Module ShadowFitFacts.
Import ShadowFit.

Lemma afterFrames_snoc (light : DirectionalLight) (earlier : list Frame)
    (f : Frame) :
  afterFrames light (earlier ++ [f])
  = fitShadowFrustum (afterFrames light earlier) (fst f) (snd f).
Proof. unfold afterFrames. now rewrite fold_left_app. Qed.

(** A frame that sees nothing leaves the light as it was. *)
Lemma fitShadowFrustum_retains (light : DirectionalLight) (scene : Scene)
    (camera : Camera) :
  visible scene camera = [] -> fitShadowFrustum light scene camera = light.
Proof. intros H. unfold fitShadowFrustum. now rewrite H. Qed.

(** A frame that sees something sets the bounds to the extents of the
    transformed union of what it sees, whatever they were. *)
Lemma fitShadowFrustum_fits (light : DirectionalLight) (scene : Scene)
    (camera : Camera) :
  visible scene camera <> [] ->
  bounds (shadowCamera (fitShadowFrustum light scene camera))
  = boundsOfBox
      (applyMatrix4 (matrixWorldInverse light)
         (fold_left expandByObject (visible scene camera) newBox3)) /\
  projectionOf (shadowCamera (fitShadowFrustum light scene camera))
  = bounds (shadowCamera (fitShadowFrustum light scene camera)).
Proof.
  intros H. unfold fitShadowFrustum.
  destruct (visible scene camera); [congruence |]. split; reflexivity.
Qed.

(** C5.  In every session, whatever the frames before, a frame in
    which no object of the scene intersects the camera frustum leaves
    the bounds of the light, and the projection computed from them, as
    they were after the previous frame; so bounds that enclosed a
    volume still enclose it, and are not those of an empty box. *)
Theorem fitShadowFrustum_nothing_visible (light : DirectionalLight)
    (earlier : list Frame) (scene : Scene) (camera : Camera) :
  visible scene camera = [] ->
  bounds (shadowCamera (afterFrames light (earlier ++ [(scene, camera)])))
    = bounds (shadowCamera (afterFrames light earlier)) /\
  projectionOf (shadowCamera (afterFrames light (earlier ++ [(scene, camera)])))
    = projectionOf (shadowCamera (afterFrames light earlier)) /\
  (enclosing (bounds (shadowCamera (afterFrames light earlier))) = true ->
   enclosing
     (bounds (shadowCamera (afterFrames light (earlier ++ [(scene, camera)]))))
   = true /\
   bounds (shadowCamera (afterFrames light (earlier ++ [(scene, camera)])))
   <> boundsOfBox newBox3).
Proof.
  intros Hnone. rewrite afterFrames_snoc. cbn [fst snd].
  rewrite (fitShadowFrustum_retains _ scene camera Hnone).
  split; [reflexivity |]. split; [reflexivity |].
  intros Henc. split; [exact Henc |].
  intros Heq. rewrite Heq in Henc. discriminate.
Qed.

(** C5 in a session of two frames: the first sees the tower, and the
    second, in transition, sees nothing. *)
Lemma fitShadowFrustum_nothing_visible_witness :
  visible campus lookingAway = [] /\
  enclosing (bounds (shadowCamera (afterFrames sun [(campus, lookingAtTower)])))
  = true /\
  bounds (shadowCamera
            (afterFrames sun ([(campus, lookingAtTower)]
                              ++ [(campus, lookingAway)])))
    = bounds (shadowCamera (afterFrames sun [(campus, lookingAtTower)])) /\
  projectionOf (shadowCamera
                  (afterFrames sun ([(campus, lookingAtTower)]
                                    ++ [(campus, lookingAway)])))
    = projectionOf (shadowCamera (afterFrames sun [(campus, lookingAtTower)])) /\
  (enclosing (bounds (shadowCamera (afterFrames sun [(campus, lookingAtTower)])))
   = true ->
   enclosing
     (bounds (shadowCamera
                (afterFrames sun ([(campus, lookingAtTower)]
                                  ++ [(campus, lookingAway)]))))
   = true /\
   bounds (shadowCamera
             (afterFrames sun ([(campus, lookingAtTower)]
                               ++ [(campus, lookingAway)])))
   <> boundsOfBox newBox3).
Proof.
  split; [reflexivity |]. split; [reflexivity |].
  apply (fitShadowFrustum_nothing_visible sun [(campus, lookingAtTower)]
           campus lookingAway).
  reflexivity.
Defined.

(** The session of two frames, evaluated: the bounds are those of the
    tower after the first frame and after the second. *)
Example tower_bounds_are_kept :
  map (fun frames => bounds (shadowCamera (afterFrames sun frames)))
    [[(campus, lookingAtTower)];
     [(campus, lookingAtTower); (campus, lookingAway)]]
  = [boundsOfBox (worldBox tower); boundsOfBox (worldBox tower)].
Proof. reflexivity. Qed.

End ShadowFitFacts.

Module FrameGovernorFacts.
Import FrameGovernor.

(** One frame moves the stage index up by one or not at all. *)
Lemma onFrame_stage (size : nat) (tier : PerfFlags.Tier) (g : Governor)
    (d : Z) :
  (stage g <= stage (onFrame size tier g d) <= S (stage g))%nat.
Proof.
  unfold onFrame. destruct tier; [| lia].
  destruct (_ && _); cbn [stage]; lia.
Qed.

Lemma session_stage_ge (size : nat) (tier : PerfFlags.Tier)
    (frames : list Z) :
  forall g, Forall (le (stage g)) (map stage (session size tier g frames)).
Proof.
  induction frames as [|d rest IH]; intros g; cbn [session map].
  - constructor.
  - pose proof (onFrame_stage size tier g d) as Hstep.
    constructor; [lia |].
    eapply List.Forall_impl; [| apply IH]. cbn. intros n Hn. lia.
Qed.

(** C6.  On a fixed tier, whatever the frame durations of the session
    and whatever the size of the window, the stage indices at the start
    and after each frame form a non-decreasing sequence: each is at most
    every later one, so a stage once applied is never taken back. *)
Theorem governor_stage_nondecreasing (size : nat) (tier : PerfFlags.Tier)
    (g : Governor) (frames : list Z) :
  StronglySorted le (stageIndices size tier g frames).
Proof.
  unfold stageIndices. revert g.
  induction frames as [|d rest IH]; intros g; cbn [session map].
  - repeat constructor.
  - constructor; [apply IH |].
    apply (session_stage_ge size tier (d :: rest) g).
Qed.

(** Scenario 6: ten janky frames in a row advance exactly one stage,
    and ten fast frames after them take nothing back. *)
Example ten_janky_frames_one_stage :
  stageIndices 60 PerfFlags.mobileLow initial
    (repeat 80 10 ++ repeat 10 10)
  = repeat O 9 ++ repeat 1%nat 12.
Proof. reflexivity. Qed.

End FrameGovernorFacts.

(** ** Device classification: further statements *)
Module DeviceFacts.
Import PerfFlags.

Lemma startsWith_prefixCI (p s : string) :
  JsRegex.startsWith p s = true -> JsRegex.prefixCI p s = true.
Proof.
  revert s. induction p as [|a p IH]; intros [|b s]; simpl; try easy.
  rewrite !andb_true_iff. intros [Hab Hps]. split; [| now apply IH].
  apply Ascii.eqb_eq in Hab. subst. apply Ascii.eqb_refl.
Qed.

Lemma includes_containsCI (p s : string) :
  JsRegex.includes p s = true -> JsRegex.containsCI p s = true.
Proof.
  induction s as [|b s IH]; cbn [JsRegex.includes JsRegex.containsCI];
    rewrite !orb_true_iff.
  - intros [H | H]; [left; now apply startsWith_prefixCI | discriminate].
  - intros [H | H]; [left; now apply startsWith_prefixCI | right; now apply IH].
Qed.

Lemma isIOS_isMobileUA (s : Signals) : isIOS s = true -> isMobileUA s = true.
Proof.
  unfold isIOS, isMobileUA, JsRegex.testAnyCI. rewrite !existsb_exists.
  intros [w [Hin Hc]]. exists w. split; [| exact Hc].
  unfold iosWords in Hin. unfold mobileWords. simpl in *. tauto.
Qed.

Lemma isMobile_tier (s : Signals) : isMobile s = true -> tier s = mobileLow.
Proof. unfold tier. now intros ->. Qed.

(** X1.  A device whose user agent names an iPhone, iPad or iPod is
    always classified [mobileLow], whatever its viewport, touch support
    and memory: the exported flags switch dynamic shadows, SSGI, ambient
    occlusion and bloom off and give the mobile budgets. *)
Theorem ios_is_mobileLow (s : Signals) :
  isIOS s = true ->
  f_tier (PerfFlags s) = mobileLow /\
  f_isMobile (PerfFlags s) = true /\
  f_isIOS (PerfFlags s) = true /\
  dynamicShadows (PerfFlags s) = false /\
  ssgi (PerfFlags s) = false /\
  ao (PerfFlags s) = false /\
  bloom (PerfFlags s) = false /\
  anisotropy (PerfFlags s) = 2 /\
  maxTextureSize (PerfFlags s) = 1024.
Proof.
  intros Hios. pose proof (isIOS_isMobileUA s Hios) as Hua.
  assert (Hm : isMobile s = true) by (unfold isMobile; now rewrite Hua).
  unfold PerfFlags, flagsOf. rewrite (isMobile_tier s Hm), Hm, Hios. simpl.
  repeat split; reflexivity.
Qed.

Lemma ios_is_mobileLow_witness :
  isIOS phoneSignals = true /\
  f_tier (PerfFlags phoneSignals) = mobileLow /\
  f_isMobile (PerfFlags phoneSignals) = true /\
  f_isIOS (PerfFlags phoneSignals) = true /\
  dynamicShadows (PerfFlags phoneSignals) = false /\
  ssgi (PerfFlags phoneSignals) = false /\
  ao (PerfFlags phoneSignals) = false /\
  bloom (PerfFlags phoneSignals) = false /\
  anisotropy (PerfFlags phoneSignals) = 2 /\
  maxTextureSize (PerfFlags phoneSignals) = 1024.
Proof.
  split; [reflexivity |]. apply (ios_is_mobileLow phoneSignals). reflexivity.
Defined.

(** X2.  The renderer tests the user agent for iOS with case,
    [PerfFlags] without: whenever [createWebGLRenderer] takes the device
    for an iOS device, so does [PerfFlags] on the same platform, and
    the tier [PerfFlags] exports is [mobileLow].  The converse fails
    for a user agent that writes the name in another case. *)
Theorem renderer_ios_agrees_with_classifier (p : Renderer.Platform)
    (touch : bool) (points : Z) (memory : option DeviceMemory) :
  (Renderer.isIOS p = true ->
   isIOS (Devices.signalsOn p touch points memory) = true /\
   tier (Devices.signalsOn p touch points memory) = mobileLow) /\
  (isIOS (Devices.signalsOn Devices.shoutingTablet touch points memory) = true /\
   Renderer.isIOS Devices.shoutingTablet = false).
Proof.
  split.
  - intros H.
    assert (Hios : isIOS (Devices.signalsOn p touch points memory) = true).
    { unfold Renderer.isIOS in H. unfold isIOS, JsRegex.testAnyCI.
      rewrite existsb_exists in *. destruct H as [w [Hin Hc]].
      exists w. split.
      - simpl in Hin. unfold iosWords. simpl. tauto.
      - apply includes_containsCI. exact Hc. }
    split; [exact Hios |].
    apply isMobile_tier. unfold isMobile.
    now rewrite (isIOS_isMobileUA _ Hios).
  - split; reflexivity.
Qed.

Lemma renderer_ios_agrees_with_classifier_witness :
  Renderer.isIOS Devices.phone = true /\
  (Renderer.isIOS Devices.phone = true ->
   isIOS (Devices.signalsOn Devices.phone true 5 None) = true /\
   tier (Devices.signalsOn Devices.phone true 5 None) = mobileLow) /\
  (isIOS (Devices.signalsOn Devices.shoutingTablet true 5 None) = true /\
   Renderer.isIOS Devices.shoutingTablet = false).
Proof.
  split; [reflexivity |].
  apply (renderer_ios_agrees_with_classifier Devices.phone true 5 None).
Defined.

(** X3.  Shrinking the window never makes a device less constrained: a
    device classified [mobileLow] stays [mobileLow] at every viewport
    that is no wider and no higher; so a device classified
    [desktopHigh] stays so at every larger viewport. *)
Theorem classifier_monotone_in_viewport (s : Signals) (width height : Z) :
  width <= innerWidth s -> height <= innerHeight s ->
  tier s = mobileLow ->
  tier (Devices.resized s width height) = mobileLow.
Proof.
  intros Hw Hh Ht.
  assert (Hm : isMobile s = true).
  { unfold tier in Ht. destruct (isMobile s); [reflexivity | discriminate]. }
  apply PerfFlagsFacts.isMobile_spec in Hm.
  apply isMobile_tier, PerfFlagsFacts.isMobile_spec.
  unfold constrainedSignals, touchCapable, lowMemoryReported, simulatorSized in *.
  simpl. intuition lia.
Qed.

Lemma classifier_monotone_in_viewport_witness :
  (640 <= innerWidth (Devices.resized desktopSignals 700 500)) /\
  (480 <= innerHeight (Devices.resized desktopSignals 700 500)) /\
  (tier (Devices.resized desktopSignals 700 500) = mobileLow) /\
  (tier (Devices.resized (Devices.resized desktopSignals 700 500) 640 480)
   = mobileLow).
Proof.
  split; [simpl; lia |]. split; [simpl; lia |]. split; [reflexivity |].
  apply (classifier_monotone_in_viewport
           (Devices.resized desktopSignals 700 500) 640 480);
    [simpl; lia | simpl; lia | reflexivity].
Defined.

End DeviceFacts.

(** ** The debug switches *)
Module DebugFlagsFacts.
Import DebugFlags.

Lemma get_has (params : URLSearchParams) (name value : string) :
  get params name = Some value -> has params name = true.
Proof.
  induction params as [|[n v] rest IH]; simpl; [discriminate |].
  destruct (String.eqb n name); [reflexivity | exact IH].
Qed.

Lemma category_implies_verbose (params : URLSearchParams) (text : string) :
  strictEq (get params "debug") text = true ->
  VERBOSE (DEBUG params) = true.
Proof.
  unfold strictEq. destruct (get params "debug") as [s|] eqn:E;
    [| discriminate].
  intros _. simpl. now rewrite (get_has _ _ _ E).
Qed.

(** X4.  Each of the four category switches ([?debug=geometry] and the
    like) can only be on when [VERBOSE] is on as well, since [VERBOSE]
    is on as soon as the query names [debug] at all.  So the category
    loggers [log.geometry], [log.material], [log.perf] and [log.memory]
    print exactly when [log.verbose] prints, for every query string. *)
Theorem category_loggers_follow_verbose (params : URLSearchParams)
    (args : list string) :
  geometry (DEBUG params) args = verbose (DEBUG params) args /\
  material (DEBUG params) args = verbose (DEBUG params) args /\
  perf (DEBUG params) args = verbose (DEBUG params) args /\
  memory (DEBUG params) args = verbose (DEBUG params) args.
Proof.
  unfold geometry, material, perf, memory, verbose.
  repeat split.
  - destruct (GEOMETRY (DEBUG params)) eqn:E; [| reflexivity].
    now rewrite (category_implies_verbose params "geometry" E).
  - destruct (MATERIALS (DEBUG params)) eqn:E; [| reflexivity].
    now rewrite (category_implies_verbose params "materials" E).
  - destruct (PERFORMANCE (DEBUG params)) eqn:E; [| reflexivity].
    now rewrite (category_implies_verbose params "performance" E).
  - destruct (MEMORY (DEBUG params)) eqn:E; [| reflexivity].
    now rewrite (category_implies_verbose params "memory" E).
Qed.

(** X5.  At most one of the four category switches is on, whatever the
    query string: only the first [debug] value counts, so a query that
    names two categories turns on the first one only. *)
Theorem at_most_one_category (params : URLSearchParams) :
  (length (categoriesOn (DEBUG params)) <= 1)%nat /\
  categoriesOn
    (DEBUG ([("debug", "memory"); ("debug", "geometry")]%string ++ params))
  = [true] /\
  MEMORY
    (DEBUG ([("debug", "memory"); ("debug", "geometry")]%string ++ params))
  = true.
Proof.
  split; [| split].
  - unfold categoriesOn, DEBUG, strictEq. simpl.
    destruct (get params "debug") as [s|]; [| simpl; lia].
    destruct (String.eqb_spec s "geometry") as [-> | _]; [simpl; lia |].
    destruct (String.eqb_spec s "materials") as [-> | _]; [simpl; lia |].
    destruct (String.eqb_spec s "performance") as [-> | _]; [simpl; lia |].
    destruct (String.eqb s "memory"); simpl; lia.
  - reflexivity.
  - reflexivity.
Qed.

End DebugFlagsFacts.

(** ** The renderer factory: which backend, which options *)
Module RendererChoiceFacts.
Import Renderer RendererReadings.

Lemma standard_calls_app (a b : list Event) :
  forallb (fun e => negb (isStandardBackendCall e)) (a ++ b)
  = forallb (fun e => negb (isStandardBackendCall e)) a
    && forallb (fun e => negb (isStandardBackendCall e)) b.
Proof. apply forallb_app. Qed.

(** What [createWebGLRenderer] leaves of a world, by the answer of the
    constructor. *)
Lemma standardResult_run (p : Platform) (tier : string) (w : World)
    (called : list Event) :
  exists out w',
    standardResult (createWebGLRenderer p tier (withLog w (log w ++ called)))
    = (out, w') /\
    localStorage w' = localStorage w /\
    bodyChildren w' = bodyChildren w /\
    storage w' = storage w /\
    if webglAvailable p tier (log w ++ called)
    then out = Returned {| renderer := WebGLObject (webglRenderer p tier);
                           type := webgl2 |} /\
         log w' = log w ++ called ++ webglSetup p tier /\
         canvasListeners w' = canvasListeners w ++ webglListeners
    else out = Thrown /\
         log w' = log w ++ called ++ [ConstructWebGL (webglOptions p tier)] /\
         canvasListeners w' = canvasListeners w.
Proof.
  rewrite RendererFacts.createWebGLRenderer_run. cbn [log withLog].
  destruct (webglAvailable p tier (log w ++ called)); cbn;
    eexists _, _; (split; [reflexivity |]); cbn;
    rewrite <- ?app_assoc; repeat split.
Qed.

(** X6.  Which backend the factory chooses.  For every platform, tier
    string and page, the factory leaves local storage and the page body
    untouched, and makes no call of the standard backend before it
    either returns the preferred renderer or calls the constructor of
    the standard one.  The result is of type [webgpu] exactly when the
    platform has a GPU API, the tier string contains "webgpu", every
    step of the preferred set-up succeeds and the smoke test passes;
    the canvas then gets no handler for context loss.  In every other
    case the factory calls the constructor of the standard renderer:
    if it returns, the result is of type [webgl2], holds the renderer
    [createWebGLRenderer] configures, and the two handlers are added
    after those already on the canvas; if it throws, the factory
    throws, and the canvas is as it was. *)
Theorem makeRenderer_backend_choice (p : Platform) (tier : string) (w : World) :
  exists out w' called,
    makeRenderer p tier w = (out, w') /\
    localStorage w' = localStorage w /\
    bodyChildren w' = bodyChildren w /\
    forallb (fun e => negb (isStandardBackendCall e)) called = true /\
    if preferredBackendWorks p tier
    then out = Returned {| renderer := WebGPUObject; type := webgpu |} /\
         log w' = log w ++ called /\
         canvasListeners w' = canvasListeners w
    else if webglAvailable p tier (log w ++ called)
    then out = Returned {| renderer := WebGLObject (webglRenderer p tier);
                           type := webgl2 |} /\
         log w' = log w ++ called ++ webglSetup p tier /\
         canvasListeners w' = canvasListeners w ++ webglListeners
    else out = Thrown /\
         log w' = log w ++ called ++ [ConstructWebGL (webglOptions p tier)] /\
         canvasListeners w' = canvasListeners w.
Proof.
  destruct (negb (hasGPU p) || negb (JsRegex.includes "webgpu" tier)) eqn:E.
  - rewrite (RendererFacts.makeRenderer_standard_path p tier w E).
    destruct (standardResult_run p tier w [ConsoleLog; ConsoleLog])
      as (out & w' & Hrun & Hls & Hbody & _ & Hcases).
    exists out, w', [ConsoleLog; ConsoleLog].
    split; [exact Hrun |]. split; [exact Hls |]. split; [exact Hbody |].
    split; [reflexivity |].
    assert (Hno : preferredBackendWorks p tier = false).
    { unfold preferredBackendWorks, reachesSmokeTest.
      destruct (hasGPU p), (JsRegex.includes "webgpu" tier);
        try discriminate; reflexivity. }
    rewrite Hno. exact Hcases.
  - assert (Hgpu : hasGPU p = true)
      by (destruct (hasGPU p); [reflexivity | discriminate]).
    assert (Hinc : JsRegex.includes "webgpu" tier = true).
    { rewrite Hgpu in E.
      destruct (JsRegex.includes "webgpu" tier); [reflexivity | discriminate]. }
    destruct (RendererFacts.createWebGPURenderer_trace p
                (withLog w (log w ++ [ConsoleLog; ConsoleLog])))
      as (o & tr & Hrun & Ho & Hiff & Htr).
    rewrite (RendererFacts.makeRenderer_preferred_path p tier w Hgpu Hinc o tr Hrun).
    assert (Hworks : preferredBackendWorks p tier = true <-> o = Some WebGPUObject).
    { rewrite Hiff. unfold preferredBackendWorks, reachesSmokeTest.
      rewrite Hgpu, Hinc. cbn [andb]. reflexivity. }
    destruct Ho as [-> | ->].
    + eexists _, _, ([ConsoleLog; ConsoleLog] ++ tr ++ [ConsoleLog]).
      split; [reflexivity |]. cbn [localStorage bodyChildren withLog].
      split; [reflexivity |]. split; [reflexivity |].
      split.
      { rewrite !standard_calls_app, Htr. reflexivity. }
      rewrite (proj2 Hworks eq_refl). cbn [log canvasListeners withLog].
      repeat split.
    + destruct (standardResult_run p tier w
                  ([ConsoleLog; ConsoleLog] ++ tr ++ [ConsoleLog]))
        as (out & w' & Hrun' & Hls & Hbody & _ & Hcases).
      exists out, w', ([ConsoleLog; ConsoleLog] ++ tr ++ [ConsoleLog]).
      split; [exact Hrun' |]. split; [exact Hls |]. split; [exact Hbody |].
      split.
      { rewrite !standard_calls_app, Htr. reflexivity. }
      destruct (preferredBackendWorks p tier).
      * destruct Hworks as [Habs _]. discriminate (Habs eq_refl).
      * exact Hcases.
Qed.

(** X7.  If the platform has no GPU API, or the tier string does not
    contain "webgpu", the factory goes straight to the standard
    backend: it logs two console messages and calls
    [createWebGLRenderer], whose outcome is its own.  No call goes to
    the preferred backend, however well it would work: the WebGPU
    module is not even imported.  The result is of type [webgl2] when
    the constructor of the standard renderer returns, and the factory
    throws when it throws. *)
Theorem makeRenderer_standard_only (p : Platform) (tier : string) (w : World) :
  hasGPU p = false \/ JsRegex.includes "webgpu" tier = false ->
  exists out w' tr,
    makeRenderer p tier w = (out, w') /\
    log w' = log w ++ tr /\
    leavesPreferredBackendAlone tr /\
    if webglAvailable p tier (log w ++ [ConsoleLog; ConsoleLog])
    then out = Returned {| renderer := WebGLObject (webglRenderer p tier);
                           type := webgl2 |} /\
         tr = [ConsoleLog; ConsoleLog] ++ webglSetup p tier /\
         canvasListeners w' = canvasListeners w ++ webglListeners
    else out = Thrown /\
         tr = [ConsoleLog; ConsoleLog; ConstructWebGL (webglOptions p tier)] /\
         canvasListeners w' = canvasListeners w.
Proof.
  intros H.
  assert (E : negb (hasGPU p) || negb (JsRegex.includes "webgpu" tier) = true).
  { destruct H as [-> | ->]; [reflexivity | apply orb_true_r]. }
  rewrite (RendererFacts.makeRenderer_standard_path p tier w E).
  destruct (standardResult_run p tier w [ConsoleLog; ConsoleLog])
    as (out & w' & Hrun & _ & _ & _ & Hcases).
  destruct (webglAvailable p tier (log w ++ [ConsoleLog; ConsoleLog]));
    destruct Hcases as (Hout & Hlog & Hls).
  - exists out, w', ([ConsoleLog; ConsoleLog] ++ webglSetup p tier).
    split; [exact Hrun |]. split; [exact Hlog |]. split; [reflexivity |].
    split; [exact Hout |]. split; [reflexivity | exact Hls].
  - exists out, w', [ConsoleLog; ConsoleLog; ConstructWebGL (webglOptions p tier)].
    split; [exact Hrun |]. split; [exact Hlog |]. split; [reflexivity |].
    split; [exact Hout |]. split; [reflexivity | exact Hls].
Qed.

Lemma makeRenderer_standard_only_witness :
  (hasGPU Devices.phone = false
   \/ JsRegex.includes "webgpu" "mobileLow" = false) /\
  exists out w' tr,
    makeRenderer Devices.phone "mobileLow" emptyWorld = (out, w') /\
    log w' = log emptyWorld ++ tr /\
    leavesPreferredBackendAlone tr /\
    out = Returned {| renderer :=
                        WebGLObject (webglRenderer Devices.phone "mobileLow");
                      type := webgl2 |} /\
    tr = [ConsoleLog; ConsoleLog] ++ webglSetup Devices.phone "mobileLow" /\
    canvasListeners w' = canvasListeners emptyWorld ++ webglListeners.
Proof.
  split; [right; reflexivity |].
  apply (makeRenderer_standard_only Devices.phone "mobileLow" emptyWorld).
  right. reflexivity.
Defined.

(** X8.  The options [createWebGLRenderer] passes and sets.  The first
    call it makes is the constructor, with these options: antialiasing
    and the logarithmic depth buffer exactly on the tiers whose name
    does not start with "mobile", which also get the high-performance
    GPU; the drawing buffer preserved unless the device is an iOS
    device on a mobile tier, and in exactly that case the context
    creation made to fail on a major performance caveat, so that of the
    two options one and only one is set.  The function throws when the
    constructor does, and otherwise returns the renderer constructed
    with these options, on which the shadow map is on exactly when
    antialiasing is, the pixel ratio is never above 2 and is exactly 1
    on a mobile tier, and the size is that of the window. *)
Theorem createWebGLRenderer_options (p : Platform) (tier : string) (w : World) :
  exists out w' o gl,
    createWebGLRenderer p tier w = (out, w') /\
    (exists rest, log w' = log w ++ ConstructWebGL o :: rest) /\
    (if constructsWebGL p o (log w)
     then out = Returned gl else out = Thrown) /\
    antialias o = negb (JsRegex.startsWith "mobile" tier) /\
    logarithmicDepthBuffer o = antialias o /\
    (powerPreference o = highPerformance <-> antialias o = true) /\
    preserveDrawingBuffer o = negb (failIfMajorPerformanceCaveat o) /\
    (failIfMajorPerformanceCaveat o = true <->
     isIOS p = true /\ JsRegex.startsWith "mobile" tier = true) /\
    options gl = o /\
    shadowMapEnabled gl = antialias o /\
    (pixelRatio gl <= 2)%Q /\
    (JsRegex.startsWith "mobile" tier = true -> pixelRatio gl = 1%Q) /\
    (JsRegex.startsWith "mobile" tier = false ->
     (pixelRatio gl <= devicePixelRatio p)%Q) /\
    size gl = (innerWidth p, innerHeight p).
Proof.
  rewrite RendererFacts.createWebGLRenderer_run.
  exists (if webglAvailable p tier (log w)
          then Returned (webglRenderer p tier) else Thrown).
  exists (if webglAvailable p tier (log w)
          then withHandlers (withLog w (log w ++ webglSetup p tier))
          else withLog w (log w ++ [ConstructWebGL (webglOptions p tier)])).
  exists (webglOptions p tier), (webglRenderer p tier).
  split; [destruct (webglAvailable p tier (log w)); reflexivity |].
  split.
  { destruct (webglAvailable p tier (log w)); eexists; reflexivity. }
  split.
  { unfold webglAvailable.
    destruct (constructsWebGL p (webglOptions p tier) (log w)); reflexivity. }
  unfold webglRenderer, configured, webglOptions. cbv zeta.
  set (m := JsRegex.startsWith "mobile" tier). set (ios := isIOS p).
  cbn [pixelRatio antialias logarithmicDepthBuffer shadowMapEnabled options
       powerPreference preserveDrawingBuffer failIfMajorPerformanceCaveat size].
  clearbody m ios. destruct m; cbn [negb].
  - split; [reflexivity |]. split; [reflexivity |].
    split; [split; discriminate |]. split; [reflexivity |].
    split; [rewrite andb_true_r; split; [auto | tauto] |].
    split; [reflexivity |]. split; [reflexivity |].
    split; [unfold Qle; simpl; lia |]. split; [reflexivity |].
    split; [discriminate | reflexivity].
  - assert (Hle : ((if Qle_bool (devicePixelRatio p) 2
                    then devicePixelRatio p else 2) <= 2)%Q /\
                  ((if Qle_bool (devicePixelRatio p) 2
                    then devicePixelRatio p else 2) <= devicePixelRatio p)%Q).
    { destruct (Qle_bool (devicePixelRatio p) 2) eqn:E.
      - split; [now apply Qle_bool_iff | apply Qle_refl].
      - split; [apply Qle_refl |].
        apply Qnot_lt_le. intros Hlt.
        assert (Hc : Qle_bool (devicePixelRatio p) 2 = true)
          by (apply Qle_bool_iff, Qlt_le_weak, Hlt).
        congruence. }
    split; [reflexivity |]. split; [reflexivity |].
    split; [split; reflexivity |]. split; [now rewrite andb_false_r |].
    split.
    { rewrite andb_false_r. split; [discriminate | intros [_ H]; discriminate]. }
    split; [reflexivity |]. split; [reflexivity |].
    split; [apply Hle |]. split; [discriminate |].
    split; [intros _; apply Hle | reflexivity].
Qed.

Lemma dispatch_lost (w : World) :
  canvasListeners w = webglListeners ->
  dispatch "webglcontextlost" w
  = invoke OnContextLost
      {| storage := storage w;
         localStorage := localStorage w; bodyChildren := bodyChildren w;
         canvasListeners := canvasListeners w;
         defaultPrevented := false;
         reloads := reloads w; uncaught := uncaught w; log := log w |}.
Proof.
  intros H. unfold dispatch. rewrite H at 1.
  apply RendererFacts.runListeners_lost.
Qed.

Lemma dispatch_restored (w : World) :
  canvasListeners w = webglListeners ->
  dispatch "webglcontextrestored" w
  = invoke OnContextRestored
      {| storage := storage w;
         localStorage := localStorage w; bodyChildren := bodyChildren w;
         canvasListeners := canvasListeners w;
         defaultPrevented := false;
         reloads := reloads w; uncaught := uncaught w; log := log w |}.
Proof.
  intros H. unfold dispatch. rewrite H at 1.
  apply RendererFacts.runListeners_restored.
Qed.

(** X9.  A loss of context followed by its restoration, on a canvas
    that had no listener before the renderer was created, when the
    constructor of the standard renderer returns.  The loss suppresses
    its default action, the restoration does not, and neither event
    lets an exception reach the caller of the dispatch.  On a page
    whose local storage takes the write, the flag [webglContextLost] is
    "true" after the loss and the banner is the last child of the body;
    after the restoration the flag is gone again, so that local storage
    is as before the renderer was created when it held no such flag,
    and the page has been reloaded once.  On a page whose storage is
    full, the loss handler throws at the write: no flag, no banner, one
    uncaught exception; the restoration still removes the key and
    reloads.  On a page whose storage is blocked, both handlers throw
    at their storage call: no flag, no banner, no reload, two uncaught
    exceptions. *)
Theorem context_loss_then_restore (p : Platform) (tier : string) (w : World) :
  canvasListeners w = [] -> webglAvailable p tier (log w) = true ->
  exists gl w1 w2 w3,
    createWebGLRenderer p tier w = (Returned gl, w1) /\
    dispatch "webglcontextlost" w1 = w2 /\
    dispatch "webglcontextrestored" w2 = w3 /\
    defaultPrevented w2 = true /\
    defaultPrevented w3 = false /\
    reloads w2 = reloads w /\
    match storage w with
    | Writable =>
        localStorage w2
          = <["webglContextLost"%string := "true"%string]> (localStorage w) /\
        localStorage w3 = delete "webglContextLost"%string (localStorage w) /\
        (localStorage w !! "webglContextLost"%string = None ->
         localStorage w3 = localStorage w) /\
        bodyChildren w3 = bodyChildren w ++ [GraphicsErrorBanner] /\
        reloads w3 = S (reloads w) /\
        uncaught w3 = uncaught w /\
        log w3 = log w1 ++ lossActions
                   ++ [ConsoleLog; RemoveItem "webglContextLost"; Reload]
    | QuotaExceeded =>
        localStorage w2 = localStorage w /\
        localStorage w3 = delete "webglContextLost"%string (localStorage w) /\
        bodyChildren w3 = bodyChildren w /\
        reloads w3 = S (reloads w) /\
        uncaught w3 = S (uncaught w) /\
        log w3 = log w1 ++ lossActionsCutShort
                   ++ [ConsoleLog; RemoveItem "webglContextLost"; Reload]
    | AccessDenied =>
        localStorage w2 = localStorage w /\
        localStorage w3 = localStorage w /\
        bodyChildren w3 = bodyChildren w /\
        reloads w3 = reloads w /\
        uncaught w3 = S (S (uncaught w)) /\
        log w3 = log w1 ++ lossActionsCutShort
                   ++ [ConsoleLog; RemoveItem "webglContextLost"]
    end.
Proof.
  intros Hnone Hok. rewrite RendererFacts.createWebGLRenderer_run, Hok.
  eexists _, _, _, _. split; [reflexivity |].
  split; [reflexivity |]. split; [reflexivity |].
  rewrite (dispatch_lost (withHandlers _))
    by (cbn [canvasListeners withHandlers withLog]; now rewrite Hnone).
  destruct (storage w) eqn:Hs.
  - rewrite RendererFacts.invoke_lost_writable by exact Hs.
    rewrite dispatch_restored
      by (cbn [canvasListeners withHandlers withLog]; now rewrite Hnone).
    rewrite RendererFacts.invoke_restored_reachable by (cbn; congruence).
    cbn. split; [reflexivity |]. split; [reflexivity |].
    split; [reflexivity |]. split; [reflexivity |].
    split; [apply delete_insert_eq |].
    split.
    { intros Habs. rewrite delete_insert_eq. now apply delete_id. }
    split; [reflexivity |]. split; [reflexivity |]. split; [reflexivity |].
    now rewrite <- !app_assoc.
  - rewrite RendererFacts.invoke_lost_refused by (cbn; congruence).
    rewrite dispatch_restored
      by (cbn [canvasListeners withHandlers withLog]; now rewrite Hnone).
    rewrite RendererFacts.invoke_restored_reachable by (cbn; congruence).
    cbn. split; [reflexivity |]. split; [reflexivity |].
    split; [reflexivity |]. split; [reflexivity |]. split; [reflexivity |].
    split; [reflexivity |]. split; [reflexivity |]. split; [reflexivity |].
    now rewrite <- !app_assoc.
  - rewrite RendererFacts.invoke_lost_refused by (cbn; congruence).
    rewrite dispatch_restored
      by (cbn [canvasListeners withHandlers withLog]; now rewrite Hnone).
    rewrite RendererFacts.invoke_restored_denied by (cbn; congruence).
    cbn. split; [reflexivity |]. split; [reflexivity |].
    split; [reflexivity |]. split; [reflexivity |]. split; [reflexivity |].
    split; [reflexivity |]. split; [reflexivity |]. split; [reflexivity |].
    now rewrite <- !app_assoc.
Qed.

Lemma context_loss_then_restore_witness :
  canvasListeners emptyWorld = [] /\
  webglAvailable Devices.phone "mobileLow" (log emptyWorld) = true /\
  exists gl w1 w2 w3,
    createWebGLRenderer Devices.phone "mobileLow" emptyWorld = (Returned gl, w1) /\
    dispatch "webglcontextlost" w1 = w2 /\
    dispatch "webglcontextrestored" w2 = w3 /\
    defaultPrevented w2 = true /\
    defaultPrevented w3 = false /\
    reloads w2 = reloads emptyWorld /\
    localStorage w2
      = <["webglContextLost"%string := "true"%string]> (localStorage emptyWorld) /\
    localStorage w3
      = delete "webglContextLost"%string (localStorage emptyWorld) /\
    (localStorage emptyWorld !! "webglContextLost"%string = None ->
     localStorage w3 = localStorage emptyWorld) /\
    bodyChildren w3 = bodyChildren emptyWorld ++ [GraphicsErrorBanner] /\
    reloads w3 = S (reloads emptyWorld) /\
    uncaught w3 = uncaught emptyWorld /\
    log w3 = log w1 ++ lossActions
               ++ [ConsoleLog; RemoveItem "webglContextLost"; Reload].
Proof.
  split; [reflexivity |]. split; [reflexivity |].
  apply (context_loss_then_restore Devices.phone "mobileLow" emptyWorld);
    reflexivity.
Defined.

(** X10.  Creating the standard renderer twice on the same canvas
    registers the handlers twice (each call builds new closures, so the
    canvas keeps all of them): one loss of context then runs the loss
    handler twice.  On a page whose local storage takes the write this
    puts two banners on the page.  On a page whose storage is full or
    blocked the first run throws at the write, and the second run is
    still made and throws in the same place: no banner, two uncaught
    exceptions. *)
Theorem handlers_accumulate (p : Platform) (tier1 tier2 : string) (w : World) :
  canvasListeners w = [] ->
  webglAvailable p tier1 (log w) = true ->
  webglAvailable p tier2 (log w ++ webglSetup p tier1) = true ->
  exists gl1 gl2 w1 w2 w3,
    createWebGLRenderer p tier1 w = (Returned gl1, w1) /\
    createWebGLRenderer p tier2 w1 = (Returned gl2, w2) /\
    canvasListeners w2 = webglListeners ++ webglListeners /\
    dispatch "webglcontextlost" w2 = w3 /\
    match storage w with
    | Writable =>
        bodyChildren w3
          = bodyChildren w ++ [GraphicsErrorBanner; GraphicsErrorBanner] /\
        log w3 = log w2 ++ lossActions ++ lossActions /\
        uncaught w3 = uncaught w
    | QuotaExceeded | AccessDenied =>
        bodyChildren w3 = bodyChildren w /\
        log w3 = log w2 ++ lossActionsCutShort ++ lossActionsCutShort /\
        uncaught w3 = S (S (uncaught w))
    end.
Proof.
  intros Hnone Hok1 Hok2.
  rewrite RendererFacts.createWebGLRenderer_run, Hok1.
  eexists _, _, _, _, _. split; [reflexivity |].
  rewrite RendererFacts.createWebGLRenderer_run.
  cbn [log withHandlers withLog]. rewrite Hok2.
  split; [reflexivity |].
  cbn [canvasListeners withHandlers withLog]. rewrite Hnone.
  split; [reflexivity |]. split; [reflexivity |].
  unfold dispatch.
  cbn [canvasListeners localStorage bodyChildren reloads log storage uncaught
       withHandlers withLog].
  rewrite Hnone.
  change ((([] ++ [("webglcontextlost"%string, OnContextLost);
                   ("webglcontextrestored"%string, OnContextRestored)])
             ++ [("webglcontextlost"%string, OnContextLost);
                 ("webglcontextrestored"%string, OnContextRestored)]))
    with (webglListeners ++ webglListeners).
  rewrite RendererFacts.runListeners_app, !RendererFacts.runListeners_lost.
  destruct (storage w) eqn:Hs.
  - match goal with |- context [invoke OnContextLost (invoke OnContextLost ?W)] =>
      rewrite (RendererFacts.invoke_lost_writable W) by reflexivity end.
    rewrite RendererFacts.invoke_lost_writable by reflexivity.
    cbn. split; [| split]; [| | reflexivity]; now rewrite <- !app_assoc.
  - match goal with |- context [invoke OnContextLost (invoke OnContextLost ?W)] =>
      rewrite (RendererFacts.invoke_lost_refused W) by discriminate end.
    rewrite RendererFacts.invoke_lost_refused by discriminate.
    cbn. split; [| split]; [reflexivity | | reflexivity];
      now rewrite <- !app_assoc.
  - match goal with |- context [invoke OnContextLost (invoke OnContextLost ?W)] =>
      rewrite (RendererFacts.invoke_lost_refused W) by discriminate end.
    rewrite RendererFacts.invoke_lost_refused by discriminate.
    cbn. split; [| split]; [reflexivity | | reflexivity];
      now rewrite <- !app_assoc.
Qed.

Lemma handlers_accumulate_witness :
  canvasListeners fullPage = [] /\
  webglAvailable Devices.phone "mobileLow" (log fullPage) = true /\
  webglAvailable Devices.phone "desktopHigh"
    (log fullPage ++ webglSetup Devices.phone "mobileLow") = true /\
  exists gl1 gl2 w1 w2 w3,
    createWebGLRenderer Devices.phone "mobileLow" fullPage
      = (Returned gl1, w1) /\
    createWebGLRenderer Devices.phone "desktopHigh" w1 = (Returned gl2, w2) /\
    canvasListeners w2 = webglListeners ++ webglListeners /\
    dispatch "webglcontextlost" w2 = w3 /\
    bodyChildren w3 = bodyChildren fullPage /\
    log w3 = log w2 ++ lossActionsCutShort ++ lossActionsCutShort /\
    uncaught w3 = S (S (uncaught fullPage)).
Proof.
  split; [reflexivity |]. split; [reflexivity |]. split; [reflexivity |].
  apply (handlers_accumulate Devices.phone "mobileLow" "desktopHigh" fullPage);
    reflexivity.
Defined.

End RendererChoiceFacts.

(** ** The logger and its persisted errors *)
Module LoggerFacts.
Import Logger.

Lemma parseStored_print (c : ConsoleCall) (w : World) :
  parseStored (print c w) = parseStored w.
Proof. reflexivity. Qed.

Lemma parseStored_setItem (j : Json) (w : World) :
  parseStored (setItem "app_errors" (JsonText j) w) = Some j.
Proof.
  unfold parseStored, setItem. cbn [localStorage].
  now rewrite lookup_insert_eq.
Qed.

(** The cut [persistError] makes on a list of at most fifty entries
    that got one more: the last fifty. *)
Lemma shift_last_fifty {A : Type} (l : list A) (x : A) :
  (length l <= 50)%nat ->
  (if (50 <? length (l ++ [x]))%nat then tail (l ++ [x]) else l ++ [x])
  = drop (length (l ++ [x]) - 50) (l ++ [x]).
Proof.
  intros Hlen. rewrite length_app. cbn [length].
  destruct (Nat.ltb_spec 50 (length l + 1)) as [H | H].
  - replace (length l + 1 - 50)%nat with 1%nat by lia.
    destruct l; reflexivity.
  - replace (length l + 1 - 50)%nat with 0%nat by lia. reflexivity.
Qed.

Lemma drop_last_fifty {A : Type} (l : list A) (x : A) :
  drop (length (drop (length l - 50) l ++ [x]) - 50)
       (drop (length l - 50) l ++ [x])
  = drop (length (l ++ [x]) - 50) (l ++ [x]).
Proof.
  rewrite !length_app, length_drop. cbn [length].
  destruct (Nat.le_gt_cases (length l) 50) as [H | H].
  - replace (length l - 50)%nat with 0%nat by lia.
    cbn [drop]. now rewrite Nat.sub_0_r.
  - replace (length l - (length l - 50) + 1 - 50)%nat with 1%nat by lia.
    replace (length l + 1 - 50)%nat with (S (length l - 50)) by lia.
    rewrite (drop_app_le l [x]) by lia.
    rewrite drop_app_le by (rewrite length_drop; lia).
    now rewrite drop_drop, Nat.add_1_r.
Qed.

Lemma persistError_stores (now : string) (args : list Arg) (w : World)
    (errors : list Json) (message : string) :
  storedArray w errors -> messageOf args = Some message ->
  storageFull w = false -> (length errors <= 50)%nat ->
  persistError now args w
  = setItem "app_errors"
      (JsonText
         (JArray (drop (length (errors ++ [entry now message]) - 50)
                       (errors ++ [entry now message])))) w.
Proof.
  intros Hst Hmsg Hfull Hlen. unfold persistError.
  rewrite Hst, Hmsg, Hfull. now rewrite shift_last_fifty.
Qed.

Lemma errorAll_spec (l : Logger) :
  categories l ERROR = true ->
  forall calls done w,
    storageFull w = false ->
    storedArray w (map entryOf (drop (length done - 50) done)) ->
    Forall printable calls ->
    storedArray (errorAll l calls w)
      (map entryOf (drop (length (done ++ calls) - 50) (done ++ calls))) /\
    storageFull (errorAll l calls w) = false /\
    console (errorAll l calls w)
    = console w ++ map (fun c => Error (snd c)) calls.
Proof.
  intros Hcat. induction calls as [|[now args] rest IH]; intros done w Hfull Hst Hp.
  - rewrite !app_nil_r. cbn. auto.
  - inversion Hp as [|c cs Hc Hrest]; subst.
    unfold printable in Hc. cbn [snd] in Hc.
    destruct (messageOf args) as [m|] eqn:Hm; [| congruence].
    cbn [errorAll]. unfold error. rewrite Hcat. cbn [negb].
    rewrite (persistError_stores now args (print (Error args) w) _ m Hst Hm Hfull)
      by (rewrite List.length_map, length_drop; lia).
    match goal with |- context [errorAll l rest ?W] =>
      destruct (IH (done ++ [(now, args)]) W) as (H1 & H2 & H3)
    end.
    + exact Hfull.
    + unfold storedArray. rewrite parseStored_setItem. do 2 f_equal.
      replace (entry now m) with (entryOf (now, args))
        by (unfold entryOf; cbn [fst snd]; now rewrite Hm).
      change [entryOf (now, args)] with (map entryOf [(now, args)]).
      rewrite <- List.map_app, List.length_map, List.skipn_map.
      now rewrite drop_last_fifty.
    + exact Hrest.
    + rewrite <- app_assoc in H1. cbn [app] in H1.
      split; [exact H1 |]. split; [exact H2 |].
      rewrite H3. cbn [console print setItem map snd].
      now rewrite <- app_assoc.
Qed.

(** X11.  Errors logged on a page whose storage holds no error yet and
    has room, by a logger whose ERROR category is on, with arguments
    that can be formatted: after any number of calls the persisted list
    read back is made of the entries of the last fifty calls, oldest
    first, each with the time and message of its call; and the console
    has one [console.error] per call. *)
Theorem persisted_errors_keep_last_fifty (l : Logger)
    (calls : list (string * list Arg)) (w : World) :
  categories l ERROR = true -> storageFull w = false ->
  storedArray w [] -> Forall printable calls ->
  getPersistedErrors (errorAll l calls w)
  = JArray (map entryOf (drop (length calls - 50) calls)) /\
  length (map entryOf (drop (length calls - 50) calls))
  = Nat.min (length calls) 50 /\
  console (errorAll l calls w)
  = console w ++ map (fun c => Error (snd c)) calls.
Proof.
  intros Hcat Hfull Hst Hp.
  destruct (errorAll_spec l Hcat calls [] w Hfull Hst Hp) as (H1 & _ & H3).
  cbn [app] in H1. unfold getPersistedErrors. rewrite H1.
  split; [reflexivity |]. split; [| exact H3].
  rewrite List.length_map, length_drop. lia.
Qed.

Lemma persisted_errors_keep_last_fifty_witness :
  categories (newLogger false) ERROR = true /\
  storageFull freshWorld = false /\
  storedArray freshWorld [] /\
  Forall printable (repeat ("12:00"%string, [Primitive "boom"]) 60) /\
  getPersistedErrors
    (errorAll (newLogger false)
       (repeat ("12:00"%string, [Primitive "boom"]) 60) freshWorld)
  = JArray
      (map entryOf
         (drop (length (repeat ("12:00"%string, [Primitive "boom"]) 60) - 50)
            (repeat ("12:00"%string, [Primitive "boom"]) 60))) /\
  length
    (map entryOf
       (drop (length (repeat ("12:00"%string, [Primitive "boom"]) 60) - 50)
          (repeat ("12:00"%string, [Primitive "boom"]) 60)))
  = Nat.min (length (repeat ("12:00"%string, [Primitive "boom"]) 60)) 50 /\
  console
    (errorAll (newLogger false)
       (repeat ("12:00"%string, [Primitive "boom"]) 60) freshWorld)
  = console freshWorld
    ++ map (fun c => Error (snd c))
         (repeat ("12:00"%string, [Primitive "boom"]) 60).
Proof.
  assert (Hp : Forall printable (repeat ("12:00"%string, [Primitive "boom"]) 60)).
  { apply List.Forall_forall. intros c Hc. apply repeat_spec in Hc. subst c.
    discriminate. }
  split; [reflexivity |]. split; [reflexivity |].
  split; [reflexivity |]. split; [exact Hp |].
  apply (persisted_errors_keep_last_fifty (newLogger false)
           (repeat ("12:00"%string, [Primitive "boom"]) 60) freshWorld);
    [reflexivity | reflexivity | reflexivity | exact Hp].
Defined.

(** X12.  A failure while persisting is silent.  When the stored text
    is not valid JSON or is not the text of an array, when an argument
    cannot be turned into JSON, or when the storage is full, a call of
    [error] still prints on the console but leaves local storage
    exactly as it was: the error is not persisted, and a corrupt item
    stays corrupt until it is cleared. *)
Theorem persist_failure_is_silent (l : Logger) (now : string)
    (args : list Arg) (w : World) :
  categories l ERROR = true ->
  parseStored w = None
  \/ (exists j, parseStored w = Some j /\ forall errors, j <> JArray errors)
  \/ messageOf args = None
  \/ storageFull w = true ->
  error l now args w = print (Error args) w /\
  localStorage (error l now args w) = localStorage w /\
  getPersistedErrors (error l now args w) = getPersistedErrors w.
Proof.
  intros Hcat H.
  assert (E : error l now args w = print (Error args) w).
  { unfold error. rewrite Hcat. cbn [negb]. unfold persistError.
    rewrite parseStored_print. cbn [storageFull print].
    destruct H as [-> | [(j & -> & Hj) | [Hm | Hf]]].
    - reflexivity.
    - destruct j; try reflexivity. now destruct (Hj items).
    - rewrite Hm. destruct (parseStored w) as [[]|]; reflexivity.
    - rewrite Hf. destruct (parseStored w) as [[]|]; try reflexivity.
      destruct (messageOf args); reflexivity. }
  rewrite E. repeat split.
Qed.

Lemma persist_failure_is_silent_witness :
  categories (newLogger true) ERROR = true /\
  (parseStored (setItem "app_errors" BrokenText freshWorld) = None
   \/ (exists j,
         parseStored (setItem "app_errors" BrokenText freshWorld) = Some j /\
         forall errors, j <> JArray errors)
   \/ messageOf [Primitive "boom"] = None
   \/ storageFull (setItem "app_errors" BrokenText freshWorld) = true) /\
  error (newLogger true) "12:00" [Primitive "boom"]
    (setItem "app_errors" BrokenText freshWorld)
  = print (Error [Primitive "boom"])
      (setItem "app_errors" BrokenText freshWorld) /\
  localStorage
    (error (newLogger true) "12:00" [Primitive "boom"]
       (setItem "app_errors" BrokenText freshWorld))
  = localStorage (setItem "app_errors" BrokenText freshWorld) /\
  getPersistedErrors
    (error (newLogger true) "12:00" [Primitive "boom"]
       (setItem "app_errors" BrokenText freshWorld))
  = getPersistedErrors (setItem "app_errors" BrokenText freshWorld).
Proof.
  assert (E : parseStored (setItem "app_errors" BrokenText freshWorld) = None).
  { unfold parseStored, setItem. cbn [localStorage].
    now rewrite lookup_insert_eq. }
  split; [reflexivity |]. split; [left; exact E |].
  apply (persist_failure_is_silent (newLogger true) "12:00"
           [Primitive "boom"] (setItem "app_errors" BrokenText freshWorld));
    [reflexivity | left; exact E].
Defined.

(** X13.  The logger owns one key.  Whatever a logger is asked to do
    ([log], [warn], [error], [group], [groupEnd], clearing the
    persisted errors), every item of local storage under a key other
    than [app_errors] stays as it is. *)
Theorem logger_touches_only_app_errors (l : Logger) (category : LogCategory)
    (emoji label now : string) (args : list Arg) (w : World) (key : string) :
  key <> "app_errors"%string ->
  localStorage (log l category emoji args w) !! key = localStorage w !! key /\
  localStorage (warn l category emoji args w) !! key = localStorage w !! key /\
  localStorage (error l now args w) !! key = localStorage w !! key /\
  localStorage (group l category emoji label w) !! key
  = localStorage w !! key /\
  localStorage (groupEnd l w) !! key = localStorage w !! key /\
  localStorage (clearPersistedErrors w) !! key = localStorage w !! key.
Proof.
  intros Hkey.
  assert (Hp : localStorage (persistError now args (print (Error args) w)) !! key
               = localStorage w !! key).
  { unfold persistError. rewrite parseStored_print. cbn [storageFull print].
    destruct (parseStored w) as [[]|]; try reflexivity.
    destruct (messageOf args); [| reflexivity].
    destruct (storageFull w); [reflexivity |].
    cbn [localStorage setItem print]. now apply lookup_insert_ne. }
  unfold log, warn, error, group, groupEnd, clearPersistedErrors.
  repeat split.
  - destruct (negb (enabled l) || negb (categories l category)); reflexivity.
  - destruct (negb (enabled l) || negb (categories l category)); reflexivity.
  - destruct (negb (categories l ERROR)); [reflexivity | exact Hp].
  - destruct (negb (enabled l) || negb (categories l category)); reflexivity.
  - destruct (negb (enabled l)); reflexivity.
  - cbn [localStorage removeItem]. now apply lookup_delete_ne.
Qed.

Lemma logger_touches_only_app_errors_witness :
  "webglContextLost"%string <> "app_errors"%string /\
  localStorage (log (newLogger true) REQUEST "r" [] freshWorld)
    !! "webglContextLost"%string
  = localStorage freshWorld !! "webglContextLost"%string /\
  localStorage (warn (newLogger true) REQUEST "r" [] freshWorld)
    !! "webglContextLost"%string
  = localStorage freshWorld !! "webglContextLost"%string /\
  localStorage (error (newLogger true) "12:00" [] freshWorld)
    !! "webglContextLost"%string
  = localStorage freshWorld !! "webglContextLost"%string /\
  localStorage (group (newLogger true) REQUEST "r" "load" freshWorld)
    !! "webglContextLost"%string
  = localStorage freshWorld !! "webglContextLost"%string /\
  localStorage (groupEnd (newLogger true) freshWorld)
    !! "webglContextLost"%string
  = localStorage freshWorld !! "webglContextLost"%string /\
  localStorage (clearPersistedErrors freshWorld) !! "webglContextLost"%string
  = localStorage freshWorld !! "webglContextLost"%string.
Proof.
  split; [discriminate |].
  apply (logger_touches_only_app_errors (newLogger true) REQUEST "r" "load"
           "12:00" [] freshWorld "webglContextLost").
  discriminate.
Defined.

Lemma LogCategory_eqb_eq (a b : LogCategory) :
  LogCategory_eqb a b = true <-> a = b.
Proof. destruct a, b; simpl; split; congruence. Qed.

(** X14.  The switches of the logger.  [LOG_ENABLED] gates [log],
    [warn], [group] and [groupEnd] but not [error]: a logger that is
    not enabled prints nothing through the first four whatever the
    category, and handles an error exactly as an enabled logger with
    the same categories does.  Switching a category changes that
    category only; after [disableCategory(ERROR)] a call of [error]
    neither prints nor persists, and [enableCategory] undoes it. *)
Theorem logger_switches (l : Logger) (category other : LogCategory)
    (emoji label now : string) (args : list Arg) (w : World) :
  (enabled l = false ->
   log l category emoji args w = w /\
   warn l category emoji args w = w /\
   group l category emoji label w = w /\
   groupEnd l w = w) /\
  error l now args w
  = error {| enabled := negb (enabled l); categories := categories l |}
      now args w /\
  categories (enableCategory category l) category = true /\
  categories (disableCategory category l) category = false /\
  (other <> category ->
   categories (enableCategory category l) other = categories l other /\
   categories (disableCategory category l) other = categories l other) /\
  error (disableCategory ERROR l) now args w = w /\
  error (enableCategory ERROR (disableCategory ERROR l)) now args w
  = persistError now args (print (Error args) w).
Proof.
  assert (Hrefl : forall c, LogCategory_eqb c c = true) by (now intros []).
  split.
  { intros He. unfold log, warn, group, groupEnd. rewrite He. cbn.
    repeat split. }
  split; [reflexivity |].
  unfold enableCategory, disableCategory, setCategory. cbn [categories].
  rewrite !Hrefl.
  split; [reflexivity |]. split; [reflexivity |].
  split.
  { intros Hne.
    destruct (LogCategory_eqb other category) eqn:E; [| split; reflexivity].
    apply LogCategory_eqb_eq in E. contradiction. }
  unfold error. cbn [categories]. split; reflexivity.
Qed.

End LoggerFacts.

(** ** The error panel *)
Module ErrorLogDisplayFacts.
Import Logger ErrorLogDisplay.

(** X15.  An error the logger persisted reaches the panel, and the
    panel can be dismissed.  After a call of [error] that finds an array
    of at most fifty entries (or nothing) in storage, room to write and
    arguments it can format, the next poll of the component makes the
    panel visible with the persisted list, whose last row is the error
    just logged.  The close button then empties the stored list and
    hides the panel, and a further poll leaves it hidden. *)
Theorem logged_error_is_shown_until_dismissed (l : Logger) (now : string)
    (args : list Arg) (w : World) (stored : list Json) (message : string)
    (st : State) :
  categories l ERROR = true -> storageFull w = false ->
  storedArray w stored -> (length stored <= 50)%nat ->
  messageOf args = Some message ->
  exists st1 rows,
    checkErrors (error l now args w) st = Some st1 /\
    visible st1 = true /\
    errors st1 = rows /\
    last rows = Some (entry now message) /\
    (1 <= length rows <= 50)%nat /\
    render st1 = Panel (length rows) rows /\
    render (snd (dismiss (error l now args w) st1)) = Nothing /\
    getPersistedErrors (fst (dismiss (error l now args w) st1)) = JArray [] /\
    checkErrors (fst (dismiss (error l now args w) st1))
      (snd (dismiss (error l now args w) st1))
    = Some (snd (dismiss (error l now args w) st1)).
Proof.
  intros Hcat Hfull Hst Hlen Hm.
  set (rows := drop (length (stored ++ [entry now message]) - 50)
                 (stored ++ [entry now message])).
  assert (Hrows : (1 <= length rows <= 50)%nat).
  { unfold rows. rewrite length_drop, length_app. cbn [length]. lia. }
  assert (Hlast : last rows = Some (entry now message)).
  { unfold rows. rewrite length_app. cbn [length].
    rewrite drop_app_le by lia. apply last_snoc. }
  assert (E : error l now args w
              = setItem "app_errors" (JsonText (JArray rows))
                  (print (Error args) w)).
  { unfold error. rewrite Hcat. cbn [negb].
    apply (LoggerFacts.persistError_stores now args
             (print (Error args) w) stored message Hst Hm Hfull Hlen). }
  assert (Hget : getPersistedErrors (error l now args w) = JArray rows).
  { rewrite E. unfold getPersistedErrors.
    now rewrite LoggerFacts.parseStored_setItem. }
  assert (Hpos : (0 <? length rows)%nat = true) by (apply Nat.ltb_lt; lia).
  exists {| visible := true; errors := rows |}, rows.
  split; [unfold checkErrors; now rewrite Hget, Hpos |].
  split; [reflexivity |]. split; [reflexivity |].
  split; [exact Hlast |]. split; [exact Hrows |].
  assert (Hz : (length rows =? 0)%nat = false) by (apply Nat.eqb_neq; lia).
  split; [unfold render; cbn [visible errors negb orb]; now rewrite Hz |].
  split; [reflexivity |].
  assert (Hclear : getPersistedErrors
                     (fst (dismiss (error l now args w)
                             {| visible := true; errors := rows |}))
                   = JArray []).
  { unfold dismiss, clearPersistedErrors, getPersistedErrors, parseStored,
      removeItem. cbn [fst localStorage].
    now rewrite lookup_delete_eq. }
  split; [exact Hclear |].
  unfold checkErrors. now rewrite Hclear.
Qed.

Lemma logged_error_is_shown_until_dismissed_witness :
  categories (newLogger false) ERROR = true /\
  storageFull freshWorld = false /\
  storedArray freshWorld [] /\
  (length (@nil Json) <= 50)%nat /\
  messageOf [Primitive "boom"; Object (Some "{}")] = Some "boom {}"%string /\
  exists st1 rows,
    checkErrors
      (error (newLogger false) "12:00" [Primitive "boom"; Object (Some "{}")]
         freshWorld) initial = Some st1 /\
    visible st1 = true /\
    errors st1 = rows /\
    last rows = Some (entry "12:00" "boom {}") /\
    (1 <= length rows <= 50)%nat /\
    render st1 = Panel (length rows) rows /\
    render
      (snd (dismiss
              (error (newLogger false) "12:00"
                 [Primitive "boom"; Object (Some "{}")] freshWorld) st1))
    = Nothing /\
    getPersistedErrors
      (fst (dismiss
              (error (newLogger false) "12:00"
                 [Primitive "boom"; Object (Some "{}")] freshWorld) st1))
    = JArray [] /\
    checkErrors
      (fst (dismiss
              (error (newLogger false) "12:00"
                 [Primitive "boom"; Object (Some "{}")] freshWorld) st1))
      (snd (dismiss
              (error (newLogger false) "12:00"
                 [Primitive "boom"; Object (Some "{}")] freshWorld) st1))
    = Some
        (snd (dismiss
                (error (newLogger false) "12:00"
                   [Primitive "boom"; Object (Some "{}")] freshWorld) st1)).
Proof.
  split; [reflexivity |]. split; [reflexivity |]. split; [reflexivity |].
  split; [simpl; lia |]. split; [reflexivity |].
  apply (logged_error_is_shown_until_dismissed (newLogger false) "12:00"
           [Primitive "boom"; Object (Some "{}")] freshWorld [] "boom {}"
           initial);
    [reflexivity | reflexivity | reflexivity | simpl; lia | reflexivity].
Defined.

End ErrorLogDisplayFacts.

(** ** The decimation, by content *)
Module DecimationFacts.
Import SimplifyGeometry.

Lemma kept_step (n s i : Z) :
  1 <= s -> 0 <= i -> i + 2 < n -> kept n s i = kept n s (i + s * 3) + 1.
Proof.
  intros Hs Hi Hlt. unfold kept.
  destruct (Z.ltb_spec (i + 2) n); [| lia].
  destruct (Z.ltb_spec (i + s * 3 + 2) n) as [Hmore | Hlast].
  - replace (n - 3 - i) with ((n - 3 - (i + s * 3)) + 1 * (3 * s)) by lia.
    rewrite Z.div_add by lia. lia.
  - rewrite (Z.div_small (n - 3 - i)) by lia. lia.
Qed.

Lemma kept_nonneg (n s i : Z) : 1 <= s -> 0 <= i -> 0 <= kept n s i.
Proof.
  intros Hs Hi. unfold kept. destruct (Z.ltb_spec (i + 2) n); [| lia].
  assert (0 <= (n - 3 - i) / (3 * s)) by (apply Z.div_pos; lia). lia.
Qed.

(** What the loop pushes when [step] is the integer [s]: triangle [k]
    of the output is read at counter [i + 3 s k]. *)
Lemma decimateLoop_content (array : list Z) (n s : Z) :
  1 <= s ->
  forall fuel i acc,
    0 <= i -> (Z.to_nat (n - i) <= fuel)%nat ->
    exists out,
      decimateLoop fuel array n (Num s) i acc = Some (acc ++ out) /\
      Z.of_nat (length out) = 3 * kept n s i /\
      forall k j,
        0 <= k < kept n s i -> 0 <= j < 3 ->
        nth_error out (Z.to_nat (3 * k + j))
        = Some (arrayAt array (i + 3 * s * k + j)).
Proof.
  intros Hs. induction fuel as [|fuel IH]; intros i acc Hi Hfuel.
  - exists []. rewrite SimplifyGeometryFacts.decimateLoop_done by lia.
    rewrite app_nil_r. split; [reflexivity |]. unfold kept.
    destruct (Z.ltb_spec (i + 2) n); [lia |]. split; [reflexivity |]. lia.
  - cbn [decimateLoop]. destruct (Z.ltb_spec i n) as [Hlt | Hge].
    + destruct (IH (i + s * 3)
                  (if i + 2 <? n
                   then acc ++ [arrayAt array i; arrayAt array (i + 1);
                                arrayAt array (i + 2)]
                   else acc)) as (out & Hrun & Hlen & Hcontent); [lia | lia |].
      rewrite Hrun.
      destruct (Z.ltb_spec (i + 2) n) as [Hpush | Hskip].
      * exists ([arrayAt array i; arrayAt array (i + 1);
                 arrayAt array (i + 2)] ++ out).
        split; [now rewrite app_assoc |].
        rewrite (kept_step n s i Hs Hi Hpush).
        split.
        { rewrite length_app, Nat2Z.inj_add, Hlen. cbn [length]. lia. }
        intros k j Hk Hj.
        destruct (Z.eq_dec k 0) as [-> | Hk0].
        -- replace (i + 3 * s * 0 + j) with (i + j) by lia.
           assert (j = 0 \/ j = 1 \/ j = 2) as [-> | [-> | ->]] by lia;
             [replace (i + 0) with i by lia | |]; reflexivity.
        -- replace (Z.to_nat (3 * k + j))
             with (3 + Z.to_nat (3 * (k - 1) + j))%nat by lia.
           cbn [app nth_error Nat.add].
           rewrite (Hcontent (k - 1) j) by lia.
           do 2 f_equal. lia.
      * exists out. split; [reflexivity |].
        assert (E : kept n s i = 0)
          by (unfold kept; destruct (Z.ltb_spec (i + 2) n); lia).
        assert (E' : kept n s (i + s * 3) = 0)
          by (unfold kept; destruct (Z.ltb_spec (i + s * 3 + 2) n); lia).
        rewrite E. rewrite E' in Hlen. split; [exact Hlen |]. lia.
    + exists []. rewrite app_nil_r. split; [reflexivity |].
      assert (E : kept n s i = 0)
        by (unfold kept; destruct (Z.ltb_spec (i + 2) n); lia).
      rewrite E. split; [reflexivity |]. lia.
Qed.

(** The same for every value [step] takes when the ratio is not
    negative: the loop keeps triangles [0], [s], [2 s], ... for some
    stride [s] of at least 1.  An infinite step keeps triangle 0 only,
    which is what a stride of the whole length does. *)
Lemma decimateLoop_stride (array : list Z) (r : Q) (fuel : nat) :
  (0 <= r)%Q ->
  let n := Z.of_nat (length array) in
  (S (length array) <= fuel)%nat ->
  exists s out,
    1 <= s /\
    decimateLoop fuel array n (stepOf n (targetIndexCountOf n r)) 0 [] = Some out /\
    (forall s', stepOf n (targetIndexCountOf n r) = Num s' -> s = s') /\
    Z.of_nat (length out) = 3 * kept n s 0 /\
    forall k j,
      0 <= k < kept n s 0 -> 0 <= j < 3 ->
      nth_error out (Z.to_nat (3 * k + j))
      = Some (arrayAt array (3 * s * k + j)).
Proof.
  intros Hr n Hfuel.
  assert (Hn : 0 <= n) by (unfold n; lia).
  destruct (SimplifyGeometryFacts.stepOf_cases n r Hn Hr)
    as [[Hn0 ->] | [-> | [s [Hs ->]]]].
  - exists 1, []. split; [lia |].
    split.
    { destruct fuel; [lia |]. cbn [decimateLoop].
      destruct (Z.ltb_spec 0 n); [lia | reflexivity]. }
    split; [discriminate |].
    assert (E : kept n 1 0 = 0)
      by (unfold kept; destruct (Z.ltb_spec (0 + 2) n); lia).
    rewrite E. split; [reflexivity |]. lia.
  - destruct fuel as [|fuel]; [lia |].
    destruct (Z.ltb_spec 2 n) as [Hbig | Hsmall].
    + exists n, [arrayAt array 0; arrayAt array 1; arrayAt array 2].
      split; [lia |]. split.
      { cbn [decimateLoop]. destruct (Z.ltb_spec 0 n); [| lia].
        destruct (Z.ltb_spec (0 + 2) n); [reflexivity | lia]. }
      split; [discriminate |].
      assert (E : kept n n 0 = 1).
      { unfold kept. destruct (Z.ltb_spec (0 + 2) n); [| lia].
        rewrite Z.div_small by lia. lia. }
      rewrite E. split; [reflexivity |].
      intros k j Hk Hj. assert (k = 0) as -> by lia.
      replace (3 * n * 0 + j) with j by lia.
      assert (j = 0 \/ j = 1 \/ j = 2) as [-> | [-> | ->]] by lia;
        reflexivity.
    + exists 1, []. split; [lia |]. split.
      { cbn [decimateLoop]. destruct (Z.ltb_spec 0 n); [| reflexivity].
        destruct (Z.ltb_spec (0 + 2) n); [lia | reflexivity]. }
      split; [discriminate |].
      assert (E : kept n 1 0 = 0)
        by (unfold kept; destruct (Z.ltb_spec (0 + 2) n); lia).
      rewrite E. split; [reflexivity |]. lia.
  - destruct (decimateLoop_content array n s Hs fuel 0 [])
      as (out & Hrun & Hlen & Hcontent); [lia | unfold n; lia |].
    exists s, out. split; [exact Hs |]. split; [exact Hrun |].
    split; [congruence |]. split; [exact Hlen |].
    intros k j Hk Hj. rewrite (Hcontent k j Hk Hj). reflexivity.
Qed.

(** Triangles kept of [T] with stride [s]. *)
Lemma kept_triangles (T s : Z) :
  0 <= T -> 1 <= s -> kept (3 * T) s 0 = (T + s - 1) / s.
Proof.
  intros HT Hs. unfold kept. destruct (Z.ltb_spec (0 + 2) (3 * T)).
  - replace (3 * T - 3 - 0) with (3 * (T - 1)) by lia.
    rewrite Z.div_mul_cancel_l by lia.
    replace (T + s - 1) with (T - 1 + 1 * s) by lia.
    now rewrite Z.div_add by lia.
  - assert (T = 0) as -> by lia. rewrite Z.div_small by lia. reflexivity.
Qed.

Lemma kept_triangles_lt (T s k : Z) :
  0 <= T -> 1 <= s -> 0 <= k ->
  (k < (T + s - 1) / s <-> k * s < T).
Proof.
  intros HT Hs Hk. split; intros H.
  - assert (k + 1 <= (T + s - 1) / s) as H1 by lia.
    pose proof (Z.mul_div_le (T + s - 1) s ltac:(lia)) as H2.
    assert (s * (k + 1) <= s * ((T + s - 1) / s)) as H3
      by (apply Z.mul_le_mono_nonneg_l; lia).
    lia.
  - assert (k + 1 <= (T + s - 1) / s); [| lia].
    apply Z.div_le_lower_bound; lia.
Qed.

Lemma arrayAt_inside (array : list Z) (i : Z) :
  0 <= i < Z.of_nat (length array) ->
  exists z, arrayAt array i = Some z /\ nth_error array (Z.to_nat i) = Some z.
Proof.
  intros Hi. unfold arrayAt. destruct (Z.ltb_spec i 0); [lia |].
  destruct (nth_error array (Z.to_nat i)) as [z|] eqn:E; [now exists z |].
  apply nth_error_None in E. lia.
Qed.

Lemma targetIndexCount_one (n : Z) : targetIndexCountOf n 1 = n.
Proof.
  unfold targetIndexCountOf.
  rewrite (Qfloor_comp _ _ (Qmult_1_r (inject_Z n))). apply Qfloor_Z.
Qed.

Lemma stepOf_one (n : Z) : 0 < n -> stepOf n (targetIndexCountOf n 1) = Num 1.
Proof.
  intros Hn. rewrite targetIndexCount_one. unfold stepOf.
  destruct (Z.eqb_spec n 0); [lia |].
  rewrite SimplifyGeometryFacts.ceiling_div by exact Hn. f_equal.
  assert (- n / n = -1); [| lia].
  symmetry. apply (Z.div_unique _ _ _ 0); lia.
Qed.

Lemma targetIndexCount_default (n : Z) :
  targetIndexCountOf n defaultTargetRatio = n / 2.
Proof.
  unfold targetIndexCountOf, defaultTargetRatio, Qfloor, Qmult, inject_Z.
  simpl. now rewrite Z.mul_1_r.
Qed.

(** With the default ratio the stride is 2 for an even number of
    triangles and 3 for an odd one: half of an odd index count is
    rounded down, and the count divided by it is a little above 2. *)
Lemma stepOf_default (T : Z) :
  0 < T ->
  stepOf (3 * T) (targetIndexCountOf (3 * T) defaultTargetRatio)
  = Num (if Z.even T then 2 else 3).
Proof.
  intros HT. rewrite targetIndexCount_default. unfold stepOf.
  assert (Ht : 0 < 3 * T / 2) by (apply Z.div_str_pos; lia).
  destruct (Z.eqb_spec (3 * T / 2) 0); [lia |].
  destruct (Z.eqb_spec (3 * T) 0); [lia |].
  rewrite SimplifyGeometryFacts.ceiling_div by exact Ht. f_equal.
  destruct (Z.even T) eqn:E.
  - apply Z.even_spec in E. destruct E as [m ->].
    replace (3 * (2 * m)) with (3 * m * 2) by lia.
    rewrite Z.div_mul by lia.
    assert (- (3 * m * 2) / (3 * m) = -2); [| lia].
    symmetry. apply (Z.div_unique _ _ _ 0); lia.
  - assert (Ho : Z.odd T = true) by (rewrite <- Z.negb_even, E; reflexivity).
    apply Z.odd_spec in Ho. destruct Ho as [m ->].
    assert (Hhalf : 3 * (2 * m + 1) / 2 = 3 * m + 1).
    { symmetry. apply (Z.div_unique _ _ _ 1); lia. }
    rewrite Hhalf.
    assert (- (3 * (2 * m + 1)) / (3 * m + 1) = -3); [| lia].
    symmetry. apply (Z.div_unique _ _ _ (3 * m)); lia.
Qed.

Section GeometryContent.
Context {ops : ThreeOps}.

(** The decimation of a geometry with an index, by content: the run,
    the view of the result, and the stride the loop went by. *)
Lemma simplify_stride (h : Heap) (l : loc) (v : Snapshot) (a : list Z)
    (T : Z) (r : Q) (fuel : nat) :
  viewAt h l = Some v -> 10000 <= vertexCount v ->
  indexArray v = Some a -> Z.of_nat (length a) = 3 * T ->
  (0 <= r)%Q -> (fuelFor v <= fuel)%nat ->
  exists l' h' v' a' s,
    simplifyGeometryForMobile fuel l r h = Some (l', h') /\
    cloneState h h' l' v' /\
    viewAt h' l' = Some v' /\
    positions v' = positions v /\
    recomputed v' /\
    indexArray v' = Some a' /\
    1 <= s /\
    (forall s', stepOf (3 * T) (targetIndexCountOf (3 * T) r) = Num s' -> s = s') /\
    Z.of_nat (length a') = 3 * ((T + s - 1) / s) /\
    (forall k j,
       0 <= k -> k * s < T -> 0 <= j < 3 ->
       nth_error a' (Z.to_nat (3 * k + j))
       = nth_error a (Z.to_nat (3 * (k * s) + j))).
Proof.
  intros Hv Hbig Hidx Hlen Hr Hfuel.
  assert (HT : 0 <= T) by lia.
  destruct (SimplifyGeometryFacts.simplify_large_run fuel h l v r Hv Hbig Hr Hfuel)
    as (l' & h' & v0 & Hrun & Hclone & Hshape).
  rewrite Hidx in Hshape. destruct Hshape as (out & Hloop & -> & _ & _).
  assert (Hf : (S (length a) <= fuel)%nat).
  { unfold fuelFor in Hfuel. now rewrite Hidx in Hfuel. }
  destruct (decimateLoop_stride a r fuel Hr Hf)
    as (s & out' & Hs & Hloop' & Huniq & Hlen' & Hcontent).
  cbv zeta in Hloop'. rewrite Hloop in Hloop'. injection Hloop' as <-.
  rewrite Hlen in Huniq, Hlen', Hcontent.
  rewrite (kept_triangles T s HT Hs) in Hlen', Hcontent.
  exists l', h', (finished (withIndex (toTypedArray out) v)),
    (toTypedArray out), s.
  split; [exact Hrun |]. split; [exact Hclone |].
  split; [exact (SimplifyGeometryFacts.cloneState_viewAt _ _ _ _ Hclone) |].
  split; [reflexivity |].
  split; [apply SimplifyGeometryFacts.finished_recomputed |].
  split; [reflexivity |]. split; [exact Hs |]. split; [exact Huniq |].
  split; [now rewrite SimplifyGeometryFacts.length_toTypedArray |].
  intros k j Hk Hks Hj.
  unfold toTypedArray. rewrite nth_error_map.
  assert (Hk' : 0 <= k < (T + s - 1) / s)
    by (split; [lia | apply kept_triangles_lt; lia]).
  rewrite (Hcontent k j Hk' Hj).
  destruct (arrayAt_inside a (3 * s * k + j)) as (z & Hz & Hnth); [nia |].
  rewrite Hz. cbn [option_map].
  replace (3 * (k * s) + j) with (3 * s * k + j) by lia.
  now rewrite Hnth.
Qed.

(** X16.  What the decimation keeps.  For a geometry of at least
    10,000 vertices whose index is a list of [T] triangles, and a ratio
    of 0.3, 0.5 or 1, the triangles of the result are triangles [0],
    [s], [2 s], ... of the argument, in this order and with their three
    indices unchanged, for a stride [s] of at least 1, which is the
    step the function computes whenever that is a number; there are
    [ceil(T / s)] of them.  So every index of the result is an index of
    the argument, and the vertex positions are those of the argument. *)
Theorem decimation_keeps_every_stride_th_triangle (h : Heap) (l : loc)
    (v : Snapshot) (a : list Z) (T : Z) (r : Q) (fuel : nat) :
  viewAt h l = Some v -> 10000 <= vertexCount v ->
  indexArray v = Some a -> Z.of_nat (length a) = 3 * T ->
  exactRatio r -> (fuelFor v <= fuel)%nat ->
  exists l' h' v' a' s,
    simplifyGeometryForMobile fuel l r h = Some (l', h') /\
    viewAt h' l' = Some v' /\
    positions v' = positions v /\
    indexArray v' = Some a' /\
    1 <= s /\
    (forall s', stepOf (3 * T) (targetIndexCountOf (3 * T) r) = Num s' ->
                s = s') /\
    Z.of_nat (length a') = 3 * ((T + s - 1) / s) /\
    (forall k j,
       0 <= k -> k * s < T -> 0 <= j < 3 ->
       nth_error a' (Z.to_nat (3 * k + j))
       = nth_error a (Z.to_nat (3 * (k * s) + j))) /\
    (forall x, In x a' -> In x a).
Proof.
  intros Hv Hbig Hidx Hlen Hexact Hfuel.
  pose proof (SimplifyGeometryFacts.exactRatio_nonneg r Hexact) as Hr.
  destruct (simplify_stride h l v a T r fuel Hv Hbig Hidx Hlen Hr Hfuel)
    as (l' & h' & v' & a' & s & Hrun & _ & Hv' & Hpos & _ & Hidx' & Hs
        & Huniq & Hlen' & Hcontent).
  exists l', h', v', a', s.
  split; [exact Hrun |]. split; [exact Hv' |]. split; [exact Hpos |].
  split; [exact Hidx' |]. split; [exact Hs |]. split; [exact Huniq |].
  split; [exact Hlen' |].
  split; [exact Hcontent |].
  intros x Hx. apply In_nth_error in Hx. destruct Hx as [m Hm].
  assert (Hm' : (m < length a')%nat)
    by (apply nth_error_Some; congruence).
  set (k := Z.of_nat m / 3). set (j := Z.of_nat m mod 3).
  assert (Hkj : Z.of_nat m = 3 * k + j) by (apply Z.div_mod; lia).
  assert (Hj : 0 <= j < 3) by (apply Z.mod_pos_bound; lia).
  assert (Hk : 0 <= k) by (apply Z.div_pos; lia).
  assert (Hks : k * s < T).
  { apply kept_triangles_lt; [lia | lia | lia |].
    apply Z.div_lt_upper_bound; lia. }
  specialize (Hcontent k j Hk Hks Hj).
  rewrite <- Hkj, Nat2Z.id, Hm in Hcontent.
  symmetry in Hcontent. exact (nth_error_In _ _ Hcontent).
Qed.

(** X17.  With ratio 1 the decimation keeps every triangle: for a
    geometry of at least 10,000 vertices with a triangle index, the
    result is a new geometry whose index array and positions equal
    those of the argument, with normals and bounding volumes computed
    afresh; the argument is still there, unchanged. *)
Theorem ratio_one_is_a_recomputing_copy (h : Heap) (l : loc) (v : Snapshot)
    (a : list Z) (T : Z) (fuel : nat) :
  viewAt h l = Some v -> 10000 <= vertexCount v ->
  indexArray v = Some a -> Z.of_nat (length a) = 3 * T ->
  (fuelFor v <= fuel)%nat ->
  exists l' h' v',
    simplifyGeometryForMobile fuel l 1 h = Some (l', h') /\
    l' <> l /\
    viewAt h' l' = Some v' /\
    viewAt h' l = Some v /\
    positions v' = positions v /\
    indexArray v' = Some a /\
    recomputed v'.
Proof.
  intros Hv Hbig Hidx Hlen Hfuel.
  destruct (simplify_stride h l v a T 1 fuel Hv Hbig Hidx Hlen) as
    (l' & h' & v' & a' & s & Hrun & Hclone & Hv' & Hpos & Hrec & Hidx' & Hs
     & Huniq & Hlen' & Hcontent); [discriminate | exact Hfuel |].
  exists l', h', v'.
  split; [exact Hrun |].
  destruct Hclone as (g & _ & _ & Hext & Hout & _).
  split.
  { intros ->. destruct Hout as [Hnone _].
    unfold viewAt in Hv. rewrite Hnone in Hv. discriminate. }
  split; [exact Hv' |].
  split; [exact (SimplifyGeometryFacts.viewAt_extends _ _ _ _ Hext Hv) |].
  split; [exact Hpos |]. split; [| exact Hrec].
  rewrite Hidx'. f_equal.
  destruct (Z.eq_dec T 0) as [-> | HT].
  - rewrite Z.div_small in Hlen' by lia.
    destruct a'; [| cbn in Hlen'; lia]. destruct a; [| cbn in Hlen; lia].
    reflexivity.
  - assert (s = 1) as -> by (apply Huniq, stepOf_one; lia).
    replace ((T + 1 - 1) / 1) with T in Hlen' by (rewrite Z.div_1_r; lia).
    apply nth_error_ext. intros m.
    destruct (Nat.lt_ge_cases m (length a)) as [Hm | Hm].
    + set (k := Z.of_nat m / 3). set (j := Z.of_nat m mod 3).
      assert (Hkj : Z.of_nat m = 3 * k + j) by (apply Z.div_mod; lia).
      assert (Hj : 0 <= j < 3) by (apply Z.mod_pos_bound; lia).
      assert (Hk : 0 <= k) by (apply Z.div_pos; lia).
      assert (Hks : k * 1 < T) by lia.
      specialize (Hcontent k j Hk Hks Hj).
      rewrite Z.mul_1_r, <- Hkj, Nat2Z.id in Hcontent. exact Hcontent.
    + assert (E1 : nth_error a m = None) by (apply nth_error_None; lia).
      assert (E2 : nth_error a' m = None) by (apply nth_error_None; lia).
      congruence.
Qed.

(** X18.  With the default ratio 0.5 the decimation halves a mesh only
    when its number of triangles is even.  For a geometry of at least
    10,000 vertices whose index holds [T] triangles, the result holds
    [T / 2] triangles when [T] is even, and [ceil(T / 3)] when [T] is
    odd: half of the odd index count is rounded down, which pushes the
    stride from 2 to 3. *)
Theorem default_ratio_halves_even_counts_only (h : Heap) (l : loc)
    (v : Snapshot) (a : list Z) (T : Z) (fuel : nat) :
  viewAt h l = Some v -> 10000 <= vertexCount v ->
  indexArray v = Some a -> Z.of_nat (length a) = 3 * T ->
  (fuelFor v <= fuel)%nat ->
  exists l' h' v' a' T',
    simplifyGeometryForMobile fuel l defaultTargetRatio h = Some (l', h') /\
    viewAt h' l' = Some v' /\
    indexArray v' = Some a' /\
    Z.of_nat (length a') = 3 * T' /\
    (Z.even T = true -> T' = T / 2) /\
    (Z.odd T = true -> T' = (T + 2) / 3).
Proof.
  intros Hv Hbig Hidx Hlen Hfuel.
  destruct (simplify_stride h l v a T defaultTargetRatio fuel
              Hv Hbig Hidx Hlen) as
    (l' & h' & v' & a' & s & Hrun & _ & Hv' & _ & _ & Hidx' & Hs
     & Huniq & Hlen' & _); [discriminate | exact Hfuel |].
  exists l', h', v', a', ((T + s - 1) / s).
  split; [exact Hrun |]. split; [exact Hv' |]. split; [exact Hidx' |].
  split; [exact Hlen' |].
  destruct (Z.eq_dec T 0) as [-> | HT].
  - rewrite Z.div_small by lia. split; [reflexivity | discriminate].
  - assert (Hstep := stepOf_default T ltac:(lia)).
    apply Huniq in Hstep. subst s.
    split; intros E.
    + rewrite E. apply Z.even_spec in E. destruct E as [m ->].
      replace (2 * m + 2 - 1) with (1 + m * 2) by lia.
      rewrite Z.div_add by lia. replace (2 * m) with (m * 2) by lia.
      rewrite Z.div_mul by lia. reflexivity.
    + rewrite <- Z.negb_odd, E. cbn [negb]. f_equal. lia.
Qed.

End GeometryContent.

Lemma largeContent_indexArray :
  indexArray largeContent = Some (repeat 0 (Z.to_nat 120000)) /\
  Z.of_nat (length (repeat 0 (Z.to_nat 120000))) = 3 * 40000.
Proof.
  split; [reflexivity |]. rewrite repeat_length. now rewrite Z2Nat.id.
Qed.

Lemma largeContent_big : 10000 <= vertexCount largeContent.
Proof. rewrite SimplifyGeometryFacts.largeContent_vertexCount. lia. Qed.

Lemma decimation_keeps_every_stride_th_triangle_witness :
  viewAt largeScene 1%positive = Some largeContent /\
  10000 <= vertexCount largeContent /\
  indexArray largeContent = Some (repeat 0 (Z.to_nat 120000)) /\
  Z.of_nat (length (repeat 0 (Z.to_nat 120000))) = 3 * 40000 /\
  exactRatio loaderRatio /\
  exists l' h' v' a' s,
    simplifyGeometryForMobile (fuelFor largeContent) 1%positive loaderRatio
      largeScene = Some (l', h') /\
    viewAt h' l' = Some v' /\
    positions v' = positions largeContent /\
    indexArray v' = Some a' /\
    1 <= s /\
    (forall s', stepOf (3 * 40000) (targetIndexCountOf (3 * 40000) loaderRatio)
                = Num s' -> s = s') /\
    Z.of_nat (length a') = 3 * ((40000 + s - 1) / s) /\
    (forall k j,
       0 <= k -> k * s < 40000 -> 0 <= j < 3 ->
       nth_error a' (Z.to_nat (3 * k + j))
       = nth_error (repeat 0 (Z.to_nat 120000)) (Z.to_nat (3 * (k * s) + j))) /\
    (forall x, In x a' -> In x (repeat 0 (Z.to_nat 120000))).
Proof.
  split; [exact SimplifyGeometryFacts.largeScene_view |].
  split; [exact largeContent_big |].
  split; [exact (proj1 largeContent_indexArray) |].
  split; [exact (proj2 largeContent_indexArray) |].
  split; [left; reflexivity |].
  apply (decimation_keeps_every_stride_th_triangle largeScene 1%positive
           largeContent (repeat 0 (Z.to_nat 120000)) 40000 loaderRatio
           (fuelFor largeContent)).
  - exact SimplifyGeometryFacts.largeScene_view.
  - exact largeContent_big.
  - exact (proj1 largeContent_indexArray).
  - exact (proj2 largeContent_indexArray).
  - left. reflexivity.
  - apply Nat.le_refl.
Defined.

Lemma ratio_one_is_a_recomputing_copy_witness :
  viewAt largeScene 1%positive = Some largeContent /\
  10000 <= vertexCount largeContent /\
  indexArray largeContent = Some (repeat 0 (Z.to_nat 120000)) /\
  Z.of_nat (length (repeat 0 (Z.to_nat 120000))) = 3 * 40000 /\
  exists l' h' v',
    simplifyGeometryForMobile (fuelFor largeContent) 1%positive 1 largeScene
      = Some (l', h') /\
    l' <> 1%positive /\
    viewAt h' l' = Some v' /\
    viewAt h' 1%positive = Some largeContent /\
    positions v' = positions largeContent /\
    indexArray v' = Some (repeat 0 (Z.to_nat 120000)) /\
    recomputed v'.
Proof.
  split; [exact SimplifyGeometryFacts.largeScene_view |].
  split; [exact largeContent_big |].
  split; [exact (proj1 largeContent_indexArray) |].
  split; [exact (proj2 largeContent_indexArray) |].
  apply (ratio_one_is_a_recomputing_copy largeScene 1%positive largeContent
           (repeat 0 (Z.to_nat 120000)) 40000 (fuelFor largeContent)).
  - exact SimplifyGeometryFacts.largeScene_view.
  - exact largeContent_big.
  - exact (proj1 largeContent_indexArray).
  - exact (proj2 largeContent_indexArray).
  - apply Nat.le_refl.
Defined.

Lemma default_ratio_halves_even_counts_only_witness :
  viewAt largeScene 1%positive = Some largeContent /\
  10000 <= vertexCount largeContent /\
  indexArray largeContent = Some (repeat 0 (Z.to_nat 120000)) /\
  Z.of_nat (length (repeat 0 (Z.to_nat 120000))) = 3 * 40000 /\
  exists l' h' v' a' T',
    simplifyGeometryForMobile (fuelFor largeContent) 1%positive
      defaultTargetRatio largeScene = Some (l', h') /\
    viewAt h' l' = Some v' /\
    indexArray v' = Some a' /\
    Z.of_nat (length a') = 3 * T' /\
    (Z.even 40000 = true -> T' = 40000 / 2) /\
    (Z.odd 40000 = true -> T' = (40000 + 2) / 3).
Proof.
  split; [exact SimplifyGeometryFacts.largeScene_view |].
  split; [exact largeContent_big |].
  split; [exact (proj1 largeContent_indexArray) |].
  split; [exact (proj2 largeContent_indexArray) |].
  apply (default_ratio_halves_even_counts_only largeScene 1%positive
           largeContent (repeat 0 (Z.to_nat 120000)) 40000
           (fuelFor largeContent)).
  - exact SimplifyGeometryFacts.largeScene_view.
  - exact largeContent_big.
  - exact (proj1 largeContent_indexArray).
  - exact (proj2 largeContent_indexArray).
  - apply Nat.le_refl.
Defined.

End DecimationFacts.

Module ValidationFacts.
Import Validation.

Lemma count_app (s : Severity) (a b : list Issue) :
  count s (a ++ b) = (count s a + count s b)%nat.
Proof. unfold count. now rewrite List.filter_app, length_app. Qed.

Lemma count_if (s : Severity) (b : bool) (i : Issue) :
  count s (if b then [] else [i])
  = if b then 0%nat else if Severity_eqb (severity i) s then 1%nat else 0%nat.
Proof.
  destruct b; [reflexivity |]. unfold count. cbn.
  destruct (Severity_eqb (severity i) s); reflexivity.
Qed.

Lemma ruleIssues_critical (code : string) :
  count critical (ruleIssues code)
  = ((if (includes code "isMobile" || includes code "tier === 'mobile")
          && includes code "antialias: false" then 0 else 1)
     + (if includes code "webglcontextlost" && includes code "preventDefault"
        then 0 else 1))%nat.
Proof.
  unfold ruleIssues, validationRules.
  cbn [List.filter Category_eqb ruleCategory flat_map check ruleId
       ruleSeverity message ruleFile].
  rewrite !count_app, !count_if. cbn [severity Severity_eqb count].
  unfold count. cbn [List.filter length].
  destruct ((includes code "isMobile" || includes code "tier === 'mobile")
            && includes code "antialias: false");
    destruct (negb (includes code "preserveDrawingBuffer: true"));
    destruct (includes code "stencil: false");
    destruct (if includes code "isIOS" || includes code "iOS"
              then includes code "powerPreference: 'low-power'" else true);
    destruct (includes code "webglcontextlost" && includes code "preventDefault");
    reflexivity.
Qed.

Lemma checkRendererConfig_critical (code file : string) :
  count critical (checkRendererConfig code file)
  = if includes code "antialias: false" || includes code "antialias:false"
    then 0%nat else 1%nat.
Proof.
  unfold checkRendererConfig, requiredChecks.
  cbn [flat_map present setting checkSeverity checkMessage].
  rewrite !count_app, !count_if. cbn [severity Severity_eqb count].
  unfold count. cbn [List.filter length].
  destruct (includes code "antialias: false" || includes code "antialias:false");
    destruct (includes code "stencil: false" || includes code "stencil:false");
    destruct (negb (includes code "preserveDrawingBuffer: true"));
    destruct (includes code "logarithmicDepthBuffer: false"
              || negb (includes code "logarithmicDepthBuffer: true"));
    reflexivity.
Qed.

Lemma checkContextLossHandling_critical (code file : string) :
  count critical (checkContextLossHandling code file)
  = if includes code "webglcontextlost" then 0%nat else 1%nat.
Proof.
  unfold checkContextLossHandling. cbv zeta.
  rewrite !count_app.
  destruct (includes code "webglcontextlost");
    destruct (includes code "preventDefault");
    destruct (includes code "webglcontextrestored"); reflexivity.
Qed.

Lemma checkPixelRatioSettings_critical (code file : string) :
  count critical (checkPixelRatioSettings code file) = 0%nat.
Proof.
  unfold checkPixelRatioSettings. cbv zeta. rewrite count_app.
  destruct (negb (includes code "Math.min" && includes code "devicePixelRatio"
                  && includes code "setPixelRatio"));
    destruct (includes code "isMobile" || includes code "tier === 'mobile");
    try destruct (negb (includes code "1.0" || includes code "DPR = 1")
                  && negb (includes code "1.25" || includes code "1.3"
                           || includes code "1.5"));
    reflexivity.
Qed.

(** X19.  When the WebGL validation passes.  If the renderer file
    cannot be read, the validation fails with the single issue
    [file-read-error], which is critical and has no suggested fix.  If
    it can be read, the validation passes exactly when the text
    contains "antialias: false", one of "isMobile" and
    "tier === 'mobile", and both "webglcontextlost" and
    "preventDefault"; nothing else in the file can make it fail, and
    the counts it reports are those of its issues. *)
Theorem webgl_validation_passes_iff (projectRoot : string) (read : ReadResult) :
  (passed (validateWebGL projectRoot read) = true <->
   exists code,
     read = FileText code /\
     (includes code "isMobile" = true \/ includes code "tier === 'mobile" = true) /\
     includes code "antialias: false" = true /\
     includes code "webglcontextlost" = true /\
     includes code "preventDefault" = true) /\
  (forall errorMessage,
     read = ReadError errorMessage ->
     map id (issues (validateWebGL projectRoot read)) = ["file-read-error"%string] /\
     map suggestedFix (issues (validateWebGL projectRoot read)) = [None] /\
     criticalCount (validateWebGL projectRoot read) = 1%nat) /\
  criticalCount (validateWebGL projectRoot read)
  = count critical (issues (validateWebGL projectRoot read)) /\
  highCount (validateWebGL projectRoot read)
  = count high (issues (validateWebGL projectRoot read)).
Proof.
  split; [| split; [| split; reflexivity]].
  - destruct read as [code | msg].
    + unfold validateWebGL. cbn [passed].
      rewrite !count_app, ruleIssues_critical, checkRendererConfig_critical,
        checkContextLossHandling_critical, checkPixelRatioSettings_critical.
      rewrite Nat.eqb_eq. split.
      * intros H. exists code. split; [reflexivity |].
        destruct (includes code "isMobile"), (includes code "tier === 'mobile"),
          (includes code "antialias: false"), (includes code "antialias:false"),
          (includes code "webglcontextlost"), (includes code "preventDefault");
          cbn in H; try discriminate; auto.
      * intros (c & E & Hm & Ha & Hl & Hp). injection E as <-.
        rewrite Ha, Hl, Hp. destruct Hm as [-> | ->]; cbn;
          [| rewrite orb_true_r]; reflexivity.
    + split; [discriminate |]. intros (c & E & _). discriminate.
  - intros msg ->. repeat split.
Qed.

End ValidationFacts.

Module EnvironmentMeshFacts.
Import SimplifyGeometry EnvironmentMesh.

Section SceneFacts.
Context {ops : ThreeOps}.

Lemma touched_S (shadows : bool) (n : nat) (mat : Material) :
  touched shadows (S n) mat
  = {| shadowSide := if shadows then Some FrontSide
                     else shadowSide (touched shadows n mat);
       normalMap := false; roughnessMap := false; metalnessMap := false;
       map := map (touched shadows n mat);
       version := S (version (touched shadows n mat)) |}.
Proof.
  destruct n; cbn [touched shadowSide map version].
  - f_equal. lia.
  - destruct shadows; f_equal; lia.
Qed.

Lemma touched_map (shadows : bool) (n : nat) (mat : Material) :
  map (touched shadows n mat) = map mat.
Proof. destruct n; reflexivity. Qed.

(** One material configured: the store after. *)
Lemma configureMaterial_spec (shadows : bool) (ref : positive) (st : Stores)
    (mat : Material) :
  materials st !! ref = Some mat ->
  (forall t, map mat = Some t -> exists tex, textures st !! t = Some tex) ->
  exists st',
    configureMaterial shadows ref st = Some st' /\
    heap st' = heap st /\
    materials st' = <[ref := touched shadows 1 mat]> (materials st) /\
    (forall t tex, textures st !! t = Some tex ->
       exists tex', textures st' !! t = Some tex' /\
                    (textureVersion tex <= textureVersion tex')%nat).
Proof.
  intros Hmat Htex. unfold configureMaterial. rewrite Hmat.
  assert (Ht : touched shadows 1 mat
               = {| shadowSide := if shadows then Some FrontSide
                                  else shadowSide mat;
                    normalMap := false; roughnessMap := false;
                    metalnessMap := false; map := map mat;
                    version := S (version mat) |}).
  { cbn [touched]. f_equal. lia. }
  destruct (map mat) as [t|] eqn:Hmap.
  - destruct (Htex t eq_refl) as [tex Hlook]. rewrite Hlook.
    eexists. split; [reflexivity |]. cbn [heap materials textures].
    split; [reflexivity |].
    split; [rewrite Ht; try rewrite Hmap; reflexivity |].
    intros t0 tex0 H0. destruct (decide (t0 = t)) as [-> | Hne].
    + rewrite lookup_insert_eq. eexists. split; [reflexivity |].
      cbn. assert (tex0 = tex) by congruence. subst. lia.
    + rewrite lookup_insert_ne by congruence. exists tex0. split; [exact H0 | lia].
  - eexists. split; [reflexivity |]. cbn [heap materials textures].
    split; [reflexivity |].
    split; [rewrite Ht; try rewrite Hmap; reflexivity |].
    intros t0 tex0 H0. exists tex0. split; [exact H0 | lia].
Qed.

(** A list of materials configured: each material of the store has
    been gone over as often as the list names it. *)
Lemma configureMaterials_spec (shadows : bool) (refs : list positive) :
  forall st,
    materialsPresent refs st ->
    exists st',
      configureMaterials shadows refs st = Some st' /\
      heap st' = heap st /\
      (forall r,
         materials st' !! r
         = option_map (touched shadows (count_occ Pos.eq_dec refs r))
             (materials st !! r)) /\
      (forall t tex, textures st !! t = Some tex ->
         exists tex', textures st' !! t = Some tex' /\
                      (textureVersion tex <= textureVersion tex')%nat).
Proof.
  induction refs as [|ref rest IH]; intros st Hpresent.
  - exists st. split; [reflexivity |]. split; [reflexivity |]. split.
    + intros r. cbn. now destruct (materials st !! r).
    + intros t tex H. exists tex. split; [exact H | lia].
  - destruct (Hpresent ref (or_introl eq_refl)) as (mat & Hmat & Htex).
    destruct (configureMaterial_spec shadows ref st mat Hmat Htex)
      as (st1 & Hrun1 & Hheap1 & Hmats1 & Htex1).
    assert (Hpresent1 : materialsPresent rest st1).
    { intros r Hr. destruct (Hpresent r (or_intror Hr)) as (m & Hm & Hmt).
      rewrite Hmats1. destruct (decide (r = ref)) as [-> | Hne].
      - rewrite lookup_insert_eq. eexists. split; [reflexivity |].
        intros t Ht. rewrite touched_map in Ht.
        assert (m = mat) by congruence. subst m.
        destruct (Hmt t Ht) as [tex Hlook].
        destruct (Htex1 t tex Hlook) as (tex' & H' & _). now exists tex'.
      - rewrite lookup_insert_ne by congruence. exists m. split; [exact Hm |].
        intros t Ht. destruct (Hmt t Ht) as [tex Hlook].
        destruct (Htex1 t tex Hlook) as (tex' & H' & _). now exists tex'. }
    destruct (IH st1 Hpresent1) as (st' & Hrun & Hheap & Hmats & Htexs).
    exists st'. cbn [configureMaterials]. rewrite Hrun1.
    split; [exact Hrun |]. split; [congruence |]. split.
    + intros r. rewrite Hmats, Hmats1. cbn [count_occ].
      destruct (Pos.eq_dec ref r) as [-> | Hne].
      * rewrite lookup_insert_eq, Hmat. cbn [option_map]. f_equal.
        generalize (count_occ Pos.eq_dec rest r). intros n.
        induction n as [|n IHn]; [reflexivity |].
        rewrite touched_S, IHn, <- touched_S. reflexivity.
      * rewrite lookup_insert_ne by congruence. reflexivity.
    + intros t tex H. destruct (Htex1 t tex H) as (tex1 & H1 & Hle1).
      destruct (Htexs t tex1 H1) as (tex' & H' & Hle). exists tex'.
      split; [exact H' | lia].
Qed.

Lemma touched_add (shadows : bool) (a b : nat) (mat : Material) :
  touched shadows b (touched shadows a mat) = touched shadows (a + b) mat.
Proof.
  induction b as [|b IH]; [now rewrite Nat.add_0_r |].
  rewrite Nat.add_succ_r, !touched_S, IH. reflexivity.
Qed.

(** The decimation step of the traversal on one mesh. *)
Lemma simplifyMesh_step (fuel : nat) (mobile : bool) (m : Mesh) (h : Heap) :
  (forall l, geometry m = Some l ->
     exists v, viewAt h l = Some v /\ (fuelFor v <= fuel)%nat) ->
  exists m' h',
    simplifyMesh fuel mobile m h = Some (m', h') /\
    extends h h' /\
    match geometry m with
    | None => geometry m' = None
    | Some l =>
        exists v,
          viewAt h l = Some v /\
          if mobile && (50000 <? vertexCount v) then
            exists l' v',
              geometry m' = Some l' /\
              cloneState h h' l' v' /\
              positions v' = positions v /\
              recomputed v'
          else geometry m' = Some l /\ h' = h
    end.
Proof.
  intros Hgeo. destruct m as [[l|]]; cbn [geometry] in *.
  - destruct (Hgeo l eq_refl) as (v & Hv & Hfuel).
    pose proof (SimplifyGeometryFacts.shouldSimplifyMesh_spec h l v mobile Hv)
      as Hshould.
    unfold simplifyMesh. rewrite Hshould. cbn [geometry].
    destruct (mobile && (50000 <? vertexCount v)) eqn:Hbig.
    + pose proof Hbig as Hcase.
      apply andb_true_iff in Hbig. destruct Hbig as [_ Hbig].
      apply Z.ltb_lt in Hbig.
      destruct (SimplifyGeometryFacts.simplify_large_run fuel h l v loaderRatio Hv)
        as (l' & h' & v0 & Hrun & Hclone & Hshape);
        [lia | discriminate | exact Hfuel |].
      rewrite Hrun. exists {| geometry := Some l' |}, h'.
      split; [reflexivity |].
      split; [destruct Hclone as (g & _ & _ & Hext & _); exact Hext |].
      exists v. split; [exact Hv |]. rewrite Hcase.
      exists l', (finished v0). split; [reflexivity |].
      split; [exact Hclone |].
      split; [| apply SimplifyGeometryFacts.finished_recomputed].
      destruct (indexArray v) as [a|].
      * destruct Hshape as (out & _ & -> & _). reflexivity.
      * now subst v0.
    + exists {| geometry := Some l |}, h. split; [reflexivity |].
      split; [apply SimplifyGeometryFacts.extends_refl |].
      exists v. split; [exact Hv |]. rewrite Hbig. split; reflexivity.
  - exists {| geometry := None |}, h. split.
    + unfold simplifyMesh, shouldSimplifyMesh. cbn [geometry].
      destruct mobile; reflexivity.
    + split; [apply SimplifyGeometryFacts.extends_refl | reflexivity].
Qed.

Lemma count_occ_flat (child : Child) (rest : list Child) (r : positive) :
  count_occ Pos.eq_dec (materialRefs (child :: rest)) r
  = (count_occ Pos.eq_dec
       (match child with
        | MeshObject m => materialsOf (material m)
        | OtherObject => []
        end) r
     + count_occ Pos.eq_dec (materialRefs rest) r)%nat.
Proof.
  unfold materialRefs, meshesOf. cbn [flat_map].
  rewrite flat_map_app, count_occ_app. destruct child; cbn [flat_map];
    [reflexivity | now rewrite app_nil_r].
Qed.

(** The traversal of the Others2 model. *)
Lemma configureOthers_spec (fuel : nat) (mobile shadows : bool) :
  forall children st c,
    wellFormed children st -> enoughFuel children st fuel ->
    exists children' st' c',
      configureOthers fuel mobile shadows children st c
        = Some (children', st', c') /\
      extends (heap st) (heap st') /\
      (mobile = false -> heap st' = heap st) /\
      Forall2 (configured mobile shadows (heap st) (heap st'))
        children children' /\
      (forall r,
         materials st' !! r
         = option_map
             (touched shadows (count_occ Pos.eq_dec (materialRefs children) r))
             (materials st !! r)) /\
      (forall t tex, textures st !! t = Some tex ->
         exists tex', textures st' !! t = Some tex' /\
                      (textureVersion tex <= textureVersion tex')%nat) /\
      meshCount c' = (meshCount c + length (meshesOf children))%nat /\
      shadowCount c'
      = (shadowCount c
         + if shadows then length (meshesOf children) else 0)%nat.
Proof.
  induction children as [|child rest IH]; intros st c [Hgeo Hmat] Hfuel.
  - exists [], st, c. split; [reflexivity |].
    split; [apply SimplifyGeometryFacts.extends_refl |].
    split; [reflexivity |]. split; [constructor |]. split.
    { intros r. cbn. now destruct (materials st !! r). }
    split; [intros t tex H; exists tex; split; [exact H | lia] |].
    cbn. destruct shadows; lia.
  - (* the first object *)
    assert (Hstep : exists child1 st1 c1,
      configureOthersChild fuel mobile shadows child st c
        = Some (child1, st1, c1) /\
      extends (heap st) (heap st1) /\
      (mobile = false -> heap st1 = heap st) /\
      configured mobile shadows (heap st) (heap st1) child child1 /\
      (forall r,
         materials st1 !! r
         = option_map
             (touched shadows
                (count_occ Pos.eq_dec
                   (match child with
                    | MeshObject m => materialsOf (material m)
                    | OtherObject => []
                    end) r))
             (materials st !! r)) /\
      (forall t tex, textures st !! t = Some tex ->
         exists tex', textures st1 !! t = Some tex' /\
                      (textureVersion tex <= textureVersion tex')%nat) /\
      meshCount c1
      = (meshCount c + length (meshesOf [child]))%nat /\
      shadowCount c1
      = (shadowCount c + if shadows then length (meshesOf [child]) else 0)%nat).
    { destruct child as [|m].
      - exists OtherObject, st, c. split; [reflexivity |].
        split; [apply SimplifyGeometryFacts.extends_refl |].
        split; [reflexivity |]. split; [exact I |]. split.
        { intros r. cbn. now destruct (materials st !! r). }
        split; [intros t tex H; exists tex; split; [exact H | lia] |].
        cbn. destruct shadows; lia.
      - destruct (simplifyMesh_step fuel mobile (mesh m) (heap st))
          as (mesh' & heap' & Hrun & Hext & Hshape).
        { intros l Hl. destruct (Hgeo m l) as [v Hv];
            [cbn; now left | exact Hl |].
          exists v. split; [exact Hv |].
          apply (Hfuel m l v); [cbn; now left | exact Hl | exact Hv]. }
        destruct (configureMaterials_spec shadows (materialsOf (material m))
                    (mkStores heap' (materials st) (textures st)))
          as (st2 & Hrun2 & Hheap2 & Hmats2 & Htex2).
        { intros r Hr. apply Hmat. unfold materialRefs, meshesOf.
          cbn [flat_map]. rewrite flat_map_app. apply in_or_app. left.
          cbn [flat_map]. now rewrite app_nil_r. }
        cbn [heap materials textures] in *.
        eexists _, st2, _. cbn [configureOthersChild].
        rewrite Hrun, Hrun2. split; [reflexivity |].
        rewrite Hheap2. split; [exact Hext |].
        split.
        { intros ->. destruct (geometry (mesh m)) as [l|].
          - destruct Hshape as (v & _ & Hv). cbn [andb] in Hv.
            cbv beta iota in Hv. tauto.
          - clear -Hrun. unfold simplifyMesh, shouldSimplifyMesh in Hrun.
            cbn in Hrun. congruence. }
        split.
        { cbn [configured name material castShadow receiveShadow mesh].
          split; [reflexivity |]. split; [reflexivity |].
          split; [reflexivity |]. split; [reflexivity |].
          destruct (geometry (mesh m)) as [l|]; [| exact Hshape].
          destruct Hshape as (v & Hv & Hcase). exists v. split; [exact Hv |].
          destruct (mobile && (50000 <? vertexCount v));
            cbv beta iota in Hcase |- *; [| tauto].
          destruct Hcase as (l' & v' & Hl' & Hclone & Hpos & Hrec).
          exists l', v'. split; [exact Hl' |].
          split; [destruct Hclone as (g & _ & _ & _ & [Hnone _] & _);
                  exact Hnone |].
          split; [exact (SimplifyGeometryFacts.cloneState_viewAt _ _ _ _ Hclone) |].
          split; assumption. }
        split; [exact Hmats2 |]. split; [exact Htex2 |].
        cbn. destruct shadows; lia. }
    destruct Hstep as (child1 & st1 & c1 & Hrun1 & Hext1 & Hsame1 & Hconf1
                       & Hmats1 & Htex1 & Hmc1 & Hsc1).
    (* the rest of the model *)
    assert (Hwf1 : wellFormed rest st1).
    { split.
      - intros m l Hm Hl. destruct (Hgeo m l) as [v Hv].
        { unfold meshesOf in *. cbn [flat_map]. apply in_or_app. now right. }
        { exact Hl. }
        exists v. exact (SimplifyGeometryFacts.viewAt_extends _ _ _ _ Hext1 Hv).
      - intros r Hr. destruct (Hmat r) as (mat & Hm & Hmt).
        { unfold materialRefs, meshesOf in *. cbn [flat_map].
          rewrite flat_map_app. apply in_or_app. now right. }
        rewrite Hmats1, Hm. cbn [option_map]. eexists. split; [reflexivity |].
        intros t Ht. rewrite touched_map in Ht.
        destruct (Hmt t Ht) as [tex Hlook].
        destruct (Htex1 t tex Hlook) as (tex' & H' & _). now exists tex'. }
    assert (Hfuel1 : enoughFuel rest st1 fuel).
    { intros m l v Hm Hl Hv.
      assert (Hin : In m (meshesOf (child :: rest))).
      { unfold meshesOf in *. cbn [flat_map]. apply in_or_app. now right. }
      destruct (Hgeo m l Hin Hl) as [v0 Hv0].
      pose proof (SimplifyGeometryFacts.viewAt_extends _ _ _ _ Hext1 Hv0) as Hv1.
      assert (v = v0) by congruence. subst v0.
      exact (Hfuel m l v Hin Hl Hv0). }
    destruct (IH st1 c1 Hwf1 Hfuel1)
      as (rest' & st' & c' & Hrun & Hext & Hsame & Hconf & Hmats & Htex
          & Hmc & Hsc).
    exists (child1 :: rest'), st', c'. cbn [configureOthers].
    rewrite Hrun1, Hrun. split; [reflexivity |].
    split; [exact (SimplifyGeometryFacts.extends_trans _ _ _ Hext1 Hext) |].
    split; [intros Hm; rewrite (Hsame Hm); exact (Hsame1 Hm) |].
    split.
    { constructor.
      - (* the first object, seen from the final store *)
        destruct child as [|m], child1 as [|m1]; try exact Hconf1.
        cbn [configured] in *.
        destruct Hconf1 as (Hn & Hma & Hcs & Hrs & Hg).
        split; [exact Hn |]. split; [exact Hma |]. split; [exact Hcs |].
        split; [exact Hrs |].
        destruct (geometry (mesh m)) as [l|]; [| exact Hg].
        destruct Hg as (v & Hv & Hcase). exists v. split; [exact Hv |].
        destruct (mobile && (50000 <? vertexCount v));
          cbv beta iota in Hcase |- *; [| exact Hcase].
        destruct Hcase as (l' & v' & Hl' & Hnone & Hv' & Hpos & Hrec).
        exists l', v'. split; [exact Hl' |]. split; [exact Hnone |].
        split; [exact (SimplifyGeometryFacts.viewAt_extends _ _ _ _ Hext Hv') |].
        split; assumption.
      - (* the others, seen from the first store *)
        assert (Hrest : forall m l, In m (meshesOf rest) ->
                  geometry (mesh m) = Some l ->
                  exists v, viewAt (heap st) l = Some v).
        { intros m l Hm Hl. apply (Hgeo m l); [| exact Hl].
          unfold meshesOf in *. cbn [flat_map]. apply in_or_app. now right. }
        clear -Hconf Hext1 Hrest.
        induction Hconf as [|x y xs ys Hxy Hrestxy IHc]; constructor.
        + destruct x as [|m], y as [|m']; try exact Hxy.
          cbn [configured] in *.
          destruct Hxy as (Hn & Hma & Hcs & Hrs & Hg).
          split; [exact Hn |]. split; [exact Hma |]. split; [exact Hcs |].
          split; [exact Hrs |].
          destruct (geometry (mesh m)) as [l|] eqn:Hl; [| exact Hg].
          destruct Hg as (v & Hv & Hcase).
          destruct (Hrest m l) as [v0 Hv0]; [cbn; now left | exact Hl |].
          pose proof (SimplifyGeometryFacts.viewAt_extends _ _ _ _ Hext1 Hv0).
          assert (v0 = v) by congruence. subst v0.
          exists v. split; [exact Hv0 |].
          destruct (mobile && (50000 <? vertexCount v));
            cbv beta iota in Hcase |- *; [| exact Hcase].
          destruct Hcase as (l' & v' & Hl' & Hnone & Hrest').
          exists l', v'. split; [exact Hl' |]. split; [| exact Hrest'].
          destruct Hext1 as [Hsub _].
          exact (SimplifyGeometryFacts.subseteq_None _ _ _ Hsub Hnone).
        + apply IHc. intros m l Hm Hl. apply (Hrest m l); [| exact Hl].
          unfold meshesOf in *. cbn [flat_map]. apply in_or_app. now right. }
    split.
    { intros r. rewrite Hmats, Hmats1, count_occ_flat.
      destruct (materials st !! r) as [mat|]; [| reflexivity].
      cbn [option_map]. now rewrite touched_add. }
    split.
    { intros t tex H. destruct (Htex1 t tex H) as (tex1 & H1 & Hle1).
      destruct (Htex t tex1 H1) as (tex' & H' & Hle). exists tex'.
      split; [exact H' | lia]. }
    assert (Hlen : length (meshesOf (child :: rest))
                   = (length (meshesOf [child]) + length (meshesOf rest))%nat).
    { unfold meshesOf. cbn [flat_map]. rewrite app_nil_r. apply length_app. }
    rewrite Hmc, Hsc, Hmc1, Hsc1, Hlen. destruct shadows; lia.
Qed.

(** The traversal on a device that is not mobile: no geometry is
    looked into, so no fuel is needed. *)
Lemma configureOthers_desktop (fuel : nat) (shadows : bool) :
  forall children st c,
    materialsPresent (materialRefs children) st ->
    exists children' st' c',
      configureOthers fuel false shadows children st c
        = Some (children', st', c') /\
      heap st' = heap st /\
      List.map (fun m => geometry (mesh m)) (meshesOf children')
      = List.map (fun m => geometry (mesh m)) (meshesOf children) /\
      (forall t tex, textures st !! t = Some tex ->
         exists tex', textures st' !! t = Some tex').
Proof.
  induction children as [|child rest IH]; intros st c Hmat.
  - exists [], st, c. split; [reflexivity |]. split; [reflexivity |].
    split; [reflexivity |]. intros t tex H. now exists tex.
  - assert (Hrest : forall st1,
              heap st1 = heap st ->
              (forall r, materials st1 !! r = None -> materials st !! r = None) ->
              (forall r m1, materials st1 !! r = Some m1 ->
                 exists m0, materials st !! r = Some m0 /\ map m1 = map m0) ->
              (forall t tex, textures st !! t = Some tex ->
                 exists tex', textures st1 !! t = Some tex') ->
              materialsPresent (materialRefs rest) st1).
    { intros st1 _ Hnone Hsome Htex r Hr.
      destruct (Hmat r) as (m0 & Hm0 & Hmt).
      { unfold materialRefs, meshesOf in *. cbn [flat_map].
        rewrite flat_map_app. apply in_or_app. now right. }
      destruct (materials st1 !! r) as [m1|] eqn:E.
      - exists m1. split; [reflexivity |]. intros t Ht.
        destruct (Hsome r m1 E) as (m0' & Hm0' & Hmap).
        assert (m0' = m0) by congruence. subst m0'.
        rewrite Hmap in Ht. destruct (Hmt t Ht) as [tex Hlook].
        exact (Htex t tex Hlook).
      - apply Hnone in E. congruence. }
    destruct child as [|m].
    + destruct (IH st c) as (rest' & st' & c' & Hrun & Hheap & Hgeo & Htex).
      { apply (Hrest st); [reflexivity | auto | |].
        - intros r m1 H. now exists m1.
        - intros t tex H. now exists tex. }
      exists (OtherObject :: rest'), st', c'. cbn [configureOthers configureOthersChild].
      rewrite Hrun. split; [reflexivity |]. split; [exact Hheap |].
      split; [exact Hgeo | exact Htex].
    + assert (Hsimp : simplifyMesh fuel false (mesh m) (heap st)
                      = Some (mesh m, heap st)) by reflexivity.
      destruct (configureMaterials_spec shadows (materialsOf (material m))
                  (mkStores (heap st) (materials st) (textures st)))
        as (st2 & Hrun2 & Hheap2 & Hmats2 & Htex2).
      { intros r Hr. apply Hmat. unfold materialRefs, meshesOf.
        cbn [flat_map]. rewrite flat_map_app. apply in_or_app. left.
        cbn [flat_map]. now rewrite app_nil_r. }
      cbn [heap materials textures] in *.
      match goal with |- context [configureOthers fuel false shadows (_ :: rest) st c] =>
        idtac end.
      destruct (IH st2
                  {| meshCount := S (meshCount c);
                     shadowCount := if shadows then S (shadowCount c)
                                    else shadowCount c |})
        as (rest' & st' & c' & Hrun & Hheap & Hgeo & Htex).
      { apply (Hrest st2); [exact Hheap2 | | |].
        - intros r H. rewrite Hmats2 in H.
          destruct (materials st !! r); [discriminate | reflexivity].
        - intros r m1 H. rewrite Hmats2 in H.
          destruct (materials st !! r) as [m0|]; [| discriminate].
          injection H as <-. exists m0. split; [reflexivity |].
          apply touched_map.
        - intros t tex H. destruct (Htex2 t tex H) as (tex' & H' & _).
          now exists tex'. }
      eexists (_ :: rest'), st', c'.
      cbn [configureOthers configureOthersChild]. rewrite Hsimp, Hrun2, Hrun.
      split; [reflexivity |]. split; [congruence |].
      split.
      { unfold meshesOf in *. cbn [flat_map List.map app mesh].
        now rewrite Hgeo. }
      intros t tex H. destruct (Htex2 t tex H) as (tex2 & H2 & _).
      exact (Htex t tex2 H2).
Qed.

(** The roof and stages traversal without shadows changes nothing. *)
Lemma configureShadowModel_off (children : list Child) :
  forall st n,
    configureShadowModel false children st n
    = Some (children, st, (n + length (meshesOf children))%nat).
Proof.
  induction children as [|child rest IH]; intros st n.
  - cbn. now rewrite Nat.add_0_r.
  - cbn [configureShadowModel]. destruct child as [|m];
      cbn [configureShadowChild]; rewrite IH; unfold meshesOf;
      cbn [flat_map app length].
    + reflexivity.
    + now rewrite Nat.add_succ_r.
Qed.

(** X20.  The Others2 traversal and the geometries.  On a model whose
    references lead to objects, with loop turns enough for its
    geometries, the traversal returns; every object that was in the
    geometry store is still there, unchanged, so a geometry shared
    with a mesh outside the model is not disturbed.  A mesh of more
    than 50,000 vertices on a mobile device ends up with a geometry
    that was not in the store before, with the positions of its old
    one and recomputed normals and bounds; every other mesh keeps the
    reference it had.  The counters the effect logs are the number of
    meshes, and the same number or zero for the shadows. *)
Theorem others_traversal_preserves_geometries (fuel : nat)
    (mobile shadows : bool) (children : list Child) (st : Stores) (c : Counts) :
  wellFormed children st -> enoughFuel children st fuel ->
  exists children' st' c',
    configureOthers fuel mobile shadows children st c
      = Some (children', st', c') /\
    extends (heap st) (heap st') /\
    (forall l v, viewAt (heap st) l = Some v -> viewAt (heap st') l = Some v) /\
    Forall2 (configured mobile shadows (heap st) (heap st'))
      children children' /\
    meshCount c' = (meshCount c + length (meshesOf children))%nat /\
    shadowCount c'
    = (shadowCount c + if shadows then length (meshesOf children) else 0)%nat.
Proof.
  intros Hwf Hfuel.
  destruct (configureOthers_spec fuel mobile shadows children st c Hwf Hfuel)
    as (children' & st' & c' & Hrun & Hext & _ & Hconf & _ & _ & Hmc & Hsc).
  exists children', st', c'. split; [exact Hrun |]. split; [exact Hext |].
  split.
  { intros l v. apply SimplifyGeometryFacts.viewAt_extends. exact Hext. }
  split; [exact Hconf |]. split; [exact Hmc | exact Hsc].
Qed.

(** X21.  Shadows and decimation never meet.  The component takes the
    device for mobile when the tier name starts with "mobile", when
    [PerfFlags] says so, or when the window is below 600 pixels in
    width or height, and enables shadows only when it does not.  So
    whenever shadows are enabled the Others2 traversal leaves the
    geometry store as it is and every mesh with the geometry it had;
    and on a mobile device shadows are off and the roof and stages
    traversals change neither a mesh nor a material. *)
Theorem shadows_exclude_decimation (gl : option Gl) (tier : string)
    (perfFlagsIsMobile : bool) (innerWidth innerHeight : Z) :
  (isMobile tier perfFlagsIsMobile innerWidth innerHeight = true ->
   shadowsEnabled gl (isMobile tier perfFlagsIsMobile innerWidth innerHeight)
   = false) /\
  (forall fuel children st c,
     shadowsEnabled gl (isMobile tier perfFlagsIsMobile innerWidth innerHeight)
     = true ->
     materialsPresent (materialRefs children) st ->
     exists children' st' c',
       configureOthers fuel
         (isMobile tier perfFlagsIsMobile innerWidth innerHeight) true
         children st c = Some (children', st', c') /\
       heap st' = heap st /\
       List.map (fun m => geometry (mesh m)) (meshesOf children')
       = List.map (fun m => geometry (mesh m)) (meshesOf children)) /\
  (forall children st n,
     isMobile tier perfFlagsIsMobile innerWidth innerHeight = true ->
     configureShadowModel
       (shadowsEnabled gl
          (isMobile tier perfFlagsIsMobile innerWidth innerHeight))
       children st n
     = Some (children, st, (n + length (meshesOf children))%nat)).
Proof.
  assert (Hoff : forall mobile, mobile = true -> shadowsEnabled gl mobile = false).
  { intros mobile ->. unfold shadowsEnabled.
    destruct gl as [[[[]|]]|]; reflexivity. }
  split; [apply Hoff |]. split.
  - intros fuel children st c Hon Hmat.
    destruct (isMobile tier perfFlagsIsMobile innerWidth innerHeight) eqn:Hm.
    + rewrite (Hoff true eq_refl) in Hon. discriminate.
    + destruct (configureOthers_desktop fuel true children st c Hmat)
        as (children' & st' & c' & Hrun & Hheap & Hgeo & _).
      now exists children', st', c'.
  - intros children st n Hm. rewrite (Hoff _ Hm).
    apply configureShadowModel_off.
Qed.

(** X22.  The Others2 traversal and the materials, on every tier.
    After the traversal each material a mesh of the model refers to
    has lost its normal, roughness and metalness maps and kept its
    colour map; its version has advanced once for every time a mesh
    names it (a material shared by two meshes advances twice), and its
    shadow side is the front side exactly when shadows are enabled.
    Materials no mesh of the model refers to are untouched. *)
Theorem others_traversal_strips_material_maps (fuel : nat)
    (mobile shadows : bool) (children : list Child) (st : Stores) (c : Counts) :
  wellFormed children st -> enoughFuel children st fuel ->
  exists children' st' c',
    configureOthers fuel mobile shadows children st c
      = Some (children', st', c') /\
    (forall r mat,
       In r (materialRefs children) -> materials st !! r = Some mat ->
       exists mat',
         materials st' !! r = Some mat' /\
         normalMap mat' = false /\
         roughnessMap mat' = false /\
         metalnessMap mat' = false /\
         map mat' = map mat /\
         version mat'
         = (version mat + count_occ Pos.eq_dec (materialRefs children) r)%nat /\
         shadowSide mat'
         = if shadows then Some FrontSide else shadowSide mat) /\
    (forall r, ~ In r (materialRefs children) ->
       materials st' !! r = materials st !! r).
Proof.
  intros Hwf Hfuel.
  destruct (configureOthers_spec fuel mobile shadows children st c Hwf Hfuel)
    as (children' & st' & c' & Hrun & _ & _ & _ & Hmats & _).
  exists children', st', c'. split; [exact Hrun |]. split.
  - intros r mat Hin Hmat. rewrite Hmats, Hmat. cbn [option_map].
    eexists. split; [reflexivity |].
    apply (count_occ_In Pos.eq_dec) in Hin.
    destruct (count_occ Pos.eq_dec (materialRefs children) r) as [|n];
      [lia |].
    cbn [touched normalMap roughnessMap metalnessMap map version shadowSide].
    repeat split.
  - intros r Hnot. rewrite Hmats.
    apply (count_occ_not_In Pos.eq_dec) in Hnot. rewrite Hnot.
    now destruct (materials st !! r).
Qed.

End SceneFacts.

Lemma demoModel_wellFormed : wellFormed demoModel demoStores.
Proof.
  split.
  - intros m l Hm Hl. exists largeContent.
    cbn in Hm. destruct Hm as [<- | [<- | []]]; cbn in Hl;
      injection Hl as <-; exact SimplifyGeometryFacts.largeScene_view.
  - intros r Hr. exists sharedMaterial.
    assert (r = 1%positive) as ->.
    { cbn in Hr. destruct Hr as [<- | [<- | [<- | []]]]; reflexivity. }
    split; [reflexivity |]. intros t Ht. injection Ht as <-.
    exists (mkTexture O). reflexivity.
Qed.

Lemma demoModel_enoughFuel :
  enoughFuel demoModel demoStores (fuelFor largeContent).
Proof.
  intros m l v Hm Hl Hv.
  cbn in Hm. destruct Hm as [<- | [<- | []]]; cbn in Hl;
    injection Hl as <-; cbn [heap demoStores] in Hv;
    rewrite SimplifyGeometryFacts.largeScene_view in Hv;
    injection Hv as <-; apply Nat.le_refl.
Qed.

Lemma others_traversal_preserves_geometries_witness :
  wellFormed demoModel demoStores /\
  enoughFuel demoModel demoStores (fuelFor largeContent) /\
  exists children' st' c',
    configureOthers (fuelFor largeContent) true false demoModel demoStores
      (mkCounts O O) = Some (children', st', c') /\
    extends (heap demoStores) (heap st') /\
    (forall l v, viewAt (heap demoStores) l = Some v ->
                 viewAt (heap st') l = Some v) /\
    Forall2 (configured true false (heap demoStores) (heap st'))
      demoModel children' /\
    meshCount c' = (meshCount (mkCounts O O) + length (meshesOf demoModel))%nat /\
    shadowCount c'
    = (shadowCount (mkCounts O O)
       + if false then length (meshesOf demoModel) else 0)%nat.
Proof.
  split; [exact demoModel_wellFormed |].
  split; [exact demoModel_enoughFuel |].
  apply (others_traversal_preserves_geometries (fuelFor largeContent) true
           false demoModel demoStores (mkCounts O O)).
  - exact demoModel_wellFormed.
  - exact demoModel_enoughFuel.
Defined.

Lemma others_traversal_strips_material_maps_witness :
  wellFormed demoModel demoStores /\
  enoughFuel demoModel demoStores (fuelFor largeContent) /\
  exists children' st' c',
    configureOthers (fuelFor largeContent) false true demoModel demoStores
      (mkCounts O O) = Some (children', st', c') /\
    (forall r mat,
       In r (materialRefs demoModel) ->
       materials demoStores !! r = Some mat ->
       exists mat',
         materials st' !! r = Some mat' /\
         normalMap mat' = false /\
         roughnessMap mat' = false /\
         metalnessMap mat' = false /\
         map mat' = map mat /\
         version mat'
         = (version mat + count_occ Pos.eq_dec (materialRefs demoModel) r)%nat /\
         shadowSide mat' = if true then Some FrontSide else shadowSide mat) /\
    (forall r, ~ In r (materialRefs demoModel) ->
       materials st' !! r = materials demoStores !! r).
Proof.
  split; [exact demoModel_wellFormed |].
  split; [exact demoModel_enoughFuel |].
  apply (others_traversal_strips_material_maps (fuelFor largeContent) false
           true demoModel demoStores (mkCounts O O)).
  - exact demoModel_wellFormed.
  - exact demoModel_enoughFuel.
Defined.
End EnvironmentMeshFacts.

Module AutoFixerFacts.
Import Validation AutoFixer.

(** *** Texts *)

Lemma startsWith_spec (p s : string) :
  JsRegex.startsWith p s = true <-> exists post, s = (p ++ post)%string.
Proof.
  revert s. induction p as [|a p IH]; intros s; cbn.
  - split; [intros _; now exists s | reflexivity].
  - destruct s as [|b s].
    + split; [discriminate | intros [post H]; discriminate].
    + rewrite andb_true_iff, IH. split.
      * intros [Hab [post ->]]. apply Ascii.eqb_eq in Hab. subst b.
        now exists post.
      * intros [post H]. change (String b s = String a (p ++ post)) in H.
        injection H as -> ->. split.
        -- apply Ascii.eqb_refl.
        -- now exists post.
Qed.

Lemma includes_spec (code text : string) :
  includes code text = true
  <-> exists pre post, code = (pre ++ text ++ post)%string.
Proof.
  unfold includes. induction code as [|b s IH].
  - cbn. rewrite orb_false_r, startsWith_spec. split.
    + intros [post H]. now exists EmptyString, post.
    + intros [pre [post H]]. destruct pre; cbn in H.
      * now exists post.
      * discriminate.
  - cbn [JsRegex.includes]. rewrite orb_true_iff, startsWith_spec, IH. split.
    + intros [[post H] | [pre [post H]]].
      * now exists EmptyString, post.
      * exists (String b pre), post. cbn. now rewrite H.
    + intros [pre [post H]]. destruct pre as [|c pre].
      * left. now exists post.
      * right. cbn in H. injection H as _ H. now exists pre, post.
Qed.

Lemma append_cons (x : ascii) (a b : string) :
  (String x a ++ b)%string = String x (a ++ b).
Proof. reflexivity. Qed.

Lemma append_nil (b : string) : (EmptyString ++ b)%string = b.
Proof. reflexivity. Qed.

Lemma string_app_assoc (a b c : string) :
  ((a ++ b) ++ c = a ++ (b ++ c))%string.
Proof.
  induction a as [|x a IH]; [reflexivity |].
  now rewrite !append_cons, IH.
Qed.

Lemma includes_app_r (a b text : string) :
  includes b text = true -> includes (a ++ b) text = true.
Proof.
  rewrite !includes_spec. intros (pre & post & ->).
  exists (a ++ pre)%string, post. now rewrite string_app_assoc.
Qed.

Lemma includes_app_l (a b text : string) :
  includes a text = true -> includes (a ++ b) text = true.
Proof.
  rewrite !includes_spec. intros (pre & post & ->).
  exists pre, (post ++ b)%string. now rewrite !string_app_assoc.
Qed.

Lemma dropPrefix_spec (p s r : string) :
  dropPrefix p s = Some r <-> s = (p ++ r)%string.
Proof.
  revert s. induction p as [|a p IH]; intros s; cbn.
  - split; [now intros [= ->] | now intros ->].
  - destruct s as [|b s]; [split; discriminate |].
    destruct (Ascii.eqb a b) eqn:E.
    + apply Ascii.eqb_eq in E. subst b. rewrite IH. split.
      * now intros ->.
      * now intros [= ->].
    + split; [discriminate |]. intros [= -> _].
      now rewrite Ascii.eqb_refl in E.
Qed.

Lemma dropPrefix_startsWith (p s : string) :
  JsRegex.startsWith p s = true <-> exists r, dropPrefix p s = Some r.
Proof.
  rewrite startsWith_spec. split; intros [r H]; exists r;
    now apply dropPrefix_spec.
Qed.

Lemma string_length_app (a b : string) :
  String.length (a ++ b) = (String.length a + String.length b)%nat.
Proof.
  induction a as [|x a IH]; [reflexivity |].
  rewrite append_cons. cbn [String.length]. now rewrite IH.
Qed.

Lemma dropPrefix_length (p s r : string) :
  dropPrefix p s = Some r ->
  String.length s = (String.length p + String.length r)%nat.
Proof.
  intros H. apply dropPrefix_spec in H. subst s. apply string_length_app.
Qed.

Lemma dropOneOf_length (ps : list string) (s r : string) :
  dropOneOf ps s = Some r -> (String.length r <= String.length s)%nat.
Proof.
  induction ps as [|p ps IH]; cbn; [discriminate |].
  destruct (dropPrefix p s) as [r'|] eqn:E.
  - intros [= ->]. apply dropPrefix_length in E. lia.
  - exact IH.
Qed.

Lemma skipSpacesFuel_length (fuel : nat) (s : string) :
  (String.length (skipSpacesFuel fuel s) <= String.length s)%nat.
Proof.
  revert s. induction fuel as [|n IH]; intros s; cbn [skipSpacesFuel];
    [lia |].
  destruct (dropOneOf whiteSpaces s) as [r|] eqn:E; [| lia].
  apply dropOneOf_length in E. specialize (IH r). lia.
Qed.

Lemma matchSpaced_length (lit1 lit2 s r : string) :
  matchSpaced lit1 lit2 s = Some r ->
  (String.length lit1 + String.length r <= String.length s)%nat.
Proof.
  unfold matchSpaced. destruct (dropPrefix lit1 s) as [r1|] eqn:E;
    [| discriminate].
  intros H. apply dropPrefix_length in E. apply dropPrefix_length in H.
  pose proof (skipSpacesFuel_length (String.length r1) r1) as Hs.
  unfold skipSpaces in H. lia.
Qed.

(** *** Replacing every match *)

Section ReplaceAll.
Variable m : string -> option string.
Variables (a : ascii) (T' R' : string).
Let T : string := String a T'.
Let R : string := String a R'.
Hypothesis T'_avoids : avoids a T'.
Hypothesis m_matches_T :
  forall code, JsRegex.startsWith T code = true -> m code <> None.
Hypothesis m_consumes :
  forall code rest, m code = Some rest ->
    (String.length rest < String.length code)%nat.
Hypothesis R_has_no_T :
  forall X, JsRegex.includes T (R ++ X) = JsRegex.includes T X.

Lemma replaced_prefix (w : string) :
  avoids a w ->
  forall fuel code,
    JsRegex.startsWith w (replaceAllFuel fuel m R code) = true ->
    JsRegex.startsWith w code = true.
Proof.
  induction w as [|x w IH]; intros Hw fuel code H; [reflexivity |].
  destruct Hw as [Hx Hw]. destruct fuel as [|n]; [exact H |].
  cbn [replaceAllFuel] in H. destruct (m code) as [rest|].
  - unfold R in H. rewrite append_cons in H. cbn [JsRegex.startsWith] in H.
    rewrite Hx in H. discriminate.
  - destruct code as [|c rest]; [discriminate |].
    cbn [JsRegex.startsWith] in H |- *.
    apply andb_true_iff in H as [Hc H]. rewrite Hc. cbn [andb].
    exact (IH Hw n rest H).
Qed.

Lemma replaced_start (fuel : nat) (code : string) :
  m code = None ->
  JsRegex.startsWith T (replaceAllFuel (S fuel) m R code) = false.
Proof.
  intros Hm. cbn [replaceAllFuel]. rewrite Hm.
  destruct code as [|c rest]; [reflexivity |].
  destruct (JsRegex.startsWith T
              (String c (replaceAllFuel fuel m R rest))) eqn:E;
    [| reflexivity].
  exfalso. apply (m_matches_T (String c rest)); [| exact Hm].
  unfold T in E |- *. cbn [JsRegex.startsWith] in E |- *.
  apply andb_true_iff in E as [Hc E]. rewrite Hc. cbn [andb].
  exact (replaced_prefix T' T'_avoids fuel rest E).
Qed.

Lemma replaced_has_no_T (fuel : nat) :
  forall code, (String.length code < fuel)%nat ->
    JsRegex.includes T (replaceAllFuel fuel m R code) = false.
Proof.
  induction fuel as [|n IH]; intros code Hlen; [lia |].
  destruct (m code) as [rest|] eqn:Hm.
  - cbn [replaceAllFuel]. rewrite Hm, R_has_no_T. apply IH.
    apply m_consumes in Hm. lia.
  - pose proof (replaced_start n code Hm) as Hstart.
    cbn [replaceAllFuel] in Hstart |- *. rewrite Hm in Hstart |- *.
    destruct code as [|c rest]; [reflexivity |].
    cbn [JsRegex.includes]. rewrite Hstart. cbn [orb].
    apply IH. cbn [String.length] in Hlen. lia.
Qed.

End ReplaceAll.

Lemma includes_cons (p : string) (c : ascii) (s : string) :
  JsRegex.includes p (String c s)
  = JsRegex.startsWith p (String c s) || JsRegex.includes p s.
Proof. reflexivity. Qed.

(** After [fixPreserveDrawingBuffer] has rewritten it, the text holds
    no [preserveDrawingBuffer: true]. *)
Lemma preserveDrawingBuffer_replaced (code : string) :
  includes
    (replaceAll (matchSpaced "preserveDrawingBuffer:" "true")
       "preserveDrawingBuffer: false" code)
    "preserveDrawingBuffer: true" = false.
Proof.
  unfold includes, replaceAll.
  apply (replaced_has_no_T (matchSpaced "preserveDrawingBuffer:" "true")
           "p" "reserveDrawingBuffer: true" "reserveDrawingBuffer: false").
  - cbn. repeat split.
  - intros c H. apply startsWith_spec in H as [post ->].
    cbv. discriminate.
  - intros c rest H. apply matchSpaced_length in H.
    cbn [String.length] in H. lia.
  - intros X. rewrite !append_cons, append_nil. reflexivity.
  - lia.
Qed.

(** *** The issues of the WebGL validator, by id *)

Ltac split_in H :=
  repeat first
    [ apply List.in_app_or in H; destruct H as [H | H]
    | match type of H with
      | In _ (if ?b then _ else _) => destruct b eqn:?
      end
    | match type of H with In _ [] => destruct H end
    | match type of H with False => destruct H end
    | match type of H with In _ (_ :: _) => destruct H as [H | H] end
    | match type of H with _ \/ _ => destruct H as [H | H] end ].

Ltac webgl_issues H :=
  cbn [issues validateWebGL] in H;
  unfold ruleIssues, checkRendererConfig, checkContextLossHandling,
    checkPixelRatioSettings in H;
  cbn -[includes String.append getSuggestedFix] in H;
  split_in H.

Lemma in_ids_app (l1 l2 : list Issue) (x : string) :
  In x (List.map id l1) \/ In x (List.map id l2) ->
  In x (List.map id (l1 ++ l2)).
Proof.
  rewrite List.map_app. apply List.in_or_app.
Qed.

Ltac in_ids :=
  first
    [ solve [left; reflexivity]
    | apply in_ids_app; first [ left; in_ids | right; in_ids ] ].

Lemma reported_preserveDrawingBuffer (projectRoot code : string) :
  includes code "preserveDrawingBuffer: true" = true <->
  reported projectRoot code "webgl-preserve-drawing-buffer".
Proof.
  unfold reported. split.
  - intros H. cbn [issues validateWebGL].
    unfold ruleIssues.
    cbn -[includes String.append getSuggestedFix].
    rewrite H. cbn -[includes String.append getSuggestedFix].
    in_ids.
  - intros H. apply List.in_map_iff in H as (i & Hid & H).
    webgl_issues H; subst i; cbn in Hid; try discriminate.
    now destruct (includes code "preserveDrawingBuffer: true").
Qed.

Lemma reported_rendererPreserve (projectRoot code : string) :
  reported projectRoot code "renderer-preserveDrawingBuffer--false" ->
  includes code "preserveDrawingBuffer: true" = true.
Proof.
  unfold reported. intros H. apply List.in_map_iff in H as (i & Hid & H).
  webgl_issues H; subst i; cbn in Hid; try discriminate.
  now destruct (includes code "preserveDrawingBuffer: true").
Qed.

Lemma reported_contextLoss (projectRoot code issueId : string) :
  In issueId contextLossIds ->
  reported projectRoot code issueId ->
  includes code "webglcontextlost" && includes code "preventDefault"
  && includes code "webglcontextrestored" = false.
Proof.
  unfold reported. intros Hx H.
  apply List.in_map_iff in H as (i & Hid & H).
  webgl_issues H; subst i; cbn in Hid; subst issueId;
    try (exfalso; cbn in Hx; intuition discriminate);
    destruct (includes code "webglcontextlost");
    destruct (includes code "preventDefault");
    destruct (includes code "webglcontextrestored");
    try reflexivity; discriminate.
Qed.

Lemma reported_without_handler (projectRoot code : string) :
  includes code "webglcontextlost" = false ->
  reported projectRoot code "context-loss-handler" /\
  reported projectRoot code "missing-context-lost-handler".
Proof.
  intros H. unfold reported. cbn [issues validateWebGL].
  unfold ruleIssues, checkContextLossHandling.
  cbn -[includes String.append getSuggestedFix].
  rewrite H. cbn -[includes String.append getSuggestedFix].
  split; in_ids.
Qed.

(** *** Inserting before the first match *)

Lemma insertBeforeFirst_found (lit insertion code : string) :
  includes code lit = true ->
  exists pre post,
    code = (pre ++ lit ++ post)%string /\
    insertBeforeFirst lit insertion code
    = (pre ++ insertion ++ lit ++ post)%string.
Proof.
  unfold includes. induction code as [|c rest IH]; intros H.
  - cbn [JsRegex.includes] in H. rewrite orb_false_r in H.
    apply dropPrefix_startsWith in H as [r Hr].
    cbn [insertBeforeFirst]. rewrite Hr. apply dropPrefix_spec in Hr.
    exists EmptyString, r. rewrite <- Hr. split; reflexivity.
  - cbn [JsRegex.includes] in H. cbn [insertBeforeFirst].
    destruct (dropPrefix lit (String c rest)) as [r|] eqn:Hr.
    + exists EmptyString, r. apply dropPrefix_spec in Hr.
      now rewrite Hr.
    + destruct (JsRegex.startsWith lit (String c rest)) eqn:Hs.
      * apply dropPrefix_startsWith in Hs as [r Hr']. congruence.
      * cbn [orb] in H. destruct (IH H) as (pre & post & Hcode & Hins).
        exists (String c pre), post. rewrite !append_cons.
        now rewrite <- Hcode, <- Hins.
Qed.

Lemma insertBeforeFirst_absent (lit insertion code : string) :
  includes code lit = false ->
  insertBeforeFirst lit insertion code = code.
Proof.
  unfold includes. induction code as [|c rest IH]; intros H.
  - cbn [JsRegex.includes] in H. rewrite orb_false_r in H.
    cbn [insertBeforeFirst].
    destruct (dropPrefix lit EmptyString) as [r|] eqn:Hr; [| reflexivity].
    assert (JsRegex.startsWith lit EmptyString = true)
      by (apply dropPrefix_startsWith; eauto).
    congruence.
  - cbn [JsRegex.includes] in H. apply orb_false_iff in H as [Hs H].
    cbn [insertBeforeFirst].
    destruct (dropPrefix lit (String c rest)) as [r|] eqn:Hr.
    + assert (JsRegex.startsWith lit (String c rest) = true)
        by (apply dropPrefix_startsWith; eauto).
      congruence.
    + now rewrite (IH H).
Qed.

(** X25.  [fixPreserveDrawingBuffer] and the validator agree.  The
    fixer rewrites a text exactly when the WebGL validator reports
    [webgl-preserve-drawing-buffer] on it; on the rewritten text the
    validator reports neither that issue nor
    [renderer-preserveDrawingBuffer--false], and the fixer, run again,
    leaves the file alone. *)
Theorem preserveDrawingBuffer_fix_round_trip (projectRoot code : string) :
  (reported projectRoot code "webgl-preserve-drawing-buffer" <->
   exists code', fixPreserveDrawingBufferText code = Some code') /\
  (forall code',
     fixPreserveDrawingBufferText code = Some code' ->
     ~ reported projectRoot code' "webgl-preserve-drawing-buffer" /\
     ~ reported projectRoot code' "renderer-preserveDrawingBuffer--false" /\
     fixPreserveDrawingBufferText code' = None).
Proof.
  split.
  - rewrite <- reported_preserveDrawingBuffer.
    unfold fixPreserveDrawingBufferText.
    destruct (includes code "preserveDrawingBuffer: true"); split;
      eauto; try discriminate.
    intros [code' H]. discriminate.
  - intros code' H. unfold fixPreserveDrawingBufferText in H.
    destruct (includes code "preserveDrawingBuffer: true");
      [| discriminate].
    injection H as <-.
    pose proof (preserveDrawingBuffer_replaced code) as Hnone.
    split; [| split].
    + rewrite <- reported_preserveDrawingBuffer. now rewrite Hnone.
    + intros Hr. apply reported_rendererPreserve in Hr. congruence.
    + unfold fixPreserveDrawingBufferText. now rewrite Hnone.
Qed.

(** X26.  [addContextLossHandler] and the validator.  The fixer
    rewrites a text exactly when it does not contain
    [webglcontextlost], and then returns [true].  If the text contains
    [return renderer;], the validator afterwards reports none of
    [context-loss-handler], [missing-context-lost-handler],
    [missing-prevent-default] and [missing-context-restored-handler],
    and the fixer, run again, leaves the file alone.  If it does not,
    the text written is the text read, and the validator reports
    [context-loss-handler] and [missing-context-lost-handler] as
    before. *)
Theorem contextLossHandler_fix_round_trip (projectRoot code : string) :
  (includes code "webglcontextlost" = false <->
   exists code', addContextLossHandlerText code = Some code') /\
  (forall code',
     addContextLossHandlerText code = Some code' ->
     if includes code "return renderer;" then
       (forall issueId, In issueId contextLossIds ->
          ~ reported projectRoot code' issueId) /\
       addContextLossHandlerText code' = None
     else
       code' = code /\
       reported projectRoot code' "context-loss-handler" /\
       reported projectRoot code' "missing-context-lost-handler").
Proof.
  unfold addContextLossHandlerText. split.
  - destruct (includes code "webglcontextlost"); cbn [negb]; split;
      eauto; try discriminate.
    intros [code' H]. discriminate.
  - intros code' H.
    destruct (includes code "webglcontextlost") eqn:Hlost;
      [discriminate |].
    cbn [negb] in H. injection H as <-.
    destruct (includes code "return renderer;") eqn:Hret.
    + destruct (insertBeforeFirst_found "return renderer;"
                  (handler ++ newline ++ "  ") code Hret)
        as (pre & post & _ & ->).
      assert (Hall : forall text,
                includes handler text = true ->
                includes
                  (pre ++ (handler ++ newline ++ "  ")
                   ++ "return renderer;" ++ post) text = true).
      { intros text Ht. apply includes_app_r.
        apply includes_app_l. now apply includes_app_l. }
      assert (H1 := Hall "webglcontextlost" eq_refl).
      assert (H2 := Hall "preventDefault" eq_refl).
      assert (H3 := Hall "webglcontextrestored" eq_refl).
      split.
      * intros issueId Hin Hr.
        apply (reported_contextLoss _ _ _ Hin) in Hr.
        rewrite H1, H2, H3 in Hr. discriminate.
      * now rewrite H1.
    + rewrite (insertBeforeFirst_absent _ _ _ Hret).
      split; [reflexivity |]. now apply reported_without_handler.
Qed.

(** *** applyFixes *)

Lemma fixable_spec (i : Issue) :
  fixable i = true <->
  exists theFix,
    suggestedFix i = Some theFix /\ risk theFix = safe /\
    (severity i = critical \/ severity i = high).
Proof.
  unfold fixable. destruct (suggestedFix i) as [theFix|].
  - destruct (risk theFix) eqn:Hr.
    + split.
      * intros H. exists theFix. split; [reflexivity |].
        split; [exact Hr |].
        destruct (severity i); cbn in H; auto; discriminate H.
      * intros (f & [= <-] & _ & [-> | ->]); reflexivity.
    + split; [discriminate |].
      intros (f & [= <-] & Hs & _). congruence.
  - split; [discriminate | intros (f & H & _); discriminate].
Qed.

Section FixerFacts.
Context {World : Type} {platform : Platform World}.
Variable projectRoot : string.

(** An issue without a fixer of its own is never fixed. *)
Lemma applyFix_without_fixer (i : Issue) (log : list Change) (w : World) :
  hasFixer i = false ->
  exists p w',
    applyFix projectRoot i log w = (p, log, w') /\ p <> Fulfilled true.
Proof.
  unfold hasFixer, applyFix, applyCodeFix, genericCodeFix. intros H.
  destruct (suggestedFix i) as [theFix|];
    [| eexists _, _; split; [reflexivity | discriminate]].
  destruct (fixType theFix);
    [| eexists _, _; split; [reflexivity | discriminate]].
  destruct (lookupFixer fixers (id i)); [discriminate |].
  destruct (patch theFix);
    [destruct (readFile _ _) |];
    eexists _, _; (split; [reflexivity | discriminate]).
Qed.

(** What [applyFix] leaves in the log. *)
Lemma applyFix_log (i : Issue) (log : list Change) (w : World) :
  forall p log' w',
    applyFix projectRoot i log w = (p, log', w') ->
    (p = Fulfilled true /\ exists c, log' = log ++ [c] /\ records c i) \/
    (p <> Fulfilled true /\ log' = log).
Proof.
  intros p log' w'. unfold applyFix.
  destruct (suggestedFix i) as [theFix|] eqn:Hfix;
    [| intros [= <- <- <-]; right; split; [discriminate | reflexivity]].
  destruct (fixType theFix) eqn:Htype;
    [| intros [= <- <- <-]; right; split; [discriminate | reflexivity]].
  destruct (applyCodeFix theFix i (createBackup projectRoot (file i) w))
    as [[|] w2]; intros [= <- <- <-].
  - left. split; [reflexivity |]. eexists. split; [reflexivity |].
    exists theFix. cbn. repeat split; assumption.
  - right. split; [discriminate | reflexivity].
Qed.

Lemma applyEach_spec (issues : list Issue) :
  forall a f log w,
    exists a' f' new w',
      applyEach projectRoot issues a f log w = (a', f', log ++ new, w') /\
      (a' + f' = a + f + length issues)%nat /\
      (a' = a + length new)%nat /\
      (length new <= length (List.filter hasFixer issues))%nat /\
      Forall (fun c => exists i, In i issues /\ hasFixer i = true
                                 /\ records c i) new.
Proof.
  induction issues as [|i rest IH]; intros a f log w.
  - exists a, f, [], w. cbn. rewrite app_nil_r.
    repeat split; try lia. constructor.
  - cbn [applyEach].
    destruct (applyFix projectRoot i log w) as [[p log1] w1] eqn:Hfix.
    destruct (applyFix_log i log w p log1 w1 Hfix)
      as [[-> (c & -> & Hc)] | [Hp ->]].
    + assert (Hhas : hasFixer i = true).
      { destruct (hasFixer i) eqn:E; [reflexivity |].
        destruct (applyFix_without_fixer i log w E) as (p & w' & H & Hp).
        rewrite Hfix in H. injection H as <- _ _. now destruct Hp. }
      destruct (IH (S a) f (log ++ [c]) w1)
        as (a' & f' & new & w' & Hrun & Hsum & Ha & Hlen & Hall).
      exists a', f', (c :: new), w'. rewrite Hrun.
      rewrite <- app_assoc. cbn [app List.filter length].
      rewrite Hhas. cbn [length].
      repeat split; try lia.
      constructor.
      * exists i. repeat split; [now left | exact Hhas | exact Hc].
      * eapply List.Forall_impl; [| exact Hall].
        intros c' (i' & Hin & H1 & H2). exists i'.
        repeat split; [now right | exact H1 | exact H2].
    + destruct (IH a (S f) log w1)
        as (a' & f' & new & w' & Hrun & Hsum & Ha & Hlen & Hall).
      exists a', f', new, w'.
      assert (Hstep : applyEach projectRoot (i :: rest) a f log w
                      = applyEach projectRoot rest a (S f) log w1).
      { cbn [applyEach]. rewrite Hfix.
        destruct p as [[|]|]; [now destruct Hp | reflexivity | reflexivity]. }
      cbn [applyEach] in Hstep. rewrite Hfix in Hstep. rewrite Hstep, Hrun.
      cbn [length List.filter].
      repeat split; try lia.
      * destruct (hasFixer i); cbn [length]; lia.
      * eapply List.Forall_impl; [| exact Hall].
        intros c' (i' & Hin & H1 & H2). exists i'.
        repeat split; [now right | exact H1 | exact H2].
Qed.

Lemma applyFixes_spec (issues : list Issue) (log : list Change) (w : World) :
  exists r new w',
    applyFixes projectRoot issues log w = (r, log ++ new, w') /\
    (applied r + failed r = length (List.filter fixable issues))%nat /\
    applied r = length new /\
    (length new
     <= length (List.filter hasFixer (List.filter fixable issues)))%nat /\
    (changes r = NewEmptyArray <-> List.filter fixable issues = []) /\
    Forall (fun c => exists i, In i issues /\ fixable i = true
                               /\ hasFixer i = true /\ records c i) new.
Proof.
  unfold applyFixes.
  destruct (List.filter fixable issues) as [|i0 rest] eqn:Hfilter.
  - cbn [length Nat.eqb]. eexists _, [], _. rewrite app_nil_r.
    split; [reflexivity |]. cbn.
    repeat split; auto.
  - change (length (i0 :: rest) =? 0)%nat with false. cbv iota.
    destruct (applyEach_spec (i0 :: rest) 0%nat 0%nat log
                (ensureBackupDir projectRoot w))
      as (a' & f' & new & w' & Hrun & Hsum & Ha & Hlen & Hall).
    rewrite Hrun. eexists _, new, _. split; [reflexivity |].
    cbn [applied failed changes].
    repeat split; try lia; try discriminate.
    eapply List.Forall_impl; [| exact Hall].
    intros c (i & Hin & H1 & H2). exists i.
    rewrite <- Hfilter in Hin. apply List.filter_In in Hin as [Hin Hfix].
    repeat split; assumption.
Qed.

End FixerFacts.

Lemma webgl_issue_in_table (root : string) (read : ReadResult) (i : Issue) :
  In i (issues (validateWebGL root read)) ->
  fixable i = true -> hasFixer i = true -> inTable i = true.
Proof.
  intros H. destruct read as [code | message];
    webgl_issues H; subst i; intros Hfix Hhas;
    vm_compute in Hfix, Hhas |- *; congruence.
Qed.

Lemma filter_length_le (p q : Issue -> bool) (l : list Issue) :
  (forall i, In i l -> p i = true -> q i = true) ->
  (length (List.filter p l) <= length (List.filter q l))%nat.
Proof.
  induction l as [|x l IH]; intros H; [reflexivity |].
  cbn [List.filter]. pose proof (H x (or_introl eq_refl)) as Hx.
  assert (IH' := IH (fun i Hi => H i (or_intror Hi))).
  destruct (p x); [rewrite (Hx eq_refl) |]; cbn [length];
    [lia | destruct (q x); cbn [length]; lia].
Qed.

Section FixesFacts.
Context {World : Type} {platform : Platform World}.

(** X23.  The accounts of [applyFixes].  Every issue that passes the
    filter (a suggested fix of risk safe, severity critical or high)
    is counted once, as applied or as failed; the change log only
    grows, by one entry for each applied fix and none for a failed
    one; every entry added records an issue of the list given, with a
    safe fix of type code and severity critical or high.  The array
    returned as [changes] is a new empty one exactly when nothing
    passes the filter, and the fixer's own log otherwise. *)
Theorem applyFixes_accounting (projectRoot : string) (issues : list Issue)
    (log : list Change) (w : World) :
  exists r new w',
    applyFixes projectRoot issues log w = (r, log ++ new, w') /\
    (applied r + failed r = length (List.filter fixable issues))%nat /\
    applied r = length new /\
    (changes r = NewEmptyArray <-> List.filter fixable issues = []) /\
    Forall (fun c =>
              changeRisk c = safe /\
              (changeSeverity c = critical \/ changeSeverity c = high) /\
              exists i, In i issues /\ records c i) new.
Proof.
  destruct (applyFixes_spec projectRoot issues log w)
    as (r & new & w' & Hrun & Hsum & Ha & _ & Hch & Hall).
  exists r, new, w'. repeat split; try assumption; try apply Hch.
  eapply List.Forall_impl; [| exact Hall].
  intros c (i & Hin & Hfix & _ & Hrec).
  apply fixable_spec in Hfix as (theFix & Hsome & Hrisk & Hsev).
  destruct Hrec as (f & Hf & Hrest). assert (f = theFix) by congruence.
  subst f. destruct Hrest as (Ht & Hid & Hs & Hd & Hfile & Hact & Hr).
  split; [congruence |]. split; [rewrite Hs; exact Hsev |].
  exists i. split; [exact Hin |]. exists theFix. repeat split; assumption.
Qed.

(** X24.  What the fixer can do about the WebGL validator's findings.
    Of the issues [WebGLValidator] reports only
    [webgl-antialias-mobile], [webgl-preserve-drawing-buffer] and
    [context-loss-handler] are ever applied by [applyFixes]: the
    issues of its three additional checks have no fixer under their id
    and end in [genericCodeFix], which returns [false];
    [webgl-stencil-disabled] and [ios-power-preference] are of medium
    severity and do not pass the filter; [file-read-error] has no
    suggested fix. *)
Theorem webgl_findings_fixed_by_table (projectRoot root : string)
    (read : ReadResult) (found : list Issue) (log : list Change) (w : World) :
  incl found (issues (validateWebGL root read)) ->
  exists r new w',
    applyFixes projectRoot found log w = (r, log ++ new, w') /\
    (applied r <= length (List.filter inTable found))%nat /\
    Forall (fun c => In (issueId c) fixedByTable) new.
Proof.
  intros Hincl.
  destruct (applyFixes_spec projectRoot found log w)
    as (r & new & w' & Hrun & _ & Ha & Hlen & _ & Hall).
  exists r, new, w'. split; [exact Hrun |]. split.
  - rewrite Ha. etransitivity; [exact Hlen |].
    etransitivity; [apply (filter_length_le hasFixer
                            (fun i => fixable i && inTable i)) |].
    + intros i Hi Hhas. apply List.filter_In in Hi as [Hi Hfix].
      rewrite Hfix. cbn [andb].
      exact (webgl_issue_in_table root read i (Hincl i Hi) Hfix Hhas).
    + clear. induction found as [|x l IH]; [reflexivity |].
      cbn [List.filter].
      destruct (fixable x) eqn:Ef; cbn [List.filter]; try rewrite Ef;
        destruct (inTable x); cbn [andb length]; lia.
  - eapply List.Forall_impl; [| exact Hall].
    intros c (i & Hin & Hfix & Hhas & Hrec).
    pose proof (webgl_issue_in_table root read i (Hincl i Hin) Hfix Hhas)
      as Htable.
    destruct Hrec as (f & _ & _ & Hid & _). rewrite Hid.
    unfold inTable in Htable. apply existsb_exists in Htable
      as (x & Hx & Heq).
    apply String.eqb_eq in Heq. now rewrite Heq.
Qed.

End FixesFacts.

Lemma webgl_findings_fixed_by_table_witness :
  incl (issues (validateWebGL "/app" (FileText "")))
       (issues (validateWebGL "/app" (FileText ""))) /\
  exists r new w',
    applyFixes (World := gmap string string) "/app"
      (issues (validateWebGL "/app" (FileText ""))) [] ∅
    = (r, [] ++ new, w') /\
    (applied r
     <= length (List.filter inTable
                  (issues (validateWebGL "/app" (FileText "")))))%nat /\
    Forall (fun c => In (issueId c) fixedByTable) new.
Proof.
  split; [apply incl_refl |].
  apply (webgl_findings_fixed_by_table "/app" "/app" (FileText "")).
  apply incl_refl.
Defined.

End AutoFixerFacts.

Module AgentFacts.
Import Validation AutoFixer Agent.

Section SuiteFacts.
Context {World : Type} {platform : Platform World}.
Context {Result : Type} {validators : @Validators World Result}.

Lemma validate_passed (w : World) :
  passed (validate w).1
  = (count critical (issues (validate w).1) =? 0)%nat.
Proof.
  unfold validate.
  destruct (validateLoop entries [] [] w) as [[results allIssues] w'].
  reflexivity.
Qed.

Lemma quickValidate_passed (w : World) :
  passed (quickValidate w).1
  = (count critical (issues (quickValidate w).1) =? 0)%nat.
Proof.
  unfold quickValidate.
  destruct (quickValidateLoop fastEntries [] [] w)
    as [[results allIssues] w'].
  reflexivity.
Qed.

Lemma setLastFixes_snoc (f : FixResult) (h : list (@HistoryEntry Result))
    (e : HistoryEntry) :
  setLastFixes f (h ++ [e])
  = h ++ [ {| entryIteration := entryIteration e;
              entryTimestamp := entryTimestamp e;
              validation := validation e;
              fixes := Some f |} ].
Proof.
  unfold setLastFixes. rewrite List.rev_app_distr. cbn [List.rev app].
  now rewrite List.rev_involutive.
Qed.

Variable generateReport : string -> @AgentState Result -> World -> bool * World.
Variable projectRoot : string.
Variable config : Config.

Lemma finish_report_spec (status : string) (startTime : Z) (s : AgentState)
    (w : World) (ok : bool) (v : option ValidationResult)
    (why : option string) :
  exists p w',
    finish generateReport status startTime s w ok v why = (p, s, w') /\
    match p with
    | Fulfilled r =>
        success r = ok /\ iterations r = iteration s /\ result r = v /\
        reason r = why
    | Rejected _ => (generateReport status s w).1 = false
    end.
Proof.
  unfold finish. destruct (generateReport status s w) as [[|] w'];
    eexists _, _; (split; [reflexivity |]); cbn; auto.
Qed.

Lemma loop_spec (turns : nat) :
  forall startTime s w,
    exists p s' w' newH newC,
      loop generateReport projectRoot config turns startTime s w
      = (p, s', w') /\
      (iteration s <= iteration s' <= iteration s + turns)%nat /\
      history s' = history s ++ newH /\
      length newH = (iteration s' - iteration s)%nat /\
      Forall fixesBounded newH /\
      changesLog s' = changesLog s ++ newC /\
      (length newC <= 5 * (iteration s' - iteration s))%nat /\
      Forall safeChange newC /\
      (autoFix config = false -> newC = []) /\
      match p with
      | Fulfilled r => ending config (iteration s + turns) s' r
      | Rejected _ =>
          exists status st w0, (generateReport status st w0).1 = false
      end.
Proof.
  induction turns as [|turns IH]; intros startTime s w.
  - cbn [loop].
    destruct (finish_report_spec "MAX_ITERATIONS" startTime s w false None
                (Some "Max iterations reached"%string))
      as (p & w' & Hrun & Hp).
    exists p, s, w', [], []. rewrite Hrun, !app_nil_r. cbn [length].
    repeat split; try lia; try constructor.
    destruct p as [r|]; [| eauto].
    destruct Hp as (Hs & Hi & Hr & Hw). split; [exact Hi |].
    right. right. right. repeat split; try assumption. lia.
  - cbn [loop].
    destruct (if quickMode config then quickValidate w else validate w)
      as [v w1] eqn:Hv.
    assert (Hpassed : passed v = (count critical (issues v) =? 0)%nat).
    { destruct (quickMode config).
      - pose proof (quickValidate_passed w) as H. now rewrite Hv in H.
      - pose proof (validate_passed w) as H. now rewrite Hv in H. }
    set (entry := {| entryIteration := S (iteration s);
                     entryTimestamp := isoTime w1;
                     validation := v; fixes := None |}).
    set (s1 := {| iteration := S (iteration s);
                  history := history s ++ [entry];
                  changesLog := changesLog s |}).
    change (length (List.filter
                      (fun i => Severity_eqb (severity i) critical)
                      (issues v)))
      with (count critical (issues v)).
    rewrite Hpassed.
    destruct (count critical (issues v) =? 0)%nat eqn:Hc.
    + cbn [andb].
      destruct (finish_report_spec "SUCCESS" startTime s1 w1 true (Some v) None)
        as (p & w' & Hrun & Hp).
      exists p, s1, w', [entry], []. rewrite Hrun, app_nil_r.
      cbn [iteration history changesLog s1 length].
      repeat split; try lia; try constructor; try constructor.
      destruct p as [r|]; [| eauto].
      destruct Hp as (Hs & Hi & Hr & Hw). split; [exact Hi |].
      left. repeat split; try assumption. exists v.
      apply Nat.eqb_eq in Hc. rewrite Hpassed, Hc. auto.
    + cbn [andb]. apply Nat.eqb_neq in Hc.
      assert (Hact :
        (length
           (List.filter (fun i => Severity_eqb (severity i) critical)
              (issues v)
            ++ List.filter (fun i => Severity_eqb (severity i) high)
                 (issues v)) =? 0)%nat = false).
      { apply Nat.eqb_neq. rewrite length_app.
        change (length (List.filter
                          (fun i => Severity_eqb (severity i) critical)
                          (issues v)))
          with (count critical (issues v)). lia. }
      rewrite Hact.
      destruct (autoFix config) eqn:Hauto.
      * set (toFix := firstn 5 _).
        destruct (AutoFixerFacts.applyFixes_spec projectRoot toFix (changesLog s1) w1)
          as (r & new & w2 & Hrun & Hsum & Ha & _ & _ & Hall).
        rewrite Hrun.
        assert (Hfive : (applied r + failed r <= 5)%nat).
        { rewrite Hsum.
          etransitivity; [apply List.filter_length_le |].
          apply List.firstn_le_length. }
        assert (Hsafe : Forall safeChange new).
        { eapply List.Forall_impl; [| exact Hall].
          intros c (i & _ & Hfix & _ & Hrec).
          apply AutoFixerFacts.fixable_spec in Hfix
            as (theFix & Hsome & Hrisk & Hsev).
          destruct Hrec as (f & Hf & _ & _ & Hs & _ & _ & _ & Hr).
          assert (f = theFix) by congruence. subst f.
          split; [congruence | now rewrite Hs]. }
        set (entry' := {| entryIteration := S (iteration s);
                          entryTimestamp := isoTime w1;
                          validation := v; fixes := Some r |}).
        assert (Hhist : setLastFixes r (history s1)
                        = history s ++ [entry']).
        { unfold s1. cbn [history]. apply setLastFixes_snoc. }
        rewrite Hhist.
        set (s2 := {| iteration := S (iteration s);
                      history := history s ++ [entry'];
                      changesLog := changesLog s1 ++ new |}).
        destruct (applied r =? 0)%nat eqn:Happlied.
        -- destruct (finish_report_spec "NEEDS_MANUAL_FIX" startTime s2 w2 false
                       (Some v) (Some "No auto-fixes available"%string))
             as (p & w' & Hfin & Hp).
           exists p, s2, w', [entry'], new. rewrite Hfin.
           cbn [iteration history changesLog s1 s2 length].
           repeat split; try lia; try assumption.
           ++ constructor; [exact Hfive | constructor].
           ++ destruct p as [res|]; [| eauto].
              destruct Hp as (Hs & Hi & Hr & Hw). split; [exact Hi |].
              right. left. repeat split; try assumption.
              exists v. split; [exact Hr | lia].
        -- destruct (IH startTime s2 (sleep 2000 w2))
             as (p & s' & w' & newH & newC & Hloop & Hit & Hh & Hlen
                 & Hb & Hlog & Hcount & Hsc & Hoff & Hend).
           exists p, s', w', (entry' :: newH), (new ++ newC).
           rewrite Hloop. cbn [iteration history changesLog s1 s2] in *.
           repeat split; try lia.
           ++ rewrite Hh, <- app_assoc. reflexivity.
           ++ cbn [length]. lia.
           ++ constructor; [exact Hfive | exact Hb].
           ++ rewrite Hlog, <- app_assoc. reflexivity.
           ++ rewrite length_app. lia.
           ++ apply Forall_app. split; assumption.
           ++ replace (iteration s + S turns)%nat
                with (S (iteration s) + turns)%nat by lia.
              exact Hend.
      * destruct (finish_report_spec "AUTO_FIX_DISABLED" startTime s1 w1 false
                    (Some v) (Some "Auto-fix disabled"%string))
          as (p & w' & Hrun & Hp).
        exists p, s1, w', [entry], []. rewrite Hrun, app_nil_r.
        cbn [iteration history changesLog s1 length].
        repeat split; try lia; try constructor; try constructor.
        destruct p as [r|]; [| eauto].
        destruct Hp as (Hs & Hi & Hr & Hw). split; [exact Hi |].
        right. right. left. repeat split; try assumption.
        exists v. split; [exact Hr | lia].
Qed.

(** X27.  How [run] ends.  A run that returns has ended in one of four
    ways: success, after a validation without a critical issue; "No
    auto-fixes available", when fixing is on and a round applied
    nothing; "Auto-fix disabled", when fixing is off; or "Max
    iterations reached", with no result, once the counter has reached
    the limit.  In the second and third the last validation found a
    critical issue.  The return with the reason "No actionable issues"
    is never taken: a validation that has not passed has a critical
    issue.  The run is rejected only when [generateReport] is. *)
Theorem run_ends_in_one_of_four_ways (s : AgentState) (w : World) :
  exists p s' w',
    run generateReport projectRoot config s w = (p, s', w') /\
    match p with
    | Fulfilled r =>
        ending config (Nat.max (iteration s) (maxIterations config)) s' r /\
        reason r <> Some "No actionable issues"%string
    | Rejected _ =>
        exists status st w0, (generateReport status st w0).1 = false
    end.
Proof.
  unfold run.
  destruct (loop_spec (maxIterations config - iteration s) (dateNow w) s w)
    as (p & s' & w' & newH & newC & Hrun & _ & _ & _ & _ & _ & _ & _ & _
        & Hend).
  replace (iteration s + (maxIterations config - iteration s))%nat
    with (Nat.max (iteration s) (maxIterations config)) in Hend by lia.
  exists p, s', w'. split; [exact Hrun |].
  destruct p as [r|]; [| exact Hend].
  split; [exact Hend |].
  destruct Hend as (_ & [(_ & H & _) | [(_ & H & _) | [(_ & H & _)
                                                      | (_ & H & _)]]]);
    rewrite H; discriminate.
Qed.

(** X28.  The bounds of a run.  The counter only grows and ends at
    most at the larger of its start and [maxIterations]; the history
    grows by one entry for each iteration made, and no entry records
    more than five attempts of the fixer; the change log only grows,
    by at most five entries for each iteration, each of them a safe
    fix for a critical or high issue, and by none when fixing is
    off. *)
Theorem run_keeps_its_bounds (s : AgentState) (w : World) :
  exists p s' w' newH newC,
    run generateReport projectRoot config s w = (p, s', w') /\
    (iteration s <= iteration s'
     <= Nat.max (iteration s) (maxIterations config))%nat /\
    history s' = history s ++ newH /\
    length newH = (iteration s' - iteration s)%nat /\
    Forall fixesBounded newH /\
    changesLog s' = changesLog s ++ newC /\
    (length newC <= 5 * (iteration s' - iteration s))%nat /\
    Forall safeChange newC /\
    (autoFix config = false -> newC = []).
Proof.
  unfold run.
  destruct (loop_spec (maxIterations config - iteration s) (dateNow w) s w)
    as (p & s' & w' & newH & newC & Hrun & Hit & Hh & Hlen & Hb & Hlog
        & Hcount & Hsafe & Hoff & _).
  exists p, s', w', newH, newC. repeat split; try assumption; lia.
Qed.

(** The first turn of the loop when it is the last: the validation
    has passed, or fixing is off. *)
Lemma loop_last_turn (turns : nat) (startTime : Z) (s : AgentState)
    (w : World) :
  let vw := if quickMode config then quickValidate w else validate w in
  let s1 :=
    {| iteration := S (iteration s);
       history :=
         history s
         ++ [ {| entryIteration := S (iteration s);
                 entryTimestamp := isoTime vw.2;
                 validation := vw.1;
                 fixes := None |} ];
       changesLog := changesLog s |} in
  passed vw.1 = true \/ autoFix config = false ->
  loop generateReport projectRoot config (S turns) startTime s w
  = finish generateReport
      (if passed vw.1 then "SUCCESS" else "AUTO_FIX_DISABLED")%string
      startTime s1 vw.2 (passed vw.1) (Some vw.1)
      (if passed vw.1 then None else Some "Auto-fix disabled"%string).
Proof.
  intros vw s1 H. cbn [loop]. fold vw. subst s1.
  assert (Hpassed : passed vw.1 = (count critical (issues vw.1) =? 0)%nat).
  { unfold vw. destruct (quickMode config);
      [apply quickValidate_passed | apply validate_passed]. }
  destruct vw as [v w1]. cbn [fst snd] in *.
  change (length (List.filter
                    (fun i => Severity_eqb (severity i) critical)
                    (issues v)))
    with (count critical (issues v)).
  rewrite <- Hpassed. rewrite andb_diag.
  destruct (passed v) eqn:Hp; [reflexivity |].
  destruct H as [H | H]; [discriminate |]. rewrite H.
  symmetry in Hpassed. apply Nat.eqb_neq in Hpassed.
  assert (Hact :
    (length
       (List.filter (fun i => Severity_eqb (severity i) critical)
          (issues v)
        ++ List.filter (fun i => Severity_eqb (severity i) high)
             (issues v)) =? 0)%nat = false).
  { apply Nat.eqb_neq. rewrite length_app.
    change (length (List.filter
                      (fun i => Severity_eqb (severity i) critical)
                      (issues v)))
      with (count critical (issues v)). lia. }
  now rewrite Hact.
Qed.

End SuiteFacts.

Section RunnerFacts.
Context {World : Type} {platform : Platform World}.
Context {Result : Type} {validators : @Validators World Result}.
Variable generateReport : string -> @AgentState Result -> World -> bool * World.
Variable projectRoot : string.

(** X29.  A dry run.  With [--dry-run] or [--no-fix] (and without
    [--help] or [-h]) the runner makes one validation, quick or full
    as the arguments say, and writes the report; the fixer is not
    called: the world left is the one the validation and the report
    leave, the change log is empty and the history has one entry
    without fixes.  The exit code is 0 exactly when the validation
    found no critical issue and the report was written. *)
Theorem dry_run_validates_once (args : list string) (w : World) :
  hasFlag args "--help" || hasFlag args "-h" = false ->
  hasFlag args "--dry-run" || hasFlag args "--no-fix" = true ->
  let quick := hasFlag args "--quick" || hasFlag args "-q" in
  let vw := if quick then quickValidate w else validate w in
  let s1 :=
    {| iteration := 1;
       history := [ {| entryIteration := 1;
                       entryTimestamp := isoTime vw.2;
                       validation := vw.1;
                       fixes := None |} ];
       changesLog := [] |} in
  let report :=
    generateReport
      (if passed vw.1 then "SUCCESS" else "AUTO_FIX_DISABLED")%string
      s1 vw.2 in
  main generateReport projectRoot args w
  = (if report.1 && passed vw.1 then 0 else 1, s1, report.2).
Proof.
  intros Hhelp Hdry quick vw s1 report. unfold main. rewrite Hhelp.
  unfold run.
  set (cfg := configOf (cliOptions args)).
  assert (Hauto : autoFix cfg = false).
  { unfold cfg, configOf, cliOptions. cbn. now rewrite Hdry. }
  change (maxIterations cfg - iteration newAgent)%nat with 10%nat.
  rewrite (loop_last_turn generateReport projectRoot cfg 9 (dateNow w)
             newAgent w (or_intror Hauto)).
  change (quickMode cfg) with quick. fold vw.
  change (history newAgent ++ ?l) with l.
  cbn [iteration history changesLog newAgent app]. fold s1.
  unfold finish. fold report.
  destruct report as [[|] w']; cbn [fst snd andb];
    destruct (passed vw.1); reflexivity.
Qed.

(** X30.  Validators that crash.  If every validator of the suite
    throws, the validation has no issue and passes, so the agent
    reports success after one iteration, whatever its configuration;
    the full validation keeps an entry for each of the six validators
    with the error, the quick one keeps none. *)
Theorem crashed_validators_count_as_passed (config : Config)
    (s : AgentState) (w : World) :
  (forall name validate w0,
     In (name, validate) entries ->
     exists message w1, validate w0 = (Rejected message, w1)) ->
  (iteration s < maxIterations config)%nat ->
  (forall status st w0, (generateReport status st w0).1 = true) ->
  exists r s' w' v,
    run generateReport projectRoot config s w = (Fulfilled r, s', w') /\
    success r = true /\ reason r = None /\
    iterations r = S (iteration s) /\
    result r = Some v /\ passed v = true /\ issues v = [] /\
    (if quickMode config then results v = []
     else List.map fst (results v) = List.map fst entries /\
          Forall (fun e => exists message,
                             e.2 = ValidatorFailed e.1 message)
            (results v)).
Proof.
  intros Hall Hturns Hreport.
  assert (Hfull : forall vs results allIssues w0,
            incl vs entries ->
            exists failedEntries w1,
              validateLoop vs results allIssues w0
              = (results ++ failedEntries, allIssues, w1) /\
              List.map fst failedEntries = List.map fst vs /\
              Forall (fun e => exists message,
                                 e.2 = ValidatorFailed e.1 message)
                failedEntries).
  { induction vs as [|[name validate] vs IH]; intros results allIssues w0 Hin.
    - exists [], w0. rewrite app_nil_r. repeat split. constructor.
    - destruct (Hall name validate w0 (Hin _ (or_introl eq_refl)))
        as (message & w1 & Hv).
      destruct (IH (results ++ [(name, ValidatorFailed name message)])
                  allIssues w1 (fun e He => Hin e (or_intror He)))
        as (more & w2 & Hrun & Hnames & Hfailed).
      exists ((name, ValidatorFailed name message) :: more), w2.
      cbn [validateLoop]. rewrite Hv, Hrun, <- app_assoc.
      repeat split.
      + cbn. now rewrite Hnames.
      + constructor; [now exists message | exact Hfailed]. }
  assert (Hquick : forall vs results allIssues w0,
            incl vs entries ->
            exists w1,
              quickValidateLoop vs results allIssues w0
              = (results, allIssues, w1)).
  { induction vs as [|[name validate] vs IH]; intros results allIssues w0 Hin.
    - now exists w0.
    - destruct (Hall name validate w0 (Hin _ (or_introl eq_refl)))
        as (message & w1 & Hv).
      destruct (IH results allIssues w1 (fun e He => Hin e (or_intror He)))
        as (w2 & Hrun).
      exists w2. cbn [quickValidateLoop]. now rewrite Hv, Hrun. }
  unfold run.
  destruct (maxIterations config - iteration s)%nat as [|turns] eqn:Hn;
    [lia |].
  set (vw := if quickMode config then quickValidate w else validate w).
  assert (Hvw : passed vw.1 = true /\ issues vw.1 = [] /\
                (if quickMode config then results vw.1 = []
                 else List.map fst (results vw.1) = List.map fst entries /\
                      Forall (fun e => exists message,
                                         e.2 = ValidatorFailed e.1 message)
                        (results vw.1))).
  { unfold vw. destruct (quickMode config).
    - unfold quickValidate.
      destruct (Hquick fastEntries [] [] w) as (w1 & ->).
      { intros e He. cbn in He |- *. intuition. }
      cbn. auto.
    - unfold validate.
      destruct (Hfull entries [] [] w (incl_refl _))
        as (failedEntries & w1 & -> & Hnames & Hfailed).
      cbn. auto. }
  destruct Hvw as (Hpassed & Hissues & Hresults).
  rewrite (loop_last_turn generateReport projectRoot config turns (dateNow w)
             s w (or_introl Hpassed)).
  fold vw. rewrite Hpassed. unfold finish.
  match goal with
  | |- context [generateReport ?a ?b ?c] =>
      pose proof (Hreport a b c) as Hok;
      destruct (generateReport a b c) as [ok w']
  end.
  cbn [fst] in Hok. subst ok.
  eexists _, _, _, vw.1. split; [reflexivity |].
  cbn [success reason iterations result iteration].
  repeat split; assumption.
Qed.

End RunnerFacts.

Lemma dry_run_validates_once_witness :
  hasFlag ["--dry-run"] "--help" || hasFlag ["--dry-run"] "-h" = false /\
  hasFlag ["--dry-run"] "--dry-run" || hasFlag ["--dry-run"] "--no-fix"
  = true /\
  let quick := hasFlag ["--dry-run"] "--quick" || hasFlag ["--dry-run"] "-q" in
  let vw := if quick then quickValidate (∅ : gmap string string)
            else validate (∅ : gmap string string) in
  let s1 :=
    {| iteration := 1;
       history := [ {| entryIteration := 1;
                       entryTimestamp := isoTime vw.2;
                       validation := vw.1;
                       fixes := None |} ];
       changesLog := [] |} in
  let report :=
    memoryReport
      (if passed vw.1 then "SUCCESS" else "AUTO_FIX_DISABLED")%string
      s1 vw.2 in
  main memoryReport "/app" ["--dry-run"] (∅ : gmap string string)
  = (if report.1 && passed vw.1 then 0 else 1, s1, report.2).
Proof.
  split; [reflexivity |]. split; [reflexivity |].
  apply (dry_run_validates_once memoryReport "/app" ["--dry-run"]%string ∅);
    reflexivity.
Defined.

Lemma crashed_validators_count_as_passed_witness :
  (forall name validate w0,
     In (name, validate) (entries (validators := crashingValidators)) ->
     exists message w1, validate w0 = (Rejected message, w1)) /\
  (iteration (@newAgent ValidatorResult)
   < maxIterations (configOf (cliOptions [])))%nat /\
  (forall status st w0, (memoryReport status st w0).1 = true) /\
  exists r s' w' v,
    run (validators := crashingValidators) memoryReport "/app"
      (configOf (cliOptions [])) newAgent (∅ : gmap string string)
    = (Fulfilled r, s', w') /\
    success r = true /\ reason r = None /\
    iterations r = S (iteration (@newAgent ValidatorResult)) /\
    result r = Some v /\ passed v = true /\ issues v = [] /\
    (if quickMode (configOf (cliOptions [])) then results v = []
     else List.map fst (results v)
          = List.map fst (entries (validators := crashingValidators)) /\
          Forall (fun e => exists message,
                             e.2 = ValidatorFailed e.1 message)
            (results v)).
Proof.
  assert (H1 : forall name validate (w0 : gmap string string),
            In (name, validate) (entries (validators := crashingValidators)) ->
            exists message w1, validate w0 = (Rejected message, w1)).
  { intros name validate w0 Hin. cbn in Hin.
    repeat (destruct Hin as [[= <- <-] | Hin]; [now eexists _, _ |]).
    destruct Hin. }
  assert (H2 : (iteration (@newAgent ValidatorResult)
                < maxIterations (configOf (cliOptions [])))%nat)
    by (cbn; lia).
  assert (H3 : forall status (st : @AgentState ValidatorResult)
                      (w0 : gmap string string),
            (memoryReport status st w0).1 = true) by reflexivity.
  split; [exact H1 |]. split; [exact H2 |]. split; [exact H3 |].
  exact (crashed_validators_count_as_passed
           (validators := crashingValidators) memoryReport "/app"
           (configOf (cliOptions [])) newAgent ∅ H1 H2 H3).
Defined.

End AgentFacts.
